(* ===== verification/_CoqProject ===== *)
-Q . S2P
Prelude.v
Float64.v
RustString.v
RustVec.v
RouteEditing.v
RouteEditingSpec.v
RouteDraftTheory.v
RouteDraftProperties.v
DraftValidation.v
Imports.v
ImportTheory.v
Utf8.v
GpxParser.v
GpxParserTheory.v
RecordedActivity.v
RecordedActivityTheory.v
RouteVersioning.v
Sorting.v
Legs.v
LegTheory.v
Base64.v
ActivityCatalog.v
CatalogTheory.v
ImportHandlers.v
ImportPersistence.v
ImportHandlerTheory.v
ImportProcessing.v
DraftPersistence.v
DraftPersistenceTheory.v
PublicationTheory.v
Exports.v
ExportTheory.v
OidcState.v
JobQueue.v
JobQueueTheory.v
WorkerRuntime.v
WorkerTheory.v
Database.v
ImportCommit.v
ImportCommitTheory.v
ImportWorker.v
ImportWorkerTheory.v
ImportSuccess.v
ImportCleanup.v
PublicationCommit.v
PublicationCommitTheory.v
Outbox.v
OutboxTheory.v
Http.v
RateLimits.v
RateLimitTheory.v
Sessions.v
Login.v
LoginTheory.v
Api.v
RouteEditingApi.v
RouteEditingApiTheory.v
ImportApi.v
ImportApiTheory.v
ObjectStorage.v
ExportWorker.v
ExportWorkerTheory.v
ExportsApi.v
ExportsApiTheory.v
RecordedRoute.v
RecordedRouteTheory.v
ActivitiesApi.v
ActivitiesApiTheory.v
RouteQueriesApi.v
RouteQueriesTheory.v
LegsApi.v
LegsApiTheory.v
OidcClient.v
OidcClientTheory.v
Server.v
ServerTheory.v
WorkerProcess.v
WorkerProcessTheory.v
