(* ===== verification/Prelude.v ===== *)
(** * Haiker: a verification of the server

    Haiker records hikes: a user uploads a GPX file, the worker turns it into an
    activity with a recorded track, the user edits the route in a draft, publishes
    the draft as a new route version, divides the activity into legs and exports
    versions.  The server is the Rust workspace under src/crates; this library
    models its domain crate (crates/app), the part of crates/infrastructure that
    decides what is stored, and the endpoints of crates/api.

    ** How the program is modelled

    A call of a Rust function ends in [Ok], [Err] or a panic: the type [result]
    of this file.  Code that runs against a store (a method on [&mut self], a
    handler calling repositories) is an effect [eff S E A], a function from the
    store to an outcome and the store left behind; an error does not roll back
    what was written before it, as in Rust.  A Rust trait is a type class over
    the store; where clients are proved against a trait, its laws are a class
    too ([ImportRepositoryLaws], [ExportRepositoryLaws]), and the PostgreSQL
    implementation, written statement by statement over tables that are finite
    maps, is an instance.  A transaction is computed on a copy and stored at its
    end.  [Utc::now()], [Instant::now()] and [Uuid::new_v4()] are arguments of
    the operations that call them.  Machine integers are [N] or [Z] with their
    wrap-around written out; [f64] is the IEEE format of the Standard Library;
    strings are lists of scalar values, with UTF-8 where bytes matter.  A time is
    its nanoseconds since 1970.  A TIMESTAMPTZ column keeps microseconds: for drafts,
    which are compared with what was stored, the column is a parameter
    ([TimestamptzColumn]) with that law; every other table holds the times it is
    given, which is exact for a clock that reads whole microseconds.

    Code that is not in the repository is a parameter: SHA-256, the trigonometry
    of libm, the XML reader and escaping of quick_xml, date parsing of chrono,
    serde_json's encodings, Unicode lower case, the S3 bucket, the network and the
    crates openidconnect and jsonwebtoken, the status lines of http, what dotenvy,
    sqlx and the AWS SDK say at start.  What a theorem needs of them is a named hypothesis.

    A request to an endpoint is what axum's extractors make of it: the user of the
    session, the identifiers of the path, headers, the deserialised body.  A
    handler ends in a [Response] or an [ApiError]; [serve_..] of each Api file is
    the part of the router of main.rs for it, over the stores that main.rs gives
    the handlers.

    ** Files

    - Prelude: outcomes, effects, integers, tactics ([run], [to_prop]),
      reachability, lemmas on lists.
    - Float64, RustString, RustVec, Utf8, Sorting: the parts of Rust's standard
      library the code uses; each with its lemmas.
    - RouteEditing: the aggregate RouteDraft (route_editing/draft.rs,
      value_objects.rs, operations.rs).  RouteEditingSpec states what each
      operation does to a geometry and proves it; RouteDraftTheory gives the
      exact effect of each method; RouteDraftProperties has the properties.
    - DraftValidation: the publication checks (route_editing/validation.rs).
    - DraftPersistence: PgRouteDraftRepository
      (infrastructure/route_editing_persistence.rs); DraftPersistenceTheory.
    - Imports: the import aggregate, its status machine, checksums and cleanup
      (imports/mod.rs, state_machine.rs, checksum.rs, failure_code.rs,
      cleanup.rs); ImportTheory.
    - GpxParser: parse_gpx as a state machine over XML events
      (imports/gpx_parser.rs); GpxParserTheory.
    - RecordedActivity: normalisation of a parsed file into a track with
      statistics, bounding box and preview (recorded_activity/mod.rs,
      normalization.rs); RecordedActivityTheory.
    - ImportHandlers: start_import, complete_upload (imports/commands.rs) and
      process_import (imports/orchestrator.rs).  ImportPersistence: the contract
      of the import repository and PgImportRepository, which meets it.
      ImportHandlerTheory and ImportProcessing prove the use cases against the
      contract.
    - RouteVersioning: versions, corrected statistics and execute_publish
      (route_versioning); PublicationTheory.
    - Legs: legs of an activity and PgLegRepository (recorded_activity/legs.rs,
      leg_commands.rs, leg_queries.rs, infrastructure/leg_persistence.rs);
      LegTheory.
    - Base64 and ActivityCatalog: the cursor encoding, the catalogue, its
      queries and PgActivityRepository (activity_catalog,
      infrastructure/activity_persistence.rs); CatalogTheory.
    - Exports: export jobs, handlers and GPX generation (exports); ExportTheory.
    - OidcState: pending logins (infrastructure/oidc_state_store.rs).
    - JobQueue: the statements of the job queue over platform.jobs
      (infrastructure/job_queue.rs); JobQueueTheory.  WorkerRuntime: the worker
      as a machine that takes one event at a time (worker_runtime.rs and the
      maintenance of crates/worker/src/main.rs); WorkerTheory.
    - Database: the tables that several transactions share, with their
      constraints; transactions; the audit log (audit.rs) and publishing to the
      outbox.
    - ImportCommit: the transaction that completes an import
      (import_commit.rs) and the adapters of the worker; ImportCommitTheory.
      ImportWorker: the job handler around process_import (import_worker.rs)
      and the cleanup (import_cleanup.rs); ImportWorkerTheory composes them with
      the commit, ImportCleanup with the repository.  ImportSuccess: what a run
      needs to succeed.
    - PublicationCommit: the transaction that publishes a draft
      (publication_commit.rs); PublicationCommitTheory.
    - Outbox: the dispatcher (outbox.rs); OutboxTheory.
    - RecordedRoute: the repository of recorded routes, reading the JSON that a
      commit stored (recorded_route_persistence.rs); RecordedRouteTheory.
    - ObjectStorage: the client of the S3 bucket and the adapters around it
      (object_storage.rs).  ExportWorker: the handler of export jobs
      (export_worker.rs); ExportWorkerTheory.
    - Http: headers, cookies, responses.  Api: ApiError (api/error.rs) and what the
      endpoints share.
    - RateLimits: token buckets, the middleware, upload quota and backpressure
      (rate_limit.rs, upload_quota.rs, backpressure.rs); RateLimitTheory.
    - Sessions: sessions, users, cookies, the extractors of authentication
      (session.rs, user_repository.rs, auth_middleware.rs); Login: the handlers of
      api/auth_handlers.rs; LoginTheory.  OidcClient: the provider behind the
      login (oidc.rs); OidcClientTheory.
    - Server: the configuration of both programs (config.rs, the settings of
      telemetry.rs), the start of the server (main.rs, the connection of
      database.rs), request ids (request_id.rs) and health; ServerTheory.
    - WorkerProcess: the worker as it is put together in crates/worker/src/main.rs:
      its start, the two handlers over the one database and the bucket, the outbox
      dispatcher, the maintenance, the signal to stop; WorkerProcessTheory.
    - The endpoints of crates/api, each with the routes of main.rs and a Theory
      file: RouteEditingApi (route_editing.rs), ImportApi (imports.rs), ExportsApi
      (exports.rs), ActivitiesApi (activities.rs), RouteQueriesApi
      (recorded_route.rs, route_versioning.rs; RouteQueriesTheory), LegsApi
      (legs.rs).

    Names follow the source; a method whose name would clash is prefixed with
    its type ([new_import], [Checksum_new]); record fields carry a short prefix.

    ** What is shown

    A theorem whose comment begins with a number C<n> is one of the properties
    that the development is about; the others serve them or record what else was
    found.

    - Drafts (RouteDraftProperties): the invariant of reachable drafts, refinement
      of an undoable editor on a timeline of geometries, undo and redo as
      inverses, optimistic concurrency, atomic failures without panics, finality
      of closed drafts, idempotent retries, and every operation against its
      specification.  In the database (DraftPersistenceTheory): an update under
      the lock stores and reloads the draft whole, its two times to the microsecond, a
      stale one is refused; redo is
      lost on the way through the database and a closed draft can never be
      stored, because of what the UPDATE statements leave out.
    - Publication: exactly the publishable drafts pass the checks
      (DraftValidation), and a draft that passes always becomes the next version
      (PublicationTheory).  The production transaction publishes all or nothing,
      exactly when the locked draft allows it, and can be repeated safely; on the
      schema of the migrations it never succeeds (PublicationCommitTheory).
    - Imports: invariant and bounded lifecycle (ImportTheory), idempotent start
      and completion by the verdict on the object (ImportHandlerTheory),
      processing that commits verified files only, at most once
      (ImportProcessing).  The commit has all of its effect or none
      (ImportCommitTheory); however often a job is delivered, its import becomes
      one activity, and a duplicate never completes (ImportWorkerTheory); the job
      of a good upload does succeed (ImportSuccess), so that from the request that
      completes an upload, through the queue and the worker, a sound file becomes
      an activity (WorkerProcessTheory); the cleanup fails exactly the abandoned imports (ImportCleanup).
    - Jobs: a poll hands out the right job, once; enqueueing with a key is
      idempotent (JobQueueTheory).  Under any sequence of events, crashes and
      outages included, the table stays sound, a job runs at most three times,
      and under a fair schedule every job ends (WorkerTheory); the worker process
      with its handlers, those included that their timeout or the death of the
      process cuts short, refines that worker, and calls the handler of a job at
      most three times (WorkerProcessTheory).
    - Outbox (OutboxTheory): a batch in full, every event is settled, and what
      failures and a second dispatcher do to order and single delivery.
    - Files: limits of the parser (GpxParserTheory), total normalisation with
      tight bounding boxes, elevation statistics (RecordedActivityTheory).
    - Legs (LegTheory): removal compacts the numbering; moving is refused by the
      unique constraint.
    - Catalogue (CatalogTheory): cursors round-trip, pagination is complete,
      titles and their panic, deletion is authorised, final and idempotent.
    - Exports and logins: lifecycle, download guard, expiry (ExportTheory),
      single use of login states (OidcState).  The worker keeps to the lifecycle
      whatever is delivered, an export becomes ready only with a file that was read
      back, a job that succeeded is done for good (ExportWorkerTheory).
    - Recorded routes: what is served is the route of the file, after any history of
      further commits (RecordedRouteTheory), to the owner and to nobody else
      (RouteQueriesTheory).  Titles are a proviso of this and of the next item: an
      import can store one that cannot be cut at 500 bytes, and any request that
      comes across its row panics; the theorems say so where it happens.
    - Endpoints: users do not interfere with each other (ActivitiesApiTheory, a
      purge theorem over interleaved requests); requests about legs stay within
      their activity (LegsApiTheory, triples over the interface
      [ConfinedRepository]); drafts over the API stay sound, and what delete, reset
      and repeated operations answer (RouteEditingApiTheory); a completed upload is
      queued or stranded (ImportApiTheory); export requests recover from a failing
      queue, if the API is given one and a repository that keeps exports, which
      main.rs does not do; file names are safe (ExportsApiTheory).
    - Sessions (LoginTheory): the store refines a set of live sessions, the
      extractor lets in exactly their holders, a callback opens a session only for
      a state of the browser and, with the provider of OidcClient, only for the
      subject of a token with that login's nonce, signed by the provider
      (OidcClientTheory).  A server that has started with a provider has no
      development login and secure cookies where its configuration asks for them
      (ServerTheory).  Quotas (RateLimitTheory): bounds of the upload
      quota; the limiter as it is mounted never limits.

    ** Bounds and fuel

    Vectors of a draft are assumed to fit in memory ([vec_fits]: lengths below
    2^64), revisions stored in BIGINT columns are below 2^63 and sequence numbers
    below 2^31; these are hypotheses where a theorem needs them.  UTF-8 decoding
    runs on fuel equal to the number of bytes, each step consumes at least one
    ([from_utf8_as_bytes]); the walk along pages of pagination_complete has one
    step per row and a theorem that this is enough; everything else is
    structural.

    ** Not modelled

    Deserialisation by axum and serde of requests, logging and metrics only wrap
    library calls.  Columns of JSON return the value that was stored.  The summaries of legs
    read their own view of the tracks (LegDb).  Two statements of one call that are
    not in one transaction can be interleaved with other calls; where that matters,
    what happens between them is an argument (JobQueue) or a lemma (OutboxTheory).
    Isolation levels, locks and timeouts of PostgreSQL are not modelled: a
    transaction is one step, and so is a statement or a request.  In the worker
    process, a handler that runs to its end is one step; what one leaves behind that
    is cut short is not computed but any tables and bucket (WorkerProcess).  The directory
    crates/platform has no manifest and its queries do not fit the schema; the
    repository of route versions that it holds is an interface.  The frontend is a
    separate program. *)
From stdpp Require Export base tactics option list gmap numbers strings.
From Stdlib Require Export ZArith NArith Lia.

#[export] Set Default Proof Using "Type".

Declare Scope haiker_scope.
Delimit Scope haiker_scope with haiker.

(** ** Outcomes of Rust code

    [result E A] is what a call of a function returning [Result<A, E>] can end
    in: a value, an error value, or a panic (an index out of range, a slice
    that is not on a character boundary).  The error type comes first so that
    [result E] is a monad whose bind is the [?] operator. *)
Inductive result (E A : Type) : Type :=
| Ok (a : A)
| Err (e : E)
| Panicked.
Arguments Ok {E A} _.
Arguments Err {E A} _.
Arguments Panicked {E A}.

#[export] Instance result_eq_dec {E A} `{EqDecision E, EqDecision A} :
  EqDecision (result E A).
Proof. solve_decision. Defined.

#[export] Instance result_ret E : MRet (result E) := fun A a => Ok a.
#[export] Instance result_bind E : MBind (result E) :=
  fun A B f r => match r with Ok a => f a | Err e => Err e | Panicked => Panicked end.

(** [Result::map_err]. *)
Definition map_err {E F A} (f : E -> F) (r : result E A) : result F A :=
  match r with Ok a => Ok a | Err e => Err (f e) | Panicked => Panicked end.

(** [Option::ok_or] and [Option::ok_or_else]. *)
Definition ok_or {E A} (o : option A) (e : E) : result E A :=
  match o with Some a => Ok a | None => Err e end.

Definition is_ok {E A} (r : result E A) : bool :=
  match r with Ok _ => true | _ => false end.

(** A guard that returns early: [if b { return Err(e) }]. *)
Definition guard_err {E} (b : bool) (e : E) : result E unit :=
  if b then Err e else Ok tt.

(** ** Effects

    Code that runs against a mutable store (a method on [&mut self], a handler
    calling repositories) is a function from the store to an outcome and the
    store left behind.  An error does not roll the store back: whatever was
    written before the error stays written. *)
Definition eff (S E A : Type) : Type := S -> result E A * S.

#[export] Instance eff_ret S E : MRet (eff S E) := fun A a s => (Ok a, s).
#[export] Instance eff_bind S E : MBind (eff S E) :=
  fun A B f m s =>
    match m s with
    | (Ok a, s') => f a s'
    | (Err e, s') => (Err e, s')
    | (Panicked, s') => (Panicked, s')
    end.

(** Pure outcome inside effectful code. *)
Definition lift {S E A} (r : result E A) : eff S E A := fun s => (r, s).
Definition throw {S E A} (e : E) : eff S E A := fun s => (Err e, s).
Definition panic {S E A} : eff S E A := fun s => (Panicked, s).
Definition get {S E} : eff S E S := fun s => (Ok s, s).
Definition put {S E} (s : S) : eff S E unit := fun _ => (Ok tt, s).
Definition modify {S E} (f : S -> S) : eff S E unit := fun s => (Ok tt, f s).

(** [.map_err(f)] on an effectful call. *)
Definition eff_map_err {S E F A} (f : E -> F) (m : eff S E A) : eff S F A :=
  fun s => let '(r, s') := m s in (map_err f r, s').

(** [match call { Ok(a) => .., Err(e) => .. }]: the outcome as a value. *)
Definition attempt {S E F A} (m : eff S E A) : eff S F (result E A) :=
  fun s => let '(r, s') := m s in
           match r with Panicked => (Panicked, s') | _ => (Ok r, s') end.

(** A [for] loop with [?] in its body. *)
Fixpoint for_each {S E A} (l : list A) (f : A -> eff S E unit) : eff S E unit :=
  match l with
  | [] => mret tt
  | a :: l' => f a ≫= fun _ => for_each l' f
  end.

(** ** Machine integers

    Unsigned integers are [N], signed ones [Z].  Arithmetic that can leave the
    width is written with its wrap-around, as in a release build. *)
Definition u64_modulus : N := 2 ^ 64.
Definition u64_wrap (n : N) : N := (n mod u64_modulus)%N.
Definition u64_succ (n : N) : N := u64_wrap (n + 1).
Definition u64_sub (a b : N) : N := u64_wrap (a + u64_modulus - u64_wrap b).
Definition u32_modulus : N := 2 ^ 32.
Definition u32_wrap (n : N) : N := (n mod u32_modulus)%N.

(** Two's complement reading of the low bits of an integer. *)
Definition to_signed (bits : N) (z : Z) : Z :=
  let m := (2 ^ Z.of_N bits)%Z in
  let r := (z mod m)%Z in
  if (r <? m / 2)%Z then r else (r - m)%Z.
Definition i64_of (z : Z) : Z := to_signed 64 z.
Definition i32_of (z : Z) : Z := to_signed 32 z.

(** [v.len()]. *)
Definition len {A} (l : list A) : N := N.of_nat (length l).

(** ** Identifiers and time

    A [Uuid] is its 128-bit value; [Uuid::new_v4()] is an argument of the
    operation that calls it.  A [DateTime<Utc>] is its nanoseconds since the
    epoch; [Utc::now()] is an argument too. *)
Abbreviation uuid := N (only parsing).
Abbreviation datetime := Z (only parsing).

(** ** Automation *)

Create HintDb haiker discriminated.

Lemma u64_wrap_small (n : N) : (n < u64_modulus)%N -> u64_wrap n = n.
Proof. apply N.mod_small. Qed.

Lemma u64_wrap_lt (n : N) : (u64_wrap n < u64_modulus)%N.
Proof. by apply N.mod_lt. Qed.

Lemma u64_succ_ne (n : N) : (n < u64_modulus)%N -> u64_succ n <> n.
Proof.
  intros Hn. unfold u64_succ, u64_wrap.
  destruct (decide (n + 1 < u64_modulus)%N) as [Hlt|Hge].
  - rewrite N.mod_small by done. lia.
  - assert (n = u64_modulus - 1)%N as -> by lia. vm_compute. done.
Qed.

Lemma u64_succ_small (n : N) : (n + 1 < u64_modulus)%N -> u64_succ n = (n + 1)%N.
Proof. apply N.mod_small. Qed.

Lemma i64_of_small (z : Z) : (0 <= z < 2 ^ 63)%Z -> i64_of z = z.
Proof.
  intros Hz. unfold i64_of, to_signed.
  change (2 ^ Z.of_N 64)%Z with (2 ^ 64)%Z.
  rewrite Z.mod_small by lia.
  change (2 ^ 64 / 2)%Z with (2 ^ 63)%Z.
  destruct (Z.ltb_spec z (2 ^ 63)%Z); lia.
Qed.

Lemma i32_of_small z : (0 <= z < 2 ^ 31)%Z -> i32_of z = z.
Proof.
  intros. unfold i32_of, to_signed. change (2 ^ Z.of_N 32)%Z with (2 ^ 32)%Z.
  rewrite Z.mod_small by lia. change (2 ^ 32 / 2)%Z with (2 ^ 31)%Z.
  destruct (Z.ltb_spec z (2 ^ 31)%Z); lia.
Qed.

#[export] Hint Resolve u64_wrap_lt u64_succ_ne : haiker.

(** An effect on a part of the state. *)
Definition zoom {S T E A} (view : S -> T) (set_view : T -> S -> S) (m : eff T E A) : eff S E A :=
  fun s => let '(r, t) := m (view s) in (r, set_view t s).

(** Bind and lift compute on the outcome of their first part. *)
Lemma eff_bind_ok {S E A B} (m : eff S E A) (f : A -> eff S E B) s a s' :
  m s = (Ok a, s') -> (m ≫= f) s = f a s'.
Proof. intros Hm. unfold mbind, eff_bind. by rewrite Hm. Qed.

Lemma eff_bind_err {S E A B} (m : eff S E A) (f : A -> eff S E B) s e s' :
  m s = (Err e, s') -> (m ≫= f) s = (Err e, s').
Proof. intros Hm. unfold mbind, eff_bind. by rewrite Hm. Qed.

(** What an effectful sequence that succeeded went through. *)
Lemma eff_bind_inv {S E A B} (m : eff S E A) (f : A -> eff S E B) s b s'' :
  (m ≫= f) s = (Ok b, s'') ->
  exists a s', m s = (Ok a, s') /\ f a s' = (Ok b, s'').
Proof. unfold mbind, eff_bind. destruct (m s) as [[a|e|] s']; naive_solver. Qed.

Lemma result_bind_inv {E A B} (r : result E A) (f : A -> result E B) b :
  r ≫= f = Ok b -> exists a, r = Ok a /\ f a = Ok b.
Proof. destruct r; naive_solver. Qed.

Lemma ok_or_inv {E A} (o : option A) (e : E) a : ok_or o e = Ok a -> o = Some a.
Proof. destruct o; naive_solver. Qed.

Lemma guard_err_ok {E} b (e : E) : guard_err b e = Ok tt <-> b = false.
Proof. destruct b; naive_solver. Qed.

(** [run]: unfold the effect combinators and compute. *)
Ltac run :=
  repeat (unfold mbind, eff_bind, result_bind, mret, eff_ret, result_ret, lift, throw, panic, get, put, modify,
          eff_map_err, attempt in *; cbn beta iota in * ).

(** [cases]: case on every scrutinee in the goal, then simplify. *)
Ltac cases :=
  repeat (case_match || case_decide; simplify_eq/=); try done.

(** [split_if b]: case on a boolean test and turn it into its meaning. *)
Ltac to_prop :=
  repeat match goal with
  | H : bool_decide _ = true |- _ => apply bool_decide_eq_true in H
  | H : bool_decide _ = false |- _ => apply bool_decide_eq_false in H
  | H : (_ <? _)%N = true |- _ => apply N.ltb_lt in H
  | H : (_ <? _)%N = false |- _ => apply N.ltb_ge in H
  | H : (_ <=? _)%N = true |- _ => apply N.leb_le in H
  | H : (_ <=? _)%N = false |- _ => apply N.leb_gt in H
  | H : (_ =? _)%N = true |- _ => apply N.eqb_eq in H
  | H : (_ =? _)%N = false |- _ => apply N.eqb_neq in H
  | H : (_ <? _)%Z = true |- _ => apply Z.ltb_lt in H
  | H : (_ <? _)%Z = false |- _ => apply Z.ltb_ge in H
  | H : (_ <=? _)%Z = true |- _ => apply Z.leb_le in H
  | H : (_ <=? _)%Z = false |- _ => apply Z.leb_gt in H
  | H : (_ =? _)%Z = true |- _ => apply Z.eqb_eq in H
  | H : (_ =? _)%Z = false |- _ => apply Z.eqb_neq in H
  | H : negb _ = true |- _ => apply negb_true_iff in H
  | H : negb _ = false |- _ => apply negb_false_iff in H
  | H : (_ && _)%bool = true |- _ => apply andb_true_iff in H as [? ?]
  | H : (_ || _)%bool = false |- _ => apply orb_false_iff in H as [? ?]
  end.

(** ** Reachability

    [reach step a b]: zero, one or several steps from [a] to [b]. *)
Inductive reach {A} (step : A -> A -> Prop) : A -> A -> Prop :=
| reach_refl a : reach step a a
| reach_step a b c : step a b -> reach step b c -> reach step a c.

Lemma reach_invariant {A} (step : A -> A -> Prop) (P : A -> Prop) :
  (forall a b, P a -> step a b -> P b) -> forall a b, P a -> reach step a b -> P b.
Proof. intros Hstep a b Ha Hr. induction Hr; eauto. Qed.

Lemma reach_trans {A} (step : A -> A -> Prop) a b c :
  reach step a b -> reach step b c -> reach step a c.
Proof. induction 1; eauto using reach. Qed.

(** ** Lists *)

Lemma len_cons {A} (x : A) l : len (x :: l) = (1 + len l)%N.
Proof. unfold len. simpl. lia. Qed.

Lemma len_app {A} (l k : list A) : len (l ++ k) = (len l + len k)%N.
Proof. unfold len. rewrite length_app. lia. Qed.

Lemma len_nil {A} : len (@nil A) = 0%N.
Proof. done. Qed.

#[export] Hint Rewrite @len_cons @len_app @len_nil : haiker.

(** [v\[i\]] within bounds yields an element. *)
Lemma lookup_len_lt {A} (l : list A) (i : N) :
  (i < len l)%N -> exists x, l !! N.to_nat i = Some x.
Proof. intros Hi. apply lookup_lt_is_Some_2. unfold len in Hi. lia. Qed.

Lemma Forall_insert_lookup {A} (P : A -> Prop) (l : list A) i x :
  Forall P l -> P x -> Forall P (<[i:=x]> l).
Proof. intros. by apply Forall_insert. Qed.

(** Consecutive pairs, [v.windows(2)]. *)
Fixpoint windows2 {A} (l : list A) : list (A * A) :=
  match l with
  | x :: ((y :: _) as l') => (x, y) :: windows2 l'
  | _ => []
  end.

Lemma length_windows2 {A} (l : list A) : length (windows2 l) = length l - 1.
Proof.
  induction l as [|x [|y l] IH]; [done..|].
  change (windows2 (x :: y :: l)) with ((x, y) :: windows2 (y :: l)).
  simpl length in *. rewrite IH. lia.
Qed.

Lemma NoDup_List_filter {A} (f : A -> bool) (l : list A) : NoDup l -> NoDup (List.filter f l).
Proof. rewrite !NoDup_ListNoDup. apply List.NoDup_filter. Qed.

Lemma NoDup_map_inj {A B} (f : A -> B) l x y :
  NoDup (map f l) -> x ∈ l -> y ∈ l -> f x = f y -> x = y.
Proof.
  intros Hnd [i Hi]%list_elem_of_lookup [j Hj]%list_elem_of_lookup Hf.
  assert (i = j) as ->; [|congruence]. eapply (NoDup_lookup (map f l)); [done|..];
    rewrite list_lookup_fmap; [by rewrite Hi|by rewrite Hj; simpl; rewrite Hf].
Qed.

(** The rows of a table keyed by a column are all different. *)
Lemma NoDup_snd_map_to_list {A} (key : A -> N) (m : gmap N A) :
  map_Forall (fun k r => key r = k) m -> NoDup (map snd (map_to_list m)).
Proof.
  intros Hm. apply NoDup_fmap_2_strong; [|apply NoDup_map_to_list].
  intros [i x] [j y] Hi%elem_of_map_to_list Hj%elem_of_map_to_list. simpl. intros ->.
  by rewrite <- (Hm i y Hi), <- (Hm j y Hj).
Qed.
