(* ===== verification/Float64.v ===== *)
(** Rust's [f64] as the IEEE 754 binary64 of the standard library's SpecFloat:
    arithmetic rounds to nearest even, comparisons are false on NaN.  This file
    holds the operations the code uses, the order lemmas the other components
    share, and the two renderings of an [f64] the code prints. *)
From Stdlib Require Export Floats.SpecFloat.
From S2P Require Import Prelude.

Abbreviation f64 := spec_float (only parsing).

#[export] Instance f64_eq_dec : EqDecision spec_float.
Proof. solve_decision. Defined.

(** ** Operations *)

Definition f64_prec : Z := 53.
Definition f64_emax : Z := 1024.

Definition f64_add : f64 -> f64 -> f64 := SFadd f64_prec f64_emax.
Definition f64_sub : f64 -> f64 -> f64 := SFsub f64_prec f64_emax.
Definition f64_mul : f64 -> f64 -> f64 := SFmul f64_prec f64_emax.
Definition f64_div : f64 -> f64 -> f64 := SFdiv f64_prec f64_emax.
Definition f64_sqrt : f64 -> f64 := SFsqrt f64_prec f64_emax.
Definition f64_abs : f64 -> f64 := SFabs.
Definition f64_eqb : f64 -> f64 -> bool := SFeqb.
Definition f64_ltb : f64 -> f64 -> bool := SFltb.
Definition f64_leb : f64 -> f64 -> bool := SFleb.

Definition f64_zero : f64 := S754_zero false.
(** [f64::MAX] and [f64::MIN]. *)
Definition f64_MAX : f64 := S754_finite false 9007199254740991 971.
Definition f64_MIN : f64 := S754_finite true 9007199254740991 971.

Definition is_nan (x : f64) : bool :=
  match x with S754_nan => true | _ => false end.
Definition is_finite (x : f64) : bool :=
  match x with S754_zero _ | S754_finite _ _ _ => true | _ => false end.

(** An integer literal or an integer cast, rounded to nearest. *)
Definition f64_of_Z (z : Z) : f64 := binary_normalize f64_prec f64_emax z 0 false.
Definition f64_of_N (n : N) : f64 := f64_of_Z (Z.of_N n).

(** The binary64 nearest to the ratio [p / q]: what a decimal literal or the
    parse of a decimal numeral denotes. *)
Definition f64_of_ratio (neg : bool) (p q : positive) : f64 :=
  let '(m, e, l) := SFdiv_core_binary f64_prec f64_emax (Zpos p) 0 (Zpos q) 0 in
  binary_round_aux f64_prec f64_emax neg m e l.

(** [f64::min] and [f64::max]: a NaN operand is ignored. *)
Definition f64_min (x y : f64) : f64 :=
  if is_nan x then y else if is_nan y then x else if f64_ltb y x then y else x.
Definition f64_max (x y : f64) : f64 :=
  if is_nan x then y else if is_nan y then x else if f64_ltb x y then y else x.

(** [(lo..=hi).contains(&x)]. *)
Definition range_contains (lo hi x : f64) : bool := f64_leb lo x && f64_leb x hi.

(** [x.to_radians()]: one multiplication by the constant pi / 180. *)
Definition f64_pi_180 : f64 := S754_finite false 5030569068109113 (-58).
Definition to_radians (x : f64) : f64 := f64_mul x f64_pi_180.

(** [x.powi(2)]. *)
Definition powi2 (x : f64) : f64 := f64_mul x x.

(** Saturating casts [x.round() as usize] (half away from zero) and
    [x.ceil() as u64]: NaN and negative values give 0. *)
Definition round_to_u64 (x : f64) : N :=
  match x with
  | S754_finite false m e =>
      if (0 <=? e)%Z then N.min (Z.to_N (Zpos m * 2 ^ e)) (u64_modulus - 1)
      else Z.to_N ((2 * Zpos m + 2 ^ (- e)) / (2 * 2 ^ (- e)))
  | S754_infinity false => (u64_modulus - 1)%N
  | _ => 0%N
  end.
Definition ceil_to_u64 (x : f64) : N :=
  match x with
  | S754_finite false m e =>
      if (0 <=? e)%Z then N.min (Z.to_N (Zpos m * 2 ^ e)) (u64_modulus - 1)
      else Z.to_N ((Zpos m + 2 ^ (- e) - 1) / 2 ^ (- e))
  | S754_infinity false => (u64_modulus - 1)%N
  | _ => 0%N
  end.

(** ** Order *)

(** The rank of a number among the binary64s: class, exponent and mantissa,
    compared lexicographically. *)
Definition f64_key (x : f64) : option (Z * Z * Z) :=
  match x with
  | S754_nan => None
  | S754_infinity true => Some (-2, 0, 0)%Z
  | S754_finite true m e => Some (-1, - e, Zneg m)%Z
  | S754_zero _ => Some (0, 0, 0)%Z
  | S754_finite false m e => Some (1, e, Zpos m)%Z
  | S754_infinity false => Some (2, 0, 0)%Z
  end.

Definition key_compare (a b : Z * Z * Z) : comparison :=
  let '(a1, a2, a3) := a in let '(b1, b2, b3) := b in
  match (a1 ?= b1)%Z with
  | Eq => match (a2 ?= b2)%Z with Eq => (a3 ?= b3)%Z | c => c end
  | c => c
  end.

Lemma f64_compare_key x y :
  SFcompare x y =
  match f64_key x, f64_key y with
  | Some a, Some b => Some (key_compare a b)
  | _, _ => None
  end.
Proof.
  destruct x as [[]|[]| |[] m1 e1], y as [[]|[]| |[] m2 e2]; try done; simpl; f_equal.
  rewrite Z.compare_opp, (Z.compare_antisym e1 e2).
  by destruct (e1 ?= e2)%Z.
Qed.

(** The lexicographic order as a proposition on integers. *)
Definition key_le (a b : Z * Z * Z) : Prop :=
  let '(a1, a2, a3) := a in let '(b1, b2, b3) := b in
  (a1 < b1 \/ a1 = b1 /\ (a2 < b2 \/ a2 = b2 /\ a3 <= b3))%Z.

Lemma key_compare_le a b : key_compare a b <> Gt <-> key_le a b.
Proof.
  destruct a as [[a1 a2] a3], b as [[b1 b2] b3]; simpl.
  destruct (Z.compare_spec a1 b1), (Z.compare_spec a2 b2), (Z.compare_spec a3 b3);
    naive_solver lia.
Qed.

Lemma key_compare_lt a b : key_compare a b = Lt <-> ~ key_le b a.
Proof.
  destruct a as [[a1 a2] a3], b as [[b1 b2] b3]; simpl.
  destruct (Z.compare_spec a1 b1), (Z.compare_spec a2 b2), (Z.compare_spec a3 b3);
    naive_solver lia.
Qed.

Lemma f64_leb_key x y :
  f64_leb x y = true <->
  exists a b, f64_key x = Some a /\ f64_key y = Some b /\ key_le a b.
Proof.
  unfold f64_leb, SFleb. rewrite f64_compare_key.
  destruct (f64_key x) as [a|], (f64_key y) as [b|];
    [|naive_solver..]. pose proof (key_compare_le a b).
  destruct (key_compare a b); naive_solver.
Qed.

Lemma f64_ltb_key x y :
  f64_ltb x y = true <->
  exists a b, f64_key x = Some a /\ f64_key y = Some b /\ ~ key_le b a.
Proof.
  unfold f64_ltb, SFltb. rewrite f64_compare_key.
  destruct (f64_key x) as [a|], (f64_key y) as [b|];
    [|naive_solver..]. pose proof (key_compare_lt a b).
  destruct (key_compare a b); naive_solver.
Qed.

Lemma is_nan_key x : is_nan x = false <-> is_Some (f64_key x).
Proof. destruct x as [[]|[]| |[] ? ?]; simpl; split; intros; eauto; try done; by destruct H. Qed.

Lemma key_le_trans a b c : key_le a b -> key_le b c -> key_le a c.
Proof. destruct a as [[??]?], b as [[??]?], c as [[??]?]. simpl. lia. Qed.

Lemma key_le_refl a : key_le a a.
Proof. destruct a as [[??]?]. simpl. lia. Qed.

Lemma key_le_total a b : ~ key_le b a -> key_le a b.
Proof. destruct a as [[??]?], b as [[??]?]. simpl. lia. Qed.

Lemma f64_leb_trans x y z :
  f64_leb x y = true -> f64_leb y z = true -> f64_leb x z = true.
Proof.
  rewrite !f64_leb_key. intros (a & b & ? & Hy & ?) (b' & c & Hy' & ? & ?).
  rewrite Hy in Hy'. simplify_eq. do 2 eexists. eauto using key_le_trans.
Qed.

Lemma f64_leb_refl x : is_nan x = false -> f64_leb x x = true.
Proof. rewrite is_nan_key, f64_leb_key. intros [a ?]. eauto using key_le_refl. Qed.

Lemma f64_ltb_leb x y : f64_ltb x y = true -> f64_leb x y = true.
Proof. rewrite f64_ltb_key, f64_leb_key. naive_solver eauto using key_le_total. Qed.

Lemma f64_not_ltb x y :
  is_nan x = false -> is_nan y = false -> f64_ltb x y = false -> f64_leb y x = true.
Proof.
  rewrite !is_nan_key. intros [a Ha] [b Hb] Hlt.
  apply f64_leb_key. exists b, a. split_and!; [done..|].
  destruct b as [[b1 b2] b3], a as [[a1 a2] a3].
  unfold f64_ltb, SFltb in Hlt. rewrite f64_compare_key, Ha, Hb in Hlt.
  apply key_compare_le. intros Hgt.
  assert (key_compare (a1, a2, a3) (b1, b2, b3) = Lt) as Hl.
  { apply key_compare_lt. intros Hle. apply key_compare_le in Hle. revert Hgt Hle Hlt. simpl.
    destruct (Z.compare_spec a1 b1), (Z.compare_spec a2 b2), (Z.compare_spec a3 b3),
      (Z.compare_spec b1 a1), (Z.compare_spec b2 a2), (Z.compare_spec b3 a3);
      try done; lia. }
  by rewrite Hl in Hlt.
Qed.

Lemma f64_leb_not_nan x y : f64_leb x y = true -> is_nan x = false /\ is_nan y = false.
Proof. rewrite f64_leb_key, !is_nan_key. intros (a & b & -> & -> & _). eauto. Qed.

Lemma f64_eqb_refl x : is_nan x = false -> f64_eqb x x = true.
Proof.
  unfold f64_eqb, SFeqb. rewrite f64_compare_key, is_nan_key. intros [a ->].
  destruct a as [[??]?]. simpl. by rewrite !Z.compare_refl.
Qed.

Lemma range_contains_not_nan lo hi x : range_contains lo hi x = true -> is_nan x = false.
Proof. intros H. unfold range_contains in H. to_prop. by eapply f64_leb_not_nan. Qed.

Lemma range_contains_nan lo hi : range_contains lo hi S754_nan = false.
Proof. unfold range_contains. destruct lo; done. Qed.

#[export] Hint Resolve f64_leb_trans f64_leb_refl f64_ltb_leb f64_not_ltb f64_eqb_refl
  range_contains_not_nan : haiker.

(** [f64::min] and [f64::max] bound both operands when none is NaN, and return
    one of them. *)
Lemma f64_min_spec x y :
  is_nan x = false -> is_nan y = false ->
  f64_leb (f64_min x y) x = true /\ f64_leb (f64_min x y) y = true /\
  (f64_min x y = x \/ f64_min x y = y).
Proof.
  intros Hx Hy. unfold f64_min. rewrite Hx, Hy.
  destruct (f64_ltb y x) eqn:Hlt; eauto 8 with haiker.
Qed.

Lemma f64_max_spec x y :
  is_nan x = false -> is_nan y = false ->
  f64_leb x (f64_max x y) = true /\ f64_leb y (f64_max x y) = true /\
  (f64_max x y = x \/ f64_max x y = y).
Proof.
  intros Hx Hy. unfold f64_max. rewrite Hx, Hy.
  destruct (f64_ltb x y) eqn:Hlt; eauto 8 with haiker.
Qed.

(** ** Signs *)

(** Zero (of either sign), a positive number or positive infinity. *)
Definition f64_nonneg (x : f64) : bool :=
  match x with
  | S754_zero _ | S754_finite false _ _ | S754_infinity false => true
  | _ => false
  end.

Lemma f64_nonneg_leb x : f64_nonneg x = f64_leb f64_zero x.
Proof. by destruct x as [[]|[]| |[] ? ?]. Qed.

Lemma iter_pos_invariant {A} (P : A -> Prop) (f : A -> A) :
  (forall a, P a -> P (f a)) -> forall n a, P a -> P (SpecFloat.iter_pos f n a).
Proof. intros Hf n. induction n; simpl; eauto. Qed.

Lemma shr_nonneg mrs e n :
  (0 <= shr_m mrs)%Z -> (0 <= shr_m (fst (shr mrs e n)))%Z.
Proof.
  intros H. destruct n; simpl; [done| |done].
  apply iter_pos_invariant; [|done].
  intros [[|p1|p2] r s]; simpl; [done| |lia]. by destruct p1.
Qed.

Lemma round_nearest_even_nonneg m l : (0 <= m)%Z -> (0 <= round_nearest_even m l)%Z.
Proof. intros. destruct l as [|[]]; simpl; [lia| |lia|lia]. destruct (Z.even m); lia. Qed.

Lemma binary_round_aux_nonneg m e l :
  (0 <= m)%Z -> f64_nonneg (binary_round_aux f64_prec f64_emax false m e l) = true.
Proof.
  intros Hm. unfold binary_round_aux.
  destruct (shr_fexp _ _ m e l) as [mrs1 e1] eqn:H1.
  assert (0 <= shr_m mrs1)%Z as Hm1.
  { replace mrs1 with (fst (shr_fexp f64_prec f64_emax m e l)) by (by rewrite H1).
    apply shr_nonneg. by destruct l as [|[]]. }
  destruct (shr_fexp _ _ (round_nearest_even _ _) e1 loc_Exact) as [mrs2 e2] eqn:H2.
  assert (0 <= shr_m mrs2)%Z as Hm2.
  { change mrs2 with (fst (mrs2, e2)). rewrite <- H2.
    apply shr_nonneg. simpl. by apply round_nearest_even_nonneg. }
  destruct (shr_m mrs2); [done| |lia]. by destruct (_ <=? _)%Z.
Qed.

Lemma binary_normalize_nonneg m e :
  (0 <= m)%Z -> f64_nonneg (binary_normalize f64_prec f64_emax m e false) = true.
Proof.
  intros Hm. destruct m as [|p|p]; [done| |lia]. simpl. unfold binary_round.
  destruct (shl_align _ _ _). by apply binary_round_aux_nonneg.
Qed.

Lemma f64_add_nonneg x y :
  f64_nonneg x = true -> f64_nonneg y = true -> f64_nonneg (f64_add x y) = true.
Proof.
  destruct x as [[]|[]| |[] mx ex], y as [[]|[]| |[] my ey]; try done.
  intros _ _. cbn [f64_add SFadd cond_Zopp]. by apply binary_normalize_nonneg.
Qed.

Lemma f64_mul_self_nonneg x : is_nan x = false -> f64_nonneg (powi2 x) = true.
Proof.
  destruct x as [[]|[]| |[] m e]; try done; intros _;
    cbn [powi2 f64_mul SFmul xorb]; by apply binary_round_aux_nonneg.
Qed.

Lemma f64_abs_nonneg x : is_nan x = false -> f64_nonneg (f64_abs x) = true.
Proof. by destruct x as [[]|[]| |[] m e]. Qed.

#[export] Hint Resolve f64_add_nonneg f64_mul_self_nonneg f64_abs_nonneg : haiker.

(** The constants of the code are what they should be. *)
Example f64_of_Z_90 : f64_of_Z 90 = S754_finite false 6333186975989760 (-46).
Proof. reflexivity. Qed.
Example f64_max_is_SFmax : f64_MAX = SFmax_float f64_prec f64_emax.
Proof. reflexivity. Qed.
Example f64_pi_180_near : f64_pi_180 = f64_of_ratio false 17453292519943295769 (10 ^ 21).
Proof. reflexivity. Qed.
