(* ===== verification/RustString.v ===== *)
(** Rust strings.  A [String] or [&str] is the list of its Unicode scalar
    values; [len()] counts UTF-8 bytes, as Rust does, and slicing by a byte
    index panics off a character boundary.  Also here: [trim], the character
    classes the code tests, and the [Display] renderings used in [format!]. *)
From Stdlib Require Import Strings.String Strings.Ascii Numbers.DecimalString.
From S2P Require Import Prelude Float64.

Abbreviation rchar := N (only parsing).
Abbreviation rstr := (list N) (only parsing).

(** A string literal of the source (ASCII). *)
Fixpoint lit (s : String.string) : rstr :=
  match s with
  | EmptyString => []
  | String c s' => N_of_ascii c :: lit s'
  end.
Arguments lit _%_string_scope.

(** ** Length in bytes and slicing *)

Definition len_utf8 (c : rchar) : N :=
  if (c <? 128)%N then 1 else if (c <? 2048)%N then 2
  else if (c <? 65536)%N then 3 else 4.

Fixpoint str_len (s : rstr) : N :=
  match s with [] => 0 | c :: s' => len_utf8 c + str_len s' end.

Definition is_empty (s : rstr) : bool := match s with [] => true | _ => false end.

(** [&s\[..n\]]: panics when byte [n] is past the end or inside a character. *)
Fixpoint slice_to {E} (s : rstr) (n : N) : result E rstr :=
  if (n =? 0)%N then Ok []
  else match s with
       | [] => Panicked
       | c :: s' => if (len_utf8 c <=? n)%N
                    then t ← slice_to s' (n - len_utf8 c); mret (c :: t)
                    else Panicked
       end.

(** ** Character classes *)

(** [char::is_whitespace]: the Unicode White_Space property. *)
Definition is_whitespace (c : rchar) : bool :=
  ((9 <=? c) && (c <=? 13) || (c =? 32) || (c =? 133) || (c =? 160) || (c =? 5760)
   || (8192 <=? c) && (c <=? 8202) || (c =? 8232) || (c =? 8233) || (c =? 8239)
   || (c =? 8287) || (c =? 12288))%N.

(** [char::is_control]: general category Cc. *)
Definition is_control (c : rchar) : bool :=
  ((c <=? 31) || (127 <=? c) && (c <=? 159))%N.

Definition is_ascii_hexdigit (c : rchar) : bool :=
  ((48 <=? c) && (c <=? 57) || (97 <=? c) && (c <=? 102) || (65 <=? c) && (c <=? 70))%N.

Definition ascii_lower (c : rchar) : rchar :=
  if ((65 <=? c) && (c <=? 90))%N then (c + 32)%N else c.

(** ** Trimming *)

Fixpoint drop_while (p : rchar -> bool) (s : rstr) : rstr :=
  match s with
  | [] => []
  | c :: s' => if p c then drop_while p s' else s
  end.
Definition trim_start_matches (p : rchar -> bool) (s : rstr) : rstr := drop_while p s.
Definition trim_end_matches (p : rchar -> bool) (s : rstr) : rstr :=
  reverse (drop_while p (reverse s)).
Definition trim (s : rstr) : rstr :=
  trim_end_matches is_whitespace (trim_start_matches is_whitespace s).

(** ** Display *)

Definition display_N (n : N) : rstr := lit (NilZero.string_of_uint (N.to_uint n)).
Definition display_Z (z : Z) : rstr := lit (NilZero.string_of_int (Z.to_int z)).

(** Left padding with zeros to a given width. *)
Definition pad_zeros (w : nat) (s : rstr) : rstr :=
  replicate (w - length s) 48%N ++ s.

(** [format!("{:.p$}", x)]: the exact value of [x] rounded to [p] decimals,
    half to even. *)
Definition div_half_even (a b : Z) : Z :=
  let q := (a / b)%Z in let r := (a mod b)%Z in
  if (2 * r <? b)%Z then q else if (b <? 2 * r)%Z then (q + 1)%Z
  else if Z.even q then q else (q + 1)%Z.
Definition scaled_decimal (m : positive) (e : Z) (p : nat) : Z :=
  let t := (Zpos m * 10 ^ Z.of_nat p)%Z in
  if (0 <=? e)%Z then (t * 2 ^ e)%Z else div_half_even t (2 ^ (- e)).
Definition fixed_digits (p : nat) (n : Z) : rstr :=
  let b := (10 ^ Z.of_nat p)%Z in
  display_N (Z.to_N (n / b)) ++
  match p with
  | O => []
  | _ => lit "." ++ pad_zeros p (display_N (Z.to_N (n mod b)))
  end.
Definition sign_str (s : bool) : rstr := if s then lit "-" else [].
Definition display_fixed (p : nat) (x : f64) : rstr :=
  match x with
  | S754_nan => lit "NaN"
  | S754_infinity s => sign_str s ++ lit "inf"
  | S754_zero s => sign_str s ++ fixed_digits p 0
  | S754_finite s m e => sign_str s ++ fixed_digits p (scaled_decimal m e p)
  end.

(** [format!("{}", x)] of an [f64]: the shortest decimal that parses back to
    [x], the closest to [x] among those, without an exponent.  [decimal_pow] is
    the decimal exponent of the leading digit plus one. *)
Definition ratio_of (m : positive) (e : Z) : positive * positive :=
  match e with
  | Zneg q => (m, (2 ^ q)%positive)
  | Z0 => (m, 1%positive)
  | Zpos q => ((m * 2 ^ q)%positive, 1%positive)
  end.
Fixpoint digits_count (fuel : nat) (n : Z) : Z :=
  match fuel with
  | O => 0
  | S f => if (n <? 1)%Z then 0 else (1 + digits_count f (n / 10))%Z
  end.
(** The binary64 nearest to [d * 10 ^ k]. *)
Definition f64_of_decimal (d : positive) (k : Z) : f64 :=
  match k with
  | Zneg q => f64_of_ratio false d (10 ^ q)
  | Z0 => f64_of_ratio false d 1
  | Zpos q => f64_of_ratio false (d * 10 ^ q) 1
  end.
(** Round [p / q] down to a multiple of [10 ^ k]. *)
Definition floor_scaled (p q : positive) (k : Z) : Z :=
  if (0 <=? k)%Z then (Zpos p / (Zpos q * 10 ^ k))%Z
  else (Zpos p * 10 ^ (- k) / Zpos q)%Z.
(** Twice the distance comparison of [lo] and [lo + 1] (scaled) to [p / q]. *)
Definition closer_up (p q : positive) (k lo : Z) : bool :=
  if (0 <=? k)%Z then ((2 * lo + 1) * Zpos q * 10 ^ k <? 2 * Zpos p)%Z
  else ((2 * lo + 1) * Zpos q <? 2 * Zpos p * 10 ^ (- k))%Z.
Definition decimal_is (x : f64) (d k : Z) : bool :=
  match d with Zpos d' => bool_decide (f64_of_decimal d' k = x) | _ => false end.
Definition shortest_at (x : f64) (p q : positive) (k : Z) : option (Z * Z) :=
  let lo := floor_scaled p q k in
  match decimal_is x lo k, decimal_is x (lo + 1) k with
  | true, true => Some (if closer_up p q k lo then (lo + 1)%Z else lo, k)
  | true, false => Some (lo, k)
  | false, true => Some ((lo + 1)%Z, k)
  | false, false => None
  end.
Fixpoint shortest_from (fuel : nat) (x : f64) (p q : positive) (k : Z) : option (Z * Z) :=
  match fuel with
  | O => None
  | S f => match shortest_at x p q k with
           | Some r => Some r
           | None => shortest_from f x p q (k - 1)
           end
  end.
(** The first exponent tried leaves one digit; 17 digits always suffice. *)
Definition leading_exponent (p q : positive) : Z :=
  if (Zpos q <=? Zpos p)%Z then (digits_count 400 (Zpos p / Zpos q) - 1)%Z
  else (- digits_count 800 (Zpos q / Zpos p))%Z.
Fixpoint strip_zeros (fuel : nat) (d k : Z) : Z * Z :=
  match fuel with
  | O => (d, k)
  | S f => if (d mod 10 =? 0)%Z then strip_zeros f (d / 10) (k + 1) else (d, k)
  end.
Definition plain_decimal (d k : Z) : rstr :=
  if (0 <=? k)%Z then display_N (Z.to_N (d * 10 ^ k))
  else fixed_digits (Z.to_nat (- k)) d.
Definition display_f64 (x : f64) : rstr :=
  match x with
  | S754_nan => lit "NaN"
  | S754_infinity s => sign_str s ++ lit "inf"
  | S754_zero s => sign_str s ++ lit "0"
  | S754_finite s m e =>
      let '(p, q) := ratio_of m e in
      sign_str s ++
      match shortest_from 20 (S754_finite false m e) p q (leading_exponent p q) with
      | Some (d, k) => let '(d', k') := strip_zeros 20 d k in plain_decimal d' k'
      | None => []
      end
  end.

Example display_f64_ex1 : display_f64 (f64_of_ratio false 12345 100) = lit "123.45".
Proof. vm_compute. reflexivity. Qed.
Example display_f64_ex2 : display_f64 (f64_of_ratio true 901 10) = lit "-90.1".
Proof. vm_compute. reflexivity. Qed.
Example display_f64_ex3 : display_f64 (f64_of_Z 1000) = lit "1000".
Proof. vm_compute. reflexivity. Qed.
Example display_f64_ex4 : display_f64 (f64_of_ratio false 1 1000) = lit "0.001".
Proof. vm_compute. reflexivity. Qed.
Example display_f64_ex5 :
  display_f64 (f64_div (f64_of_Z 1) (f64_of_Z 3)) = lit "0.3333333333333333".
Proof. vm_compute. reflexivity. Qed.
Example display_f64_ex6 : display_f64 f64_MAX =
  lit "17976931348623157" ++ replicate 292 48%N.
Proof. vm_compute. reflexivity. Qed.
Example display_fixed_ex : display_fixed 7 (f64_of_ratio false 463712345678 (10 ^ 10)) = lit "46.3712346".
Proof. vm_compute. reflexivity. Qed.
