(* ===== verification/RustVec.v ===== *)
(** [Vec] operations of Rust with their panics: indexing, insertion, removal,
    draining and splicing a closed range, and the two slicing forms used by
    the code.  Each comes with the lemma that says when it does not panic. *)
From S2P Require Import Prelude.

Section Vec.
Context {E A : Type}.
Implicit Types (v : list A) (i a b : N).

(** [v\[i\]]. *)
Definition vec_index v i : result E A :=
match v !! N.to_nat i with Some x => Ok x | None => Panicked end.

(** [v\[i\] = x]. *)
Definition vec_set v i (x : A) : result E (list A) :=
if (i <? len v)%N then Ok (<[N.to_nat i := x]> v) else Panicked.

(** [v.insert(i, x)]. *)
Definition vec_insert v i (x : A) : result E (list A) :=
if (i <=? len v)%N then Ok (take (N.to_nat i) v ++ x :: drop (N.to_nat i) v)
else Panicked.

(** [v.remove(i)]. *)
Definition vec_remove v i : result E (A * list A) :=
match v !! N.to_nat i with
| Some x => Ok (x, take (N.to_nat i) v ++ drop (S (N.to_nat i)) v)
| None => Panicked
end.

(** [v.splice(a..=b, r)]; [v.drain(a..=b)] is the splice of nothing. *)
Definition vec_splice v a b (r : list A) : result E (list A) :=
if ((a <=? b + 1) && (b <? len v))%N%bool
then Ok (take (N.to_nat a) v ++ r ++ drop (S (N.to_nat b)) v)
else Panicked.
Definition vec_drain v a b : result E (list A) := vec_splice v a b [].

(** [&v\[..=i\]] and [&v\[i..\]]. *)
Definition vec_to_incl v i : result E (list A) :=
if (i <? len v)%N then Ok (take (S (N.to_nat i)) v) else Panicked.
Definition vec_from v i : result E (list A) :=
if (i <=? len v)%N then Ok (drop (N.to_nat i) v) else Panicked.

(** [v.pop()], with the vector left behind. *)
Definition vec_pop v : option (A * list A) :=
match reverse v with
| [] => None
| x :: r => Some (x, reverse r)
end.

Lemma vec_index_ok v i x : v !! N.to_nat i = Some x -> vec_index v i = Ok x.
Proof. unfold vec_index. by intros ->. Qed.

Lemma vec_set_ok v i x : (i < len v)%N -> vec_set v i x = Ok (<[N.to_nat i := x]> v).
Proof. intros H. unfold vec_set. by apply N.ltb_lt in H as ->. Qed.

Lemma vec_insert_ok v i x :
(i <= len v)%N ->
vec_insert v i x = Ok (take (N.to_nat i) v ++ x :: drop (N.to_nat i) v).
Proof. intros H. unfold vec_insert. by apply N.leb_le in H as ->. Qed.

Lemma vec_remove_ok v i x :
v !! N.to_nat i = Some x ->
vec_remove v i = Ok (x, take (N.to_nat i) v ++ drop (S (N.to_nat i)) v).
Proof. unfold vec_remove. by intros ->. Qed.

Lemma vec_splice_ok v a b r :
(a <= b)%N -> (b < len v)%N ->
vec_splice v a b r = Ok (take (N.to_nat a) v ++ r ++ drop (S (N.to_nat b)) v).
Proof.
intros Hab Hb. unfold vec_splice.
rewrite (proj2 (N.leb_le _ _)), (proj2 (N.ltb_lt _ _)) by lia. done.
Qed.

Lemma vec_to_incl_ok v i : (i < len v)%N -> vec_to_incl v i = Ok (take (S (N.to_nat i)) v).
Proof. intros H. unfold vec_to_incl. by apply N.ltb_lt in H as ->. Qed.

Lemma vec_from_ok v i : (i <= len v)%N -> vec_from v i = Ok (drop (N.to_nat i) v).
Proof. intros H. unfold vec_from. by apply N.leb_le in H as ->. Qed.

Lemma vec_pop_snoc v x : vec_pop (v ++ [x]) = Some (x, v).
Proof. unfold vec_pop. by rewrite reverse_snoc, reverse_involutive. Qed.

Lemma vec_pop_nil : vec_pop [] = None.
Proof. done. Qed.

Lemma vec_pop_inv v x w : vec_pop v = Some (x, w) -> v = w ++ [x].
Proof.
destruct v as [|y v _] using rev_ind; [done|].
rewrite vec_pop_snoc. by intros [= -> ->].
Qed.

Lemma vec_pop_None v : vec_pop v = None -> v = [].
Proof. destruct v as [|y v _] using rev_ind; [done|]. by rewrite vec_pop_snoc. Qed.
End Vec.

(** Lengths after a splice. *)
Lemma length_splice {A} (v r : list A) (a b : nat) :
  a <= b -> b < length v ->
  length (take a v ++ r ++ drop (S b) v) = length v - (b - a + 1) + length r.
Proof. intros. rewrite !length_app, length_take, length_drop. lia. Qed.
