(* ===== verification/RouteEditing.v ===== *)
(** The route editing context, crates/app/src/route_editing: its value objects
    (value_objects.rs), operations (operations.rs), errors (mod.rs) and the
    [RouteDraft] aggregate (draft.rs).  A method on [&mut self] is an effect on
    the draft; the clock and generated identifiers are arguments. *)
From S2P Require Import Prelude Float64 RustString RustVec.

(** ** Value objects *)

Definition MAX_REPLACEMENT_POINTS : N := 500.

Record Coordinate := mkCoordinate { latitude : f64; longitude : f64 }.

#[export] Instance Coordinate_eq_dec : EqDecision Coordinate.
Proof. solve_decision. Defined.

(** Derived [PartialEq]: the IEEE equality of both components. *)
Definition Coordinate_eqb (a b : Coordinate) : bool :=
  f64_eqb (latitude a) (latitude b) && f64_eqb (longitude a) (longitude b).

Record RoutePoint := mkRoutePoint { coordinate : Coordinate; elevation : option f64 }.

#[export] Instance RoutePoint_eq_dec : EqDecision RoutePoint.
Proof. solve_decision. Defined.

Definition option_eqb {A} (eqb : A -> A -> bool) (x y : option A) : bool :=
  match x, y with
  | Some a, Some b => eqb a b
  | None, None => true
  | _, _ => false
  end.

Definition RoutePoint_eqb (a b : RoutePoint) : bool :=
  Coordinate_eqb (coordinate a) (coordinate b) &&
  option_eqb f64_eqb (elevation a) (elevation b).

Abbreviation segment := (list RoutePoint) (only parsing).
Abbreviation geometry := (list (list RoutePoint)) (only parsing).

(** ** Operations *)

Inductive RouteOperation : Type :=
| MovePoint (segment_index point_index : N) (new_position : Coordinate)
| AddPoint (segment_index after_point_index : N) (point : RoutePoint)
| DeletePoint (segment_index point_index : N)
| DeleteSection (segment_index start_index end_index : N)
| ReplaceSection (segment_index start_index end_index : N) (replacement : list RoutePoint)
| SplitSegment (segment_index at_point_index : N)
| JoinSegments (first_segment_index second_segment_index : N).

#[export] Instance RouteOperation_eq_dec : EqDecision RouteOperation.
Proof. solve_decision. Defined.

(** ** Errors *)

Inductive RouteEditingError : Type :=
| DraftNotFound
| RevisionConflict (expected actual : N)
| DraftNotActive
| InvalidOperation (message : rstr)
| OperationFailed (message : rstr)
| InsufficientPoints (minimum actual : N)
| InvalidSegmentIndex (index count : N)
| InvalidPointIndex (index count : N)
| NothingToUndo
| NothingToRedo
| InvalidCoordinate (message : rstr)
| ActivityNotFound
| ActivityDeleted
| InvalidBaseRouteVersion
| ReplacementTooLarge (maximum actual : N)
| EndpointContinuityViolation (position : rstr) (expected actual : Coordinate).

#[export] Instance RouteEditingError_eq_dec : EqDecision RouteEditingError.
Proof. solve_decision. Defined.

(** The [Display] of a coordinate and of the errors. *)
Definition coordinate_display (c : Coordinate) : rstr :=
  display_f64 (latitude c) ++ lit ", " ++ display_f64 (longitude c).

Definition editing_error_display (e : RouteEditingError) : rstr :=
  match e with
  | DraftNotFound => lit "draft not found"
  | RevisionConflict expected actual => lit "revision conflict: expected " ++ display_N expected
      ++ lit ", got " ++ display_N actual
  | DraftNotActive => lit "draft is not active"
  | InvalidOperation message => lit "invalid operation: " ++ message
  | OperationFailed message => lit "operation failed: " ++ message
  | InsufficientPoints minimum actual => lit "insufficient points: minimum " ++ display_N minimum
      ++ lit ", got " ++ display_N actual
  | InvalidSegmentIndex index count => lit "invalid segment index: " ++ display_N index
      ++ lit ", segment count: " ++ display_N count
  | InvalidPointIndex index count => lit "invalid point index: " ++ display_N index
      ++ lit ", point count: " ++ display_N count
  | NothingToUndo => lit "nothing to undo"
  | NothingToRedo => lit "nothing to redo"
  | InvalidCoordinate message => lit "invalid coordinate: " ++ message
  | ActivityNotFound => lit "activity not found"
  | ActivityDeleted => lit "activity is deleted"
  | InvalidBaseRouteVersion => lit "invalid base route version"
  | ReplacementTooLarge maximum actual => lit "replacement too large: maximum "
      ++ display_N maximum ++ lit ", actual " ++ display_N actual
  | EndpointContinuityViolation position expected actual => lit "endpoint continuity violation at "
      ++ position ++ lit ": expected (" ++ coordinate_display expected ++ lit "), got ("
      ++ coordinate_display actual ++ lit ")"
  end.

(** Derived [PartialEq] of operations, with the IEEE equality of coordinates. *)
Fixpoint list_eqb {A} (eqb : A -> A -> bool) (l k : list A) : bool :=
  match l, k with
  | [], [] => true
  | x :: l, y :: k => eqb x y && list_eqb eqb l k
  | _, _ => false
  end.

Definition RouteOperation_eqb (a b : RouteOperation) : bool :=
  match a, b with
  | MovePoint i j p, MovePoint i' j' p' => (i =? i')%N && (j =? j')%N && Coordinate_eqb p p'
  | AddPoint i j p, AddPoint i' j' p' => (i =? i')%N && (j =? j')%N && RoutePoint_eqb p p'
  | DeletePoint i j, DeletePoint i' j' => (i =? i')%N && (j =? j')%N
  | DeleteSection i j k, DeleteSection i' j' k' => (i =? i')%N && (j =? j')%N && (k =? k')%N
  | ReplaceSection i j k r, ReplaceSection i' j' k' r' =>
      (i =? i')%N && (j =? j')%N && (k =? k')%N && list_eqb RoutePoint_eqb r r'
  | SplitSegment i j, SplitSegment i' j' => (i =? i')%N && (j =? j')%N
  | JoinSegments i j, JoinSegments i' j' => (i =? i')%N && (j =? j')%N
  | _, _ => false
  end.

(** [(-90.0..=90.0).contains(&lat)] and its longitude twin. *)
Definition latitude_in_range (lat : f64) : bool :=
  range_contains (f64_of_Z (-90)) (f64_of_Z 90) lat.
Definition longitude_in_range (lon : f64) : bool :=
  range_contains (f64_of_Z (-180)) (f64_of_Z 180) lon.

(** [Coordinate::new]. *)
Definition Coordinate_new (lat lon : f64) : result RouteEditingError Coordinate :=
  if negb (latitude_in_range lat) then
    Err (InvalidCoordinate (lit "latitude must be between -90 and 90, got " ++ display_f64 lat))
  else if negb (longitude_in_range lon) then
    Err (InvalidCoordinate (lit "longitude must be between -180 and 180, got " ++ display_f64 lon))
  else Ok (mkCoordinate lat lon).

(** ** The draft *)

Inductive DraftState := Active | Published | Discarded.

#[export] Instance DraftState_eq_dec : EqDecision DraftState.
Proof. solve_decision. Defined.

Record OperationEntry := mkEntry {
  oe_id : uuid;
  oe_operation : RouteOperation;
  oe_geometry_before : geometry }.

#[export] Instance OperationEntry_eq_dec : EqDecision OperationEntry.
Proof. solve_decision. Defined.

Record RouteDraft := mkDraft {
  rd_id : uuid;
  rd_activity_id : uuid;
  rd_owner_id : uuid;
  rd_base_route_version_id : option uuid;
  rd_revision : N;
  rd_geometry : geometry;
  rd_applied_operations : list OperationEntry;
  rd_undone_operations : list OperationEntry;
  rd_state : DraftState;
  rd_created_at : datetime;
  rd_updated_at : datetime }.

#[export] Instance RouteDraft_eq_dec : EqDecision RouteDraft.
Proof. solve_decision. Defined.

Definition with_geometry (g : geometry) (d : RouteDraft) : RouteDraft :=
  mkDraft (rd_id d) (rd_activity_id d) (rd_owner_id d) (rd_base_route_version_id d)
    (rd_revision d) g (rd_applied_operations d) (rd_undone_operations d)
    (rd_state d) (rd_created_at d) (rd_updated_at d).
Definition with_stacks (applied undone : list OperationEntry) (d : RouteDraft) : RouteDraft :=
  mkDraft (rd_id d) (rd_activity_id d) (rd_owner_id d) (rd_base_route_version_id d)
    (rd_revision d) (rd_geometry d) applied undone
    (rd_state d) (rd_created_at d) (rd_updated_at d).
Definition with_state (st : DraftState) (d : RouteDraft) : RouteDraft :=
  mkDraft (rd_id d) (rd_activity_id d) (rd_owner_id d) (rd_base_route_version_id d)
    (rd_revision d) (rd_geometry d) (rd_applied_operations d) (rd_undone_operations d)
    st (rd_created_at d) (rd_updated_at d).
(** [self.updated_at = Utc::now()]. *)
Definition touch (now : datetime) (d : RouteDraft) : RouteDraft :=
  mkDraft (rd_id d) (rd_activity_id d) (rd_owner_id d) (rd_base_route_version_id d)
    (rd_revision d) (rd_geometry d) (rd_applied_operations d) (rd_undone_operations d)
    (rd_state d) (rd_created_at d) now.
(** [self.revision += 1]. *)
Definition bump_revision (d : RouteDraft) : RouteDraft :=
  mkDraft (rd_id d) (rd_activity_id d) (rd_owner_id d) (rd_base_route_version_id d)
    (u64_succ (rd_revision d)) (rd_geometry d) (rd_applied_operations d)
    (rd_undone_operations d) (rd_state d) (rd_created_at d) (rd_updated_at d).

Abbreviation edit := (eff RouteDraft RouteEditingError) (only parsing).

(** *** Private helpers of the aggregate *)

Fixpoint validate_segments (g : geometry) : result RouteEditingError unit :=
  match g with
  | [] => Ok tt
  | seg :: g' =>
      if (len seg <? 2)%N then Err (InsufficientPoints 2 (len seg)) else validate_segments g'
  end.

Definition validate_geometry (g : geometry) : result RouteEditingError unit :=
  match g with
  | [] => Err (InvalidOperation (lit "geometry must contain at least 1 segment"))
  | _ => validate_segments g
  end.

Definition check_active : edit unit :=
  d ← get; if decide (rd_state d = Active) then mret tt else throw DraftNotActive.

Definition check_revision (expected : N) : edit unit :=
  d ← get;
  if (expected =? rd_revision d)%N then mret tt
  else throw (RevisionConflict expected (rd_revision d)).

Definition validate_segment_idx (g : geometry) (i : N) : result RouteEditingError unit :=
  if (len g <=? i)%N then Err (InvalidSegmentIndex i (len g)) else Ok tt.

Definition validate_point_idx (g : geometry) (seg pt : N) : result RouteEditingError unit :=
  validate_segment_idx g seg;;
  s ← vec_index g seg;
  if (len s <=? pt)%N then Err (InvalidPointIndex pt (len s)) else Ok tt.

(** [usize] addition. *)
Definition usize_succ (n : N) : N := u64_wrap (n + 1).

(** *** Execution of one operation

    One definition per arm of [execute_operation]; every mutation of
    [self.geometry] is a separate write, so a failure after a write would leave
    the draft changed. *)

Definition exec_move_point (seg pt : N) (new_position : Coordinate) : edit unit :=
  d ← get; let g := rd_geometry d in
  lift (validate_point_idx g seg pt);;
  s ← lift (vec_index g seg);
  p ← lift (vec_index s pt);
  s' ← lift (vec_set s pt (mkRoutePoint new_position (elevation p)));
  g' ← lift (vec_set g seg s');
  modify (with_geometry g').

Definition exec_add_point (seg after : N) (point : RoutePoint) : edit unit :=
  d ← get; let g := rd_geometry d in
  lift (validate_point_idx g seg after);;
  let insert_pos := usize_succ after in
  s ← lift (vec_index g seg);
  s' ← lift (vec_insert s insert_pos point);
  g' ← lift (vec_set g seg s');
  modify (with_geometry g').

Definition exec_delete_point (seg pt : N) : edit unit :=
  d ← get; let g := rd_geometry d in
  lift (validate_point_idx g seg pt);;
  s ← lift (vec_index g seg);
  lift (guard_err (len s <=? 2)%N (InsufficientPoints 2 (len s - 1)));;
  r ← lift (vec_remove s pt);
  g' ← lift (vec_set g seg (snd r));
  modify (with_geometry g').

(** The checks [DeleteSection] and [ReplaceSection] start with. *)
Definition check_section (g : geometry) (seg start_i end_i : N)
    : result RouteEditingError segment :=
  validate_segment_idx g seg;;
  s ← vec_index g seg;
  guard_err (end_i <? start_i)%N (InvalidOperation (lit "start_index must be <= end_index"));;
  guard_err (len s <=? end_i)%N (InvalidPointIndex end_i (len s));;
  mret s.

Definition exec_delete_section (seg start_i end_i : N) : edit unit :=
  d ← get; let g := rd_geometry d in
  s ← lift (check_section g seg start_i end_i);
  let delete_count := (end_i - start_i + 1)%N in
  let remaining := (len s - delete_count)%N in
  lift (guard_err (remaining <? 2)%N (InsufficientPoints 2 remaining));;
  s' ← lift (vec_drain s start_i end_i);
  g' ← lift (vec_set g seg s');
  modify (with_geometry g').

(** An endpoint of the replacement must sit on the point it replaces. *)
Definition check_endpoint (s : segment) (i : N) (position : rstr) (o : option RoutePoint)
    : result RouteEditingError unit :=
  match o with
  | None => Ok tt
  | Some p =>
      q ← vec_index s i;
      guard_err (negb (Coordinate_eqb (coordinate p) (coordinate q)))
        (EndpointContinuityViolation position (coordinate q) (coordinate p))
  end.

Definition exec_replace_section (seg start_i end_i : N) (replacement : list RoutePoint)
    : edit unit :=
  d ← get; let g := rd_geometry d in
  s ← lift (check_section g seg start_i end_i);
  lift (guard_err (MAX_REPLACEMENT_POINTS <? len replacement)%N
          (ReplacementTooLarge MAX_REPLACEMENT_POINTS (len replacement)));;
  lift (guard_err (len replacement <? 2)%N
          (InvalidOperation (lit "replacement must contain at least 2 points")));;
  lift (check_endpoint s start_i (lit "start") (head replacement));;
  lift (check_endpoint s end_i (lit "end") (last replacement));;
  let delete_count := (end_i - start_i + 1)%N in
  let new_len := (len s - delete_count + len replacement)%N in
  lift (guard_err (new_len <? 2)%N (InsufficientPoints 2 new_len));;
  s' ← lift (vec_splice s start_i end_i replacement);
  g' ← lift (vec_set g seg s');
  modify (with_geometry g').

Definition exec_split_segment (seg at_i : N) : edit unit :=
  d ← get; let g := rd_geometry d in
  lift (validate_point_idx g seg at_i);;
  s ← lift (vec_index g seg);
  lift (guard_err (at_i =? 0)%N
          (InvalidOperation (lit "cannot split at the first point of a segment")));;
  lift (guard_err (at_i =? len s - 1)%N
          (InvalidOperation (lit "cannot split at the last point of a segment")));;
  first_part ← lift (vec_to_incl s at_i);
  second_part ← lift (vec_from s at_i);
  lift (guard_err ((len first_part <? 2) || (len second_part <? 2))%N%bool
          (InsufficientPoints 2 (N.min (len first_part) (len second_part))));;
  r ← lift (vec_remove g seg);
  modify (with_geometry (snd r));;
  g2 ← lift (vec_insert (snd r) seg second_part);
  modify (with_geometry g2);;
  g3 ← lift (vec_insert g2 seg first_part);
  modify (with_geometry g3).

(** Joining drops the point shared by the two segments, if they share one. *)
Definition join_points (first second : segment) : segment :=
  if negb (bool_decide (first = [])) && negb (bool_decide (second = [])) &&
     option_eqb RoutePoint_eqb (last first) (head second)
  then first ++ drop 1 second
  else first ++ second.

Definition exec_join_segments (first_i second_i : N) : edit unit :=
  d ← get; let g := rd_geometry d in
  lift (guard_err (negb (second_i =? usize_succ first_i)%N)
          (InvalidOperation (lit "segments must be adjacent to join")));;
  lift (validate_segment_idx g first_i);;
  lift (validate_segment_idx g second_i);;
  r ← lift (vec_remove g second_i);
  modify (with_geometry (snd r));;
  first ← lift (vec_index (snd r) first_i);
  g' ← lift (vec_set (snd r) first_i (join_points first (fst r)));
  modify (with_geometry g').

Definition execute_operation (op : RouteOperation) : edit unit :=
  match op with
  | MovePoint seg pt pos => exec_move_point seg pt pos
  | AddPoint seg after p => exec_add_point seg after p
  | DeletePoint seg pt => exec_delete_point seg pt
  | DeleteSection seg a b => exec_delete_section seg a b
  | ReplaceSection seg a b r => exec_replace_section seg a b r
  | SplitSegment seg i => exec_split_segment seg i
  | JoinSegments i j => exec_join_segments i j
  end.

(** *** Public methods *)

Definition create_from_geometry (new_id : uuid) (now : datetime)
    (owner_id activity_id : uuid) (base_route_version_id : option uuid) (g : geometry)
    : result RouteEditingError RouteDraft :=
  validate_geometry g;;
  mret (mkDraft new_id activity_id owner_id base_route_version_id 0 g [] [] Active now now).

Definition was_applied (op_id : uuid) (d : RouteDraft) : bool :=
  existsb (fun e => (oe_id e =? op_id)%N) (rd_applied_operations d).

Definition apply_operation (now : datetime) (op_id : uuid) (op : RouteOperation)
    (expected_revision : N) : edit unit :=
  check_active;;
  check_revision expected_revision;;
  d ← get;
  if was_applied op_id d then mret tt else
  let geometry_before := rd_geometry d in
  execute_operation op;;
  modify (fun d => with_stacks (rd_applied_operations d) [] d);;
  modify (fun d => with_stacks
    (rd_applied_operations d ++ [mkEntry op_id op geometry_before])
    (rd_undone_operations d) d);;
  modify bump_revision;;
  modify (touch now).

Definition undo (now : datetime) (expected_revision : N) : edit unit :=
  check_active;;
  check_revision expected_revision;;
  d ← get;
  match vec_pop (rd_applied_operations d) with
  | None => throw NothingToUndo
  | Some (e, applied) =>
      modify (with_stacks applied (rd_undone_operations d));;
      modify (with_geometry (oe_geometry_before e));;
      modify (with_stacks applied
        (rd_undone_operations d ++ [mkEntry (oe_id e) (oe_operation e) (rd_geometry d)]));;
      modify bump_revision;;
      modify (touch now)
  end.

Definition redo (now : datetime) (expected_revision : N) : edit unit :=
  check_active;;
  check_revision expected_revision;;
  d ← get;
  match vec_pop (rd_undone_operations d) with
  | None => throw NothingToRedo
  | Some (e, undone) =>
      modify (with_stacks (rd_applied_operations d) undone);;
      modify (with_geometry (oe_geometry_before e));;
      modify (with_stacks
        (rd_applied_operations d ++ [mkEntry (oe_id e) (oe_operation e) (rd_geometry d)])
        undone);;
      modify bump_revision;;
      modify (touch now)
  end.

Definition reset (now : datetime) (expected_revision : N) (base_geometry : geometry)
    : edit unit :=
  check_active;;
  check_revision expected_revision;;
  lift (validate_geometry base_geometry);;
  modify (with_geometry base_geometry);;
  modify (with_stacks [] []);;
  modify bump_revision;;
  modify (touch now).

Definition publish (now : datetime) : edit unit :=
  check_active;; modify (with_state Published);; modify (touch now).

Definition discard (now : datetime) : edit unit :=
  check_active;; modify (with_state Discarded);; modify (touch now).
