(* ===== verification/RouteEditingSpec.v ===== *)
(** What one editing operation does, as a specification on plain lists, and the
    proof that [execute_operation] implements it: it succeeds exactly on the
    valid operations, edits the geometry as specified, leaves the draft alone
    when it fails and never panics. *)
From S2P Require Import Prelude Float64 RustString RustVec RouteEditing.

(** ** Specification *)

Definition set_position (c : Coordinate) (p : RoutePoint) : RoutePoint :=
  mkRoutePoint c (elevation p).

(** Replace the points [a..=b] of a segment by [r]. *)
Definition splice_points (a b : N) (r s : list RoutePoint) : list RoutePoint :=
  take (N.to_nat a) s ++ r ++ drop (S (N.to_nat b)) s.

Definition endpoint_matches (s : list RoutePoint) (i : N) (o : option RoutePoint) : bool :=
  match o, s !! N.to_nat i with
  | Some p, Some q => Coordinate_eqb (coordinate p) (coordinate q)
  | _, _ => false
  end.

(** When an operation may be applied to a geometry. *)
Definition op_valid (op : RouteOperation) (g : geometry) : Prop :=
  match op with
  | MovePoint i j _ | AddPoint i j _ =>
      exists s, g !! N.to_nat i = Some s /\ (j < len s)%N
  | DeletePoint i j =>
      exists s, g !! N.to_nat i = Some s /\ (j < len s)%N /\ (2 < len s)%N
  | DeleteSection i a b =>
      exists s, g !! N.to_nat i = Some s /\ (a <= b < len s)%N /\
                (2 <= len s - (b - a + 1))%N
  | ReplaceSection i a b r =>
      exists s, g !! N.to_nat i = Some s /\ (a <= b < len s)%N /\
                (2 <= len r <= MAX_REPLACEMENT_POINTS)%N /\
                endpoint_matches s a (head r) = true /\
                endpoint_matches s b (last r) = true
  | SplitSegment i k =>
      exists s, g !! N.to_nat i = Some s /\ (0 < k < len s - 1)%N
  | JoinSegments i j => j = (i + 1)%N /\ (j < len g)%N
  end.

(** The geometry a valid operation produces. *)
Definition edited (op : RouteOperation) (g : geometry) : geometry :=
  match op with
  | MovePoint i j c => alter (fun s => alter (set_position c) (N.to_nat j) s) (N.to_nat i) g
  | AddPoint i j p =>
      alter (fun s => take (S (N.to_nat j)) s ++ p :: drop (S (N.to_nat j)) s) (N.to_nat i) g
  | DeletePoint i j => alter (splice_points j j []) (N.to_nat i) g
  | DeleteSection i a b => alter (splice_points a b []) (N.to_nat i) g
  | ReplaceSection i a b r => alter (splice_points a b r) (N.to_nat i) g
  | SplitSegment i k =>
      take (N.to_nat i) g ++
      match g !! N.to_nat i with
      | Some s => [take (S (N.to_nat k)) s; drop (N.to_nat k) s]
      | None => []
      end ++ drop (S (N.to_nat i)) g
  | JoinSegments i j =>
      take (N.to_nat i) g ++
      match g !! N.to_nat i, g !! N.to_nat j with
      | Some s1, Some s2 => [join_points s1 s2]
      | _, _ => []
      end ++ drop (S (N.to_nat j)) g
  end.

(** A [Vec] never holds more than [isize::MAX] elements. *)
Definition vec_fits (g : geometry) : Prop :=
  (len g < 2 ^ 63)%N /\ Forall (fun s => (len s < 2 ^ 63)%N) g.

(** How a call went: it failed and left the draft alone, or [P] held and it
    replaced the geometry by [g']. *)
Definition outcome (m : eff RouteDraft RouteEditingError unit) (d : RouteDraft)
    (g' : geometry) (P : Prop) : Prop :=
  (~ P /\ exists e, m d = (Err e, d)) \/ (P /\ m d = (Ok tt, with_geometry g' d)).

(** ** Lemmas on the checks *)

Lemma vec_fits_lookup g i s : vec_fits g -> g !! i = Some s -> (len s < 2 ^ 63)%N.
Proof. intros [_ H] Hl. by eapply Forall_lookup in H. Qed.

Lemma validate_segment_idx_cases g i :
  (exists s, g !! N.to_nat i = Some s /\ (i < len g)%N /\ validate_segment_idx g i = Ok tt) \/
  (g !! N.to_nat i = None /\ exists e, validate_segment_idx g i = Err e).
Proof.
  unfold validate_segment_idx. destruct (N.leb_spec (len g) i) as [Hle|Hlt].
  - right. split; [|eauto]. apply lookup_ge_None. unfold len in Hle. lia.
  - left. destruct (lookup_len_lt g i Hlt) as [s Hs]. eauto.
Qed.

Lemma validate_point_idx_cases g i j :
  (exists s, g !! N.to_nat i = Some s /\ (j < len s)%N /\ validate_point_idx g i j = Ok tt) \/
  ((forall s, g !! N.to_nat i = Some s -> (len s <= j)%N) /\
   exists e, validate_point_idx g i j = Err e).
Proof.
  unfold validate_point_idx.
  destruct (validate_segment_idx_cases g i) as [(s & Hs & _ & ->)|[HN [e ->]]].
  - run. rewrite (vec_index_ok _ _ _ Hs).
    destruct (N.leb_spec (len s) j); [right|left; by exists s].
    split; [intros s' Hs'; by simplify_eq|eauto].
  - right. split; [by rewrite HN|]. run. eauto.
Qed.

Lemma alter_insert_lookup {A} (f : A -> A) (l : list A) i x :
  l !! i = Some x -> <[i := f x]> l = alter f i l.
Proof.
  intros Hx. apply list_eq. intros j. destruct (decide (i = j)) as [->|Hne].
  - rewrite list_lookup_insert_eq, list_lookup_alter_eq, Hx by (by eapply lookup_lt_Some).
    done.
  - by rewrite list_lookup_insert_ne, list_lookup_alter_ne by done.
Qed.

(** Writing an edited segment back. *)
Lemma vec_set_alter {E} (g : geometry) (i : N) s (f : list RoutePoint -> list RoutePoint) :
  g !! N.to_nat i = Some s ->
  vec_set g i (f s) = Ok (E := E) (alter f (N.to_nat i) g).
Proof.
  intros Hs. rewrite vec_set_ok.
  - by rewrite (alter_insert_lookup f g _ s Hs).
  - apply lookup_lt_Some in Hs. unfold len. lia.
Qed.

(** ** One lemma per operation *)

Ltac fails := left; split; [|by eexists; run].
Ltac succeeds := right; split.

Lemma exec_move_point_spec i j c d :
  outcome (exec_move_point i j c) d (edited (MovePoint i j c) (rd_geometry d))
    (op_valid (MovePoint i j c) (rd_geometry d)).
Proof.
  unfold outcome, exec_move_point, op_valid, edited. run.
  destruct (validate_point_idx_cases (rd_geometry d) i j)
    as [(s & Hs & Hj & ->)|[HN [e ->]]].
  - right. split; [eauto|].
    rewrite (vec_index_ok _ _ _ Hs). destruct (lookup_len_lt s j Hj) as [p Hp].
    rewrite (vec_index_ok _ _ _ Hp), (vec_set_ok s j) by done.
    change (mkRoutePoint c (elevation p)) with (set_position c p).
    rewrite (alter_insert_lookup (set_position c) s _ p Hp).
    by rewrite (vec_set_alter _ _ s (fun s => alter (set_position c) (N.to_nat j) s) Hs).
  - left. split; [|eauto]. intros (s & Hs & Hj). apply HN in Hs. lia.
Qed.

Lemma exec_add_point_spec i j p d :
  vec_fits (rd_geometry d) ->
  outcome (exec_add_point i j p) d (edited (AddPoint i j p) (rd_geometry d))
    (op_valid (AddPoint i j p) (rd_geometry d)).
Proof.
  intros Hfit. unfold outcome, exec_add_point, op_valid, edited. run.
  destruct (validate_point_idx_cases (rd_geometry d) i j)
    as [(s & Hs & Hj & ->)|[HN [e ->]]].
  - right. split; [eauto|].
    rewrite (vec_index_ok _ _ _ Hs). pose proof (vec_fits_lookup _ _ _ Hfit Hs).
    assert (usize_succ j = j + 1)%N as ->.
    { apply N.mod_small. unfold u64_modulus. lia. }
    rewrite vec_insert_ok by lia. replace (N.to_nat (j + 1)) with (S (N.to_nat j)) by lia.
    by rewrite (vec_set_alter _ _ s
      (fun s => take (S (N.to_nat j)) s ++ p :: drop (S (N.to_nat j)) s) Hs).
  - left. split; [|eauto]. intros (s & Hs & Hj). apply HN in Hs. lia.
Qed.

Lemma exec_delete_point_spec i j d :
  outcome (exec_delete_point i j) d (edited (DeletePoint i j) (rd_geometry d))
    (op_valid (DeletePoint i j) (rd_geometry d)).
Proof.
  unfold outcome, exec_delete_point, op_valid, edited. run.
  destruct (validate_point_idx_cases (rd_geometry d) i j)
    as [(s & Hs & Hj & ->)|[HN [e ->]]].
  - rewrite (vec_index_ok _ _ _ Hs). unfold guard_err.
    destruct (N.leb_spec (len s) 2) as [Hle|Hlt].
    + left. split; [|eauto]. intros (s' & Hs' & _ & ?). simplify_eq. lia.
    + right. split; [eauto|]. destruct (lookup_len_lt s j Hj) as [p Hp].
      rewrite (vec_remove_ok _ _ _ Hp). simpl.
      by rewrite (vec_set_alter _ _ s (splice_points j j []) Hs).
  - left. split; [|eauto]. intros (s & Hs & Hj & _). apply HN in Hs. lia.
Qed.

Lemma check_section_cases g i a b :
  (exists s, g !! N.to_nat i = Some s /\ (a <= b < len s)%N /\ check_section g i a b = Ok s) \/
  ((forall s, g !! N.to_nat i = Some s -> ~ (a <= b < len s)%N) /\
   exists e, check_section g i a b = Err e).
Proof.
  unfold check_section, guard_err.
  destruct (validate_segment_idx_cases g i) as [(s & Hs & _ & ->)|[HN [e ->]]].
  - run. rewrite (vec_index_ok _ _ _ Hs).
    destruct (N.ltb_spec b a), (N.leb_spec (len s) b);
      [right; split; [intros s' ?; simplify_eq; lia|eauto]..|left].
    exists s. split_and!; [done|lia|lia|done].
  - right. split; [by rewrite HN|]. run. eauto.
Qed.

Lemma exec_delete_section_spec i a b d :
  outcome (exec_delete_section i a b) d (edited (DeleteSection i a b) (rd_geometry d))
    (op_valid (DeleteSection i a b) (rd_geometry d)).
Proof.
  unfold outcome, exec_delete_section, op_valid, edited. run.
  destruct (check_section_cases (rd_geometry d) i a b) as [(s & Hs & Hab & ->)|[HN [e ->]]].
  - unfold guard_err. destruct (N.ltb_spec (len s - (b - a + 1)) 2) as [Hlt|Hge].
    + left. split; [|eauto]. intros (s' & Hs' & _ & ?). simplify_eq. lia.
    + right. split; [eauto|]. unfold vec_drain. rewrite vec_splice_ok by lia.
      by rewrite (vec_set_alter _ _ s (splice_points a b []) Hs).
  - left. split; [|eauto]. intros (s & Hs & Hj & _). by apply HN in Hs.
Qed.

Lemma check_endpoint_cases s i pos p :
  (i < len s)%N ->
  (endpoint_matches s i (Some p) = true /\ check_endpoint s i pos (Some p) = Ok tt) \/
  (endpoint_matches s i (Some p) = false /\ exists e, check_endpoint s i pos (Some p) = Err e).
Proof.
  intros Hi. destruct (lookup_len_lt s i Hi) as [q Hq].
  unfold check_endpoint, endpoint_matches. run.
  rewrite (vec_index_ok _ _ _ Hq), Hq. unfold guard_err.
  destruct (Coordinate_eqb _ _); simpl; eauto.
Qed.

Lemma exec_replace_section_spec i a b r d :
  outcome (exec_replace_section i a b r) d (edited (ReplaceSection i a b r) (rd_geometry d))
    (op_valid (ReplaceSection i a b r) (rd_geometry d)).
Proof.
  unfold outcome, exec_replace_section, op_valid, edited. run.
  destruct (check_section_cases (rd_geometry d) i a b) as [(s & Hs & Hab & ->)|[HN [e ->]]];
    [|left; split; [|eauto]; intros (s & Hs & Hj & _); by apply HN in Hs].
  unfold guard_err at 1. destruct (N.ltb_spec MAX_REPLACEMENT_POINTS (len r)) as [Hmax|Hmax];
    [left; split; [intros (s' & ? & ? & ? & _); lia|eauto]|].
  unfold guard_err at 1. destruct (N.ltb_spec (len r) 2) as [Hmin|Hmin];
    [left; split; [intros (s' & ? & ? & ? & _); lia|eauto]|].
  destruct r as [|p0 r0] eqn:Er; [done|]. rewrite <- Er in *.
  assert (head r = Some p0) as Hh by (by rewrite Er).
  destruct (last r) as [p1|] eqn:Hl; [|apply last_None in Hl; congruence].
  rewrite Hh.
  destruct (check_endpoint_cases s a (lit "start") p0) as [[Hm ->]|[Hm [e ->]]]; [lia|..];
    [|left; split; [intros (s' & ? & ? & ? & ? & _); simplify_eq; congruence|eauto]].
  destruct (check_endpoint_cases s b (lit "end") p1) as [[Hm' ->]|[Hm' [e ->]]]; [lia|..];
    [|left; split; [intros (s' & ? & ? & ? & ? & ?); simplify_eq; congruence|eauto]].
  unfold guard_err. destruct (N.ltb_spec (len s - (b - a + 1) + len r) 2); [lia|].
  right. split; [exists s; split_and!; (done || lia)|].
  rewrite vec_splice_ok by lia.
  by rewrite (vec_set_alter _ _ s (splice_points a b r) Hs).
Qed.

Lemma exec_split_segment_spec i k d :
  outcome (exec_split_segment i k) d (edited (SplitSegment i k) (rd_geometry d))
    (op_valid (SplitSegment i k) (rd_geometry d)).
Proof.
  unfold outcome, exec_split_segment, op_valid, edited. run.
  destruct (validate_point_idx_cases (rd_geometry d) i k)
    as [(s & Hs & Hk & ->)|[HN [e ->]]];
    [|left; split; [|eauto]; intros (s & Hs & Hk); apply HN in Hs; lia].
  rewrite (vec_index_ok _ _ _ Hs), Hs. unfold guard_err at 1.
  destruct (N.eqb_spec k 0) as [->|H0];
    [left; split; [intros (s' & ? & ?); lia|eauto]|].
  unfold guard_err at 1. destruct (N.eqb_spec k (len s - 1)) as [->|H1];
    [left; split; [intros (s' & ? & ?); simplify_eq; lia|eauto]|].
  right. split; [exists s; split; [done|lia]|].
  rewrite vec_to_incl_ok, vec_from_ok by lia.
  unfold guard_err. rewrite !(proj2 (N.ltb_ge _ _)); cycle 1.
  { unfold len in *. rewrite length_drop. lia. }
  { unfold len in *. rewrite length_take. lia. }
  simpl. rewrite (vec_remove_ok _ _ _ Hs). simpl.
  apply lookup_lt_Some in Hs.
  set (g := rd_geometry d) in *. set (n := N.to_nat i) in *.
  assert (length (take n g) = n) as Hn by (rewrite length_take; lia).
  rewrite vec_insert_ok by (unfold len; rewrite length_app, length_drop; lia).
  rewrite take_app_length', drop_app_length' by (unfold n in *; lia).
  rewrite vec_insert_ok by (unfold len; rewrite length_app; simpl; rewrite length_drop; lia).
  by rewrite take_app_length', drop_app_length' by (unfold n in *; lia).
Qed.

Lemma exec_join_segments_spec i j d :
  vec_fits (rd_geometry d) ->
  outcome (exec_join_segments i j) d (edited (JoinSegments i j) (rd_geometry d))
    (op_valid (JoinSegments i j) (rd_geometry d)).
Proof.
  intros [Hfit _]. unfold outcome, exec_join_segments, op_valid, edited. run.
  unfold guard_err. destruct (N.eqb_spec j (usize_succ i)) as [Hj|Hj]; simpl.
  2:{ left. split; [|eauto]. intros [-> Hlt]. apply Hj. symmetry.
      apply u64_succ_small. unfold u64_modulus. lia. }
  destruct (validate_segment_idx_cases (rd_geometry d) i) as [(s1 & Hs1 & Hi & ->)|[HN [e ->]]].
  2:{ left. split; [|eauto]. intros [-> Hlt]. apply lookup_ge_None in HN.
      unfold len in Hlt. lia. }
  assert (j = i + 1)%N as ->.
  { rewrite Hj. apply u64_succ_small. unfold u64_modulus. lia. }
  destruct (validate_segment_idx_cases (rd_geometry d) (i + 1))
    as [(s2 & Hs2 & Hi2 & ->)|[HN [e ->]]].
  2:{ left. split; [|eauto]. intros [_ Hlt]. apply lookup_ge_None in HN.
      unfold len in Hlt. lia. }
  right. split; [done|]. rewrite (vec_remove_ok _ _ _ Hs2). simpl.
  replace (N.to_nat (i + 1)) with (S (N.to_nat i)) in * by lia.
  set (g := rd_geometry d) in *. set (n := N.to_nat i) in *.
  rewrite Hs1, Hs2. rewrite (take_S_r _ _ _ Hs1), <- app_assoc. simpl.
  apply lookup_lt_Some in Hs1.
  assert (length (take n g) = n) as Hn by (rewrite length_take; lia).
  assert ((take n g ++ s1 :: drop (S (S n)) g) !! N.to_nat i = Some s1) as Hl.
  { fold n. by rewrite list_lookup_middle. }
  rewrite (vec_index_ok _ _ _ Hl), vec_set_ok.
  - fold n. rewrite <- Hn at 1. replace (length (take n g)) with (length (take n g) + 0) by lia.
    by rewrite insert_app_r.
  - apply lookup_lt_Some in Hl. unfold len. lia.
Qed.

(** Every operation implements its specification. *)
Lemma execute_operation_spec op d :
  vec_fits (rd_geometry d) ->
  outcome (execute_operation op) d (edited op (rd_geometry d)) (op_valid op (rd_geometry d)).
Proof.
  intros. destruct op;
    eauto using exec_move_point_spec, exec_add_point_spec, exec_delete_point_spec,
      exec_delete_section_spec, exec_replace_section_spec, exec_split_segment_spec,
      exec_join_segments_spec.
Qed.

(** ** Well-formed geometries *)

(** At least one segment, and at least two points in each: what
    [validate_geometry] demands of a base geometry. *)
Definition geometry_wf (g : geometry) : Prop :=
  g <> [] /\ Forall (fun s => 2 <= length s) g.

Lemma validate_segments_ok g :
  validate_segments g = Ok tt <-> Forall (fun s => 2 <= length s) g.
Proof.
  induction g as [|s g IH]; simpl; [naive_solver|].
  rewrite Forall_cons, <- IH. unfold len.
  destruct (N.ltb_spec (N.of_nat (length s)) 2); naive_solver lia.
Qed.

Lemma validate_geometry_ok g : validate_geometry g = Ok tt <-> geometry_wf g.
Proof.
  unfold validate_geometry, geometry_wf. destruct g; [naive_solver|].
  rewrite validate_segments_ok. naive_solver.
Qed.

Lemma validate_geometry_cases g :
  (geometry_wf g /\ validate_geometry g = Ok tt) \/
  (~ geometry_wf g /\ exists e, validate_geometry g = Err e).
Proof.
  assert (forall l, validate_segments l <> Panicked) as Hs.
  { induction l as [|s l IH]; simpl; [done|]. by destruct (_ <? _)%N. }
  pose proof (validate_geometry_ok g) as Hok.
  destruct (validate_geometry g) as [[]|e|] eqn:Hv; [left; naive_solver| |].
  - right. split; [intros H%Hok; done|eauto].
  - destruct g; [done|]. by apply Hs in Hv.
Qed.

Lemma Forall_alter_lookup {A} (P : A -> Prop) (f : A -> A) (l : list A) i x :
  Forall P l -> l !! i = Some x -> P (f x) -> Forall P (alter f i l).
Proof.
  intros HF Hl HP. apply Forall_alter; [done|]. intros y Hy. by simplify_eq.
Qed.

Lemma length_splice_points a b r s :
  (a <= b < len s)%N ->
  length (splice_points a b r s) = length s - (N.to_nat b - N.to_nat a + 1) + length r.
Proof. intros. apply length_splice; unfold len in *; lia. Qed.

Lemma alter_nil_iff {A} (f : A -> A) i (l : list A) : alter f i l = [] <-> l = [].
Proof. split; [|by intros ->]. intros H%(f_equal length). rewrite length_alter in H. by destruct l. Qed.

(** A valid operation keeps a geometry well formed. *)
Lemma edited_wf op g : geometry_wf g -> op_valid op g -> geometry_wf (edited op g).
Proof.
  intros [Hne Hall] Hv.
  assert (forall i s, g !! i = Some s -> 2 <= length s) as Hlook.
  { intros i s Hs. by eapply Forall_lookup in Hall. }
  assert (forall f i s, g !! i = Some s -> 2 <= length (f s) -> geometry_wf (alter f i g)) as Halt.
  { intros f i s Hs Hf. split; [by rewrite alter_nil_iff|]. by eapply Forall_alter_lookup. }
  destruct op; simpl in Hv |- *.
  - destruct Hv as (s & Hs & Hj). eapply Halt; [done|]. rewrite length_alter. eauto.
  - destruct Hv as (s & Hs & Hj). eapply Halt; [done|].
    rewrite length_app. simpl. rewrite length_take, length_drop. apply Hlook in Hs.
    unfold len in Hj. lia.
  - destruct Hv as (s & Hs & Hj & Hlen). eapply Halt; [done|].
    rewrite length_splice_points by lia. simpl. unfold len in *. lia.
  - destruct Hv as (s & Hs & Hj & Hlen). eapply Halt; [done|].
    rewrite length_splice_points by lia. simpl. unfold len in *. lia.
  - destruct Hv as (s & Hs & Hj & Hlen & _). eapply Halt; [done|].
    rewrite length_splice_points by lia. unfold len in *. lia.
  - destruct Hv as (s & Hs & Hk). rewrite Hs. split; [by destruct (take _ g)|].
    rewrite !Forall_app. split_and!; [by apply Forall_take| |by apply Forall_drop].
    unfold len in Hk. repeat constructor; [rewrite length_take|rewrite length_drop]; lia.
  - destruct Hv as [-> Hlt]. unfold len in Hlt.
    destruct (lookup_lt_is_Some_2 g (N.to_nat first_segment_index)) as [s1 Hs1]; [lia|].
    destruct (lookup_lt_is_Some_2 g (N.to_nat (first_segment_index + 1))) as [s2 Hs2]; [lia|].
    rewrite Hs1, Hs2. split; [by destruct (take _ g)|].
    rewrite !Forall_app. split_and!; [by apply Forall_take| |by apply Forall_drop].
    repeat constructor. apply Hlook in Hs1.
    unfold join_points. destruct (_ && _); rewrite length_app; lia.
Qed.
