(* ===== verification/RouteDraftTheory.v ===== *)
(** Properties of the [RouteDraft] aggregate: the invariant of its reachable
    states, undo and redo as motion along a timeline, optimistic concurrency,
    idempotency, atomicity of failures and immutability of closed drafts. *)
From S2P Require Import Prelude Float64 RustString RustVec RouteEditing RouteEditingSpec.

(** ** Calls and reachable drafts *)

(** A call of one of the public mutating methods. *)
Inductive DraftCall : Type :=
| CallApply (now : datetime) (op_id : uuid) (op : RouteOperation) (expected : N)
| CallUndo (now : datetime) (expected : N)
| CallRedo (now : datetime) (expected : N)
| CallReset (now : datetime) (expected : N) (base : geometry)
| CallPublish (now : datetime)
| CallDiscard (now : datetime).

Definition run_call (c : DraftCall) : eff RouteDraft RouteEditingError unit :=
  match c with
  | CallApply now i op r => apply_operation now i op r
  | CallUndo now r => undo now r
  | CallRedo now r => redo now r
  | CallReset now r g => reset now r g
  | CallPublish now => publish now
  | CallDiscard now => discard now
  end.

(** The revision a call expects, for the calls that carry one. *)
Definition call_expects (c : DraftCall) : option N :=
  match c with
  | CallApply _ _ _ r | CallUndo _ r | CallRedo _ r | CallReset _ r _ => Some r
  | CallPublish _ | CallDiscard _ => None
  end.

(** One call, whatever its outcome, on a draft whose vectors fit in memory. *)
Definition draft_step (d d' : RouteDraft) : Prop :=
  vec_fits (rd_geometry d) /\ exists c, d' = snd (run_call c d).

(** ** The exact effect of each method *)

Definition applied_draft (now : datetime) (op_id : uuid) (op : RouteOperation)
    (d : RouteDraft) : RouteDraft :=
  touch now (bump_revision (with_stacks
    (rd_applied_operations d ++ [mkEntry op_id op (rd_geometry d)]) []
    (with_geometry (edited op (rd_geometry d)) d))).

Definition swap_entry (e : OperationEntry) (g : geometry) : OperationEntry :=
  mkEntry (oe_id e) (oe_operation e) g.

Definition undone_draft (now : datetime) (applied : list OperationEntry)
    (e : OperationEntry) (d : RouteDraft) : RouteDraft :=
  touch now (bump_revision (with_stacks applied
    (rd_undone_operations d ++ [swap_entry e (rd_geometry d)])
    (with_geometry (oe_geometry_before e) d))).

Definition redone_draft (now : datetime) (undone : list OperationEntry)
    (e : OperationEntry) (d : RouteDraft) : RouteDraft :=
  touch now (bump_revision (with_stacks
    (rd_applied_operations d ++ [swap_entry e (rd_geometry d)]) undone
    (with_geometry (oe_geometry_before e) d))).

(** What a call that is let through does. *)
Definition effect_of (c : DraftCall) (d d' : RouteDraft) : Prop :=
  match c with
  | CallApply now i op _ =>
      if was_applied i d then d' = d
      else op_valid op (rd_geometry d) /\ d' = applied_draft now i op d
  | CallUndo now _ => exists applied e,
      rd_applied_operations d = applied ++ [e] /\ d' = undone_draft now applied e d
  | CallRedo now _ => exists undone e,
      rd_undone_operations d = undone ++ [e] /\ d' = redone_draft now undone e d
  | CallReset now _ g =>
      geometry_wf g /\ d' = touch now (bump_revision (with_stacks [] [] (with_geometry g d)))
  | CallPublish now => d' = touch now (with_state Published d)
  | CallDiscard now => d' = touch now (with_state Discarded d)
  end.

(** The guards every call goes through first. *)
Definition passes_guards (c : DraftCall) (d : RouteDraft) : Prop :=
  rd_state d = Active /\
  match call_expects c with Some r => r = rd_revision d | None => True end.

Lemma check_active_run d :
  check_active d = if decide (rd_state d = Active) then (Ok tt, d) else (Err DraftNotActive, d).
Proof. unfold check_active. run. by case_decide. Qed.

Lemma check_revision_run r d :
  check_revision r d = if (r =? rd_revision d)%N then (Ok tt, d)
                       else (Err (RevisionConflict r (rd_revision d)), d).
Proof. unfold check_revision. run. by destruct (r =? rd_revision d)%N. Qed.

Lemma not_active_rejected c d :
  rd_state d <> Active -> run_call c d = (Err DraftNotActive, d).
Proof.
  intros Hs.
  assert (check_active d = (Err DraftNotActive, d)) as Hca
    by (rewrite check_active_run; by case_decide).
  destruct c; simpl; unfold apply_operation, undo, redo, reset, publish, discard;
    by rewrite (eff_bind_err _ _ _ _ _ Hca).
Qed.

Lemma stale_rejected c r d :
  rd_state d = Active -> call_expects c = Some r -> r <> rd_revision d ->
  run_call c d = (Err (RevisionConflict r (rd_revision d)), d).
Proof.
  intros Hs Hr Hne.
  assert (check_revision r d = (Err (RevisionConflict r (rd_revision d)), d)) as Hcr.
  { rewrite check_revision_run. by apply N.eqb_neq in Hne as ->. }
  assert (check_active d = (Ok tt, d)) as Hca by (rewrite check_active_run; by case_decide).
  destruct c; simplify_eq/=; unfold apply_operation, undo, redo, reset;
    rewrite (eff_bind_ok _ _ _ _ _ Hca); by rewrite (eff_bind_err _ _ _ _ _ Hcr).
Qed.

(** Past the guards, a call either fails without a trace or has its effect. *)
Lemma guarded_run c d :
  vec_fits (rd_geometry d) -> passes_guards c d ->
  (exists e, run_call c d = (Err e, d) /\ forall d', ~ effect_of c d d') \/
  (exists d', run_call c d = (Ok tt, d') /\ effect_of c d d').
Proof.
  intros Hfit [Hs Hr].
  assert (check_active d = (Ok tt, d)) as Hca by (rewrite check_active_run; by case_decide).
  assert (forall r, r = rd_revision d -> check_revision r d = (Ok tt, d)) as Hcr.
  { intros r ->. by rewrite check_revision_run, N.eqb_refl. }
  destruct c as [now i op r|now r|now r|now r g|now|now]; simpl in Hr |- *;
    unfold apply_operation, undo, redo, reset, publish, discard;
    rewrite (eff_bind_ok _ _ _ _ _ Hca); try rewrite (eff_bind_ok _ _ _ _ _ (Hcr _ Hr)).
  - run. destruct (was_applied i d); [right; eauto|].
    destruct (execute_operation_spec op d Hfit) as [[HnP [e He]]|[HP He]]; rewrite He.
    + left. exists e. split; [done|]. by intros d' [? _].
    + right. eexists. split; [reflexivity|]. done.
  - run. destruct (vec_pop (rd_applied_operations d)) as [[e applied]|] eqn:Hp.
    + right. eexists. split; [reflexivity|]. apply vec_pop_inv in Hp. by exists applied, e.
    + left. eexists. split; [reflexivity|]. intros d' (ap & e & Hq & _).
      by rewrite Hq, vec_pop_snoc in Hp.
  - run. destruct (vec_pop (rd_undone_operations d)) as [[e undone]|] eqn:Hp.
    + right. eexists. split; [reflexivity|]. apply vec_pop_inv in Hp. by exists undone, e.
    + left. eexists. split; [reflexivity|]. intros d' (ap & e & Hq & _).
      by rewrite Hq, vec_pop_snoc in Hp.
  - run. destruct (validate_geometry_cases g) as [[Hg ->]|[Hg [e ->]]].
    + right. eexists. split; [reflexivity|]. done.
    + left. eexists. split; [reflexivity|]. by intros d' [? _].
  - right. eexists. split; [reflexivity|]. done.
  - right. eexists. split; [reflexivity|]. done.
Qed.

Lemma run_call_cases c d :
  vec_fits (rd_geometry d) ->
  (exists e, run_call c d = (Err e, d)) \/
  (exists d', run_call c d = (Ok tt, d') /\ passes_guards c d /\ effect_of c d d').
Proof.
  intros Hfit.
  destruct (decide (rd_state d = Active)) as [Ha|Ha]; [|left; eauto using not_active_rejected].
  destruct (call_expects c) as [r|] eqn:Hr.
  - destruct (decide (r = rd_revision d)) as [->|Hne]; [|left; eauto using stale_rejected].
    assert (passes_guards c d) as Hg by (split; [done|by rewrite Hr]).
    destruct (guarded_run c d Hfit Hg) as [(e & He & _)|(d' & Hd & Hf)]; eauto 8.
  - assert (passes_guards c d) as Hg by (split; [done|by rewrite Hr]).
    destruct (guarded_run c d Hfit Hg) as [(e & He & _)|(d' & Hd & Hf)]; eauto 8.
Qed.

(** ** The invariant *)

Definition all_operations (d : RouteDraft) : list OperationEntry :=
  rd_applied_operations d ++ rd_undone_operations d.

(** The geometry and every snapshot are well formed, and no operation
    identifier occurs twice in the two stacks. *)
Definition draft_wf (d : RouteDraft) : Prop :=
  geometry_wf (rd_geometry d) /\
  Forall (fun e => geometry_wf (oe_geometry_before e)) (all_operations d) /\
  NoDup (map oe_id (all_operations d)).

Lemma was_applied_iff i d :
  was_applied i d = true <-> i ∈ map oe_id (rd_applied_operations d).
Proof.
  unfold was_applied. rewrite existsb_exists, list_elem_of_fmap. split.
  - intros (e & Hin & He). exists e. apply N.eqb_eq in He. by rewrite list_elem_of_In.
  - intros (e & -> & Hin). exists e. rewrite N.eqb_refl, <- list_elem_of_In. done.
Qed.

Lemma effect_preserves_wf c d d' : draft_wf d -> effect_of c d d' -> draft_wf d'.
Proof.
  unfold draft_wf, all_operations. intros (Hg & Hs & Hn) He.
  destruct c as [now i op r|now r|now r|now r g|now|now]; simpl in He.
  - destruct (was_applied i d) eqn:Hw; [by subst|]. destruct He as [Hv ->]. simpl.
    rewrite app_nil_r, map_app. apply Forall_app in Hs as [Hs _].
    rewrite map_app, NoDup_app in Hn. destruct Hn as (Hn & _ & _).
    split_and!; [by apply edited_wf|apply Forall_app; split; [done|by apply Forall_singleton]|].
    apply NoDup_app. split_and!; [done| |apply NoDup_singleton].
    intros x Hx. simpl. rewrite list_elem_of_singleton. intros ->.
    apply was_applied_iff in Hx. congruence.
  - destruct He as (applied & e & Ha & ->). simpl. rewrite Ha in *.
    rewrite <- app_assoc in Hs, Hn. rewrite !Forall_app, Forall_singleton in *.
    destruct Hs as (? & ? & ?). split_and!; [done..|].
    revert Hn. rewrite !map_app. simpl.
    by rewrite (Permutation_cons_append (map oe_id (rd_undone_operations d))).
  - destruct He as (undone & e & Hu & ->). simpl. rewrite Hu in *.
    rewrite <- app_assoc. rewrite !Forall_app, Forall_singleton in *.
    destruct Hs as (? & ? & ?). split_and!; [done..|].
    revert Hn. rewrite !map_app. simpl.
    by rewrite (Permutation_cons_append (map oe_id undone)).
  - destruct He as [Hwf ->]. simpl. split_and!; [done..|constructor|constructor].
  - by subst.
  - by subst.
Qed.

Lemma draft_step_wf d d' : draft_wf d -> draft_step d d' -> draft_wf d'.
Proof.
  intros Hwf [Hfit [c ->]].
  destruct (run_call_cases c d Hfit) as [[e ->]|(d' & -> & _ & He)]; [done|].
  by eapply effect_preserves_wf.
Qed.

(** ** Undo and redo as motion along a timeline *)

(** The abstract editor: the geometries of a linear history and a cursor. *)
Record editor := mkEditor { timeline : list geometry; cursor : nat }.

Definition current (ed : editor) : option geometry := timeline ed !! cursor ed.

(** The history a draft stores: the snapshots under the cursor, the current
    geometry, and the snapshots of the redo stack from its top down. *)
Definition history (d : RouteDraft) : editor :=
  mkEditor (map oe_geometry_before (rd_applied_operations d) ++
            rd_geometry d :: reverse (map oe_geometry_before (rd_undone_operations d)))
           (length (rd_applied_operations d)).

(** What each call may do to the abstract editor. *)
Definition editor_step (c : DraftCall) (ed ed' : editor) : Prop :=
  match c with
  | CallApply _ _ op _ =>
      ed' = ed \/
      exists g, current ed = Some g /\ op_valid op g /\
        ed' = mkEditor (take (S (cursor ed)) (timeline ed) ++ [edited op g]) (S (cursor ed))
  | CallUndo _ _ => exists n, cursor ed = S n /\ ed' = mkEditor (timeline ed) n
  | CallRedo _ _ =>
      S (cursor ed) < length (timeline ed) /\ ed' = mkEditor (timeline ed) (S (cursor ed))
  | CallReset _ _ g => ed' = mkEditor [g] 0
  | CallPublish _ | CallDiscard _ => ed' = ed
  end.

Lemma history_current d : current (history d) = Some (rd_geometry d).
Proof.
  unfold current, history. simpl. apply list_lookup_middle. by rewrite length_map.
Qed.

Lemma history_undone now applied e d :
  rd_applied_operations d = applied ++ [e] ->
  history (undone_draft now applied e d) =
    mkEditor (timeline (history d)) (length applied).
Proof.
  intros Ha. unfold history. simpl. rewrite Ha, !map_app, reverse_app, <- app_assoc. done.
Qed.

Lemma history_redone now undone e d :
  rd_undone_operations d = undone ++ [e] ->
  history (redone_draft now undone e d) =
    mkEditor (timeline (history d)) (S (length (rd_applied_operations d))).
Proof.
  intros Hu. unfold history. simpl.
  rewrite Hu, !map_app, reverse_app, <- app_assoc, length_app, Nat.add_comm. done.
Qed.

Lemma take_snoc_middle {A} (l k : list A) x n :
  length l = n -> take (S n) (l ++ x :: k) = l ++ [x].
Proof.
  intros <-. rewrite cons_middle, app_assoc. apply take_app_length'.
  rewrite length_app, Nat.add_comm. done.
Qed.

Lemma effect_refines_editor c d d' :
  effect_of c d d' -> editor_step c (history d) (history d').
Proof.
  intros He. destruct c as [now i op r|now r|now r|now r g|now|now]; simpl in He |- *.
  - destruct (was_applied i d); [left; by subst|]. destruct He as [Hv ->]. right.
    exists (rd_geometry d). split_and!; [apply history_current|done|].
    unfold history. simpl. rewrite length_app, Nat.add_comm, map_app. f_equal.
    replace (reverse (map oe_geometry_before [])) with (@nil geometry) by done.
    f_equal. by rewrite take_snoc_middle by (by rewrite length_map).
  - destruct He as (applied & e & Ha & ->). exists (length applied).
    rewrite (history_undone _ _ _ _ Ha). split; [|done]. by rewrite Ha, length_app, Nat.add_comm.
  - destruct He as (undone & e & Hu & ->). rewrite (history_redone _ _ _ _ Hu). split; [|done].
    rewrite Hu, map_app, reverse_app, length_app, length_map. simpl. lia.
  - by destruct He as [_ ->].
  - by subst.
  - by subst.
Qed.
