(* ===== verification/RouteDraftProperties.v ===== *)
(** What the [RouteDraft] aggregate guarantees: the invariant of its reachable
    states, refinement of an abstract editor, undo and redo as inverses,
    optimistic concurrency, idempotent retries, atomic failures, immutability
    of closed drafts, and the exact meaning of every operation. *)
From S2P Require Import Prelude Float64 RustString RustVec RouteEditing RouteEditingSpec.
From S2P Require Import RouteDraftTheory.

(** ** Undo and redo at the current revision *)

Definition undo_here (now : datetime) : eff RouteDraft RouteEditingError unit :=
  d ← get; undo now (rd_revision d).
Definition redo_here (now : datetime) : eff RouteDraft RouteEditingError unit :=
  d ← get; redo now (rd_revision d).

(** What undo and redo leave alone, and what they restore. *)
Definition same_edits (d d' : RouteDraft) : Prop :=
  rd_geometry d = rd_geometry d' /\
  rd_applied_operations d = rd_applied_operations d' /\
  rd_undone_operations d = rd_undone_operations d' /\
  rd_state d = rd_state d'.

Lemma undo_here_run now d applied e :
  rd_state d = Active -> rd_applied_operations d = applied ++ [e] ->
  undo_here now d = (Ok tt, undone_draft now applied e d).
Proof.
  intros Hs Ha. unfold undo_here, undo. run.
  rewrite check_active_run. case_decide; [|done].
  rewrite check_revision_run, N.eqb_refl, Ha, vec_pop_snoc. done.
Qed.

Lemma redo_here_run now d undone e :
  rd_state d = Active -> rd_undone_operations d = undone ++ [e] ->
  redo_here now d = (Ok tt, redone_draft now undone e d).
Proof.
  intros Hs Hu. unfold redo_here, redo. run.
  rewrite check_active_run. case_decide; [|done].
  rewrite check_revision_run, N.eqb_refl, Hu, vec_pop_snoc. done.
Qed.

Lemma swap_entry_swap e g : swap_entry (swap_entry e g) (oe_geometry_before e) = e.
Proof. by destruct e. Qed.

Lemma for_each_snoc {S E A} (l : list A) (x : A) (f : A -> eff S E unit) s s1 :
  for_each l f s = (Ok tt, s1) -> for_each (l ++ [x]) f s = f x s1.
Proof.
  revert s. induction l as [|y l IH]; intros s; simpl.
  - intros [= <-]. unfold mbind, eff_bind. destruct (f x s) as [[[]| |] ?]; done.
  - intros Hl. apply eff_bind_inv in Hl as ([] & s' & Hy & Hl).
    rewrite (eff_bind_ok _ _ _ _ _ Hy). eauto.
Qed.


Lemma undo_one_redo now now' d applied e :
  rd_state d = Active -> rd_applied_operations d = applied ++ [e] ->
  exists d1 d2, undo_here now d = (Ok tt, d1) /\ redo_here now' d1 = (Ok tt, d2) /\
    same_edits d d2.
Proof.
  intros Hs Ha. eexists _, _. split; [by apply undo_here_run|]. split.
  - by apply redo_here_run.
  - unfold same_edits. simpl. rewrite Ha, swap_entry_swap. done.
Qed.

Lemma undo_all_redo_all (undo_times redo_times : list datetime) d :
  length redo_times = length undo_times ->
  rd_state d = Active -> length undo_times <= length (rd_applied_operations d) ->
  exists d1 d2,
    for_each undo_times undo_here d = (Ok tt, d1) /\
    history d1 = mkEditor (timeline (history d))
                          (length (rd_applied_operations d) - length undo_times) /\
    for_each redo_times redo_here d1 = (Ok tt, d2) /\ same_edits d d2.
Proof.
  revert redo_times d. induction undo_times as [|t ts IH]; intros rs d Hlen Hs Hle; cbn [for_each length] in *.
  { destruct rs; [|done]. exists d, d. split_and!; [done| |done|done].
    unfold history. simpl. f_equal. lia. }
  destruct rs as [|r rs _] using rev_ind; [done|]. rewrite length_app in Hlen. simpl in Hlen.
  destruct (rd_applied_operations d) as [|e applied _] eqn:Ha using rev_ind; [simpl in *; lia|].
  rewrite length_app in Hle. simpl in Hle.
  pose proof (undo_here_run t d applied e Hs Ha) as Hu. set (d' := undone_draft t applied e d) in *.
  destruct (IH rs d') as (d1 & d2 & Hd1 & Hh & Hd2 & Hsame); [lia|done|simpl; lia|].
  destruct Hsame as (Hg & Hap & Hun & Hst).
  exists d1, (redone_draft r (rd_undone_operations d) (swap_entry e (rd_geometry d)) d2).
  rewrite (eff_bind_ok _ _ _ _ _ Hu). split_and!; [done| | |].
  - rewrite Hh. unfold d'. rewrite (history_undone _ _ _ _ Ha). simpl.
    rewrite length_app. simpl. f_equal. lia.
  - rewrite (for_each_snoc _ _ _ _ _ Hd2). apply redo_here_run; [by rewrite <- Hst|].
    by rewrite <- Hun.
  - split_and!; simpl; [done|..|done|by rewrite <- Hst].
    rewrite Ha, <- Hap, <- Hg. simpl. by rewrite swap_entry_swap.
Qed.

(** ** Concrete drafts for the witnesses *)

Definition pt (lat lon : Z) : RoutePoint := mkRoutePoint (mkCoordinate (f64_of_Z lat) (f64_of_Z lon)) None.
Definition square : geometry := [[pt 0 0; pt 0 1; pt 1 1; pt 1 0]].
Definition fresh_draft : RouteDraft := mkDraft 1 2 3 (Some 4%N) 0 square [] [] Active 0 0.
Definition move_first : RouteOperation :=
  MovePoint 0 0 (mkCoordinate (f64_of_Z 5) (f64_of_Z 5)).
Definition edited_draft : RouteDraft :=
  snd (run_call (CallApply 10 100 move_first 0) fresh_draft).

Lemma square_fits : vec_fits square.
Proof. split; [vm_compute; done|]. repeat constructor. Qed.

(** ** Properties *)

(** C1: every draft reachable from a created one by any sequence of calls of
    the public methods, failed calls included, has at least one segment, at
    least two points in each segment, the same of every snapshot on the undo
    and redo stacks, and no operation identifier twice on the two stacks. *)
Theorem reachable_draft_wf new_id now owner activity base g d d' :
  create_from_geometry new_id now owner activity base g = Ok d ->
  reach draft_step d d' -> draft_wf d'.
Proof.
  intros Hc. apply reach_invariant; [apply draft_step_wf|].
  unfold create_from_geometry in Hc. apply result_bind_inv in Hc as ([] & Hg & [= <-]).
  apply validate_geometry_ok in Hg. split_and!; [done|constructor|constructor].
Qed.

Lemma reachable_draft_wf_witness :
  create_from_geometry 1 0 3 2 (Some 4%N) square = Ok fresh_draft /\ draft_wf edited_draft.
Proof.
  split; [reflexivity|].
  apply (reachable_draft_wf 1 0 3 2 (Some 4%N) square fresh_draft); [reflexivity|].
  eapply reach_step; [|apply reach_refl]. split; [apply square_fits|].
  by exists (CallApply 10 100 move_first 0).
Defined.

(** C2: the aggregate implements an undoable editor.  Reading the two stacks
    as the past and the future of a timeline of geometries, every successful
    call performs the step the abstract editor specifies for it: an operation
    cuts the future and appends the edited geometry, undo and redo move the
    cursor, reset starts a new timeline, publish and discard move nothing; and
    the draft's geometry is always the one under the cursor. *)
Theorem draft_refines_editor c d d' :
  vec_fits (rd_geometry d) -> run_call c d = (Ok tt, d') ->
  editor_step c (history d) (history d') /\ current (history d') = Some (rd_geometry d').
Proof.
  intros Hfit Hrun. split; [|apply history_current]. apply effect_refines_editor.
  destruct (run_call_cases c d Hfit) as [[e He]|(d2 & Hd & _ & Hf)]; congruence.
Qed.

Lemma draft_refines_editor_witness :
  let d' := snd (run_call (CallUndo 11 1) edited_draft) in
  editor_step (CallUndo 11 1) (history edited_draft) (history d') /\
  current (history d') = Some square.
Proof.
  apply (draft_refines_editor (CallUndo 11 1) edited_draft).
  - split; [vm_compute; done|]. repeat constructor.
  - vm_compute. done.
Defined.

(** Undo and redo are inverses.  Undoing any number of operations the draft
    has succeeds, leaves the timeline unchanged with the cursor moved back
    by that number, and redoing as many brings back the very same geometry,
    stacks (entries, identifiers and snapshots) and state. *)
Theorem undo_redo_roundtrip (undo_times redo_times : list datetime) d :
  length redo_times = length undo_times ->
  rd_state d = Active -> length undo_times <= length (rd_applied_operations d) ->
  exists d1 d2,
    for_each undo_times undo_here d = (Ok tt, d1) /\
    history d1 = mkEditor (timeline (history d))
                          (length (rd_applied_operations d) - length undo_times) /\
    for_each redo_times redo_here d1 = (Ok tt, d2) /\ same_edits d d2.
Proof. apply undo_all_redo_all. Qed.

Lemma undo_redo_roundtrip_witness :
  exists d1 d2, for_each [11%Z] undo_here edited_draft = (Ok tt, d1) /\
    for_each [12%Z] redo_here d1 = (Ok tt, d2) /\ same_edits edited_draft d2.
Proof.
  destruct (undo_redo_roundtrip [11%Z] [12%Z] edited_draft) as (d1 & d2 & H1 & _ & H2 & H3);
    [reflexivity|reflexivity|vm_compute; lia|]. by exists d1, d2.
Defined.

(** No lost update.  Once a call that carries an expected revision has
    changed the draft, every call that still carries that revision is
    answered with a revision conflict naming both revisions, and changes
    nothing: of two clients that read the same revision only one can win. *)
Theorem concurrent_edit_loses c c' d d' r :
  vec_fits (rd_geometry d) -> (rd_revision d < u64_modulus)%N ->
  call_expects c = Some r -> run_call c d = (Ok tt, d') -> d' <> d ->
  call_expects c' = Some r ->
  run_call c' d' = (Err (RevisionConflict r (rd_revision d')), d').
Proof.
  intros Hfit Hlt Hc Hrun Hne Hc'.
  destruct (run_call_cases c d Hfit) as [[e He]|(d2 & Hd & [Hact Hrev] & Hf)]; [congruence|].
  rewrite Hc in Hrev. subst r. assert (d2 = d') as -> by congruence.
  assert (rd_state d' = rd_state d /\ rd_revision d' = u64_succ (rd_revision d)) as [Hs Hr].
  { destruct c as [? i op ?|? ?|? ?|? ? g|?|?]; simpl in Hf, Hc; try done.
    - destruct (was_applied i d); [done|]. by destruct Hf as [_ ->].
    - by destruct Hf as (? & ? & _ & ->).
    - by destruct Hf as (? & ? & _ & ->).
    - by destruct Hf as [_ ->]. }
  apply stale_rejected; [congruence|done|]. rewrite Hr. symmetry. by apply u64_succ_ne.
Qed.

Lemma concurrent_edit_loses_witness :
  run_call (CallReset 12 0 square) edited_draft = (Err (RevisionConflict 0 1), edited_draft).
Proof.
  apply (concurrent_edit_loses (CallApply 10 100 move_first 0) _ fresh_draft);
    [apply square_fits|vm_compute; done|done|vm_compute; done|by vm_compute|done].
Defined.

(** Calls are atomic and total.  A call ends in success or in an error
    value, never in a panic (an index out of range), and an error leaves the
    draft exactly as it was, whatever the operation had checked or written
    before failing. *)
Theorem failed_call_changes_nothing c d :
  vec_fits (rd_geometry d) ->
  match run_call c d with
  | (Ok _, _) => True
  | (Err _, d') => d' = d
  | (Panicked, _) => False
  end.
Proof.
  intros Hfit. destruct (run_call_cases c d Hfit) as [[e ->]|(d' & -> & _)]; done.
Qed.

Lemma failed_call_changes_nothing_witness :
  match run_call (CallApply 10 100 (JoinSegments 0 1) 0) fresh_draft with
  | (Ok _, _) => True
  | (Err _, d') => d' = fresh_draft
  | (Panicked, _) => False
  end.
Proof. apply failed_call_changes_nothing. apply square_fits. Defined.

(** Publishing and discarding are final.  Every call on a draft that is
    not active is refused with [DraftNotActive], so no sequence of calls
    changes a published or discarded draft. *)
Theorem closed_draft_is_immutable d d' :
  rd_state d <> Active -> reach draft_step d d' ->
  d' = d /\ forall c, run_call c d' = (Err DraftNotActive, d').
Proof.
  intros Hs Hr.
  assert (d' = d) as ->; [|split; [done|eauto using not_active_rejected]].
  revert Hr. apply (reach_invariant _ (fun x => x = d)); [|done].
  intros a b -> [_ [c ->]]. by rewrite not_active_rejected.
Qed.

Lemma closed_draft_is_immutable_witness :
  let d := snd (run_call (CallPublish 20) edited_draft) in
  d = d /\ forall c, run_call c d = (Err DraftNotActive, d).
Proof. apply closed_draft_is_immutable; [by vm_compute|apply reach_refl]. Defined.

(** Retries are idempotent.  After an operation has been applied under an
    identifier, applying anything under the same identifier at the current
    revision succeeds without any change: no second edit, no new revision. *)
Theorem retry_is_idempotent now now' op_id op op' r d d' :
  vec_fits (rd_geometry d) ->
  apply_operation now op_id op r d = (Ok tt, d') ->
  apply_operation now' op_id op' (rd_revision d') d' = (Ok tt, d').
Proof.
  intros Hfit Hrun.
  destruct (run_call_cases (CallApply now op_id op r) d Hfit)
    as [[e He]|(d2 & Hd & [Hact _] & Hf)]; simpl in *; [congruence|].
  assert (d2 = d') as -> by congruence.
  assert (was_applied op_id d' = true /\ rd_state d' = Active) as [Hw Ha].
  { destruct (was_applied op_id d) eqn:Hw; [by subst|]. destruct Hf as [_ ->].
    split; [|done]. apply was_applied_iff. simpl. rewrite map_app. apply elem_of_app.
    right. by apply list_elem_of_singleton. }
  unfold apply_operation. run. rewrite check_active_run. case_decide; [|done].
  by rewrite check_revision_run, N.eqb_refl, Hw.
Qed.

Lemma retry_is_idempotent_witness :
  apply_operation 13 100 (DeletePoint 0 1) 1 edited_draft = (Ok tt, edited_draft).
Proof.
  apply (retry_is_idempotent 10 13 100 move_first (DeletePoint 0 1) 0 fresh_draft edited_draft);
    [apply square_fits|vm_compute; done].
Defined.

(** C34: each operation does what its documentation says, on every branch.  An
    operation succeeds exactly when it is valid for the geometry (indices in
    range, enough points left, replacement of an allowed size with matching
    endpoints, segments adjacent), and then the new geometry is the one given
    by the specification; otherwise it ends in an error and nothing changed. *)
Theorem execute_operation_correct op d :
  vec_fits (rd_geometry d) ->
  (is_ok (fst (execute_operation op d)) = true <-> op_valid op (rd_geometry d)) /\
  snd (execute_operation op d) =
    (if is_ok (fst (execute_operation op d))
     then with_geometry (edited op (rd_geometry d)) d else d).
Proof.
  intros Hfit. destruct (execute_operation_spec op d Hfit) as [[HnP [e ->]]|[HP ->]]; simpl.
  - split; [split; [done|by intros ?%HnP]|done].
  - done.
Qed.

Lemma execute_operation_correct_witness :
  (is_ok (fst (execute_operation (SplitSegment 0 1) fresh_draft)) = true
     <-> op_valid (SplitSegment 0 1) square) /\
  snd (execute_operation (SplitSegment 0 1) fresh_draft) =
    with_geometry [[pt 0 0; pt 0 1]; [pt 0 1; pt 1 1; pt 1 0]] fresh_draft.
Proof.
  apply (execute_operation_correct (SplitSegment 0 1) fresh_draft). apply square_fits.
Defined.

Lemma join_points_split (s : list RoutePoint) k p :
  s !! k = Some p -> RoutePoint_eqb p p = true ->
  join_points (take (S k) s) (drop k s) = s.
Proof.
  intros Hp Heq. pose proof (take_S_r _ _ _ Hp) as Ht. unfold join_points.
  rewrite (drop_S _ _ _ Hp). simpl. rewrite Ht, last_snoc. simpl. rewrite Heq.
  rewrite bool_decide_eq_false_2 by (by destruct (take k s)). simpl.
  rewrite drop_0, <- app_assoc. simpl. by apply take_drop_middle.
Qed.

Lemma two_in_the_middle {A} (l k : list A) x y n :
  length l = n ->
  take n (l ++ x :: y :: k) = l /\ (l ++ x :: y :: k) !! n = Some x /\
  (l ++ x :: y :: k) !! S n = Some y /\ drop (S (S n)) (l ++ x :: y :: k) = k.
Proof.
  intros <-. replace (l ++ x :: y :: k) with ((l ++ [x]) ++ y :: k) at 3 4
    by (by rewrite <- app_assoc).
  split_and!.
  - by apply take_app_length'.
  - by apply list_lookup_middle.
  - apply list_lookup_middle. rewrite length_app. simpl. lia.
  - rewrite (cons_middle y), app_assoc. apply drop_app_length'.
    rewrite !length_app. simpl. lia.
Qed.

Lemma edited_split_join g i k s p :
  g !! N.to_nat i = Some s -> (0 < k < len s - 1)%N ->
  s !! N.to_nat k = Some p -> RoutePoint_eqb p p = true ->
  edited (JoinSegments i (i + 1)) (edited (SplitSegment i k) g) = g.
Proof.
  intros Hs Hk Hp Heq. unfold edited. rewrite Hs.
  replace (N.to_nat (i + 1)) with (S (N.to_nat i)) by lia. set (n := N.to_nat i) in *.
  pose proof (lookup_lt_Some _ _ _ Hs) as Hlt.
  assert (length (take n g) = n) as Hn by (rewrite length_take; lia).
  change ([?x; ?y] ++ ?l) with (x :: y :: l).
  destruct (two_in_the_middle (take n g) (drop (S n) g) (take (S (N.to_nat k)) s)
    (drop (N.to_nat k) s) n Hn) as (-> & -> & -> & ->).
  rewrite (join_points_split _ _ _ Hp Heq). by apply take_drop_middle.
Qed.

(** Joining undoes splitting.  After splitting a segment at an inner point
    whose components are not NaN, joining the two halves gives back exactly the
    geometry there was: the duplicated split point is recognised and dropped. *)
Theorem split_then_join_identity i k s p d :
  vec_fits (rd_geometry d) -> (len (rd_geometry d) + 1 < 2 ^ 63)%N ->
  rd_geometry d !! N.to_nat i = Some s -> (0 < k < len s - 1)%N ->
  s !! N.to_nat k = Some p -> RoutePoint_eqb p p = true ->
  exists d1, execute_operation (SplitSegment i k) d = (Ok tt, d1) /\
             execute_operation (JoinSegments i (i + 1)) d1 = (Ok tt, d).
Proof.
  intros Hfit Hlen Hs Hk Hp Heq.
  destruct (execute_operation_spec (SplitSegment i k) d Hfit) as [[HnP _]|[HP Hrun]].
  { destruct HnP. by exists s. }
  exists (with_geometry (edited (SplitSegment i k) (rd_geometry d)) d). split; [done|].
  set (d1 := with_geometry _ _).
  pose proof (lookup_lt_Some _ _ _ Hs) as Hlt. pose proof (vec_fits_lookup _ _ _ Hfit Hs) as Hls.
  assert (length (rd_geometry d1) = S (length (rd_geometry d))) as Hl1.
  { unfold d1. simpl. rewrite Hs, !length_app, length_take, length_drop. simpl. lia. }
  assert (vec_fits (rd_geometry d1)) as Hfit1.
  { split; [unfold len in *; rewrite Hl1; lia|]. unfold d1. simpl. rewrite Hs.
    destruct Hfit as [_ HF].
    repeat apply Forall_app_2; [by apply Forall_take| |by apply Forall_drop].
    repeat constructor; unfold len in *; [rewrite length_take|rewrite length_drop]; lia. }
  destruct (execute_operation_spec (JoinSegments i (i + 1)) d1 Hfit1) as [[HnP _]|[_ ->]].
  { destruct HnP. split; [done|]. unfold len. rewrite Hl1. lia. }
  assert (edited (JoinSegments i (i + 1)) (rd_geometry d1) = rd_geometry d) as ->.
  { by apply (edited_split_join _ _ _ s p). }
  f_equal. by destruct d.
Qed.

Lemma split_then_join_identity_witness :
  exists d1, execute_operation (SplitSegment 0 1) fresh_draft = (Ok tt, d1) /\
             execute_operation (JoinSegments 0 1) d1 = (Ok tt, fresh_draft).
Proof.
  apply (split_then_join_identity 0 1 (nth 0 square []) (pt 0 1));
    [apply square_fits|vm_compute; done..].
Defined.

(** Replacing a section keeps the line connected.  When [ReplaceSection]
    succeeds, the segment has the expected number of points, the points before
    and after the section and all other segments are untouched, and the first
    and last replacement points sit on the points they replace, so the line
    enters and leaves the section where it did before. *)
Theorem replace_section_continuity i a b r d d' :
  execute_operation (ReplaceSection i a b r) d = (Ok tt, d') ->
  exists s s' p q p' q',
    rd_geometry d !! N.to_nat i = Some s /\
    rd_geometry d' = <[N.to_nat i := s']> (rd_geometry d) /\
    length s' + (N.to_nat b - N.to_nat a + 1) = length s + length r /\
    take (N.to_nat a) s' = take (N.to_nat a) s /\
    drop (N.to_nat a + length r) s' = drop (S (N.to_nat b)) s /\
    s !! N.to_nat a = Some p /\ head r = Some p' /\
    Coordinate_eqb (coordinate p') (coordinate p) = true /\
    s !! N.to_nat b = Some q /\ last r = Some q' /\
    Coordinate_eqb (coordinate q') (coordinate q) = true.
Proof.
  simpl. intros Hrun.
  destruct (exec_replace_section_spec i a b r d) as [[_ [e He]]|[HP He]]; [congruence|].
  destruct HP as (s & Hs & Hab & Hr & Hh & Hl). assert (d' = with_geometry
    (edited (ReplaceSection i a b r) (rd_geometry d)) d) as -> by congruence.
  unfold endpoint_matches in Hh, Hl.
  destruct (head r) as [p'|]; [|done]. destruct (s !! N.to_nat a) as [p|] eqn:Hp; [|done].
  destruct (last r) as [q'|]; [|done]. destruct (s !! N.to_nat b) as [q|] eqn:Hq; [|done].
  exists s, (splice_points a b r s), p, q, p', q'. unfold len in *.
  assert (length (take (N.to_nat a) s) = N.to_nat a) as Ha by (rewrite length_take; lia).
  split_and!; try done.
  - simpl. symmetry. by apply alter_insert_lookup.
  - rewrite length_splice_points by (unfold len; lia). lia.
  - unfold splice_points. by rewrite take_app_length'.
  - unfold splice_points. rewrite app_assoc, drop_app_length'; [done|].
    by rewrite length_app, Ha.
Qed.

Lemma replace_section_continuity_witness :
  exists s', rd_geometry (snd (execute_operation
      (ReplaceSection 0 1 2 [pt 0 1; pt 2 2; pt 1 1]) fresh_draft)) = [s'] /\ length s' = 5.
Proof.
  destruct (replace_section_continuity 0 1 2 [pt 0 1; pt 2 2; pt 1 1] fresh_draft
    (snd (execute_operation (ReplaceSection 0 1 2 [pt 0 1; pt 2 2; pt 1 1]) fresh_draft)))
    as (s & s' & _ & _ & _ & _ & Hs & H2 & H3 & _); [vm_compute; done|].
  exists s'. split; [rewrite H2; done|].
  vm_compute in Hs. injection Hs as <-. cbn in H3. lia.
Defined.
