(* ===== verification/DraftValidation.v ===== *)
(** Publication validation of a draft,
    crates/app/src/route_editing/validation.rs. *)
From S2P Require Import Prelude Float64 RustString RustVec RouteEditing RouteEditingSpec.

Definition MIN_POINTS_PER_SEGMENT : N := 2.

Inductive PublicationValidationError : Type :=
| NotOwner
| PubDraftNotActive
| RevisionMismatch (expected actual : N)
| NoSegments
| InsufficientPointsInSegment (segment_index minimum actual : N)
| InvalidCoordinateInSegment (segment_index point_index : N) (message : rstr)
| NoBaseVersion.

#[export] Instance PublicationValidationError_eq_dec : EqDecision PublicationValidationError.
Proof. solve_decision. Defined.

Definition latitude_error (lat : f64) : rstr :=
  lit "latitude must be between -90 and 90, got " ++ display_f64 lat.
Definition longitude_error (lon : f64) : rstr :=
  lit "longitude must be between -180 and 180, got " ++ display_f64 lon.

(** The body of the inner loop. *)
Definition point_errors (i j : N) (p : RoutePoint) : list PublicationValidationError :=
  let lat := latitude (coordinate p) in
  let lon := longitude (coordinate p) in
  (if negb (latitude_in_range lat)
   then [InvalidCoordinateInSegment i j (latitude_error lat)] else []) ++
  (if negb (longitude_in_range lon)
   then [InvalidCoordinateInSegment i j (longitude_error lon)] else []).

(** [.iter().enumerate()] with an accumulator of errors. *)
Definition collect_errors {A} (f : N -> A -> list PublicationValidationError) (l : list A)
    : list PublicationValidationError :=
  concat (imap (fun k x => f (N.of_nat k) x) l).

(** The body of the outer loop. *)
Definition segment_errors (i : N) (s : segment) : list PublicationValidationError :=
  (if (len s <? MIN_POINTS_PER_SEGMENT)%N
   then [InsufficientPointsInSegment i MIN_POINTS_PER_SEGMENT (len s)] else []) ++
  collect_errors (point_errors i) s.

Definition geometry_errors (g : geometry) : list PublicationValidationError :=
  if bool_decide (g = []) then [NoSegments] else collect_errors segment_errors g.

Definition validate_for_publication (d : RouteDraft) (expected_revision : N) (owner : uuid)
    : result (list PublicationValidationError) unit :=
  if negb (rd_owner_id d =? owner)%N then Err [NotOwner]
  else if negb (bool_decide (rd_state d = Active)) then Err [PubDraftNotActive]
  else if negb (rd_revision d =? expected_revision)%N
  then Err [RevisionMismatch expected_revision (rd_revision d)]
  else
    let errors := geometry_errors (rd_geometry d) ++
                  match rd_base_route_version_id d with None => [NoBaseVersion] | _ => [] end in
    match errors with [] => Ok tt | _ => Err errors end.

(** ** Specification *)

Definition point_ok (p : RoutePoint) : Prop :=
  latitude_in_range (latitude (coordinate p)) = true /\
  longitude_in_range (longitude (coordinate p)) = true.

Definition publishable (g : geometry) : Prop :=
  g <> [] /\ Forall (fun s => 2 <= length s /\ Forall point_ok s) g.

Lemma collect_errors_nil {A} f (l : list A) :
  collect_errors f l = [] <-> forall k x, l !! k = Some x -> f (N.of_nat k) x = [].
Proof.
  unfold collect_errors. rewrite concat_nil_Forall, Forall_lookup. split.
  - intros H k x Hx. eapply H. by rewrite list_lookup_imap, Hx.
  - intros H k y. rewrite list_lookup_imap, fmap_Some. intros (x & Hx & ->). eauto.
Qed.

Lemma elem_of_collect_errors {A} f (l : list A) e :
  e ∈ collect_errors f l <-> exists k x, l !! k = Some x /\ e ∈ f (N.of_nat k) x.
Proof.
  unfold collect_errors. rewrite list_elem_of_In, in_concat. split.
  - intros (es & Hes & He). apply list_elem_of_In, list_elem_of_lookup in Hes as [k Hk].
    rewrite list_lookup_imap, fmap_Some in Hk. destruct Hk as (x & Hx & ->).
    exists k, x. by rewrite list_elem_of_In.
  - intros (k & x & Hx & He). exists (f (N.of_nat k) x). split; [|by apply list_elem_of_In].
    apply list_elem_of_In, list_elem_of_lookup. exists k. by rewrite list_lookup_imap, Hx.
Qed.

Lemma point_errors_nil i j p : point_errors i j p = [] <-> point_ok p.
Proof.
  unfold point_errors, point_ok.
  destruct (latitude_in_range _), (longitude_in_range _); naive_solver.
Qed.

Lemma segment_errors_nil i s :
  segment_errors i s = [] <-> 2 <= length s /\ Forall point_ok s.
Proof.
  unfold segment_errors. rewrite app_nil, collect_errors_nil, Forall_lookup.
  setoid_rewrite point_errors_nil. apply and_iff_compat_r.
  unfold len, MIN_POINTS_PER_SEGMENT. destruct (N.ltb_spec (N.of_nat (length s)) 2);
    naive_solver lia.
Qed.

Lemma geometry_errors_nil g : geometry_errors g = [] <-> publishable g.
Proof.
  unfold geometry_errors, publishable. case_bool_decide as Hg; [naive_solver|].
  rewrite collect_errors_nil, Forall_lookup. setoid_rewrite segment_errors_nil. naive_solver.
Qed.

Lemma validate_ok_iff d r owner :
  validate_for_publication d r owner = Ok tt <->
  rd_owner_id d = owner /\ rd_state d = Active /\ rd_revision d = r /\
  publishable (rd_geometry d) /\ is_Some (rd_base_route_version_id d).
Proof.
  unfold validate_for_publication. rewrite <- geometry_errors_nil.
  destruct (N.eqb_spec (rd_owner_id d) owner); simpl; [|naive_solver].
  case_bool_decide; simpl; [|naive_solver].
  destruct (N.eqb_spec (rd_revision d) r); simpl; [|naive_solver].
  destruct (rd_base_route_version_id d); simpl.
  - rewrite app_nil_r. destruct (geometry_errors _); naive_solver.
  - destruct (geometry_errors _); simpl; split; [done| |done|];
      intros (_ & _ & _ & _ & [? ?]); done.
Qed.

(** C35: a draft may be published exactly when the caller owns it, it is
    active, the caller knows its revision, its geometry has a segment, every
    segment two points and every point coordinates within range (NaN is not),
    and it has a base version. *)
Theorem publication_validation_correct d r owner :
  validate_for_publication d r owner = Ok tt <->
  rd_owner_id d = owner /\ rd_state d = Active /\ rd_revision d = r /\
  publishable (rd_geometry d) /\ is_Some (rd_base_route_version_id d).
Proof. apply validate_ok_iff. Qed.

(** *** What the report contains *)

Lemma elem_of_point_errors e i j p :
  e ∈ point_errors i j p <->
  (latitude_in_range (latitude (coordinate p)) = false /\
   e = InvalidCoordinateInSegment i j (latitude_error (latitude (coordinate p)))) \/
  (longitude_in_range (longitude (coordinate p)) = false /\
   e = InvalidCoordinateInSegment i j (longitude_error (longitude (coordinate p)))).
Proof.
  unfold point_errors. rewrite elem_of_app.
  destruct (latitude_in_range _), (longitude_in_range _); simpl;
    rewrite ?list_elem_of_singleton, ?elem_of_nil; naive_solver.
Qed.

Lemma elem_of_segment_errors e i s :
  e ∈ segment_errors i s <->
  (length s < 2 /\ e = InsufficientPointsInSegment i 2 (len s)) \/
  exists j p, s !! N.to_nat j = Some p /\ e ∈ point_errors i j p.
Proof.
  unfold segment_errors. rewrite elem_of_app, elem_of_collect_errors. f_equiv.
  - unfold len, MIN_POINTS_PER_SEGMENT. destruct (N.ltb_spec (N.of_nat (length s)) 2);
      rewrite ?list_elem_of_singleton, ?elem_of_nil; naive_solver lia.
  - split; [intros (k & x & ? & ?); exists (N.of_nat k), x; by rewrite Nat2N.id|].
    intros (j & p & ? & ?). exists (N.to_nat j), p. by rewrite N2Nat.id.
Qed.

Lemma elem_of_geometry_errors e g :
  e ∈ geometry_errors g <->
  (g = [] /\ e = NoSegments) \/
  exists i s, g !! N.to_nat i = Some s /\ e ∈ segment_errors i s.
Proof.
  unfold geometry_errors. case_bool_decide as Hg.
  - subst g. rewrite list_elem_of_singleton. split; [naive_solver|].
    intros [[_ ->]|(i & s & Hs & _)]; [done|]. by rewrite lookup_nil in Hs.
  - rewrite elem_of_collect_errors. split.
    + intros (k & x & ? & ?). right. exists (N.of_nat k), x. by rewrite Nat2N.id.
    + intros [[? _]|(j & p & ? & ?)]; [done|]. exists (N.to_nat j), p. by rewrite N2Nat.id.
Qed.

Lemma validation_report d es :
  rd_state d = Active ->
  validate_for_publication d (rd_revision d) (rd_owner_id d) = Err es ->
  forall e, e ∈ es <->
    e ∈ geometry_errors (rd_geometry d) \/
    (rd_base_route_version_id d = None /\ e = NoBaseVersion).
Proof.
  unfold validate_for_publication. intros Ha. rewrite N.eqb_refl, N.eqb_refl. simpl.
  rewrite bool_decide_eq_true_2 by done. simpl.
  set (base := match rd_base_route_version_id d with Some _ => _ | None => _ end).
  intros Hes e. assert (es = geometry_errors (rd_geometry d) ++ base) as ->.
  { destruct (geometry_errors (rd_geometry d) ++ base); naive_solver. }
  rewrite elem_of_app. apply or_iff_compat_l. unfold base.
  destruct (rd_base_route_version_id d); rewrite ?list_elem_of_singleton, ?elem_of_nil;
    naive_solver.
Qed.

(** The report is exhaustive and has no false alarm.  When the caller is
    the owner at the current revision of an active draft, the errors returned
    name a short segment exactly for the segments with fewer than two points,
    an invalid coordinate exactly for the points out of range, [NoSegments]
    exactly for the empty geometry and [NoBaseVersion] exactly for a draft
    without base; nothing is cut off at the first problem. *)
Theorem publication_report_exhaustive d es :
  rd_state d = Active ->
  validate_for_publication d (rd_revision d) (rd_owner_id d) = Err es ->
  (NoSegments ∈ es <-> rd_geometry d = []) /\
  (NoBaseVersion ∈ es <-> rd_base_route_version_id d = None) /\
  (forall i, (exists n, InsufficientPointsInSegment i 2 n ∈ es) <->
     exists s, rd_geometry d !! N.to_nat i = Some s /\ length s < 2) /\
  (forall i j, (exists m, InvalidCoordinateInSegment i j m ∈ es) <->
     exists s p, rd_geometry d !! N.to_nat i = Some s /\ s !! N.to_nat j = Some p /\
       ~ point_ok p).
Proof.
  intros Ha Hv. pose proof (validation_report d es Ha Hv) as Hes.
  setoid_rewrite Hes. setoid_rewrite elem_of_geometry_errors.
  setoid_rewrite elem_of_segment_errors. setoid_rewrite elem_of_point_errors.
  unfold point_ok. setoid_rewrite <- not_true_iff_false.
  split_and!; [naive_solver..| |].
  - intros i. split; [|naive_solver]. intros (n & Hn). naive_solver.
  - intros i j. split; [naive_solver|]. intros (s & p & Hs & Hp & Hok).
    destruct (decide (latitude_in_range (latitude (coordinate p)) = true)).
    + eexists. left. right. exists i, s. split; [done|]. right. exists j, p. split; [done|].
      right. split; [naive_solver|done].
    + eexists. left. right. exists i, s. split; [done|]. right. exists j, p. split; [done|].
      left. done.
Qed.

Definition bad_draft : RouteDraft :=
  mkDraft 1 2 3 None 0
    [[mkRoutePoint (mkCoordinate (f64_of_Z 91) (f64_of_Z 0)) None]] [] [] Active 0 0.

Lemma publication_report_exhaustive_witness :
  exists es, validate_for_publication bad_draft 0 3 = Err es /\
    exists n, InsufficientPointsInSegment 0 2 n ∈ es.
Proof.
  eexists. split; [by vm_compute|].
  apply (publication_report_exhaustive bad_draft); [done|by vm_compute|].
  exists (nth 0 (rd_geometry bad_draft) []). split; [done|vm_compute; lia].
Defined.
