(* ===== verification/Imports.v ===== *)
(** The import aggregate, crates/app/src/imports: the status machine
    (state_machine.rs), failure codes (failure_code.rs), checksums
    (checksum.rs), the [Import] aggregate and its errors (mod.rs), the types of
    duplicate detection and commit, and the cleanup of abandoned imports
    (cleanup.rs). *)
From S2P Require Import Prelude Float64 RustString.

(** ** Status machine *)

Inductive ImportStatus : Type :=
| Requested | Uploading | Uploaded | Validating | Queued | Parsing | Committing
| Completed | Failed | Cancelled.

#[export] Instance ImportStatus_eq_dec : EqDecision ImportStatus.
Proof. solve_decision. Defined.

Definition status_display (s : ImportStatus) : rstr :=
  match s with
  | Requested => lit "requested"
  | Uploading => lit "uploading"
  | Uploaded => lit "uploaded"
  | Validating => lit "validating"
  | Queued => lit "queued"
  | Parsing => lit "parsing"
  | Committing => lit "committing"
  | Completed => lit "completed"
  | Failed => lit "failed"
  | Cancelled => lit "cancelled"
  end.

(** ** Errors *)

Inductive ImportError : Type :=
| UnsupportedFormat
| InvalidTransition (from to : rstr)
| NotFound
| Unauthorized
| DuplicateIdempotencyKey
| DuplicateChecksum
| ChecksumMismatch (expected actual : rstr)
| UploadTooLarge
| InvalidMediaType
| ParsingFailed (reason : rstr)
| ObjectNotFound
| StorageError (message : rstr)
| ValidationFailed (message : rstr)
| IdempotencyPayloadMismatch.

#[export] Instance ImportError_eq_dec : EqDecision ImportError.
Proof. solve_decision. Defined.

(** The [#\[error\]] texts. *)
Definition import_error_display (e : ImportError) : rstr :=
  match e with
  | UnsupportedFormat => lit "unsupported file format"
  | InvalidTransition from to => lit "invalid transition from " ++ from ++ lit " to " ++ to
  | NotFound => lit "import not found"
  | Unauthorized => lit "unauthorized"
  | DuplicateIdempotencyKey => lit "duplicate idempotency key"
  | DuplicateChecksum => lit "duplicate checksum"
  | ChecksumMismatch expected actual =>
      lit "checksum mismatch: expected " ++ expected ++ lit ", got " ++ actual
  | UploadTooLarge => lit "upload too large"
  | InvalidMediaType => lit "invalid media type"
  | ParsingFailed reason => lit "parsing failed: " ++ reason
  | ObjectNotFound => lit "upload not found in storage"
  | StorageError message => lit "storage error: " ++ message
  | ValidationFailed message => lit "validation failed: " ++ message
  | IdempotencyPayloadMismatch => lit "idempotency key reused with different payload"
  end.

(** ** Transitions *)

Definition is_terminal (s : ImportStatus) : bool :=
  match s with Completed | Failed | Cancelled => true | _ => false end.

Definition transition_to (s target : ImportStatus) : result ImportError ImportStatus :=
  if is_terminal s
  then Err (InvalidTransition (status_display s) (status_display target))
  else
    let is_valid :=
      match s, target with
      | Requested, Uploading => true
      | Uploading, Uploaded => true
      | Uploaded, Validating => true
      | Validating, Queued => true
      | Queued, Parsing => true
      | Parsing, Committing => true
      | Committing, Completed => true
      | _, Failed => true
      | _, Cancelled => true
      | _, _ => false
      end in
    if is_valid then Ok target
    else Err (InvalidTransition (status_display s) (status_display target)).

(** ** Failure codes *)

Inductive FailureCode : Type :=
| ParseError | CodeChecksumMismatch | FileTooLarge | InvalidFormat | StorageUnavailable
| Timeout | InternalError.

#[export] Instance FailureCode_eq_dec : EqDecision FailureCode.
Proof. solve_decision. Defined.

Definition as_str (c : FailureCode) : rstr :=
  match c with
  | ParseError => lit "PARSE_ERROR"
  | CodeChecksumMismatch => lit "CHECKSUM_MISMATCH"
  | FileTooLarge => lit "FILE_TOO_LARGE"
  | InvalidFormat => lit "INVALID_FORMAT"
  | StorageUnavailable => lit "STORAGE_UNAVAILABLE"
  | Timeout => lit "TIMEOUT"
  | InternalError => lit "INTERNAL_ERROR"
  end.

Definition parse_failure_code (s : rstr) : option FailureCode :=
  if decide (s = lit "PARSE_ERROR") then Some ParseError
  else if decide (s = lit "CHECKSUM_MISMATCH") then Some CodeChecksumMismatch
  else if decide (s = lit "FILE_TOO_LARGE") then Some FileTooLarge
  else if decide (s = lit "INVALID_FORMAT") then Some InvalidFormat
  else if decide (s = lit "STORAGE_UNAVAILABLE") then Some StorageUnavailable
  else if decide (s = lit "TIMEOUT") then Some Timeout
  else if decide (s = lit "INTERNAL_ERROR") then Some InternalError
  else None.

(** ** Checksums *)

(** [str::to_lowercase] on strings with a non-ASCII character follows the
    Unicode tables, which the code does not depend on beyond their result; on
    ASCII strings it is [ascii_lower] on every character. *)
Class UnicodeLower := unicode_lower : rstr -> rstr.

Definition is_ascii (s : rstr) : bool := forallb (fun c => c <? 128)%N s.
Definition to_lowercase `{UnicodeLower} (s : rstr) : rstr :=
  if is_ascii s then map ascii_lower s else unicode_lower s.

Record Checksum := mkChecksum { checksum_str : rstr }.

#[export] Instance Checksum_eq_dec : EqDecision Checksum.
Proof. solve_decision. Defined.

Definition Checksum_new `{UnicodeLower} (value : rstr) : result ImportError Checksum :=
  let value := to_lowercase value in
  if negb (str_len value =? 64)%N then
    Err (ValidationFailed
           (lit "checksum must be exactly 64 hex characters, got " ++ display_N (str_len value)))
  else if negb (forallb is_ascii_hexdigit value) then
    Err (ValidationFailed (lit "checksum must contain only hexadecimal characters"))
  else Ok (mkChecksum value).

(** ** The aggregate *)

Inductive ImportFormat := Gpx.

#[export] Instance ImportFormat_eq_dec : EqDecision ImportFormat.
Proof. solve_decision. Defined.

Definition format_display (f : ImportFormat) : rstr := match f with Gpx => lit "gpx" end.

Record Import := mkImport {
  im_id : uuid;
  im_owner_id : uuid;
  im_source_artifact_id : option uuid;
  im_format : ImportFormat;
  im_status : ImportStatus;
  im_checksum : option Checksum;
  im_failure_reason : option rstr;
  im_failure_code : option FailureCode;
  im_idempotency_key : rstr;
  im_payload_hash : option rstr;
  im_activity_id : option uuid;
  im_created_at : datetime;
  im_updated_at : datetime }.

#[export] Instance Import_eq_dec : EqDecision Import.
Proof. solve_decision. Defined.

(** Assignments to the fields. *)
Definition set_status (st : ImportStatus) (i : Import) : Import :=
  mkImport (im_id i) (im_owner_id i) (im_source_artifact_id i) (im_format i) st
    (im_checksum i) (im_failure_reason i) (im_failure_code i) (im_idempotency_key i)
    (im_payload_hash i) (im_activity_id i) (im_created_at i) (im_updated_at i).
Definition set_source (a : option uuid) (c : option Checksum) (i : Import) : Import :=
  mkImport (im_id i) (im_owner_id i) a (im_format i) (im_status i)
    c (im_failure_reason i) (im_failure_code i) (im_idempotency_key i)
    (im_payload_hash i) (im_activity_id i) (im_created_at i) (im_updated_at i).
Definition set_failure (r : option rstr) (c : option FailureCode) (i : Import) : Import :=
  mkImport (im_id i) (im_owner_id i) (im_source_artifact_id i) (im_format i) (im_status i)
    (im_checksum i) r c (im_idempotency_key i)
    (im_payload_hash i) (im_activity_id i) (im_created_at i) (im_updated_at i).
Definition set_activity (a : option uuid) (i : Import) : Import :=
  mkImport (im_id i) (im_owner_id i) (im_source_artifact_id i) (im_format i) (im_status i)
    (im_checksum i) (im_failure_reason i) (im_failure_code i) (im_idempotency_key i)
    (im_payload_hash i) a (im_created_at i) (im_updated_at i).
Definition touch_import (now : datetime) (i : Import) : Import :=
  mkImport (im_id i) (im_owner_id i) (im_source_artifact_id i) (im_format i) (im_status i)
    (im_checksum i) (im_failure_reason i) (im_failure_code i) (im_idempotency_key i)
    (im_payload_hash i) (im_activity_id i) (im_created_at i) now.

Definition new_import (new_id : uuid) (now : datetime) (owner_id : uuid) (format : ImportFormat)
    (idempotency_key : rstr) (payload_hash : option rstr) : result ImportError Import :=
  if is_empty (trim idempotency_key)
  then Err (ValidationFailed (lit "idempotency key must not be empty"))
  else Ok (mkImport new_id owner_id None format Requested None None None idempotency_key
             payload_hash None now now).

Abbreviation on_import := (eff Import ImportError unit) (only parsing).

(** [self.status = self.status.transition_to(target)?]. *)
Definition move_to (target : ImportStatus) : on_import :=
  i ← get; s ← lift (transition_to (im_status i) target); modify (set_status s).

Definition start_upload (now : datetime) : on_import :=
  move_to Uploading;; modify (touch_import now).
Definition complete_upload (now : datetime) (source_artifact_id : uuid) (checksum : Checksum)
    : on_import :=
  move_to Uploaded;;
  modify (set_source (Some source_artifact_id) (Some checksum));;
  modify (touch_import now).
Definition start_validation (now : datetime) : on_import :=
  move_to Validating;; modify (touch_import now).
Definition queue_for_parsing (now : datetime) : on_import :=
  move_to Queued;; modify (touch_import now).
Definition start_parsing (now : datetime) : on_import :=
  move_to Parsing;; modify (touch_import now).
Definition start_committing (now : datetime) : on_import :=
  move_to Committing;; modify (touch_import now).
Definition complete (now : datetime) : on_import :=
  move_to Completed;; modify (touch_import now).
Definition fail (now : datetime) (reason : rstr) : on_import :=
  move_to Failed;;
  modify (fun i => set_failure (Some reason) (im_failure_code i) i);;
  modify (touch_import now).
Definition fail_with_code (now : datetime) (reason : rstr) (code : FailureCode) : on_import :=
  move_to Failed;;
  modify (set_failure (Some reason) (Some code));;
  modify (touch_import now).
Definition cancel (now : datetime) : on_import :=
  move_to Cancelled;; modify (touch_import now).

(** ** Cleanup of abandoned imports *)

Record CleanupResult := mkCleanup { cleaned_up : N; skipped : N }.

(** [for import in imports.iter_mut()]: the imports after the loop and the two
    counters. *)
Fixpoint fail_abandoned_imports (now : datetime) (imports : list Import)
    : list Import * CleanupResult :=
  match imports with
  | [] => ([], mkCleanup 0 0)
  | i :: rest =>
      let '(r, i') := fail_with_code now (lit "import processing timed out") Timeout i in
      let '(rest', c) := fail_abandoned_imports now rest in
      match r with
      | Ok _ => (i' :: rest', mkCleanup (cleaned_up c + 1) (skipped c))
      | _ => (i' :: rest', mkCleanup (cleaned_up c) (skipped c + 1))
      end
  end.

(** ** Duplicate detection and jobs *)

Inductive DuplicateCheckResult : Type :=
| NotDuplicate
| ExactDuplicate (existing_import_id : uuid) (existing_activity_id : option uuid).

Definition PARSE_GPX_JOB_TYPE : rstr := lit "parse_gpx".

Record ParseGpxJob := mkParseGpxJob {
  job_import_id : uuid;
  job_owner_id : uuid;
  job_object_storage_key : rstr;
  job_correlation_id : uuid }.

(** ** The repository the handlers are given *)

Class ImportRepository (S : Type) := {
  save : Import -> eff S ImportError unit;
  find_by_id : uuid -> eff S ImportError (option Import);
  find_by_idempotency_key : uuid -> rstr -> eff S ImportError (option Import);
  find_completed_by_checksum : uuid -> Checksum ->
    eff S ImportError (option (uuid * option uuid));
  update : Import -> eff S ImportError unit;
  find_abandoned : Z -> eff S ImportError (list Import) }.

Class CheckDuplicate (S : Type) :=
  check : uuid -> Checksum -> eff S ImportError DuplicateCheckResult.
