(* ===== verification/ImportTheory.v ===== *)
(** Properties of the import aggregate: which states its methods can reach,
    that terminal states are final and every lifecycle is short, what the
    cleanup of abandoned imports does, and what a checksum is. *)
From S2P Require Import Prelude Float64 RustString Imports.

(** ** Calls of the aggregate's methods *)

Inductive ImportCall : Type :=
| CallStartUpload (now : datetime)
| CallCompleteUpload (now : datetime) (artifact : uuid) (checksum : Checksum)
| CallStartValidation (now : datetime)
| CallQueue (now : datetime)
| CallStartParsing (now : datetime)
| CallStartCommitting (now : datetime)
| CallComplete (now : datetime)
| CallFail (now : datetime) (reason : rstr)
| CallFailWithCode (now : datetime) (reason : rstr) (code : FailureCode)
| CallCancel (now : datetime).

Definition run_import_call (c : ImportCall) : eff Import ImportError unit :=
  match c with
  | CallStartUpload now => start_upload now
  | CallCompleteUpload now a k => complete_upload now a k
  | CallStartValidation now => start_validation now
  | CallQueue now => queue_for_parsing now
  | CallStartParsing now => start_parsing now
  | CallStartCommitting now => start_committing now
  | CallComplete now => complete now
  | CallFail now r => fail now r
  | CallFailWithCode now r k => fail_with_code now r k
  | CallCancel now => cancel now
  end.

Definition call_target (c : ImportCall) : ImportStatus :=
  match c with
  | CallStartUpload _ => Uploading
  | CallCompleteUpload _ _ _ => Uploaded
  | CallStartValidation _ => Validating
  | CallQueue _ => Queued
  | CallStartParsing _ => Parsing
  | CallStartCommitting _ => Committing
  | CallComplete _ => Completed
  | CallFail _ _ | CallFailWithCode _ _ _ => Failed
  | CallCancel _ => Cancelled
  end.

(** The fields a call writes besides the status and the time. *)
Definition call_writes (c : ImportCall) (i : Import) : Import :=
  match c with
  | CallCompleteUpload _ a k => set_source (Some a) (Some k) i
  | CallFail _ r => set_failure (Some r) (im_failure_code i) i
  | CallFailWithCode _ r k => set_failure (Some r) (Some k) i
  | _ => i
  end.

Definition call_time (c : ImportCall) : datetime :=
  match c with
  | CallStartUpload now | CallCompleteUpload now _ _ | CallStartValidation now
  | CallQueue now | CallStartParsing now | CallStartCommitting now | CallComplete now
  | CallFail now _ | CallFailWithCode now _ _ | CallCancel now => now
  end.

Definition call_result (c : ImportCall) (i : Import) : Import :=
  touch_import (call_time c) (call_writes c (set_status (call_target c) i)).

Definition import_step (i i' : Import) : Prop := exists c, i' = snd (run_import_call c i).

(** How many successful transitions may still follow a status. *)
Definition remaining (s : ImportStatus) : nat :=
  match s with
  | Requested => 7 | Uploading => 6 | Uploaded => 5 | Validating => 4 | Queued => 3
  | Parsing => 2 | Committing => 1 | Completed | Failed | Cancelled => 0
  end.

Lemma transition_to_cases s t :
  (transition_to s t = Ok t /\ remaining t < remaining s /\ is_terminal s = false) \/
  (transition_to s t = Err (InvalidTransition (status_display s) (status_display t))).
Proof. destruct s, t; (left; split_and!; [reflexivity|simpl; lia|reflexivity]) || by right. Qed.

Lemma run_import_call_cases c i :
  (transition_to (im_status i) (call_target c) = Ok (call_target c) /\
   run_import_call c i = (Ok tt, call_result c i)) \/
  (exists e, transition_to (im_status i) (call_target c) = Err e /\
   run_import_call c i = (Err e, i)).
Proof.
  destruct (transition_to_cases (im_status i) (call_target c)) as [(Ht & _ & _)|Ht];
    [left|right; eexists]; (split; [done|]); unfold call_result;
    destruct c; simpl in Ht |- *;
    unfold start_upload, complete_upload, start_validation, queue_for_parsing, start_parsing,
      start_committing, complete, fail, fail_with_code, cancel, move_to; run; by rewrite Ht.
Qed.

(** ** The invariant *)

Definition has_source (s : ImportStatus) : bool :=
  match s with
  | Uploaded | Validating | Queued | Parsing | Committing | Completed => true
  | _ => false
  end.

Definition import_wf (i : Import) : Prop :=
  (is_Some (im_failure_reason i) <-> im_status i = Failed) /\
  (is_Some (im_failure_code i) -> im_status i = Failed) /\
  (is_Some (im_source_artifact_id i) <-> is_Some (im_checksum i)) /\
  (has_source (im_status i) = true -> is_Some (im_checksum i)) /\
  (im_status i = Requested \/ im_status i = Uploading -> im_checksum i = None) /\
  im_idempotency_key i <> [].

Lemma not_terminal_not_failed s t : transition_to s t = Ok t -> s <> Failed.
Proof. by intros H ->. Qed.

(** An import that has not failed carries no failure. *)
Lemma wf_no_failure i :
  import_wf i -> im_status i <> Failed -> im_failure_reason i = None /\ im_failure_code i = None.
Proof.
  intros (H1 & H2 & _) Hn. split.
  - destruct (im_failure_reason i); [|done]. destruct Hn. apply H1. eauto.
  - destruct (im_failure_code i); [|done]. destruct Hn. eauto.
Qed.

Lemma import_step_wf i i' : import_wf i -> import_step i i' -> import_wf i'.
Proof.
  intros Hwf [c ->].
  destruct (run_import_call_cases c i) as [[Ht ->]|(e & _ & ->)]; [|done].
  destruct (wf_no_failure i Hwf (not_terminal_not_failed _ _ Ht)) as [Hr Hc].
  destruct Hwf as (_ & _ & H3 & H4 & H5 & H6). unfold import_wf, call_result.
  destruct c; simpl in *; destruct (im_status i) eqn:Hs; try discriminate Ht;
    rewrite ?Hr, ?Hc; simpl in *;
    split_and!; try solve [done | eauto | by intros [? ?] | by intros [?|?]
                          | split; [by intros [? ?] | done] | split; eauto].
Qed.

Lemma trim_nil : trim [] = [].
Proof. done. Qed.

Lemma new_import_wf new_id now owner f key hash i :
  new_import new_id now owner f key hash = Ok i -> import_wf i.
Proof.
  unfold new_import. destruct (is_empty (trim key)) eqn:Hk; [done|]. intros [= <-].
  unfold import_wf. simpl. assert (key <> []) by (by intros ->).
  split_and!; try solve [done | by intros [? ?] | split; [by intros [? ?] | done]].
Qed.

(** Every successful call uses up one of the remaining transitions. *)
Lemma import_call_decreases c i i' :
  run_import_call c i = (Ok tt, i') -> remaining (im_status i') < remaining (im_status i).
Proof.
  intros Hrun. destruct (run_import_call_cases c i) as [[Ht Hc]|(e & _ & Hc)]; [|congruence].
  assert (i' = call_result c i) as -> by congruence.
  destruct (transition_to_cases (im_status i) (call_target c)) as [(_ & Hlt & _)|He];
    [|congruence].
  by destruct c.
Qed.

(** ** Cleanup *)

Definition timed_out (now : datetime) (i : Import) : Import :=
  if is_terminal (im_status i) then i
  else touch_import now (set_failure (Some (lit "import processing timed out")) (Some Timeout)
         (set_status Failed i)).

Lemma fail_with_code_timeout now i :
  fail_with_code now (lit "import processing timed out") Timeout i =
  (if is_terminal (im_status i)
   then Err (InvalidTransition (status_display (im_status i)) (status_display Failed))
   else Ok tt, timed_out now i).
Proof. unfold fail_with_code, move_to, timed_out. run. by destruct (im_status i). Qed.

Lemma fail_abandoned_spec now ims :
  fail_abandoned_imports now ims =
  (map (timed_out now) ims,
   mkCleanup (len (filter (fun i => is_terminal (im_status i) = false) ims))
             (len (filter (fun i => is_terminal (im_status i) = true) ims))).
Proof.
  induction ims as [|i ims IH]; [done|].
  cbn [fail_abandoned_imports map]. rewrite fail_with_code_timeout, IH, !filter_cons.
  destruct (is_terminal (im_status i)) eqn:Ht; repeat case_decide; try congruence; simpl;
    rewrite len_cons, N.add_comm; done.
Qed.

(** ** Checksums *)

Lemma ascii_lower_idem c : ascii_lower (ascii_lower c) = ascii_lower c.
Proof.
  unfold ascii_lower at 2 3. destruct ((65 <=? c) && (c <=? 90))%N eqn:H; unfold ascii_lower;
    [|by rewrite H]. to_prop.
  destruct ((65 <=? c + 32) && (c + 32 <=? 90))%N eqn:H'; to_prop; [lia|done].
Qed.

Lemma hexdigit_ascii c : is_ascii_hexdigit c = true -> (c < 128)%N.
Proof.
  unfold is_ascii_hexdigit. intros H.
  repeat (apply orb_true_iff in H as [H|H]); apply andb_true_iff in H as [H1 H2]; to_prop; lia.
Qed.

Lemma ascii_str_len s : is_ascii s = true -> str_len s = len s.
Proof.
  unfold is_ascii. induction s as [|c s IH]; [done|]. simpl. intros [Hc Hs]%andb_true_iff.
  rewrite IH, len_cons by done. unfold len_utf8. by rewrite Hc.
Qed.

Lemma hex_is_ascii s : forallb is_ascii_hexdigit s = true -> is_ascii s = true.
Proof.
  unfold is_ascii. rewrite !forallb_forall. intros H c Hc. apply N.ltb_lt.
  eauto using hexdigit_ascii.
Qed.

Lemma Checksum_new_inv `{UnicodeLower} v k :
  Checksum_new v = Ok k ->
  k = mkChecksum (to_lowercase v) /\ length (checksum_str k) = 64 /\
  forallb is_ascii_hexdigit (checksum_str k) = true.
Proof.
  unfold Checksum_new. destruct (N.eqb_spec (str_len (to_lowercase v)) 64) as [Hl|]; [|done].
  simpl. destruct (forallb _ _) eqn:Hx; [|done]. intros [= <-]. split_and!; [done| |done].
  simpl. rewrite (ascii_str_len _ (hex_is_ascii _ Hx)) in Hl. unfold len in Hl. lia.
Qed.

Lemma to_lowercase_idem `{UnicodeLower} s :
  is_ascii s = true -> is_ascii (map ascii_lower s) = true ->
  to_lowercase (to_lowercase s) = to_lowercase s.
Proof.
  intros Hs Hm. unfold to_lowercase. rewrite Hs, Hm, map_map.
  apply map_ext. apply ascii_lower_idem.
Qed.

(** ** Properties *)

Lemma import_calls_decrease cs i i' :
  for_each cs run_import_call i = (Ok tt, i') ->
  length cs + remaining (im_status i') <= remaining (im_status i).
Proof.
  revert i. induction cs as [|c cs IH]; intros i; simpl; [by intros [= ->]|].
  intros ([] & s & Hc & Hrun)%eff_bind_inv. apply IH in Hrun. apply import_call_decreases in Hc.
  lia.
Qed.

Definition sample_import : Import :=
  mkImport 1 2 None Gpx Requested None None None (lit "key") None None 0 0.
Definition sample_hash : rstr := replicate 64 65%N.
#[local] Instance no_unicode : UnicodeLower := fun s => s.

(** An import reached from a new one by any sequence of method calls has a
    failure reason exactly when it has failed, a failure code only then, a
    source artifact exactly when it has a checksum, both of them from the end of
    the upload on and neither before, and a non-empty idempotency key. *)
Theorem reachable_import_wf new_id now owner f key hash i i' :
  new_import new_id now owner f key hash = Ok i -> reach import_step i i' -> import_wf i'.
Proof.
  intros Hnew. apply reach_invariant; [apply import_step_wf|by eapply new_import_wf].
Qed.

Lemma reachable_import_wf_witness : import_wf (snd (fail 5 (lit "x") sample_import)).
Proof.
  apply (reachable_import_wf 1 0 2 Gpx (lit "key") None sample_import); [by vm_compute|].
  eapply reach_step; [|apply reach_refl]. by exists (CallFail 5 (lit "x")).
Defined.

(** Every lifecycle is finite and its end is final.  A sequence of
    successful calls on an import takes at most as many steps as its status
    leaves, seven from the start, and once the status is terminal every call
    is refused with [InvalidTransition] naming both states, unchanged. *)
Theorem import_lifecycle_bounded cs i i' :
  for_each cs run_import_call i = (Ok tt, i') ->
  length cs + remaining (im_status i') <= remaining (im_status i) <= 7 /\
  (is_terminal (im_status i') = true -> forall c,
     run_import_call c i' =
       (Err (InvalidTransition (status_display (im_status i')) (status_display (call_target c))), i')).
Proof.
  intros Hrun. split; [split; [by eapply import_calls_decrease|destruct (im_status i); simpl; lia]|].
  intros Ht c. destruct (run_import_call_cases c i') as [[Hok _]|(e & He & ->)].
  - unfold transition_to in Hok. by rewrite Ht in Hok.
  - destruct (transition_to_cases (im_status i') (call_target c)) as [(_ & _ & Hn)|He'];
      congruence.
Qed.

Lemma import_lifecycle_bounded_witness :
  2 + remaining (im_status (snd (for_each [CallStartUpload 1; CallCancel 2] run_import_call
        sample_import))) <= 7 <= 7.
Proof.
  apply (import_lifecycle_bounded [CallStartUpload 1; CallCancel 2] sample_import). by vm_compute.
Defined.

(** A checksum is a canonical SHA-256 text.  When [Checksum::new] accepts a
    string, the result is its lower-case form, of exactly 64 hexadecimal
    digits, and is accepted again unchanged. *)
Theorem checksum_canonical `{UnicodeLower} v k :
  Checksum_new v = Ok k ->
  checksum_str k = to_lowercase v /\ length (checksum_str k) = 64 /\
  forallb is_ascii_hexdigit (checksum_str k) = true /\
  (is_ascii v = true -> Checksum_new (checksum_str k) = Ok k).
Proof.
  intros (-> & Hl & Hx)%Checksum_new_inv. simpl in *. split_and!; [done..|].
  intros Ha. pose proof (hex_is_ascii _ Hx) as Hax.
  assert (to_lowercase (to_lowercase v) = to_lowercase v) as Hi.
  { apply to_lowercase_idem; [done|]. unfold to_lowercase in Hax. by rewrite Ha in Hax. }
  unfold Checksum_new. rewrite Hi, (ascii_str_len _ Hax), Hx. unfold len. by rewrite Hl.
Qed.

Lemma checksum_canonical_witness :
  length (checksum_str (mkChecksum (replicate 64 97%N))) = 64.
Proof. apply (checksum_canonical sample_hash). by vm_compute. Defined.
