(* ===== verification/Utf8.v ===== *)
(** Bytes: the UTF-8 encoding of Rust strings ([as_bytes], [from_utf8]),
    little-endian integers, substring search, and [str::parse::<f64>]. *)
From S2P Require Import Prelude Float64 RustString.

Abbreviation byte := N (only parsing).
Abbreviation bytes := (list N) (only parsing).

(** ** UTF-8 *)

(** The lower-case hexadecimal SHA-256 of some bytes. *)
Class Sha256 := sha256_hex : bytes -> rstr.

(** Unicode scalar values: what a [char] may hold. *)
Definition is_scalar (c : rchar) : bool :=
  ((c <? 55296) || (57344 <=? c) && (c <? 1114112))%N.

Definition encode_char (c : rchar) : bytes :=
  (if c <? 128 then [c]
   else if c <? 2048 then [192 + c / 64; 128 + c mod 64]
   else if c <? 65536 then [224 + c / 4096; 128 + (c / 64) mod 64; 128 + c mod 64]
   else [240 + c / 262144; 128 + (c / 4096) mod 64; 128 + (c / 64) mod 64; 128 + c mod 64])%N.

(** [s.as_bytes()]. *)
Definition as_bytes (s : rstr) : bytes := concat (map encode_char s).

Definition is_cont (b : byte) : bool := ((128 <=? b) && (b <? 192))%N.

(** One scalar value from the front of the bytes; overlong forms, surrogates
    and values past U+10FFFF are refused. *)
Definition decode_char (bs : bytes) : option (rchar * bytes) :=
  match bs with
  | [] => None
  | b0 :: r =>
      if (b0 <? 128)%N then Some (b0, r)
      else if (b0 <? 192)%N then None
      else if (b0 <? 224)%N then
        match r with
        | b1 :: r' =>
            let c := ((b0 - 192) * 64 + (b1 - 128))%N in
            if is_cont b1 && (128 <=? c)%N then Some (c, r') else None
        | _ => None
        end
      else if (b0 <? 240)%N then
        match r with
        | b1 :: b2 :: r' =>
            let c := ((b0 - 224) * 4096 + (b1 - 128) * 64 + (b2 - 128))%N in
            if is_cont b1 && is_cont b2 && (2048 <=? c)%N && is_scalar c
            then Some (c, r') else None
        | _ => None
        end
      else if (b0 <? 248)%N then
        match r with
        | b1 :: b2 :: b3 :: r' =>
            let c := ((b0 - 240) * 262144 + (b1 - 128) * 4096 + (b2 - 128) * 64
                      + (b3 - 128))%N in
            if is_cont b1 && is_cont b2 && is_cont b3 && (65536 <=? c)%N && is_scalar c
            then Some (c, r') else None
        | _ => None
        end
      else None
  end.

Fixpoint from_utf8_fuel (fuel : nat) (bs : bytes) : option rstr :=
  match bs, fuel with
  | [], _ => Some []
  | _, O => None
  | _, S f =>
      match decode_char bs with
      | None => None
      | Some (c, r) => match from_utf8_fuel f r with
                       | None => None
                       | Some s => Some (c :: s)
                       end
      end
  end.

(** [std::str::from_utf8(bs).ok()]; every character takes at least one byte. *)
Definition from_utf8 (bs : bytes) : option rstr := from_utf8_fuel (length bs) bs.

Definition valid_str (s : rstr) : Prop := Forall (fun c => is_scalar c = true) s.

(** [n.to_le_bytes()] of a [u64]. *)
Fixpoint le_bytes (w : nat) (n : N) : bytes :=
  match w with O => [] | S w' => (n mod 256)%N :: le_bytes w' (n / 256)%N end.
Definition u64_to_le_bytes (n : N) : bytes := le_bytes 8 n.

(** ** Searching *)

Fixpoint starts_with (pat s : rstr) : bool :=
  match pat, s with
  | [], _ => true
  | p :: pat', c :: s' => (p =? c)%N && starts_with pat' s'
  | _, [] => false
  end.

(** [s.contains(pat)]. *)
Fixpoint str_contains (pat s : rstr) : bool :=
  starts_with pat s || match s with [] => false | _ :: s' => str_contains pat s' end.

(** ** [str::parse::<f64>]

    The grammar of [f64::from_str]: an optional sign, then [inf], [infinity]
    or [nan] in any case, or digits with an optional point and exponent, at
    least one digit in the mantissa.  The value is rounded to nearest. *)
Definition is_digit (c : rchar) : bool := ((48 <=? c) && (c <=? 57))%N.

Fixpoint take_digits (s : rstr) : list N * rstr :=
  match s with
  | c :: s' => if is_digit c then let '(ds, r) := take_digits s' in ((c - 48)%N :: ds, r)
               else ([], s)
  | [] => ([], [])
  end.

Definition digits_value (ds : list N) : N := fold_left (fun acc d => 10 * acc + d)%N ds 0%N.

Definition take_sign (s : rstr) : bool * rstr :=
  match s with
  | 45%N :: r => (true, r)
  | 43%N :: r => (false, r)
  | _ => (false, s)
  end.

(** The exponent part; [None] when the text is malformed. *)
Definition take_exponent (s : rstr) : option Z :=
  match s with
  | [] => Some 0%Z
  | c :: r =>
      if ((c =? 101) || (c =? 69))%N then
        let '(neg, r) := take_sign r in
        let '(ds, rest) := take_digits r in
        match ds, rest with
        | _ :: _, [] => Some (if neg then - Z.of_N (digits_value ds) else Z.of_N (digits_value ds))%Z
        | _, _ => None
        end
      else None
  end.

(** [m * 10 ^ k] rounded to nearest. *)
Definition f64_of_scientific (neg : bool) (m : N) (k : Z) : f64 :=
  match m with
  | N0 => S754_zero neg
  | Npos p =>
      match k with
      | Z0 => f64_of_ratio neg p 1
      | Zpos e => f64_of_ratio neg (p * 10 ^ e) 1
      | Zneg e => f64_of_ratio neg p (10 ^ e)
      end
  end.

Definition parse_f64 (s : rstr) : option f64 :=
  let '(neg, r) := take_sign s in
  let l := map ascii_lower r in
  if decide (l = lit "inf") then Some (S754_infinity neg)
  else if decide (l = lit "infinity") then Some (S754_infinity neg)
  else if decide (l = lit "nan") then Some S754_nan
  else
    let '(ip, r1) := take_digits r in
    let '(fp, r2) := match r1 with
                     | 46%N :: r' => take_digits r'
                     | _ => ([], r1)
                     end in
    match ip ++ fp, take_exponent r2 with
    | _ :: _, Some e =>
        Some (f64_of_scientific neg (digits_value (ip ++ fp)) (e - Z.of_nat (length fp)))
    | _, _ => None
    end.

Example parse_f64_1 : parse_f64 (lit "47.5") = Some (f64_div (f64_of_Z 95) (f64_of_Z 2)).
Proof. vm_compute. reflexivity. Qed.
Example parse_f64_2 : parse_f64 (lit "-1.25e2") = Some (f64_of_Z (-125)).
Proof. vm_compute. reflexivity. Qed.
Example parse_f64_3 : parse_f64 (lit ".") = None /\ parse_f64 (lit "1e") = None /\
  parse_f64 (lit " 1") = None /\ parse_f64 (lit "5.") = Some (f64_of_Z 5).
Proof. vm_compute. repeat split. Qed.

(** ** Lemmas *)

Ltac Zify.zify_post_hook ::= Z.to_euclidean_division_equations.

(** Decide the comparisons in the goal that arithmetic settles. *)
Ltac ltb_cases :=
  repeat match goal with
  | |- context [(?a <? ?b)%N] => destruct (N.ltb_spec a b); [lia || idtac|lia || idtac]; try lia
  end.

Lemma decode_encode_char c r :
  is_scalar c = true -> decode_char (encode_char c ++ r) = Some (c, r).
Proof.
  intros Hc. unfold encode_char.
  assert (c < 1114112)%N as Hmax.
  { unfold is_scalar in Hc. apply orb_true_iff in Hc as [H|H]; to_prop; lia. }
  assert (forall x, (x < 64)%N -> is_cont (128 + x) = true) as Hcont.
  { intros x Hx. unfold is_cont. apply andb_true_iff; split; [apply N.leb_le|apply N.ltb_lt]; lia. }
  assert (forall n, (n mod 64 < 64)%N) as Hmod by (intros; by apply N.mod_lt).
  destruct (N.ltb_spec c 128); [simpl; by rewrite (proj2 (N.ltb_lt c 128))|].
  destruct (N.ltb_spec c 2048); [|destruct (N.ltb_spec c 65536)]; unfold decode_char; cbn [app]; cbv zeta iota beta.
  - ltb_cases.
    rewrite Hcont by done.
    assert ((192 + c / 64 - 192) * 64 + (128 + c mod 64 - 128) = c)%N as -> by lia.
    by rewrite (proj2 (N.leb_le 128 c)).
  - ltb_cases.
    rewrite !Hcont by done.
    assert ((224 + c / 4096 - 224) * 4096 + (128 + (c / 64) mod 64 - 128) * 64
            + (128 + c mod 64 - 128) = c)%N as -> by lia.
    by rewrite (proj2 (N.leb_le 2048 c)), Hc.
  - ltb_cases.
    rewrite !Hcont by done.
    assert ((240 + c / 262144 - 240) * 262144 + (128 + (c / 4096) mod 64 - 128) * 4096
            + (128 + (c / 64) mod 64 - 128) * 64 + (128 + c mod 64 - 128) = c)%N as -> by lia.
    by rewrite (proj2 (N.leb_le 65536 c)), Hc.
Qed.

Lemma encode_char_nonempty c : exists b r, encode_char c = b :: r.
Proof. unfold encode_char. repeat destruct (_ <? _)%N; eauto. Qed.

Lemma from_utf8_as_bytes_fuel s f :
  valid_str s -> length (as_bytes s) <= f -> from_utf8_fuel f (as_bytes s) = Some s.
Proof.
  revert f. induction s as [|c s IH]; intros f Hv Hf; [by destruct f|].
  apply Forall_cons in Hv as [Hc Hs]. unfold as_bytes in *. simpl in *.
  pose proof (decode_encode_char c (concat (map encode_char s)) Hc) as Hd.
  destruct (encode_char_nonempty c) as (b & r & Hb). rewrite Hb in *. simpl in *.
  destruct f as [|f]; [lia|]. simpl. simpl in Hd. rewrite Hd.
  rewrite IH; [done|done|]. rewrite length_app in Hf. lia.
Qed.

Lemma from_utf8_as_bytes s : valid_str s -> from_utf8 (as_bytes s) = Some s.
Proof. intros. by apply from_utf8_as_bytes_fuel. Qed.

Lemma as_bytes_inj s t : valid_str s -> valid_str t -> as_bytes s = as_bytes t -> s = t.
Proof.
  intros Hs Ht H. apply (f_equal from_utf8) in H. rewrite !from_utf8_as_bytes in H by done.
  congruence.
Qed.

Lemma length_le_bytes w n : length (le_bytes w n) = w.
Proof. revert n. induction w; intros; simpl; by f_equal. Qed.

Lemma le_bytes_inj w n m :
  (n < 256 ^ N.of_nat w)%N -> (m < 256 ^ N.of_nat w)%N -> le_bytes w n = le_bytes w m -> n = m.
Proof.
  revert n m. induction w as [|w IH]; intros n m Hn Hm H; simpl in *.
  - change (256 ^ 0)%N with 1%N in *. lia.
  - injection H as H1 H2. replace (N.of_nat (S w)) with (N.succ (N.of_nat w)) in * by lia.
    rewrite N.pow_succ_r' in *.
    assert (n / 256 = m / 256)%N.
    { apply IH; [apply N.Div0.div_lt_upper_bound; lia..|done]. }
    lia.
Qed.
