(* ===== verification/GpxParser.v ===== *)
(** The GPX parser, crates/app/src/imports/gpx_parser.rs: a state machine over
    the events of an XML reader.  The reader is third-party code (quick_xml):
    the parser is given the list of its events up to the end of the input. *)
From S2P Require Import Prelude Float64 RustString RustVec Utf8.

Definition MAX_INPUT_SIZE : N := 100 * 1024 * 1024.
Definition MAX_DEPTH : N := 20.
Definition MAX_POINTS : N := 500000.
Definition MAX_SEGMENTS : N := 10000.
Definition MAX_METADATA_LEN : N := 1000.

(** ** Data *)

Inductive GpxParseErrorCode : Type :=
| InvalidXml | UnsupportedVersion | TooManyPoints | TooManySegments | XmlTooDeep
| ExternalEntity | InvalidCoordinates | InputTooLarge.

Definition code_display (c : GpxParseErrorCode) : rstr :=
  match c with
  | InvalidXml => lit "INVALID_XML"
  | UnsupportedVersion => lit "UNSUPPORTED_VERSION"
  | TooManyPoints => lit "TOO_MANY_POINTS"
  | TooManySegments => lit "TOO_MANY_SEGMENTS"
  | XmlTooDeep => lit "XML_TOO_DEEP"
  | ExternalEntity => lit "EXTERNAL_ENTITY"
  | InvalidCoordinates => lit "INVALID_COORDINATES"
  | InputTooLarge => lit "INPUT_TOO_LARGE"
  end.

Record GpxParseError := mkParseError { pe_code : GpxParseErrorCode; pe_message : rstr }.

Inductive GpxVersion := Gpx10 | Gpx11.

Record GpxMetadata := mkMetadata {
  md_name : option rstr; md_description : option rstr; md_time : option rstr }.

Record GpxTrackPoint := mkGpxPoint {
  gp_lat : f64; gp_lon : f64; gp_elevation : option f64; gp_time : option rstr }.

Record GpxTrackSegment := mkGpxSegment { gs_points : list GpxTrackPoint }.

Record GpxTrack := mkGpxTrack { gt_name : option rstr; gt_segments : list GpxTrackSegment }.

Record GpxParseResult := mkGpxResult {
  gr_version : GpxVersion;
  gr_metadata : GpxMetadata;
  gr_tracks : list GpxTrack;
  gr_total_points : N }.

(** [sanitize_metadata]: the length test counts bytes, the cut characters. *)
Definition sanitize_metadata (s : rstr) : rstr :=
  let cleaned := List.filter (fun c => negb (is_control c)) (trim s) in
  if (MAX_METADATA_LEN <? str_len cleaned)%N
  then take (N.to_nat MAX_METADATA_LEN) cleaned else cleaned.

(** ** XML events *)

(** An attribute the reader could parse: its key and value, as bytes. *)
Abbreviation attribute := (bytes * bytes)%type (only parsing).

Inductive XmlEvent : Type :=
| EvStart (local_name : bytes) (attributes : list attribute)
| EvEnd (local_name : bytes)
| EvEmpty (local_name : bytes) (attributes : list attribute)
| EvText (unescaped : option rstr)
| EvDocType
| EvOther
| EvError.

(** The events of a text, in order; the end of the list is the end of input. *)
Class XmlReader := read_events : rstr -> list XmlEvent.

(** ** The parser's state *)

Inductive TextTarget :=
| MetadataName | MetadataDesc | MetadataTime | TrackName | PointEle | PointTime.

Record ParserState := mkParser {
  ps_depth : N;
  ps_version : option GpxVersion;
  ps_metadata : GpxMetadata;
  ps_tracks : list GpxTrack;
  ps_total_points : N;
  ps_total_segments : N;
  in_metadata : bool;
  in_trk : bool;
  in_trkseg : bool;
  in_trkpt : bool;
  current_track : option GpxTrack;
  current_segment : option GpxTrackSegment;
  current_point : option GpxTrackPoint;
  text_target : option TextTarget }.

Definition initial_state : ParserState :=
  mkParser 0 None (mkMetadata None None None) [] 0 0 false false false false None None None None.

Definition set_depth d (p : ParserState) : ParserState :=
  mkParser d (ps_version p) (ps_metadata p) (ps_tracks p) (ps_total_points p)
    (ps_total_segments p) (in_metadata p) (in_trk p) (in_trkseg p) (in_trkpt p)
    (current_track p) (current_segment p) (current_point p) (text_target p).
Definition set_version v (p : ParserState) : ParserState :=
  mkParser (ps_depth p) v (ps_metadata p) (ps_tracks p) (ps_total_points p)
    (ps_total_segments p) (in_metadata p) (in_trk p) (in_trkseg p) (in_trkpt p)
    (current_track p) (current_segment p) (current_point p) (text_target p).
Definition set_metadata m (p : ParserState) : ParserState :=
  mkParser (ps_depth p) (ps_version p) m (ps_tracks p) (ps_total_points p)
    (ps_total_segments p) (in_metadata p) (in_trk p) (in_trkseg p) (in_trkpt p)
    (current_track p) (current_segment p) (current_point p) (text_target p).
Definition set_tracks t (p : ParserState) : ParserState :=
  mkParser (ps_depth p) (ps_version p) (ps_metadata p) t (ps_total_points p)
    (ps_total_segments p) (in_metadata p) (in_trk p) (in_trkseg p) (in_trkpt p)
    (current_track p) (current_segment p) (current_point p) (text_target p).
Definition set_totals points segments (p : ParserState) : ParserState :=
  mkParser (ps_depth p) (ps_version p) (ps_metadata p) (ps_tracks p) points
    segments (in_metadata p) (in_trk p) (in_trkseg p) (in_trkpt p)
    (current_track p) (current_segment p) (current_point p) (text_target p).
Definition set_flags md trk seg pt (p : ParserState) : ParserState :=
  mkParser (ps_depth p) (ps_version p) (ps_metadata p) (ps_tracks p) (ps_total_points p)
    (ps_total_segments p) md trk seg pt
    (current_track p) (current_segment p) (current_point p) (text_target p).
Definition set_current t s pt (p : ParserState) : ParserState :=
  mkParser (ps_depth p) (ps_version p) (ps_metadata p) (ps_tracks p) (ps_total_points p)
    (ps_total_segments p) (in_metadata p) (in_trk p) (in_trkseg p) (in_trkpt p)
    t s pt (text_target p).
Definition set_target t (p : ParserState) : ParserState :=
  mkParser (ps_depth p) (ps_version p) (ps_metadata p) (ps_tracks p) (ps_total_points p)
    (ps_total_segments p) (in_metadata p) (in_trk p) (in_trkseg p) (in_trkpt p)
    (current_track p) (current_segment p) (current_point p) t.

Abbreviation parser := (eff ParserState GpxParseError unit) (only parsing).

Definition fail_parse {A} (code : GpxParseErrorCode) (msg : rstr)
    : eff ParserState GpxParseError A := throw (mkParseError code msg).

(** [std::str::from_utf8(..).unwrap_or("")]. *)
Definition text_of (bs : bytes) : rstr := default [] (from_utf8 bs).

(** *** Start tags *)

(** The version attributes of [<gpx>]: the last one wins. *)
Fixpoint read_version (attrs : list attribute) : parser :=
  match attrs with
  | [] => mret tt
  | (key, value) :: rest =>
      (if decide (key = as_bytes (lit "version")) then
         let val := text_of value in
         if decide (val = lit "1.0") then modify (set_version (Some Gpx10))
         else if decide (val = lit "1.1") then modify (set_version (Some Gpx11))
         else fail_parse UnsupportedVersion (lit "unsupported GPX version: " ++ val)
       else mret tt);;
      read_version rest
  end.

(** The [lat] and [lon] attributes of a track point: the last ones win. *)
Fixpoint read_lat_lon (attrs : list attribute) (lat lon : option f64)
    : result GpxParseError (option f64 * option f64) :=
  match attrs with
  | [] => Ok (lat, lon)
  | (key, value) :: rest =>
      let key := text_of key in let val := text_of value in
      if decide (key = lit "lat") then
        match parse_f64 val with
        | Some x => read_lat_lon rest (Some x) lon
        | None => Err (mkParseError InvalidCoordinates (lit "invalid latitude: " ++ val))
        end
      else if decide (key = lit "lon") then
        match parse_f64 val with
        | Some x => read_lat_lon rest lat (Some x)
        | None => Err (mkParseError InvalidCoordinates (lit "invalid longitude: " ++ val))
        end
      else read_lat_lon rest lat lon
  end.

Definition lat_ok (x : f64) : bool := range_contains (f64_of_Z (-90)) (f64_of_Z 90) x.
Definition lon_ok (x : f64) : bool := range_contains (f64_of_Z (-180)) (f64_of_Z 180) x.

(** The point a [trkpt] tag starts, with its two checks. *)
Definition read_point (attrs : list attribute) : result GpxParseError GpxTrackPoint :=
  ll ← read_lat_lon attrs None None;
  lat ← ok_or (fst ll) (mkParseError InvalidCoordinates (lit "trkpt missing lat attribute"));
  lon ← ok_or (snd ll) (mkParseError InvalidCoordinates (lit "trkpt missing lon attribute"));
  guard_err (negb (lat_ok lat)) (mkParseError InvalidCoordinates
    (lit "latitude " ++ display_f64 lat ++ lit " out of range [-90, 90]"));;
  guard_err (negb (lon_ok lon)) (mkParseError InvalidCoordinates
    (lit "longitude " ++ display_f64 lon ++ lit " out of range [-180, 180]"));;
  mret (mkGpxPoint lat lon None None).

(** [total_points += 1] and its limit. *)
Definition count_point : parser :=
  modify (fun p => set_totals (ps_total_points p + 1)%N (ps_total_segments p) p);;
  p ← get;
  if (MAX_POINTS <? ps_total_points p)%N
  then fail_parse TooManyPoints
         (lit "exceeded maximum of " ++ display_N MAX_POINTS ++ lit " track points")
  else mret tt.

Definition start_trkseg : parser :=
  modify (fun p => set_flags (in_metadata p) (in_trk p) true (in_trkpt p) p);;
  modify (fun p => set_totals (ps_total_points p) (ps_total_segments p + 1)%N p);;
  p ← get;
  if (MAX_SEGMENTS <? ps_total_segments p)%N
  then fail_parse TooManySegments
         (lit "exceeded maximum of " ++ display_N MAX_SEGMENTS ++ lit " segments")
  else modify (fun p => set_current (current_track p) (Some (mkGpxSegment [])) (current_point p) p).

Definition start_trkpt (attrs : list attribute) : parser :=
  modify (fun p => set_flags (in_metadata p) (in_trk p) (in_trkseg p) true p);;
  count_point;;
  pt ← lift (read_point attrs);
  modify (fun p => set_current (current_track p) (current_segment p) (Some pt) p).

(** The [match tag] of a start tag, after the depth check. *)
Definition start_tag (tag : rstr) (attrs : list attribute) : parser :=
  p ← get;
  if decide (tag = lit "gpx") then read_version attrs
  else if decide (tag = lit "metadata") then
    modify (set_flags true (in_trk p) (in_trkseg p) (in_trkpt p))
  else if decide (tag = lit "name") then
    if in_trkpt p then mret tt
    else if in_trk p then modify (set_target (Some TrackName))
    else if in_metadata p || (ps_depth p =? 2)%N
    then modify (set_target (Some MetadataName)) else mret tt
  else if decide (tag = lit "desc") then
    if in_metadata p || (negb (in_trk p) && (ps_depth p =? 2)%N)
    then modify (set_target (Some MetadataDesc)) else mret tt
  else if decide (tag = lit "time") then
    if in_trkpt p then modify (set_target (Some PointTime))
    else if in_metadata p || (ps_depth p =? 2)%N
    then modify (set_target (Some MetadataTime)) else mret tt
  else if decide (tag = lit "trk") then
    modify (set_flags (in_metadata p) true (in_trkseg p) (in_trkpt p));;
    modify (set_current (Some (mkGpxTrack None [])) (current_segment p) (current_point p))
  else if decide (tag = lit "trkseg") then start_trkseg
  else if decide (tag = lit "trkpt") then start_trkpt attrs
  else if decide (tag = lit "ele") then
    if in_trkpt p then modify (set_target (Some PointEle)) else mret tt
  else mret tt.

Definition on_start (name : bytes) (attrs : list attribute) : parser :=
  modify (fun p => set_depth (ps_depth p + 1)%N p);;
  p ← get;
  if (MAX_DEPTH <? ps_depth p)%N
  then fail_parse XmlTooDeep (lit "XML depth exceeded maximum of " ++ display_N MAX_DEPTH)
  else start_tag (text_of name) attrs.

(** *** End tags *)

Definition push_segment (s : GpxTrackSegment) (t : GpxTrack) : GpxTrack :=
  mkGpxTrack (gt_name t) (gt_segments t ++ [s]).
Definition push_point (pt : GpxTrackPoint) (s : GpxTrackSegment) : GpxTrackSegment :=
  mkGpxSegment (gs_points s ++ [pt]).

Definition end_tag (tag : rstr) (p : ParserState) : ParserState :=
  if decide (tag = lit "metadata") then
    set_flags false (in_trk p) (in_trkseg p) (in_trkpt p) p
  else if decide (tag = lit "trk") then
    let p := set_flags (in_metadata p) false (in_trkseg p) (in_trkpt p) p in
    match current_track p with
    | Some t => set_tracks (ps_tracks p ++ [t])
                  (set_current None (current_segment p) (current_point p) p)
    | None => p
    end
  else if decide (tag = lit "trkseg") then
    let p := set_flags (in_metadata p) (in_trk p) false (in_trkpt p) p in
    match current_segment p with
    | Some s => set_current (push_segment s <$> current_track p) None (current_point p) p
    | None => p
    end
  else if decide (tag = lit "trkpt") then
    let p := set_flags (in_metadata p) (in_trk p) (in_trkseg p) false p in
    match current_point p with
    | Some pt => set_current (current_track p) (push_point pt <$> current_segment p) None p
    | None => p
    end
  else set_target None p.

Definition on_end (name : bytes) : parser :=
  modify (end_tag (text_of name));;
  modify (fun p => set_depth (ps_depth p - 1)%N p).

(** *** Self-closing tags *)

Definition on_empty (name : bytes) (attrs : list attribute) : parser :=
  p ← get;
  if bool_decide (text_of name = lit "trkpt") && in_trkseg p then
    count_point;;
    pt ← lift (read_point attrs);
    modify (fun p => set_current (current_track p) (push_point pt <$> current_segment p)
                       (current_point p) p)
  else mret tt.

(** *** Text *)

Definition on_text (unescaped : option rstr) : parser :=
  modify (fun p =>
    match text_target p with
    | None => p
    | Some target =>
        let text := default [] unescaped in
        let m := ps_metadata p in
        set_target None
          match target with
          | MetadataName => set_metadata
              (mkMetadata (Some (sanitize_metadata text)) (md_description m) (md_time m)) p
          | MetadataDesc => set_metadata
              (mkMetadata (md_name m) (Some (sanitize_metadata text)) (md_time m)) p
          | MetadataTime => set_metadata
              (mkMetadata (md_name m) (md_description m) (Some (trim text))) p
          | TrackName => set_current
              ((fun t => mkGpxTrack (Some (sanitize_metadata text)) (gt_segments t))
                 <$> current_track p) (current_segment p) (current_point p) p
          | PointEle => set_current (current_track p) (current_segment p)
              ((fun pt => mkGpxPoint (gp_lat pt) (gp_lon pt) (parse_f64 (trim text)) (gp_time pt))
                 <$> current_point p) p
          | PointTime => set_current (current_track p) (current_segment p)
              ((fun pt => mkGpxPoint (gp_lat pt) (gp_lon pt) (gp_elevation pt) (Some (trim text)))
                 <$> current_point p) p
          end
    end).

(** *** The loop *)

Definition on_event (e : XmlEvent) : parser :=
  match e with
  | EvStart name attrs => on_start name attrs
  | EvEnd name => on_end name
  | EvEmpty name attrs => on_empty name attrs
  | EvText t => on_text t
  | EvDocType => fail_parse ExternalEntity (lit "DOCTYPE declarations are not allowed")
  | EvError => fail_parse InvalidXml (lit "failed to parse XML")
  | EvOther => mret tt
  end.

Definition on_eof : parser :=
  p ← get;
  if (0 <? ps_depth p)%N
  then fail_parse InvalidXml (lit "unexpected end of input: unclosed XML elements")
  else mret tt.

Definition parse_gpx `{XmlReader} (input : bytes) : result GpxParseError GpxParseResult :=
  guard_err (MAX_INPUT_SIZE <? len input)%N (mkParseError InputTooLarge
    (lit "input size " ++ display_N (len input) ++ lit " bytes exceeds maximum of "
       ++ display_N MAX_INPUT_SIZE ++ lit " bytes"));;
  input_str ← ok_or (from_utf8 input)
    (mkParseError InvalidXml (lit "input is not valid UTF-8"));
  guard_err (str_contains (lit "<!DOCTYPE") input_str || str_contains (lit "<!ENTITY") input_str)
    (mkParseError ExternalEntity (lit "DOCTYPE/ENTITY declarations are not allowed"));;
  let '(r, p) := (for_each (read_events input_str) on_event;; on_eof) initial_state in
  r;;
  version ← ok_or (ps_version p)
    (mkParseError InvalidXml (lit "no <gpx> element with version attribute found"));
  mret (mkGpxResult version (ps_metadata p) (ps_tracks p) (ps_total_points p)).
