(* ===== verification/GpxParserTheory.v ===== *)
(** What a successfully parsed GPX file satisfies: an invariant of the parser's
    state, preserved by every event. *)
From S2P Require Import Prelude Float64 RustString RustVec Utf8 GpxParser.

(** ** What the state holds *)

Abbreviation position := (f64 * f64)%type (only parsing).

Definition point_position (pt : GpxTrackPoint) : position := (gp_lat pt, gp_lon pt).
Definition segment_positions (s : GpxTrackSegment) : list position :=
  map point_position (gs_points s).
Definition track_positions (t : GpxTrack) : list position :=
  flat_map segment_positions (gt_segments t).
Definition of_option {A B} (f : A -> list B) (o : option A) : list B :=
  match o with Some a => f a | None => [] end.

Definition positions (p : ParserState) : list position :=
  flat_map track_positions (ps_tracks p) ++ of_option track_positions (current_track p) ++
  of_option segment_positions (current_segment p) ++
  of_option (fun pt => [point_position pt]) (current_point p).

Definition segments (p : ParserState) : list GpxTrackSegment :=
  flat_map gt_segments (ps_tracks p) ++ of_option gt_segments (current_track p) ++
  of_option (fun s => [s]) (current_segment p).

Definition names (p : ParserState) : list rstr :=
  of_option (fun s => [s]) (md_name (ps_metadata p)) ++
  of_option (fun s => [s]) (md_description (ps_metadata p)) ++
  flat_map (fun t => of_option (fun s => [s]) (gt_name t)) (ps_tracks p) ++
  of_option (fun t => of_option (fun s => [s]) (gt_name t)) (current_track p).

Definition position_ok (q : position) : Prop := lat_ok q.1 = true /\ lon_ok q.2 = true.

(** A sanitised text: no control character, at most 1000 characters. *)
Definition sanitized (s : rstr) : Prop :=
  Forall (fun c => is_control c = false) s /\ (len s <= MAX_METADATA_LEN)%N.

Definition parser_inv (p : ParserState) : Prop :=
  Forall position_ok (positions p) /\
  (len (positions p) <= ps_total_points p <= MAX_POINTS)%N /\
  (len (segments p) <= ps_total_segments p <= MAX_SEGMENTS)%N /\
  Forall sanitized (names p).

(** ** Sanitisation *)

Lemma len_le_str_len s : (len s <= str_len s)%N.
Proof.
  induction s as [|c s IH]; [done|]. rewrite len_cons. simpl.
  assert (1 <= len_utf8 c)%N by (unfold len_utf8; repeat destruct (_ <? _)%N; lia). lia.
Qed.

Lemma sanitize_sanitized s : sanitized (sanitize_metadata s).
Proof.
  unfold sanitize_metadata, sanitized. set (c := List.filter _ _).
  assert (Forall (fun c => is_control c = false) c) as Hc.
  { apply Forall_forall. intros x Hx. apply list_elem_of_In, filter_In in Hx as [_ Hx].
    by apply negb_true_iff in Hx. }
  destruct (N.ltb_spec MAX_METADATA_LEN (str_len c)).
  - split; [by apply Forall_take|]. unfold len. rewrite length_take. lia.
  - split; [done|]. pose proof (len_le_str_len c). lia.
Qed.

(** ** One step: what is kept and what is new *)

Lemma Forall_submseteq {A} (P : A -> Prop) l k : l ⊆+ k -> Forall P k -> Forall P l.
Proof.
  rewrite !Forall_forall. intros Hlk H x Hx. eapply H, elem_of_submseteq; eauto.
Qed.

(** [p'] holds nothing but what [p] held and some acceptable news, which the
    counters account for. *)
Definition extends (p p' : ParserState) : Prop :=
  exists (new : list position) (more : list GpxTrackSegment) (texts : list rstr),
    positions p' ⊆+ positions p ++ new /\ Forall position_ok new /\
    ps_total_points p' = (ps_total_points p + len new)%N /\
    (new = [] \/ (ps_total_points p' <= MAX_POINTS)%N) /\
    length (segments p') <= length (segments p) + length more /\
    ps_total_segments p' = (ps_total_segments p + len more)%N /\
    (more = [] \/ (ps_total_segments p' <= MAX_SEGMENTS)%N) /\
    names p' ⊆+ names p ++ texts /\ Forall sanitized texts.

Lemma extends_inv p p' : parser_inv p -> extends p p' -> parser_inv p'.
Proof.
  intros (H1 & [H2 H2'] & [H3 H3'] & H4) (new & more & texts & Hp & Hnew & Ht & Htm & Hs & Hts &
    Htsm & Hn & Htx).
  apply submseteq_length in Hp as Hpl. rewrite length_app in Hpl.
  unfold parser_inv, len in *. split_and!.
  - eapply Forall_submseteq; [done|]. by apply Forall_app_2.
  - lia.
  - destruct Htm as [->|]; simpl in *; lia.
  - lia.
  - destruct Htsm as [->|]; simpl in *; lia.
  - eapply Forall_submseteq; [done|]. by apply Forall_app_2.
Qed.

(** A step without news. *)
Lemma keeps p p' :
  positions p' ⊆+ positions p -> length (segments p') <= length (segments p) ->
  names p' ⊆+ names p ->
  ps_total_points p' = ps_total_points p -> ps_total_segments p' = ps_total_segments p ->
  extends p p'.
Proof.
  intros Hp Hs Hn Ht Hts. exists [], [], []. rewrite !app_nil_r, Ht, Hts. change (len []) with 0%N.
  simpl. split_and!; auto; lia.
Qed.

(** *** Dropping or moving a pending item *)

Lemma extends_refl p : extends p p.
Proof. by apply keeps. Qed.

Lemma count_point_run p :
  count_point p =
  let p' := set_totals (ps_total_points p + 1)%N (ps_total_segments p) p in
  if (MAX_POINTS <? ps_total_points p + 1)%N
  then fail_parse TooManyPoints
         (lit "exceeded maximum of " ++ display_N MAX_POINTS ++ lit " track points") p'
  else (Ok tt, p').
Proof. unfold count_point. run. simpl. by destruct (_ <? _)%N. Qed.

Lemma read_point_ok attrs pt : read_point attrs = Ok pt -> position_ok (point_position pt).
Proof.
  unfold read_point. intros ([lat lon] & _ & H)%result_bind_inv.
  apply result_bind_inv in H as (x & _ & H). apply result_bind_inv in H as (y & _ & H).
  apply result_bind_inv in H as ([] & H1 & H). apply result_bind_inv in H as ([] & H2 & H).
  apply guard_err_ok, negb_false_iff in H1, H2. by injection H as <-.
Qed.

(** A new point that takes the place of the pending one. *)
Lemma extends_point p p' pt :
  position_ok (point_position pt) ->
  positions p' ⊆+ positions p ++ [point_position pt] ->
  ps_total_points p' = (ps_total_points p + 1)%N -> (ps_total_points p' <= MAX_POINTS)%N ->
  length (segments p') <= length (segments p) -> names p' = names p ->
  ps_total_segments p' = ps_total_segments p -> extends p p'.
Proof.
  intros Hok Hp Ht Hm Hs Hn Hts. exists [point_position pt], [], [].
  rewrite Hn, Hts, app_nil_r. change (len []) with 0%N.
  simpl. split_and!; auto; lia.
Qed.

Lemma track_positions_push s t :
  track_positions (push_segment s t) = track_positions t ++ segment_positions s.
Proof. unfold track_positions. simpl. rewrite flat_map_app. simpl. by rewrite app_nil_r. Qed.

Lemma segment_positions_push pt s :
  segment_positions (push_point pt s) = segment_positions s ++ [point_position pt].
Proof. unfold segment_positions. simpl. by rewrite map_app. Qed.

Lemma start_trkpt_extends attrs p p' : start_trkpt attrs p = (Ok tt, p') -> extends p p'.
Proof.
  unfold start_trkpt. run. rewrite count_point_run. simpl.
  destruct (N.ltb_spec MAX_POINTS (ps_total_points p + 1)); [done|].
  destruct (read_point attrs) as [pt|e|] eqn:Hr; intros [= <-].
  apply (extends_point _ _ pt); try done; [by eapply read_point_ok|].
  unfold positions. simpl. rewrite <- !app_assoc. do 3 (apply submseteq_app; [done|]).
  by apply submseteq_inserts_l.
Qed.

Lemma on_empty_extends name attrs p p' : on_empty name attrs p = (Ok tt, p') -> extends p p'.
Proof.
  unfold on_empty. run. destruct (_ && _); [|intros [= <-]; apply extends_refl].
  rewrite count_point_run. simpl.
  destruct (N.ltb_spec MAX_POINTS (ps_total_points p + 1)); [done|].
  destruct (read_point attrs) as [pt|e|] eqn:Hr; intros [= <-].
  apply (extends_point _ _ pt); try done; [by eapply read_point_ok| |].
  - unfold positions. simpl. rewrite <- !app_assoc. do 2 (apply submseteq_app; [done|]).
    destruct (current_segment p) as [s|]; simpl; [|apply submseteq_inserts_r; done].
    rewrite segment_positions_push, <- app_assoc. simpl.
    apply submseteq_app; [done|]. rewrite (Permutation_app_comm _ [_]). done.
  - unfold segments. simpl. rewrite !length_app. by destruct (current_segment p).
Qed.

Lemma start_trkseg_extends p p' : start_trkseg p = (Ok tt, p') -> extends p p'.
Proof.
  unfold start_trkseg. run. simpl.
  destruct (N.ltb_spec MAX_SEGMENTS (ps_total_segments p + 1)); [done|]. intros [= <-].
  exists [], [mkGpxSegment []], []. rewrite !app_nil_r. simpl. change (len []) with 0%N.
  split_and!; auto; try lia.
  - unfold positions. simpl. apply submseteq_app; [done|]. apply submseteq_app; [done|].
    by apply submseteq_inserts_l.
  - unfold segments. simpl. rewrite !length_app. simpl. lia.
Qed.

Lemma extends_set_version p q v : extends p q -> extends p (set_version v q).
Proof. done. Qed.

Lemma read_version_extends attrs p q p' :
  extends p q -> read_version attrs q = (Ok tt, p') -> extends p p'.
Proof.
  revert q. induction attrs as [|[key value] attrs IH]; intros q Hq; simpl; [by intros [= <-]|].
  intros ([] & s & Hs & Hrest)%eff_bind_inv. apply (IH s); [|done]. revert Hs.
  repeat case_decide; run; by intros [= <-].
Qed.

Lemma end_tag_extends tag p : extends p (end_tag tag p).
Proof.
  unfold end_tag. repeat case_decide; try (by apply keeps).
  - simpl. destruct (current_track p) as [t|] eqn:Ht; [|by apply keeps].
    apply keeps; try done; unfold positions, segments, names; simpl; rewrite Ht; simpl.
    + by rewrite flat_map_app, <- !app_assoc; simpl; rewrite app_nil_r.
    + rewrite flat_map_app, !length_app. simpl. rewrite app_nil_r. lia.
    + rewrite flat_map_app. simpl. by rewrite !app_nil_r.
  - simpl. destruct (current_segment p) as [s|] eqn:Hs; [|by apply keeps].
    apply keeps; try done; unfold positions, segments, names; simpl; rewrite ?Hs;
      destruct (current_track p) as [t|]; simpl; try done.
    + by rewrite track_positions_push, <- !app_assoc.
    + by apply submseteq_app; [done|]; apply submseteq_inserts_l.
    + rewrite !length_app. simpl. lia.
    + rewrite !length_app. simpl. lia.
  - simpl. destruct (current_point p) as [pt|] eqn:Hp; [|by apply keeps].
    apply keeps; try done; unfold positions, segments, names; simpl; rewrite ?Hp;
      destruct (current_segment p) as [s|]; simpl; try done.
    + by rewrite segment_positions_push, <- !app_assoc.
    + do 2 (apply submseteq_app; [done|]). apply submseteq_nil_l.
    + by rewrite !length_app.
Qed.

Lemma on_end_extends name p p' : on_end name p = (Ok tt, p') -> extends p p'.
Proof. unfold on_end. run. intros [= <-]. apply (end_tag_extends (text_of name) p). Qed.

(** A text handed to the pending target. *)
Lemma extends_names p p' t :
  sanitized t -> positions p' = positions p -> length (segments p') <= length (segments p) ->
  ps_total_points p' = ps_total_points p -> ps_total_segments p' = ps_total_segments p ->
  names p' ⊆+ names p ++ [t] -> extends p p'.
Proof.
  intros Ht Hp Hs H1 H2 Hn. exists [], [], [t]. rewrite Hp, H1, H2, app_nil_r.
  change (len []) with 0%N. simpl. split_and!; auto; lia.
Qed.

Lemma submseteq_snoc_of_cons {A} (x : A) l k : l ⊆+ k -> x :: l ⊆+ k ++ [x].
Proof. intros H. rewrite <- Permutation_cons_append. by apply submseteq_skip. Qed.

Lemma on_text_extends t p p' : on_text t p = (Ok tt, p') -> extends p p'.
Proof.
  unfold on_text. run. intros [= <-]. destruct (text_target p) as [[]|]; [..|apply extends_refl].
  - apply (extends_names _ _ (sanitize_metadata (default [] t))); try done;
      [apply sanitize_sanitized|]. unfold names. simpl. apply submseteq_snoc_of_cons.
    by apply submseteq_inserts_l.
  - apply (extends_names _ _ (sanitize_metadata (default [] t))); try done;
      [apply sanitize_sanitized|]. unfold names. simpl. rewrite <- app_assoc.
    apply submseteq_app; [done|]. apply submseteq_snoc_of_cons. by apply submseteq_inserts_l.
  - by apply keeps.
  - apply (extends_names _ _ (sanitize_metadata (default [] t))); try done;
      [apply sanitize_sanitized|..]; unfold positions, segments, names; simpl;
      destruct (current_track p) as [tr|]; simpl; rewrite ?app_nil_r; try done.
    + rewrite <- !app_assoc. do 3 (apply submseteq_app; [done|]). by apply submseteq_inserts_l.
    + rewrite !app_assoc. by apply submseteq_inserts_r.
  - apply keeps; try done. unfold positions. simpl. by destruct (current_point p).
  - apply keeps; try done. unfold positions. simpl. by destruct (current_point p).
Qed.

(** [<trk>] drops a pending track. *)
Lemma extends_new_track p :
  extends p (set_current (Some (mkGpxTrack None [])) (current_segment p) (current_point p)
               (set_flags (in_metadata p) true (in_trkseg p) (in_trkpt p) p)).
Proof.
  apply keeps; try done; unfold positions, segments, names; simpl.
  - apply submseteq_app; [done|]. by apply submseteq_inserts_l.
  - rewrite !length_app. lia.
  - do 3 (apply submseteq_app; [done|]). apply submseteq_nil_l.
Qed.

Ltac simple_case := repeat case_match; intros [= <-]; by apply keeps.

Lemma on_start_extends name attrs p p' : on_start name attrs p = (Ok tt, p') -> extends p p'.
Proof.
  unfold on_start. run. set (q := set_depth _ p).
  destruct (_ <? _)%N; [done|]. change (start_tag (text_of name) attrs q = (Ok tt, p') -> extends q p').
  clearbody q. unfold start_tag. run.
  case_decide; [apply read_version_extends, extends_refl|].
  case_decide; [simple_case|]. case_decide; [simple_case|]. case_decide; [simple_case|].
  case_decide; [simple_case|]. case_decide; [intros [= <-]; apply extends_new_track|].
  case_decide; [apply start_trkseg_extends|]. case_decide; [apply start_trkpt_extends|].
  case_decide; simple_case.
Qed.

Lemma on_event_inv e p p' : parser_inv p -> on_event e p = (Ok tt, p') -> parser_inv p'.
Proof.
  intros Hinv He. apply (extends_inv p); [done|]. destruct e; simpl in He;
    eauto using on_start_extends, on_end_extends, on_empty_extends, on_text_extends.
  - done.
  - injection He as <-. apply extends_refl.
  - done.
Qed.

Lemma on_events_inv es p p' :
  parser_inv p -> for_each es on_event p = (Ok tt, p') -> parser_inv p'.
Proof.
  revert p. induction es as [|e es IH]; intros p Hinv; simpl; [by intros [= <-]|].
  intros ([] & s & He & Hrest)%eff_bind_inv. eauto using on_event_inv.
Qed.

Lemma initial_inv : parser_inv initial_state.
Proof. by split_and!. Qed.

(** *** The result *)

Definition result_segments (r : GpxParseResult) : list GpxTrackSegment :=
  flat_map gt_segments (gr_tracks r).
Definition result_points (r : GpxParseResult) : list GpxTrackPoint :=
  flat_map gs_points (result_segments r).

Definition gpx_result_wf (r : GpxParseResult) : Prop :=
  Forall (fun pt => lat_ok (gp_lat pt) = true /\ lon_ok (gp_lon pt) = true) (result_points r) /\
  (len (result_points r) <= gr_total_points r <= MAX_POINTS)%N /\
  (len (result_segments r) <= MAX_SEGMENTS)%N /\
  Forall (fun t => forall n, gt_name t = Some n -> sanitized n) (gr_tracks r) /\
  (forall n, md_name (gr_metadata r) = Some n -> sanitized n) /\
  (forall n, md_description (gr_metadata r) = Some n -> sanitized n).

Lemma parse_gpx_inv `{XmlReader} input r :
  parse_gpx input = Ok r ->
  (len input <= MAX_INPUT_SIZE)%N /\ exists p, parser_inv p /\ ps_depth p = 0%N /\
  gr_tracks r = ps_tracks p /\ gr_metadata r = ps_metadata p /\
  gr_total_points r = ps_total_points p /\ ps_version p = Some (gr_version r).
Proof.
  unfold parse_gpx. intros ([] & Hsz%guard_err_ok & Hp)%result_bind_inv.
  apply result_bind_inv in Hp as (txt & _ & Hp). apply result_bind_inv in Hp as ([] & _ & Hp).
  destruct ((for_each _ _;; on_eof) initial_state) as [o p] eqn:Hrun.
  apply result_bind_inv in Hp as ([] & -> & Hp).
  apply result_bind_inv in Hp as (v & Hv%ok_or_inv & [= <-]).
  split; [by apply N.ltb_ge|]. apply eff_bind_inv in Hrun as ([] & q & Hq & Heof).
  unfold on_eof in Heof. revert Heof. run. destruct (N.ltb_spec 0 (ps_depth q)); [done|].
  intros [= ->]. exists p. split_and!; try done; [|lia].
  by eapply on_events_inv; [apply initial_inv|].
Qed.

Lemma track_positions_points ts :
  flat_map track_positions ts = map point_position (flat_map gs_points (flat_map gt_segments ts)).
Proof.
  induction ts as [|t ts IH]; [done|]. simpl. rewrite IH, !flat_map_app, map_app. f_equal.
  unfold track_positions. induction (gt_segments t) as [|s l IHl]; [done|]. simpl.
  by rewrite IHl, map_app.
Qed.

Lemma result_wf_of_inv r p :
  parser_inv p -> gr_tracks r = ps_tracks p -> gr_metadata r = ps_metadata p ->
  gr_total_points r = ps_total_points p -> gpx_result_wf r.
Proof.
  intros (H1 & H2 & H3 & H4) Ht Hm Hp. unfold gpx_result_wf, result_points, result_segments.
  rewrite Ht, Hm, Hp. unfold positions in H1, H2. rewrite track_positions_points in H1, H2.
  apply Forall_app in H1 as [H1 _]. rewrite len_app in H2. unfold len in H2. rewrite length_map in H2.
  unfold segments in H3. rewrite len_app in H3. unfold names in H4.
  rewrite !Forall_app in H4. destruct H4 as (Hn & Hd & Htn & _).
  split_and!.
  - by rewrite Forall_map in H1.
  - unfold len. lia.
  - lia.
  - lia.
  - rewrite Forall_forall. intros t Hin n Hg. rewrite Forall_forall in Htn. apply Htn.
    apply list_elem_of_In, in_flat_map. exists t. rewrite <- list_elem_of_In, Hg. simpl. auto.
  - intros n Hg. rewrite Hg in Hn. by inversion Hn.
  - intros n Hg. rewrite Hg in Hd. by inversion Hd.
Qed.

(** A reader for the witness: the events of one fixed document. *)
Definition bs (s : String.string) : bytes := as_bytes (lit s).
Arguments bs _%_string_scope.
Definition sample_events : list XmlEvent :=
  [EvStart (bs "gpx") [(bs "version", bs "1.1")]; EvStart (bs "trk") [];
   EvStart (bs "name") []; EvText (Some (lit " Hike ")); EvEnd (bs "name");
   EvStart (bs "trkseg") [];
   EvStart (bs "trkpt") [(bs "lat", bs "47.5"); (bs "lon", bs "8.5")];
   EvStart (bs "ele") []; EvText (Some (lit "400")); EvEnd (bs "ele"); EvEnd (bs "trkpt");
   EvEmpty (bs "trkpt") [(bs "lat", bs "47.6"); (bs "lon", bs "8.5")];
   EvEnd (bs "trkseg"); EvEnd (bs "trk"); EvEnd (bs "gpx")].
#[local] Instance sample_reader : XmlReader := fun _ => sample_events.

(** C38: what the parser lets through is within its limits.  For any XML reader
    and any input, a successful parse holds no point outside the ranges of
    latitude and longitude (NaN included), at most [MAX_POINTS] points, all
    counted by [total_points], at most [MAX_SEGMENTS] segments, and only
    sanitised names and descriptions: no control character and at most
    [MAX_METADATA_LEN] characters; and the input was within the size limit. *)
Theorem parse_gpx_within_limits `{XmlReader} input r :
  parse_gpx input = Ok r -> gpx_result_wf r /\ (len input <= MAX_INPUT_SIZE)%N.
Proof.
  intros (Hsz & p & Hinv & _ & Ht & Hm & Hp & _)%parse_gpx_inv.
  split; [by eapply result_wf_of_inv|done].
Qed.

Lemma parse_gpx_within_limits_witness :
  exists r, parse_gpx (bs "<gpx/>") = Ok r /\ gpx_result_wf r /\ length (result_points r) = 2.
Proof.
  eexists. split; [by vm_compute|]. split; [|done].
  apply (parse_gpx_within_limits (bs "<gpx/>")). by vm_compute.
Defined.
