(* ===== verification/RecordedActivity.v ===== *)
(** The recorded activity context, crates/app/src/recorded_activity: value
    objects, tracks, bounding boxes and errors (mod.rs), the recorded route
    data (repository.rs), and the normalisation of a parsed GPX file
    (normalization.rs).  The platform's [sin], [cos] and [asin] and the date
    parser of chrono are parameters. *)
From stdpp Require Import sorting.
From S2P Require Import Prelude Float64 RustString RustVec Utf8 GpxParser.

(** ** Value objects *)

Record Coordinate := mkCoordinate { latitude : f64; longitude : f64 }.

#[export] Instance Coordinate_eq_dec : EqDecision Coordinate.
Proof. solve_decision. Defined.

Record Elevation := mkElevation { meters : f64 }.

#[export] Instance Elevation_eq_dec : EqDecision Elevation.
Proof. solve_decision. Defined.

Record TrackPoint := mkTrackPoint {
  tp_coordinate : Coordinate; tp_elevation : option Elevation; tp_timestamp : option datetime }.

#[export] Instance TrackPoint_eq_dec : EqDecision TrackPoint.
Proof. solve_decision. Defined.

Record TrackSegment := mkTrackSegment { ts_points : list TrackPoint }.

#[export] Instance TrackSegment_eq_dec : EqDecision TrackSegment.
Proof. solve_decision. Defined.

Record BoundingBox := mkBoundingBox { south_west : Coordinate; north_east : Coordinate }.

#[export] Instance BoundingBox_eq_dec : EqDecision BoundingBox.
Proof. solve_decision. Defined.

Record RecordedStatistics := mkStatistics {
  distance_meters : f64;
  duration_seconds : option f64;
  elevation_gain_meters : option f64;
  elevation_loss_meters : option f64;
  point_count : N;
  segment_count : N }.

Record RecordedTrack := mkRecordedTrack {
  rt_id : uuid;
  rt_segments : list TrackSegment;
  rt_bounding_box : BoundingBox;
  rt_statistics : RecordedStatistics }.

(** ** Errors *)

Inductive RecordedActivityError : Type :=
| NotFound
| InvalidCoordinate (message : rstr)
| InsufficientPoints (minimum actual : N)
| NoSegments
| Persistence (message : rstr)
| LegNotFound (leg_id : uuid)
| InvalidLegNumber (leg_number : N) (reason : rstr)
| DuplicateLegNumber (leg_number : N)
| MaxLegsExceeded (activity_id : uuid) (max : N)
| InvalidLegTitle (message : rstr).

#[export] Instance RecordedActivityError_eq_dec : EqDecision RecordedActivityError.
Proof. solve_decision. Defined.

(** The rendering of a [Uuid] is third-party code. *)
Class UuidDisplay := uuid_display : uuid -> rstr.

(** [Uuid::parse_str]: a message or the identifier. *)
Class UuidParser := uuid_parse : rstr -> rstr + uuid.

Definition recorded_error_display `{UuidDisplay} (e : RecordedActivityError) : rstr :=
  match e with
  | NotFound => lit "recorded activity not found"
  | InvalidCoordinate message => lit "invalid coordinate: " ++ message
  | InsufficientPoints minimum actual =>
      lit "insufficient points: minimum " ++ display_N minimum ++ lit ", got " ++ display_N actual
  | NoSegments => lit "recorded track must have at least one segment"
  | Persistence message => lit "persistence error: " ++ message
  | LegNotFound leg_id => lit "leg not found: " ++ uuid_display leg_id
  | InvalidLegNumber n reason => lit "invalid leg number " ++ display_N n ++ lit ": " ++ reason
  | DuplicateLegNumber n => lit "duplicate leg number: " ++ display_N n
  | MaxLegsExceeded a m => lit "maximum legs exceeded for activity " ++ uuid_display a ++
      lit ": limit is " ++ display_N m
  | InvalidLegTitle message => lit "invalid leg title: " ++ message
  end.

(** ** Constructors *)

Definition Coordinate_new (lat lon : f64) : result RecordedActivityError Coordinate :=
  if negb (range_contains (f64_of_Z (-90)) (f64_of_Z 90) lat) then
    Err (InvalidCoordinate (lit "latitude must be between -90 and 90, got " ++ display_f64 lat))
  else if negb (range_contains (f64_of_Z (-180)) (f64_of_Z 180) lon) then
    Err (InvalidCoordinate (lit "longitude must be between -180 and 180, got " ++ display_f64 lon))
  else Ok (mkCoordinate lat lon).

Definition as_geojson_position (c : Coordinate) : f64 * f64 := (longitude c, latitude c).

Definition TrackSegment_new (points : list TrackPoint)
    : result RecordedActivityError TrackSegment :=
  if (len points <? 2)%N then Err (InsufficientPoints 2 (len points))
  else Ok (mkTrackSegment points).

Definition as_geojson_bbox (b : BoundingBox) : list f64 :=
  [longitude (south_west b); latitude (south_west b);
   longitude (north_east b); latitude (north_east b)].

(** The four accumulators of [BoundingBox::from_coordinates]. *)
Definition bbox_step (b : BoundingBox) (c : Coordinate) : BoundingBox :=
  mkBoundingBox
    (mkCoordinate (f64_min (latitude (south_west b)) (latitude c))
                  (f64_min (longitude (south_west b)) (longitude c)))
    (mkCoordinate (f64_max (latitude (north_east b)) (latitude c))
                  (f64_max (longitude (north_east b)) (longitude c))).
Definition bbox_start : BoundingBox :=
  mkBoundingBox (mkCoordinate f64_MAX f64_MAX) (mkCoordinate f64_MIN f64_MIN).

Definition from_coordinates (coords : list Coordinate) : option BoundingBox :=
  match coords with
  | [] => None
  | _ => Some (fold_left bbox_step coords bbox_start)
  end.

Definition RecordedTrack_new (new_id : uuid) (segments : list TrackSegment) (bbox : BoundingBox)
    (stats : RecordedStatistics) : result RecordedActivityError RecordedTrack :=
  match segments with
  | [] => Err NoSegments
  | _ => Ok (mkRecordedTrack new_id segments bbox stats)
  end.

(** ** Distance and elevation *)

(** The platform's trigonometry. *)
Class Libm := { f64_sin : f64 -> f64; f64_cos : f64 -> f64; f64_asin : f64 -> f64 }.

Definition EARTH_RADIUS_METERS : f64 := f64_of_Z 6371000.
Definition MAX_PREVIEW_POINTS : N := 1000.

Definition f64_two : f64 := f64_of_Z 2.

Definition haversine_distance `{Libm} (from to : Coordinate) : f64 :=
  let lat1 := to_radians (latitude from) in
  let lat2 := to_radians (latitude to) in
  let dlat := to_radians (f64_sub (latitude to) (latitude from)) in
  let dlon := to_radians (f64_sub (longitude to) (longitude from)) in
  let a := f64_add (powi2 (f64_sin (f64_div dlat f64_two)))
             (f64_mul (f64_mul (f64_cos lat1) (f64_cos lat2))
                      (powi2 (f64_sin (f64_div dlon f64_two)))) in
  let c := f64_mul f64_two (f64_asin (f64_sqrt a)) in
  f64_mul EARTH_RADIUS_METERS c.

Definition ELEVATION_DEAD_BAND : f64 := f64_of_Z 2.

Record ElevationAcc := mkElevationAcc {
  ea_gain : f64; ea_loss : f64; ea_prev : option f64 }.

(** One turn of the loop, on an elevation that is present. *)
Definition elevation_step (acc : ElevationAcc) (e : Elevation) : ElevationAcc :=
  match ea_prev acc with
  | None => mkElevationAcc (ea_gain acc) (ea_loss acc) (Some (meters e))
  | Some prev =>
      let diff := f64_sub (meters e) prev in
      if f64_leb ELEVATION_DEAD_BAND diff then
        mkElevationAcc (f64_add (ea_gain acc) diff) (ea_loss acc) (Some (meters e))
      else if f64_leb diff (SFopp ELEVATION_DEAD_BAND) then
        mkElevationAcc (ea_gain acc) (f64_add (ea_loss acc) (f64_abs diff)) (Some (meters e))
      else mkElevationAcc (ea_gain acc) (ea_loss acc) (Some (meters e))
  end.

(** [elevations.iter().flatten()]. *)
Definition flatten {A} (l : list (option A)) : list A := omap id l.

Definition calculate_elevation_stats (elevations : list (option Elevation))
    : option f64 * option f64 :=
  let acc := fold_left elevation_step (flatten elevations)
               (mkElevationAcc f64_zero f64_zero None) in
  match flatten elevations with
  | [] => (None, None)
  | _ => (Some (ea_gain acc), Some (ea_loss acc))
  end.

(** ** Preview *)

Fixpoint preview_loop (coords : list Coordinate) (step : f64) (i : N) (n : nat)
    : result RecordedActivityError (list Coordinate) :=
  match n with
  | O => Ok []
  | S n' =>
      let index := N.min (round_to_u64 (f64_mul (f64_of_N i) step)) (len coords - 1) in
      c ← vec_index coords index;
      rest ← preview_loop coords step (i + 1) n';
      mret (c :: rest)
  end.

Definition simplify_preview (coords : list Coordinate) (max_points : N)
    : result RecordedActivityError (list Coordinate) :=
  if (len coords <=? max_points)%N then Ok coords
  else if (max_points <? 2)%N then Ok (option_list (head coords))
  else
    let step := f64_div (f64_of_N (len coords - 1)) (f64_of_N (max_points - 1)) in
    preview_loop coords step 0 (N.to_nat max_points).

(** ** Normalisation *)

(** [s.parse::<DateTime<Utc>>().ok()] of chrono. *)
Class DateTimeParser := parse_timestamp : rstr -> option datetime.

Record NormalizedTrack := mkNormalized {
  nt_recorded_track : RecordedTrack;
  nt_preview_geometry : list Coordinate;
  nt_suggested_title : option rstr;
  nt_started_at : option datetime;
  nt_ended_at : option datetime }.

Definition gpx_point_to_track_point `{DateTimeParser} (pt : GpxTrackPoint)
    : result RecordedActivityError TrackPoint :=
  c ← Coordinate_new (gp_lat pt) (gp_lon pt);
  mret (mkTrackPoint c (mkElevation <$> gp_elevation pt) (gp_time pt ≫= parse_timestamp)).

(** The accumulators of [normalize_gpx]. *)
Record NormAcc := mkNormAcc {
  na_segments : list TrackSegment;
  na_coordinates : list Coordinate;
  na_elevations : list (option Elevation);
  na_timestamps : list datetime;
  na_distance : f64;
  na_points : N }.

Definition norm_start : NormAcc := mkNormAcc [] [] [] [] f64_zero 0.

(** The innermost loop: one point. *)
Definition push_track_point (tp : TrackPoint) (acc : NormAcc) : NormAcc :=
  mkNormAcc (na_segments acc) (na_coordinates acc ++ [tp_coordinate tp])
    (na_elevations acc ++ [tp_elevation tp])
    (na_timestamps acc ++ option_list (tp_timestamp tp))
    (na_distance acc) (u32_wrap (na_points acc + 1)).

Fixpoint convert_points `{DateTimeParser} (pts : list GpxTrackPoint) (acc : NormAcc)
    (track_points : list TrackPoint)
    : result RecordedActivityError (NormAcc * list TrackPoint) :=
  match pts with
  | [] => Ok (acc, track_points)
  | pt :: rest =>
      tp ← gpx_point_to_track_point pt;
      convert_points rest (push_track_point tp acc) (track_points ++ [tp])
  end.

Definition add_distances `{Libm} (tps : list TrackPoint) (d : f64) : f64 :=
  fold_left (fun d w => f64_add d (haversine_distance (tp_coordinate w.1) (tp_coordinate w.2)))
    (windows2 tps) d.

Definition normalize_segment `{DateTimeParser, Libm} (acc : NormAcc) (seg : GpxTrackSegment)
    : result RecordedActivityError NormAcc :=
  if (len (gs_points seg) <? 2)%N then Ok acc
  else
    r ← convert_points (gs_points seg) acc [];
    let '(acc, tps) := r in
    let distance := add_distances tps (na_distance acc) in
    s ← TrackSegment_new tps;
    mret (mkNormAcc (na_segments acc ++ [s]) (na_coordinates acc) (na_elevations acc)
            (na_timestamps acc) distance (na_points acc)).

Fixpoint normalize_segments `{DateTimeParser, Libm} (segs : list GpxTrackSegment) (acc : NormAcc)
    : result RecordedActivityError NormAcc :=
  match segs with
  | [] => Ok acc
  | s :: rest => acc ← normalize_segment acc s; normalize_segments rest acc
  end.

(** [Duration::num_milliseconds]: whole milliseconds, toward zero. *)
Definition num_milliseconds (ns : Z) : Z := Z.quot ns 1000000.

(** The duration, and the timestamps as the code leaves them: sorted when
    there are at least two. *)
Definition recorded_duration (timestamps : list datetime) : option f64 * list datetime :=
  if (2 <=? len timestamps)%N then
    let sorted := merge_sort Z.le timestamps in
    match head sorted, last sorted with
    | Some first, Some last =>
        let d := f64_div (f64_of_Z (num_milliseconds (last - first))) (f64_of_Z 1000) in
        (if f64_ltb f64_zero d then Some d else None, sorted)
    | _, _ => (None, sorted)
    end
  else (None, timestamps).

Definition normalize_gpx `{DateTimeParser, Libm} (new_id : uuid) (parse_result : GpxParseResult)
    : result RecordedActivityError NormalizedTrack :=
  acc ← normalize_segments (flat_map gt_segments (gr_tracks parse_result)) norm_start;
  guard_err (bool_decide (na_segments acc = [])) NoSegments;;
  bounding_box ← ok_or (from_coordinates (na_coordinates acc)) NoSegments;
  let '(gain, loss) := calculate_elevation_stats (na_elevations acc) in
  let '(duration, timestamps) := recorded_duration (na_timestamps acc) in
  let statistics := mkStatistics (na_distance acc) duration gain loss (na_points acc)
                      (u32_wrap (len (na_segments acc))) in
  recorded_track ← RecordedTrack_new new_id (na_segments acc) bounding_box statistics;
  preview_geometry ← simplify_preview (na_coordinates acc) MAX_PREVIEW_POINTS;
  let suggested_title :=
    match head (gr_tracks parse_result) ≫= gt_name with
    | Some n => Some n
    | None => md_name (gr_metadata parse_result)
    end in
  mret (mkNormalized recorded_track preview_geometry suggested_title
          (head timestamps) (last timestamps)).

(** ** Recorded routes, as their repository returns them *)

Record RouteSegment := mkRouteSegment { rs_points : list Coordinate }.

Record RouteStatistics := mkRouteStatistics {
  rst_distance_meters : f64;
  rst_elevation_gain_meters : option f64;
  rst_elevation_loss_meters : option f64;
  rst_point_count : N;
  rst_segment_count : N }.

Record RecordedRouteData := mkRecordedRouteData {
  rrd_activity_id : uuid;
  rrd_segments : list RouteSegment;
  rrd_bounding_box : BoundingBox;
  rrd_statistics : RouteStatistics }.

Record RecordedRoutePreview := mkRecordedRoutePreview {
  rrp_activity_id : uuid;
  rrp_bounding_box : BoundingBox;
  rrp_statistics : RouteStatistics }.

Class RecordedRouteRepository (S : Type) := {
  get_recorded_route_data : uuid -> eff S RecordedActivityError (option RecordedRouteData);
  get_recorded_route_preview : uuid -> eff S RecordedActivityError (option RecordedRoutePreview) }.
