(* ===== verification/RecordedActivityTheory.v ===== *)
(** Properties of the recorded activity context: bounding boxes are tight,
    elevation statistics ignore noise and are never negative, and
    normalisation keeps exactly the usable segments of a parsed file. *)
From stdpp Require Import sorting.
From S2P Require Import Prelude Float64 RustString RustVec Utf8 GpxParser GpxParserTheory.
From S2P Require Import RecordedActivity.

(** ** Bounding boxes *)

Definition in_range (c : Coordinate) : Prop :=
  lat_ok (latitude c) = true /\ lon_ok (longitude c) = true.

Definition inside (b : BoundingBox) (c : Coordinate) : Prop :=
  f64_leb (latitude (south_west b)) (latitude c) = true /\
  f64_leb (latitude c) (latitude (north_east b)) = true /\
  f64_leb (longitude (south_west b)) (longitude c) = true /\
  f64_leb (longitude c) (longitude (north_east b)) = true.

(** [x] is the start value of its accumulator or a component of a coordinate. *)
Definition attained (start x : f64) (f : Coordinate -> f64) (l : list Coordinate) : Prop :=
  x = start \/ exists c, c ∈ l /\ x = f c.

Definition attained_box (b : BoundingBox) (l : list Coordinate) : Prop :=
  attained f64_MAX (latitude (south_west b)) latitude l /\
  attained f64_MIN (latitude (north_east b)) latitude l /\
  attained f64_MAX (longitude (south_west b)) longitude l /\
  attained f64_MIN (longitude (north_east b)) longitude l.

Definition box_finite (b : BoundingBox) : Prop :=
  is_nan (latitude (south_west b)) = false /\ is_nan (latitude (north_east b)) = false /\
  is_nan (longitude (south_west b)) = false /\ is_nan (longitude (north_east b)) = false.

Lemma in_range_not_nan c :
  in_range c -> is_nan (latitude c) = false /\ is_nan (longitude c) = false.
Proof. intros [H1 H2]. unfold lat_ok, lon_ok in *. eauto with haiker. Qed.

Lemma attained_step start x y f l c :
  attained start x f l -> y = x \/ y = f c -> attained start y f (l ++ [c]).
Proof.
  intros Hx [-> | ->].
  - destruct Hx as [-> | (d & Hd & ->)]; [by left|right]. exists d. set_solver.
  - right. exists c. set_solver.
Qed.

(** One coordinate more. *)
Lemma bbox_step_spec b l c :
  box_finite b -> in_range c -> Forall (inside b) l -> attained_box b l ->
  box_finite (bbox_step b c) /\ Forall (inside (bbox_step b c)) (l ++ [c]) /\
  attained_box (bbox_step b c) (l ++ [c]).
Proof.
  intros (F1 & F2 & F3 & F4) (Hla & Hlo)%in_range_not_nan Hl (A1 & A2 & A3 & A4).
  destruct (f64_min_spec _ _ F1 Hla) as (P1 & Q1 & R1).
  destruct (f64_max_spec _ _ F2 Hla) as (P2 & Q2 & R2).
  destruct (f64_min_spec _ _ F3 Hlo) as (P3 & Q3 & R3).
  destruct (f64_max_spec _ _ F4 Hlo) as (P4 & Q4 & R4).
  unfold box_finite, attained_box. split_and!; simpl.
  - by apply f64_leb_not_nan in P1 as [? _].
  - by apply f64_leb_not_nan in P2 as [_ ?].
  - by apply f64_leb_not_nan in P3 as [? _].
  - by apply f64_leb_not_nan in P4 as [_ ?].
  - apply Forall_app_2; [|by apply Forall_singleton].
    eapply Forall_impl; [done|]. intros d (I1 & I2 & I3 & I4).
    split_and!; simpl; eauto with haiker.
  - eapply attained_step; eauto.
  - eapply attained_step; eauto.
  - eapply attained_step; eauto.
  - eapply attained_step; eauto.
Qed.

Lemma fold_bbox_spec l b done :
  box_finite b -> Forall in_range l -> Forall (inside b) done -> attained_box b done ->
  Forall (inside (fold_left bbox_step l b)) (done ++ l) /\
  attained_box (fold_left bbox_step l b) (done ++ l).
Proof.
  revert b done. induction l as [|c l IH]; intros b dn Hf Hr Hi Ha; simpl; [by rewrite app_nil_r|].
  apply Forall_cons in Hr as [Hc Hr].
  destruct (bbox_step_spec b dn c Hf Hc Hi Ha) as (Hf' & Hi' & Ha').
  destruct (IH _ _ Hf' Hr Hi' Ha') as [H1 H2]. by rewrite <- app_assoc in H1, H2.
Qed.

(** An edge that bounds an in-range component is not the start value. *)
Lemma attained_real start x f l c :
  attained start x f l -> c ∈ l -> x <> start -> exists d, d ∈ l /\ x = f d.
Proof. intros [-> | ?]; naive_solver. Qed.

Lemma max_not_below hi x : f64_leb f64_MAX x = true -> f64_leb x hi = true ->
  f64_leb f64_MAX hi = false -> False.
Proof. intros H1 H2 H3. rewrite (f64_leb_trans _ _ _ H1 H2) in H3. done. Qed.

Lemma min_not_above lo x : f64_leb x f64_MIN = true -> f64_leb lo x = true ->
  f64_leb lo f64_MIN = false -> False.
Proof. intros H1 H2 H3. rewrite (f64_leb_trans _ _ _ H2 H1) in H3. done. Qed.

(** The edges of a box are components of the coordinates it was made of. *)
Definition tight (b : BoundingBox) (l : list Coordinate) : Prop :=
  (exists c, c ∈ l /\ latitude (south_west b) = latitude c) /\
  (exists c, c ∈ l /\ latitude (north_east b) = latitude c) /\
  (exists c, c ∈ l /\ longitude (south_west b) = longitude c) /\
  (exists c, c ∈ l /\ longitude (north_east b) = longitude c).

Lemma from_coordinates_spec l :
  l <> [] -> Forall in_range l ->
  exists b, from_coordinates l = Some b /\ Forall (inside b) l /\ tight b l.
Proof.
  intros Hne Hr. destruct l as [|c0 l0] eqn:Hl; [done|]. rewrite <- Hl in *.
  exists (fold_left bbox_step l bbox_start).
  destruct (fold_bbox_spec l bbox_start []) as [Hi (A1 & A2 & A3 & A4)];
    [done|done|constructor|by split_and!; left|].
  simpl in *. unfold tight. split_and!; [by rewrite Hl|done|..].
  all: assert (c0 ∈ l) as Hc0 by (rewrite Hl; left).
  all: assert (in_range c0) as [H1 H2] by (by eapply Forall_forall in Hr).
  all: assert (inside (fold_left bbox_step l bbox_start) c0) as (I1 & I2 & I3 & I4)
    by (by eapply (proj1 (Forall_forall _ _)) in Hi).
  all: unfold lat_ok, lon_ok, range_contains in *; to_prop.
  - eapply attained_real; eauto. intros He. rewrite He in I1. by apply (max_not_below _ _ I1 H2).
  - eapply attained_real; eauto. intros He. rewrite He in I2. by apply (min_not_above _ _ I2 H1).
  - eapply attained_real; eauto. intros He. rewrite He in I3. by apply (max_not_below _ _ I3 H0).
  - eapply attained_real; eauto. intros He. rewrite He in I4. by apply (min_not_above _ _ I4 H).
Qed.

(** ** Elevation statistics *)

Lemma elevation_fold_nonneg es acc :
  f64_nonneg (ea_gain acc) = true -> f64_nonneg (ea_loss acc) = true ->
  f64_nonneg (ea_gain (fold_left elevation_step es acc)) = true /\
  f64_nonneg (ea_loss (fold_left elevation_step es acc)) = true.
Proof.
  revert acc. induction es as [|e es IH]; intros acc Hg Hl; simpl; [done|].
  unfold elevation_step at 2 4. destruct (ea_prev acc) as [prev|]; [|by apply IH].
  destruct (f64_leb ELEVATION_DEAD_BAND _) eqn:Hup; [|destruct (f64_leb _ (SFopp _)) eqn:Hdn];
    apply IH; simpl; auto.
  - apply f64_add_nonneg; [done|]. rewrite f64_nonneg_leb.
    by apply (f64_leb_trans _ ELEVATION_DEAD_BAND).
  - apply f64_add_nonneg; [done|]. apply f64_abs_nonneg. by apply f64_leb_not_nan in Hdn as [? _].
Qed.

(** Two successive readings within the dead band: neither a climb nor a
    descent. *)
Definition noise (w : Elevation * Elevation) : Prop :=
  f64_leb ELEVATION_DEAD_BAND (f64_sub (meters w.2) (meters w.1)) = false /\
  f64_leb (f64_sub (meters w.2) (meters w.1)) (SFopp ELEVATION_DEAD_BAND) = false.

Lemma elevation_fold_noise es e g l :
  Forall noise (windows2 (e :: es)) ->
  let acc := fold_left elevation_step es (mkElevationAcc g l (Some (meters e))) in
  ea_gain acc = g /\ ea_loss acc = l.
Proof.
  revert e. induction es as [|e' es IH]; intros e H; simpl; [done|].
  simpl in H. apply Forall_cons in H as [[H1 H2] H]. unfold elevation_step at 2 4. simpl in *.
  rewrite H1, H2. by apply IH.
Qed.

(** ** Conversion of points *)

Section normalisation.
Context `{DateTimeParser} `{Libm}.

Definition gpx_coordinate (pt : GpxTrackPoint) : Coordinate := mkCoordinate (gp_lat pt) (gp_lon pt).
Definition track_point (pt : GpxTrackPoint) : TrackPoint :=
  mkTrackPoint (gpx_coordinate pt) (mkElevation <$> gp_elevation pt)
    (gp_time pt ≫= parse_timestamp).
Definition point_in_range (pt : GpxTrackPoint) : Prop :=
  lat_ok (gp_lat pt) = true /\ lon_ok (gp_lon pt) = true.

Lemma convert_point_ok pt :
  point_in_range pt -> gpx_point_to_track_point pt = Ok (track_point pt).
Proof.
  intros [H1 H2]. unfold gpx_point_to_track_point, Coordinate_new. unfold lat_ok, lon_ok in *.
  by rewrite H1, H2.
Qed.

Lemma convert_points_ok pts acc tps :
  Forall point_in_range pts -> (na_points acc + len pts < u32_modulus)%N ->
  exists acc', convert_points pts acc tps = Ok (acc', tps ++ map track_point pts) /\
    na_segments acc' = na_segments acc /\
    na_coordinates acc' = na_coordinates acc ++ map gpx_coordinate pts /\
    na_points acc' = (na_points acc + len pts)%N.
Proof.
  revert acc tps. induction pts as [|pt pts IH]; intros acc tps Hr Hlt.
  { exists acc. simpl. rewrite !app_nil_r, len_nil, N.add_0_r. done. }
  apply Forall_cons in Hr as [Hpt Hr]. rewrite len_cons in *. simpl.
  rewrite (convert_point_ok _ Hpt). unfold mbind, result_bind.
  assert (u32_wrap (na_points acc + 1) = na_points acc + 1)%N as Hw by (apply N.mod_small; lia).
  destruct (IH (push_track_point (track_point pt) acc) (tps ++ [track_point pt]) Hr)
    as (acc' & Hc & Hs & Hco & Hp); [simpl; rewrite Hw; lia|].
  exists acc'. rewrite Hc, <- app_assoc. simpl in *. rewrite Hs, Hco, Hp, Hw, <- app_assoc.
  split_and!; try done. lia.
Qed.

(** The segments normalisation keeps. *)
Definition usable (segs : list GpxTrackSegment) : list GpxTrackSegment :=
  filter (fun s => 2 <= length (gs_points s)) segs.
Definition track_segment (s : GpxTrackSegment) : TrackSegment :=
  mkTrackSegment (map track_point (gs_points s)).

Lemma normalize_segments_ok segs acc :
  Forall point_in_range (flat_map gs_points segs) ->
  (na_points acc + len (flat_map gs_points segs) < u32_modulus)%N ->
  exists acc', normalize_segments segs acc = Ok acc' /\
    na_segments acc' = na_segments acc ++ map track_segment (usable segs) /\
    na_coordinates acc' =
      na_coordinates acc ++ map gpx_coordinate (flat_map gs_points (usable segs)) /\
    na_points acc' = (na_points acc + len (flat_map gs_points (usable segs)))%N.
Proof.
  revert acc. induction segs as [|s segs IH]; intros acc Hr Hlt.
  { exists acc. simpl. rewrite !app_nil_r, len_nil, N.add_0_r. done. }
  simpl in Hr, Hlt. rewrite len_app in Hlt. apply Forall_app in Hr as [Hs Hr].
  simpl. unfold normalize_segment, usable. rewrite filter_cons.
  unfold len at 1. destruct (N.ltb_spec (N.of_nat (length (gs_points s))) 2) as [Hshort|Hlong].
  - rewrite decide_False by lia. unfold mbind, result_bind.
    destruct (IH acc Hr) as (acc' & ? & ? & ? & ?); [lia|]. by exists acc'.
  - rewrite decide_True by lia. unfold mbind, result_bind.
    destruct (convert_points_ok (gs_points s) acc [] Hs) as (acc1 & Hc & Hsg & Hco & Hp); [lia|].
    rewrite Hc. simpl. unfold TrackSegment_new, len. rewrite length_map.
    destruct (N.ltb_spec (N.of_nat (length (gs_points s))) 2); [lia|].
    unfold mret, result_ret.
    match goal with |- context [normalize_segments segs ?a] => set (acc2 := a) end.
    destruct (IH acc2 Hr) as (acc' & Hn & Hs' & Hco' & Hp');
      [unfold acc2; simpl; rewrite Hp; lia|].
    exists acc'. simpl in *. split; [done|].
    rewrite Hs', Hco', Hp', Hsg, Hco, Hp, map_app, <- !app_assoc.
    split_and!; [done| |].
    + simpl. by rewrite ?map_app.
    + unfold usable, len. rewrite length_app. lia.
Qed.
End normalisation.

(** ** Preview *)

Lemma vec_index_clamped {E} (coords : list Coordinate) i :
  coords <> [] -> exists c, vec_index (E := E) coords (N.min i (len coords - 1)) = Ok c /\ c ∈ coords.
Proof.
  intros Hne. destruct (lookup_len_lt coords (N.min i (len coords - 1))) as [c Hc].
  { destruct coords; [done|]. rewrite len_cons. lia. }
  exists c. split; [by apply vec_index_ok|by eapply list_elem_of_lookup_2].
Qed.

Lemma preview_loop_ok coords step i n :
  coords <> [] ->
  exists l, preview_loop coords step i n = Ok l /\ length l = n /\ l ⊆ coords.
Proof.
  intros Hne. revert i. induction n as [|n IH]; intros i; simpl; [exists []; split_and!; [done..|set_solver]|].
  unfold mbind, result_bind.
  destruct (vec_index_clamped (E := RecordedActivityError) coords
              (round_to_u64 (f64_mul (f64_of_N i) step)) Hne) as (c & -> & Hc).
  destruct (IH (i + 1)%N) as (l & -> & Hl & Hin).
  exists (c :: l). simpl. split_and!; [done|by f_equal|set_solver].
Qed.

Lemma simplify_preview_ok coords m :
  (2 <= m)%N -> coords <> [] ->
  exists l, simplify_preview coords m = Ok l /\ l ⊆ coords /\ len l = N.min (len coords) m.
Proof.
  intros Hm Hne. unfold simplify_preview. destruct (N.leb_spec (len coords) m) as [Hle|Hgt].
  { exists coords. split_and!; [done..|]. lia. }
  destruct (N.ltb_spec m 2); [lia|].
  destruct (preview_loop_ok coords (f64_div (f64_of_N (len coords - 1)) (f64_of_N (m - 1)))
              0 (N.to_nat m) Hne) as (l & -> & Hl & Hin).
  exists l. split_and!; [done..|]. unfold len in *. lia.
Qed.

(** ** Timestamps *)

Lemma sorted_head_last l (x y : Z) :
  Sorted Z.le l -> head l = Some x -> last l = Some y -> (x <= y)%Z.
Proof.
  intros Hs Hx Hy. apply Sorted_StronglySorted in Hs; [|intros a b c; lia].
  destruct l as [|a l]; [done|]. simplify_eq/=. destruct l as [|b l]; simplify_eq/=; [lia|].
  inversion Hs as [|? ? _ HF]; subst. rewrite Forall_forall in HF. apply HF.
  change (last (b :: l) = Some y) in Hy. by apply last_Some_elem_of.
Qed.

Lemma recorded_duration_order ts d ts' x y :
  recorded_duration ts = (d, ts') -> head ts' = Some x -> last ts' = Some y -> (x <= y)%Z.
Proof.
  unfold recorded_duration. destruct (N.leb_spec 2 (len ts)) as [Hle|Hlt].
  - intros H Hx Hy. assert (ts' = merge_sort Z.le ts) as ->.
    { revert H. by repeat case_match; intros [= <- <-]. }
    eapply sorted_head_last; [|exact Hx|exact Hy]. apply (Sorted_merge_sort Z.le).
  - intros [= <- <-]. destruct ts as [|a [|b ts]]; simpl; [done|by intros [= ->] [= ->]|].
    rewrite !len_cons in Hlt. lia.
Qed.

(** ** Normalisation of a parsed file *)

Section normalise.
Context `{DateTimeParser} `{Libm}.

(** What normalisation makes of a file. *)
Definition normalized_from (r : GpxParseResult) (n : NormalizedTrack) : Prop :=
  let kept := usable (result_segments r) in
  let coords := map gpx_coordinate (flat_map gs_points kept) in
  rt_segments (nt_recorded_track n) = map track_segment kept /\
  Forall (fun s => 2 <= length (ts_points s)) (rt_segments (nt_recorded_track n)) /\
  point_count (rt_statistics (nt_recorded_track n)) = len coords /\
  segment_count (rt_statistics (nt_recorded_track n)) = len kept /\
  Forall (inside (rt_bounding_box (nt_recorded_track n))) coords /\
  tight (rt_bounding_box (nt_recorded_track n)) coords /\
  nt_preview_geometry n ⊆ coords /\
  len (nt_preview_geometry n) = N.min (len coords) MAX_PREVIEW_POINTS /\
  (forall t0 t1, nt_started_at n = Some t0 -> nt_ended_at n = Some t1 -> (t0 <= t1)%Z).

Lemma usable_points_sub segs :
  Forall point_in_range (flat_map gs_points segs) ->
  Forall point_in_range (flat_map gs_points (usable segs)) /\
  (len (flat_map gs_points (usable segs)) <= len (flat_map gs_points segs))%N /\
  (len (usable segs) <= len segs)%N.
Proof.
  induction segs as [|s segs IH]; simpl; [done|]. intros [Hs Hr]%Forall_app.
  destruct (IH Hr) as (H1 & H2 & H3). unfold usable in *. rewrite filter_cons.
  case_decide; simpl; rewrite ?len_app, ?len_cons; split_and!; try lia; [|done].
  by apply Forall_app_2.
Qed.

Lemma usable_points_nonempty segs : usable segs <> [] -> flat_map gs_points (usable segs) <> [].
Proof.
  unfold usable. destruct (filter _ segs) as [|s l] eqn:Hf; [done|]. intros _ He.
  assert (s ∈ filter (fun s => 2 <= length (gs_points s)) segs) as Hs by (rewrite Hf; left).
  apply list_elem_of_filter in Hs as [Hs _]. simpl in He.
  apply (f_equal length) in He. rewrite length_app in He. simpl in He. lia.
Qed.

Lemma normalize_gpx_spec new_id r :
  gpx_result_wf r ->
  (usable (result_segments r) = [] /\ normalize_gpx new_id r = Err NoSegments) \/
  (usable (result_segments r) <> [] /\
   exists n, normalize_gpx new_id r = Ok n /\ normalized_from r n).
Proof.
  intros (Hr & Hpts & Hseg & _). unfold result_points in *.
  destruct (usable_points_sub _ Hr) as (Hr' & Hl1 & Hl2).
  pose proof (usable_points_nonempty (result_segments r)) as Hne.
  destruct (normalize_segments_ok (result_segments r) norm_start Hr)
    as (acc & Hn & Hs & Hc & Hp); [simpl; unfold MAX_POINTS, u32_modulus in *; lia|].
  simpl in Hs, Hc, Hp. unfold normalize_gpx, result_segments in *. rewrite Hn.
  set (kept := usable _) in *. unfold mbind, result_bind.
  destruct (decide (kept = [])) as [Hk|Hk]; [left; split; [done|]; by rewrite Hs, Hk|right].
  split; [done|]. rewrite bool_decide_eq_false_2 by (rewrite Hs; by destruct kept).
  simpl. set (coords := map gpx_coordinate (flat_map gs_points kept)) in *.
  assert (coords <> []) as Hcne.
  { unfold coords. specialize (Hne Hk). by destruct (flat_map gs_points kept). }
  destruct (from_coordinates_spec coords Hcne) as (b & Hb & Hin & Ht).
  { unfold coords. rewrite Forall_map. eapply Forall_impl; [exact Hr'|done]. }
  rewrite Hc, Hb. simpl. destruct (calculate_elevation_stats _) as [g l].
  destruct (recorded_duration _) as [d ts] eqn:Hd.
  destruct (simplify_preview_ok coords MAX_PREVIEW_POINTS) as (pv & Hpv & Hsub & Hlen); [done|done|].
  rewrite Hpv. unfold RecordedTrack_new. rewrite Hs.
  destruct (map track_segment kept) as [|s0 l0] eqn:Hm; [by destruct kept|]. rewrite <- Hm.
  eexists. split; [reflexivity|]. unfold normalized_from, result_segments. fold kept. fold coords. simpl.
  assert (len coords = len (flat_map gs_points kept)) as Hlc
    by (unfold coords, len; by rewrite length_map).
  split_and!; try done.
  - rewrite Forall_map. apply Forall_forall. intros s Hsin.
    apply list_elem_of_filter in Hsin as [Hge _]. simpl. by rewrite length_map.
  - rewrite Hp. symmetry. exact Hlc.
  - assert (len (map track_segment kept) = len kept) as -> by (unfold len; by rewrite length_map).
    apply N.mod_small. unfold MAX_SEGMENTS, u32_modulus in *. lia.
  - intros t0 t1. eapply recorded_duration_order, Hd.
Qed.
End normalise.

(** ** Properties *)

#[local] Instance flat_libm : Libm := {| f64_sin := id; f64_cos := id; f64_asin := id |}.
#[local] Instance no_dates : DateTimeParser := fun _ => None.

(** C39: normalising whatever the parser lets through always succeeds, except
    when no segment has two points, which is reported as [NoSegments].  The
    recorded track keeps exactly the segments of at least two points, in order
    and point by point; the point and segment counts are those of the kept
    segments; the bounding box contains every kept coordinate and each of its
    edges is attained; the preview has at most [MAX_PREVIEW_POINTS] points, all
    recorded ones; and the end is not before the start.  This holds for any
    trigonometry and any date parser. *)
Theorem normalize_parsed_file `{DateTimeParser} `{Libm} `{XmlReader} new_id input r :
  parse_gpx input = Ok r ->
  (usable (result_segments r) = [] /\ normalize_gpx new_id r = Err NoSegments) \/
  (usable (result_segments r) <> [] /\
   exists n, normalize_gpx new_id r = Ok n /\ normalized_from r n).
Proof.
  intros (_ & p & Hinv & _ & Ht & Hm & Hp & _)%parse_gpx_inv.
  apply normalize_gpx_spec. by eapply result_wf_of_inv.
Qed.

Lemma normalize_parsed_file_witness :
  exists r, parse_gpx (H := fun _ => sample_events) (bs "<gpx/>") = Ok r /\
  ((usable (result_segments r) = [] /\ normalize_gpx 7 r = Err NoSegments) \/
   (usable (result_segments r) <> [] /\
    exists n, normalize_gpx 7 r = Ok n /\ normalized_from r n)).
Proof.
  eexists. split; [by vm_compute|].
  apply (normalize_parsed_file (H1 := fun _ => sample_events) 7 (bs "<gpx/>")). by vm_compute.
Defined.

(** Elevation statistics.  They are absent exactly when no point has an
    elevation; otherwise the gain and the loss are never negative (nor NaN),
    whatever the readings, and readings that only move within the dead band
    count for nothing. *)
Theorem elevation_stats_correct es :
  (flatten es = [] <-> calculate_elevation_stats es = (None, None)) /\
  (forall g l, calculate_elevation_stats es = (Some g, Some l) ->
     f64_nonneg g = true /\ f64_nonneg l = true) /\
  (flatten es <> [] -> Forall noise (windows2 (flatten es)) ->
     calculate_elevation_stats es = (Some f64_zero, Some f64_zero)).
Proof.
  unfold calculate_elevation_stats. destruct (flatten es) as [|e rest].
  { split_and!; done. }
  split_and!; [done| |].
  - intros g l [= <- <-]. by apply elevation_fold_nonneg.
  - intros _ Hn. cbn [fold_left]. unfold elevation_step at 2 4. cbn [ea_prev ea_gain ea_loss].
    by destruct (elevation_fold_noise rest e f64_zero f64_zero Hn) as [-> ->].
Qed.

Lemma elevation_stats_correct_witness :
  calculate_elevation_stats [Some (mkElevation (f64_of_Z 5)); None; Some (mkElevation (f64_of_Z 6))]
  = (Some f64_zero, Some f64_zero).
Proof. apply elevation_stats_correct; [done|]. repeat constructor. Defined.
