(* ===== verification/RouteVersioning.v ===== *)
(** The route versioning context, crates/app/src/route_versioning: corrected
    statistics (corrected_statistics.rs), route versions and errors (mod.rs),
    the repository and the publication gateway (repository.rs, gateway.rs),
    the data of the transactional committer (commit.rs) and the publish command
    (publish_command.rs). *)
From S2P Require Import Prelude Float64 RustString RustVec RouteEditing DraftValidation.
From S2P Require Import RecordedActivity.

(** ** JSON values, as serde_json has them *)

Inductive Json : Type :=
| JNull
| JBool (b : bool)
| JInt (z : Z)
| JFloat (x : f64)
| JString (s : rstr)
| JArray (l : list Json)
| JObject (fields : list (rstr * Json)).

(** [json!] of an [f64] and of an [Option<f64>]: null where JSON has no number. *)
Definition json_f64 (x : f64) : Json := if is_finite x then JFloat x else JNull.
Definition json_option_f64 (x : option f64) : Json :=
  match x with Some x => json_f64 x | None => JNull end.

(** [Value]'s accessors: [get] with a key, [as_str], [as_i64], [as_array] and
    [as_f64]; a number of any kind is an [f64]. *)
Fixpoint json_field (name : rstr) (fields : list (rstr * Json)) : option Json :=
  match fields with
  | [] => None
  | (k, v) :: fields' => if decide (k = name) then Some v else json_field name fields'
  end.
Definition json_get (name : rstr) (v : Json) : option Json :=
  match v with JObject fields => json_field name fields | _ => None end.
Definition json_as_str (v : Json) : option rstr := match v with JString s => Some s | _ => None end.
Definition json_as_i64 (v : Json) : option Z :=
  match v with
  | JInt z => if ((- 2 ^ 63 <=? z) && (z <? 2 ^ 63))%Z then Some z else None
  | _ => None
  end.
Definition json_as_array (v : Json) : option (list Json) :=
  match v with JArray l => Some l | _ => None end.
Definition json_to_f64 (v : Json) : option f64 :=
  match v with
  | JInt z => Some (f64_of_Z z)
  | JFloat x => Some x
  | _ => None
  end.

(** ** Corrected statistics *)

Definition CALCULATION_VERSION : rstr := lit "v1.0".

Record CorrectedStatistics := mkCorrected {
  cs_distance_meters : f64;
  cs_point_count : N;
  cs_calculation_version : rstr }.

#[export] Instance CorrectedStatistics_eq_dec : EqDecision CorrectedStatistics.
Proof. solve_decision. Defined.

(** The private [haversine_distance] of this context. *)
Definition corrected_haversine `{Libm} (a b : Coordinate) : f64 :=
  let r := f64_of_Z 6371000 in
  let lat1 := to_radians (latitude a) in
  let lat2 := to_radians (latitude b) in
  let dlat := to_radians (f64_sub (latitude b) (latitude a)) in
  let dlon := to_radians (f64_sub (longitude b) (longitude a)) in
  let h := f64_add (powi2 (f64_sin (f64_div dlat f64_two)))
             (f64_mul (f64_mul (f64_cos lat1) (f64_cos lat2))
                      (powi2 (f64_sin (f64_div dlon f64_two)))) in
  f64_mul (f64_mul f64_two r) (f64_asin (f64_sqrt h)).

Definition compute_total_distance `{Libm} (coords : list Coordinate) : f64 :=
  if (len coords <? 2)%N then f64_zero
  else fold_left (fun total w => f64_add total (corrected_haversine w.1 w.2))
         (windows2 coords) f64_zero.

Definition calculate_from_geometry `{Libm} (coords : list Coordinate) : CorrectedStatistics :=
  mkCorrected (compute_total_distance coords) (u32_wrap (len coords)) CALCULATION_VERSION.

(** ** Errors *)

Inductive RouteVersioningError : Type :=
| VersionNotFound
| Immutable
| InsufficientGeometry (minimum actual : N)
| InvalidVersionNumber (minimum actual : Z)
| VDraftNotFound
| NotAuthorized
| VRevisionConflict (expected actual : N)
| VDraftNotActive
| VValidationFailed (errors : list rstr)
| IdempotencyConflict
| VActivityNotFound
| VPersistenceError (message : rstr).

#[export] Instance RouteVersioningError_eq_dec : EqDecision RouteVersioningError.
Proof. solve_decision. Defined.

(** The [Debug] rendering of a list of strings. *)
Class DebugStrings := debug_strings : list rstr -> rstr.

Definition versioning_error_display `{DebugStrings} (e : RouteVersioningError) : rstr :=
  match e with
  | VersionNotFound => lit "route version not found"
  | Immutable => lit "route version is immutable and cannot be modified"
  | InsufficientGeometry minimum actual => lit "insufficient geometry points: minimum "
      ++ display_N minimum ++ lit ", got " ++ display_N actual
  | InvalidVersionNumber minimum actual => lit "invalid version number: minimum "
      ++ display_Z minimum ++ lit ", got " ++ display_Z actual
  | VDraftNotFound => lit "draft not found"
  | NotAuthorized => lit "not authorized"
  | VRevisionConflict expected actual => lit "revision conflict: expected "
      ++ display_N expected ++ lit ", actual " ++ display_N actual
  | VDraftNotActive => lit "draft is not active"
  | VValidationFailed errors => lit "validation failed: " ++ debug_strings errors
  | IdempotencyConflict => lit "idempotency conflict"
  | VActivityNotFound => lit "activity not found"
  | VPersistenceError message => lit "persistence error: " ++ message
  end.

(** ** Route versions *)

Record RouteVersion := mkVersion {
  rv_id : uuid;
  rv_activity_id : uuid;
  rv_parent_version_id : option uuid;
  rv_version_number : Z;
  rv_geometry : list Coordinate;
  rv_bounding_box : BoundingBox;
  rv_corrected_statistics : CorrectedStatistics;
  rv_calculation_version : rstr;
  rv_edit_summary : option rstr;
  rv_created_by : uuid;
  rv_created_at : datetime }.

#[export] Instance RouteVersion_eq_dec : EqDecision RouteVersion.
Proof. solve_decision. Defined.

Definition new_initial (new_id : uuid) (now : datetime) (activity_id : uuid)
    (g : list Coordinate) (bounding_box : BoundingBox) (stats : CorrectedStatistics)
    (calculation_version : rstr) (created_by : uuid)
    : result RouteVersioningError RouteVersion :=
  if (len g <? 2)%N then Err (InsufficientGeometry 2 (len g))
  else Ok (mkVersion new_id activity_id None 1 g bounding_box stats calculation_version None
             created_by now).

Definition new_from_publication (new_id : uuid) (now : datetime) (parent_version_id : uuid)
    (version_number : Z) (activity_id : uuid) (g : list Coordinate) (bounding_box : BoundingBox)
    (stats : CorrectedStatistics) (calculation_version : rstr) (edit_summary : option rstr)
    (created_by : uuid) : result RouteVersioningError RouteVersion :=
  if (version_number <? 2)%Z then Err (InvalidVersionNumber 2 version_number)
  else if (len g <? 2)%N then Err (InsufficientGeometry 2 (len g))
  else Ok (mkVersion new_id activity_id (Some parent_version_id) version_number g bounding_box
             stats calculation_version edit_summary created_by now).

(** ** Repositories and gateway *)

Record RouteVersionPage := mkVersionPage {
  rvp_items : list RouteVersion; rvp_next_cursor : option rstr; rvp_has_more : bool }.

Class RouteVersionRepository (S : Type) := {
  save_version : RouteVersion -> eff S RouteVersioningError unit;
  find_version : uuid -> eff S RouteVersioningError (option RouteVersion);
  find_latest_by_activity : uuid -> eff S RouteVersioningError (option RouteVersion);
  find_version_by_key : rstr -> eff S RouteVersioningError (option RouteVersion);
  list_by_activity : uuid -> option rstr -> N -> eff S RouteVersioningError RouteVersionPage }.

(** [RouteDraftRepository] of crates/app/src/route_editing/repository.rs. *)
Class RouteDraftRepository (S : Type) := {
  save_draft : RouteDraft -> eff S RouteEditingError unit;
  find_draft : uuid -> eff S RouteEditingError (option RouteDraft);
  find_active_by_activity : uuid -> uuid -> eff S RouteEditingError (option RouteDraft);
  update_draft : RouteDraft -> eff S RouteEditingError unit;
  find_by_operation_id : uuid -> eff S RouteEditingError (option uuid) }.

Class PublicationGateway (S : Type) :=
  update_activity_current_version : uuid -> uuid -> Json -> eff S RouteVersioningError unit.

(** [serde_json::to_value] of the statistics: a JSON value or an error text. *)
Class StatisticsToJson := statistics_to_value : CorrectedStatistics -> rstr + Json.

(** ** Data of the transactional committer *)

Record PublicationCommitData := mkCommitData {
  pcd_draft_id : uuid;
  pcd_expected_revision : N;
  pcd_actor_id : uuid;
  pcd_idempotency_key : rstr;
  pcd_edit_summary : option rstr }.

Record PublicationResult := mkPublicationResult {
  pr_route_version_id : uuid;
  pr_version_number : Z;
  pr_draft_id : uuid;
  pr_corrected_statistics_json : Json }.

(** ** The publish command *)

Record PublishRouteVersionCommand := mkPublishCommand {
  pc_draft_id : uuid;
  pc_expected_revision : N;
  pc_actor_id : uuid;
  pc_idempotency_key : rstr;
  pc_edit_summary : option rstr }.

Definition flatten_geometry (g : list (list RoutePoint)) : list Coordinate :=
  map (fun p => mkCoordinate (RouteEditing.latitude (coordinate p))
                             (RouteEditing.longitude (coordinate p))) (concat g).

Definition validation_message (e : PublicationValidationError) : rstr :=
  match e with
  | NotOwner => lit "not the draft owner"
  | PubDraftNotActive => lit "draft is not active"
  | RevisionMismatch expected actual =>
      lit "revision mismatch: expected " ++ display_N expected ++ lit ", actual " ++ display_N actual
  | DraftValidation.NoSegments => lit "geometry has no segments"
  | InsufficientPointsInSegment i minimum actual =>
      lit "segment " ++ display_N i ++ lit " has insufficient points: minimum "
        ++ display_N minimum ++ lit ", got " ++ display_N actual
  | InvalidCoordinateInSegment i j message =>
      lit "segment " ++ display_N i ++ lit ", point " ++ display_N j ++ lit ": " ++ message
  | NoBaseVersion => lit "no base version set"
  end.

Definition map_validation_errors (errors : list PublicationValidationError)
    : RouteVersioningError :=
  match errors with
  | [NotOwner] => NotAuthorized
  | [PubDraftNotActive] => VDraftNotActive
  | [RevisionMismatch expected actual] => VRevisionConflict expected actual
  | _ => VValidationFailed (map validation_message errors)
  end.

Section publish.
Context {S : Type} `{RouteVersionRepository S} `{RouteDraftRepository S} `{PublicationGateway S}
  `{Libm} `{StatisticsToJson}.

(** Steps 3 to 6: everything between loading and saving that is computed. *)
Definition build_version (new_id : uuid) (now : datetime) (command : PublishRouteVersionCommand)
    (draft : RouteDraft) (latest_version : RouteVersion)
    (bounding_box : BoundingBox) : result RouteVersioningError RouteVersion :=
  let flat_geometry := flatten_geometry (rd_geometry draft) in
  let corrected_statistics := calculate_from_geometry flat_geometry in
  let new_version_number := i32_of (rv_version_number latest_version + 1) in
  new_from_publication new_id now (rv_id latest_version) new_version_number
    (rd_activity_id draft) flat_geometry bounding_box corrected_statistics
    (cs_calculation_version corrected_statistics) (pc_edit_summary command)
    (pc_actor_id command).

(** Steps 7 to 10: the three writes, in their order. *)
Definition store_publication (now : datetime) (draft : RouteDraft) (new_version : RouteVersion)
    : eff S RouteVersioningError RouteVersion :=
  save_version new_version;;
  let '(published, draft) := publish now draft in
  lift (map_err (fun _ => VDraftNotActive) published);;
  eff_map_err (fun _ => VPersistenceError (lit "failed to update draft")) (update_draft draft);;
  update_activity_current_version (rd_activity_id draft) (rv_id new_version)
    (match statistics_to_value (rv_corrected_statistics new_version) with
     | inr v => v
     | inl _ => JNull
     end);;
  mret new_version.

Definition execute_publish (new_id : uuid) (now : datetime)
    (command : PublishRouteVersionCommand) : eff S RouteVersioningError RouteVersion :=
  existing ← find_version_by_key (pc_idempotency_key command);
  match existing with
  | Some v => mret v
  | None =>
      found ← eff_map_err (fun _ => VDraftNotFound) (find_draft (pc_draft_id command));
      draft ← lift (ok_or found VDraftNotFound);
      lift (map_err map_validation_errors
              (validate_for_publication draft (pc_expected_revision command)
                 (pc_actor_id command)));;
      bounding_box ← lift (ok_or (from_coordinates (flatten_geometry (rd_geometry draft)))
        (VValidationFailed [lit "geometry produced no bounding box"]));
      latest ← find_latest_by_activity (rd_activity_id draft);
      latest_version ← lift (ok_or latest VActivityNotFound);
      new_version ← lift (build_version new_id now command draft latest_version bounding_box);
      store_publication now draft new_version
  end.
End publish.
