(* ===== verification/Sorting.v ===== *)
(** Sorting as [sort_by_key] of slices and [ORDER BY] of queries do it, and what a
    sorted list is determined by. *)
From stdpp Require Import sorting.
From S2P Require Import Prelude.

(** A stable insertion sort. *)
Fixpoint insert_before {A} (lt : A -> A -> bool) (x : A) (l : list A) : list A :=
  match l with
  | [] => [x]
  | y :: l' => if lt x y then x :: l else y :: insert_before lt x l'
  end.
Definition sort_by {A} (lt : A -> A -> bool) (l : list A) : list A :=
  fold_left (fun acc x => insert_before lt x acc) l [].

Definition sort_by_key {A} (key : A -> N) : list A -> list A :=
  sort_by (fun x y => key x <? key y)%N.

Section sort.
Context {A : Type} (lt : A -> A -> bool) (le : A -> A -> Prop).
Hypothesis lt_le : forall x y, lt x y = true -> le x y.
Hypothesis ge_le : forall x y, lt x y = false -> le y x.
Hypothesis le_trans : forall x y z, le x y -> le y z -> le x z.

Lemma insert_before_perm x l : insert_before lt x l ≡ₚ x :: l.
Proof using Type.
  induction l as [|y l IH]; simpl; [done|]. destruct (lt x y); [done|].
  rewrite IH. apply Permutation_swap.
Qed.

Lemma insert_before_sorted x l : StronglySorted le l -> StronglySorted le (insert_before lt x l).
Proof using All.
  intros H. induction H as [|y l Hl IH HF]; simpl; [by repeat constructor|].
  destruct (lt x y) eqn:Hxy.
  - constructor; [by constructor|]. constructor; [auto|].
    eapply Forall_impl; [exact HF|]. eauto.
  - constructor; [done|]. rewrite insert_before_perm. constructor; auto.
Qed.

Lemma sort_by_spec_acc l acc :
  StronglySorted le acc ->
  let r := fold_left (fun acc x => insert_before lt x acc) l acc in
  StronglySorted le r /\ r ≡ₚ acc ++ l.
Proof using All.
  revert acc. induction l as [|x l IH]; intros acc Ha; simpl; [by rewrite app_nil_r|].
  destruct (IH (insert_before lt x acc)) as [H1 H2]; [by apply insert_before_sorted|].
  split; [done|]. rewrite H2, insert_before_perm. simpl. apply Permutation_middle.
Qed.

Lemma sort_by_sorted l : StronglySorted le (sort_by lt l).
Proof using All. apply (sort_by_spec_acc l []). constructor. Qed.

Lemma sort_by_perm l : sort_by lt l ≡ₚ l.
Proof using All. apply (sort_by_spec_acc l []). constructor. Qed.

Lemma insert_before_last x l :
  Forall (fun y => lt x y = false) l -> insert_before lt x l = l ++ [x].
Proof using Type. induction 1 as [|y l Hy _ IH]; simpl; [done|]. by rewrite Hy, IH. Qed.

(** Sorting what is sorted changes nothing. *)
Lemma sort_by_id l :
  (forall x y, le x y -> lt y x = false) -> StronglySorted le l -> sort_by lt l = l.
Proof using Type.
  intros Hle. unfold sort_by.
  assert (forall acc, StronglySorted le (acc ++ l) ->
    fold_left (fun acc x => insert_before lt x acc) l acc = acc ++ l) as Hg; [|apply (Hg [])].
  induction l as [|x l IH]; intros acc Hs; simpl; [by rewrite app_nil_r|].
  rewrite insert_before_last.
  - rewrite IH; by rewrite <- app_assoc.
  - apply Forall_forall. intros y Hy. apply Hle.
    apply list_elem_of_lookup in Hy as [i Hi]. revert Hi Hs. clear. revert i.
    induction acc as [|z acc IH]; intros i Hi Hs; [done|]. apply StronglySorted_inv in Hs as [Hs HF].
    destruct i as [|i]; simpl in Hi; [|by eapply IH].
    injection Hi as ->. rewrite Forall_app, Forall_cons in HF. apply HF.
Qed.
End sort.

Section sort_by_key.
Context {A : Type} (key : A -> N).

Definition sorted_by : list A -> Prop := StronglySorted (fun x y => (key x <= key y)%N).

Lemma sort_by_key_sorted l : sorted_by (sort_by_key key l).
Proof. apply sort_by_sorted; intros *; rewrite ?N.ltb_lt, ?N.ltb_ge; lia. Qed.

Lemma sort_by_key_perm l : sort_by_key key l ≡ₚ l.
Proof.
  apply (sort_by_perm _ (fun x y => (key x <= key y)%N)); intros *; rewrite ?N.ltb_lt, ?N.ltb_ge; lia.
Qed.
End sort_by_key.

(** Sorted by distinct keys means strictly increasing. *)
Lemma sorted_strict {A} (key : A -> N) l :
  sorted_by key l -> NoDup l -> (forall x y, x ∈ l -> y ∈ l -> key x = key y -> x = y) ->
  StronglySorted (fun x y => (key x < key y)%N) l.
Proof.
  intros Hs. induction Hs as [|x l Hl IH HF]; intros Hnd Hinj; constructor.
  - apply NoDup_cons in Hnd as [_ Hnd]. apply IH; [done|]. intros; apply Hinj; try done; by right.
  - apply NoDup_cons in Hnd as [Hx _]. rewrite Forall_forall in *. intros y Hy.
    specialize (HF y Hy). simpl in HF. destruct (decide (key x = key y)) as [He|He]; [|lia].
    destruct Hx. rewrite (Hinj x y); [done|left|by right|done].
Qed.

Lemma StronglySorted_lookup {A} (R : A -> A -> Prop) l i k x y :
  StronglySorted R l -> i < k -> l !! i = Some x -> l !! k = Some y -> R x y.
Proof.
  intros Hs. revert i k. induction Hs as [|z l Hl IH HF]; intros i k Hik Hi Hk; [done|].
  destruct k as [|k]; [lia|]. destruct i as [|i]; simpl in *.
  - simplify_eq. rewrite Forall_lookup in HF. eauto.
  - eapply IH; [|done..]. lia.
Qed.

(** A list without two equal keys is determined by its elements. *)
Lemma sort_by_key_unique {A} (key : A -> N) l k :
  k ≡ₚ l -> StronglySorted (fun x y => (key x < key y)%N) l -> sort_by_key key k = l.
Proof.
  intros Hp Hl. pose proof (Permutation_trans (sort_by_key_perm key k) Hp) as Hk.
  assert (forall x y, x ∈ l -> y ∈ l -> key x = key y -> x = y) as Hinj.
  { intros x y (i & Hi)%list_elem_of_lookup (j & Hj)%list_elem_of_lookup Hxy.
    destruct (decide (i = j)) as [->|Hij]; [congruence|exfalso].
    destruct (decide (i < j)).
    - pose proof (StronglySorted_lookup _ _ i j x y Hl) as Hlt. simpl in Hlt.
      specialize (Hlt ltac:(done) ltac:(done) ltac:(done)). lia.
    - pose proof (StronglySorted_lookup _ _ j i y x Hl) as Hlt. simpl in Hlt.
      specialize (Hlt ltac:(lia) ltac:(done) ltac:(done)). lia. }
  assert (NoDup l) as Hnd.
  { clear -Hl. induction Hl as [|x l Hl IH HF]; constructor; [|done].
    intros Hx. rewrite Forall_forall in HF. specialize (HF _ Hx). simpl in HF. lia. }
  apply (StronglySorted_unique_strong (fun x y => (key x < key y)%N)).
  - intros x y _ _ H1 H2. simpl in *. lia.
  - apply sorted_strict; [apply sort_by_key_sorted|by rewrite Hk|].
    intros x y. rewrite !Hk. apply Hinj.
  - done.
  - done.
Qed.
