(* ===== verification/Legs.v ===== *)
(** Legs of an activity: crates/app/src/recorded_activity/legs.rs (titles, legs,
    summaries), leg_repository.rs, leg_commands.rs, leg_queries.rs, and the
    PostgreSQL repository of crates/infrastructure/src/leg_persistence.rs over
    the table of migrations/20250109000001_create_legs_table.sql. *)
From S2P Require Import Prelude Float64 RustString RecordedActivity Sorting.

Definition MAX_LEGS_PER_ACTIVITY : N := 30.
Definition MAX_LEG_TITLE_LENGTH : N := 255.

(** A calendar date: its days since the epoch. *)
Abbreviation date := Z (only parsing).

(** ** Titles *)

Record LegTitle := mkLegTitle { leg_title_str : rstr }.

#[export] Instance LegTitle_eq_dec : EqDecision LegTitle.
Proof. solve_decision. Defined.

Definition LegTitle_new (value : rstr) : result RecordedActivityError LegTitle :=
  let trimmed := trim value in
  if is_empty trimmed then Err (InvalidLegTitle (lit "leg title must not be empty"))
  else if (MAX_LEG_TITLE_LENGTH <? str_len trimmed)%N then
    Err (InvalidLegTitle (lit "leg title must not exceed " ++ display_N MAX_LEG_TITLE_LENGTH
           ++ lit " characters, got " ++ display_N (str_len trimmed)))
  else Ok (mkLegTitle trimmed).

(** ** Legs *)

Record Leg := mkLeg {
  leg_id : uuid;
  leg_activity_id : uuid;
  leg_number : N;
  leg_title : option LegTitle;
  leg_date : date;
  leg_source_revision_id : option uuid;
  leg_recorded_track_id : option uuid;
  leg_created_at : datetime;
  leg_updated_at : datetime }.

#[export] Instance Leg_eq_dec : EqDecision Leg.
Proof. solve_decision. Defined.

(** The two range checks [Leg::new] and [update_leg_number] share. *)
Definition check_leg_number (activity_id : uuid) (n : N) : result RecordedActivityError unit :=
  if (n <? 1)%N then Err (InvalidLegNumber n (lit "leg number must be at least 1"))
  else if (MAX_LEGS_PER_ACTIVITY <? n)%N then Err (MaxLegsExceeded activity_id MAX_LEGS_PER_ACTIVITY)
  else Ok tt.

Definition Leg_new (new_id : uuid) (now : datetime) (activity_id : uuid) (n : N)
    (title : option LegTitle) (d : date) (source_revision_id recorded_track_id : option uuid)
    : result RecordedActivityError Leg :=
  check_leg_number activity_id n;;
  mret (mkLeg new_id activity_id n title d source_revision_id recorded_track_id now now).

Definition rename (now : datetime) (title : option LegTitle) (l : Leg) : Leg :=
  mkLeg (leg_id l) (leg_activity_id l) (leg_number l) title (leg_date l)
    (leg_source_revision_id l) (leg_recorded_track_id l) (leg_created_at l) now.
Definition update_date (now : datetime) (d : date) (l : Leg) : Leg :=
  mkLeg (leg_id l) (leg_activity_id l) (leg_number l) (leg_title l) d
    (leg_source_revision_id l) (leg_recorded_track_id l) (leg_created_at l) now.
Definition update_leg_number (now : datetime) (n : N) (l : Leg)
    : result RecordedActivityError Leg :=
  check_leg_number (leg_activity_id l) n;;
  mret (mkLeg (leg_id l) (leg_activity_id l) n (leg_title l) (leg_date l)
    (leg_source_revision_id l) (leg_recorded_track_id l) (leg_created_at l) now).

(** ** Summaries *)

Record LegSummary := mkLegSummary {
  ls_distance_meters : f64;
  ls_elevation_gain_meters : option f64;
  ls_elevation_loss_meters : option f64;
  ls_point_count : N;
  ls_duration_seconds : option f64 }.

Definition empty_summary : LegSummary := mkLegSummary f64_zero None None 0 None.

Definition combine_optional (a b : option f64) : option f64 :=
  match a, b with
  | Some x, Some y => Some (f64_add x y)
  | Some x, None => Some x
  | None, Some y => Some y
  | None, None => None
  end.

Definition combine (s other : LegSummary) : LegSummary :=
  mkLegSummary (f64_add (ls_distance_meters s) (ls_distance_meters other))
    (combine_optional (ls_elevation_gain_meters s) (ls_elevation_gain_meters other))
    (combine_optional (ls_elevation_loss_meters s) (ls_elevation_loss_meters other))
    (u32_wrap (ls_point_count s + ls_point_count other))
    (combine_optional (ls_duration_seconds s) (ls_duration_seconds other)).

(** ** The repository *)

Class LegRepository (S : Type) := {
  list_legs : uuid -> eff S RecordedActivityError (list Leg);
  find_leg : uuid -> eff S RecordedActivityError (option Leg);
  save_leg : Leg -> eff S RecordedActivityError unit;
  update_leg : Leg -> eff S RecordedActivityError unit;
  delete_leg : uuid -> eff S RecordedActivityError unit;
  next_leg_number : uuid -> eff S RecordedActivityError N;
  reorder_legs : uuid -> uuid -> N -> eff S RecordedActivityError unit;
  get_leg_summary : uuid -> eff S RecordedActivityError (option LegSummary) }.

(** ** Commands and queries *)

Record LegDetail := mkLegDetail { ld_leg : Leg; ld_summary : option LegSummary }.
Record LegWithSummary := mkLegWithSummary { lws_leg : Leg; lws_summary : LegSummary }.
Record ActivityLegStats := mkLegStats { als_total : LegSummary; als_per_leg : list LegWithSummary }.

Section commands.
Context {S : Type} `{LegRepository S}.

Definition parse_title (title : option rstr) : result RecordedActivityError (option LegTitle) :=
  match title with
  | Some t => t ← LegTitle_new t; mret (Some t)
  | None => mret None
  end.

Definition load_leg (id : uuid) : eff S RecordedActivityError Leg :=
  o ← find_leg id; lift (ok_or o (LegNotFound id)).

Definition add_leg (new_id : uuid) (now : datetime) (activity_id : uuid) (title : option rstr)
    (d : date) (source_revision_id recorded_track_id : option uuid)
    : eff S RecordedActivityError Leg :=
  n ← next_leg_number activity_id;
  lift (guard_err (MAX_LEGS_PER_ACTIVITY <? n)%N
          (MaxLegsExceeded activity_id MAX_LEGS_PER_ACTIVITY));;
  leg_title ← lift (parse_title title);
  leg ← lift (Leg_new new_id now activity_id n leg_title d source_revision_id recorded_track_id);
  save_leg leg;;
  mret leg.

Definition rename_leg (now : datetime) (id : uuid) (new_title : option rstr)
    : eff S RecordedActivityError Leg :=
  title ← lift (parse_title new_title);
  leg ← load_leg id;
  let leg := rename now title leg in
  update_leg leg;; mret leg.

Definition update_leg_date (now : datetime) (id : uuid) (new_date : date)
    : eff S RecordedActivityError Leg :=
  leg ← load_leg id;
  let leg := update_date now new_date leg in
  update_leg leg;; mret leg.

Definition reorder_leg (id : uuid) (new_position : N) : eff S RecordedActivityError unit :=
  lift (guard_err (new_position <? 1)%N
          (InvalidLegNumber new_position (lit "position must be at least 1")));;
  lift (guard_err (MAX_LEGS_PER_ACTIVITY <? new_position)%N
          (MaxLegsExceeded 0 MAX_LEGS_PER_ACTIVITY));;
  leg ← load_leg id;
  reorder_legs (leg_activity_id leg) id new_position.

(** The loop that renumbers what is left, [idx] counting from 0. *)
Fixpoint renumber (now : datetime) (idx : N) (legs : list Leg)
    : eff S RecordedActivityError unit :=
  match legs with
  | [] => mret tt
  | leg :: rest =>
      let expected_number := (u32_wrap (u32_wrap idx + 1))%N in
      (if negb (leg_number leg =? expected_number)%N then
         leg ← lift (update_leg_number now expected_number leg); update_leg leg
       else mret tt);;
      renumber now (idx + 1) rest
  end.

Definition remove_leg (now : datetime) (id : uuid) : eff S RecordedActivityError unit :=
  leg ← load_leg id;
  delete_leg id;;
  remaining_legs ← list_legs (leg_activity_id leg);
  renumber now 0 (sort_by_key leg_number remaining_legs).

Definition list_legs_for_activity (activity_id : uuid) : eff S RecordedActivityError (list Leg) :=
  list_legs activity_id.

Definition get_leg_detail (id : uuid) : eff S RecordedActivityError LegDetail :=
  leg ← load_leg id;
  summary ← get_leg_summary id;
  mret (mkLegDetail leg summary).

Fixpoint aggregate (legs : list Leg) (total : LegSummary) (per_leg : list LegWithSummary)
    : eff S RecordedActivityError ActivityLegStats :=
  match legs with
  | [] => mret (mkLegStats total per_leg)
  | leg :: rest =>
      o ← get_leg_summary (leg_id leg);
      let summary := default empty_summary o in
      aggregate rest (combine total summary) (per_leg ++ [mkLegWithSummary leg summary])
  end.

Definition get_aggregated_stats (activity_id : uuid) : eff S RecordedActivityError ActivityLegStats :=
  legs ← list_legs activity_id;
  aggregate legs empty_summary [].
End commands.

(** ** The PostgreSQL repository

    A table is a map from the primary key to the row.  A statement that would
    leave two rows with the same (activity_id, leg_number) is refused by the
    UNIQUE constraint and changes nothing; the text of the error is the
    database's.  Foreign keys and connection failures are not modelled. *)

Record LegRow := mkLegRow {
  lr_id : uuid;
  lr_activity_id : uuid;
  lr_leg_number : Z;
  lr_title : option rstr;
  lr_date : date;
  lr_source_revision_id : option uuid;
  lr_recorded_track_id : option uuid;
  lr_created_at : datetime;
  lr_updated_at : datetime }.

Record TrackRow := mkTrackRow {
  tr_distance_meters : option f64;
  tr_elevation_gain_meters : option f64;
  tr_elevation_loss_meters : option f64;
  tr_point_count : option Z }.

Record LegDb := mkLegDb { legs_table : gmap N LegRow; tracks_table : gmap N TrackRow }.

Definition u32_of (z : Z) : N := Z.to_N (z mod 2 ^ 32).

Definition into_leg (r : LegRow) : Leg :=
  mkLeg (lr_id r) (lr_activity_id r) (u32_of (lr_leg_number r))
    (lr_title r ≫= fun t => match LegTitle_new t with Ok t => Some t | _ => None end)
    (lr_date r) (lr_source_revision_id r) (lr_recorded_track_id r)
    (lr_created_at r) (lr_updated_at r).

Definition leg_row (l : Leg) : LegRow :=
  mkLegRow (leg_id l) (leg_activity_id l) (i32_of (Z.of_N (leg_number l)))
    (leg_title_str <$> leg_title l) (leg_date l) (leg_source_revision_id l)
    (leg_recorded_track_id l) (leg_created_at l) (leg_updated_at l).

Definition leg_key (r : LegRow) : N * Z := (lr_activity_id r, lr_leg_number r).

Definition unique_ok (t : gmap N LegRow) : Prop :=
  map_Forall (fun i r => map_Forall (fun j r' => leg_key r = leg_key r' -> i = j) t) t.

#[export] Instance unique_ok_dec t : Decision (unique_ok t).
Proof. unfold unique_ok. apply _. Defined.

(** The error text of a constraint violation. *)
Class DbMessages := unique_violation : rstr.

Section postgres.
Context `{DbMessages}.

(** A data-changing statement on the table. *)
Definition execute_sql (f : gmap N LegRow -> gmap N LegRow) : eff LegDb RecordedActivityError unit :=
  db ← get;
  let t := f (legs_table db) in
  if decide (unique_ok t) then put (mkLegDb t (tracks_table db))
  else throw (Persistence unique_violation).

Definition rows_of (activity_id : uuid) (t : gmap N LegRow) : list LegRow :=
  filter (fun r => lr_activity_id r = activity_id) (map snd (map_to_list t)).

(** [ORDER BY leg_number ASC], the numbers shifted to be natural. *)
Definition number_key (r : LegRow) : N := Z.to_N (lr_leg_number r + 2 ^ 31).

Definition pg_list_legs (activity_id : uuid) : eff LegDb RecordedActivityError (list Leg) :=
  db ← get; mret (map into_leg (sort_by_key number_key (rows_of activity_id (legs_table db)))).

Definition pg_find_leg (id : uuid) : eff LegDb RecordedActivityError (option Leg) :=
  db ← get; mret (into_leg <$> legs_table db !! id).

Definition pg_save_leg (l : Leg) : eff LegDb RecordedActivityError unit :=
  db ← get;
  match legs_table db !! leg_id l with
  | Some _ => throw (Persistence unique_violation)
  | None => execute_sql (<[leg_id l := leg_row l]>)
  end.

Definition pg_update_leg (l : Leg) : eff LegDb RecordedActivityError unit :=
  execute_sql (alter (fun r => mkLegRow (lr_id r) (lr_activity_id r)
      (i32_of (Z.of_N (leg_number l))) (leg_title_str <$> leg_title l) (leg_date l)
      (leg_source_revision_id l) (leg_recorded_track_id l) (lr_created_at r)
      (leg_updated_at l)) (leg_id l)).

Definition pg_delete_leg (id : uuid) : eff LegDb RecordedActivityError unit :=
  execute_sql (delete id).

Definition max_number (rows : list LegRow) : option Z :=
  match rows with
  | [] => None
  | r :: rest => Some (fold_left (fun m r => Z.max m (lr_leg_number r)) rest (lr_leg_number r))
  end.

Definition pg_next_leg_number (activity_id : uuid) : eff LegDb RecordedActivityError N :=
  db ← get;
  mret (u32_wrap (u32_of (default 0%Z (max_number (rows_of activity_id (legs_table db)))) + 1)).

Definition set_number (now : datetime) (n : Z) (r : LegRow) : LegRow :=
  mkLegRow (lr_id r) (lr_activity_id r) n (lr_title r) (lr_date r) (lr_source_revision_id r)
    (lr_recorded_track_id r) (lr_created_at r) now.

(** [UPDATE .. SET leg_number = leg_number + delta WHERE activity_id = ..
    AND leg_number BETWEEN .. AND id != ..]. *)
Definition shift_numbers (now : datetime) (activity_id id : uuid) (lo hi delta : Z)
    (t : gmap N LegRow) : gmap N LegRow :=
  map_imap (fun j r => Some
    (if bool_decide (lr_activity_id r = activity_id) && (lo <=? lr_leg_number r)%Z
        && (lr_leg_number r <=? hi)%Z && negb (j =? id)%N
     then set_number now (lr_leg_number r + delta) r else r)) t.

Definition pg_reorder_legs (now : datetime) (activity_id id : uuid) (new_position : N)
    : eff LegDb RecordedActivityError unit :=
  o ← pg_find_leg id;
  current_leg ← lift (ok_or o (LegNotFound id));
  let old_pos := i32_of (Z.of_N (leg_number current_leg)) in
  let new_pos := i32_of (Z.of_N new_position) in
  if (old_pos =? new_pos)%Z then mret tt
  else
    (if (new_pos <? old_pos)%Z
     then execute_sql (shift_numbers now activity_id id new_pos (old_pos - 1) 1)
     else execute_sql (shift_numbers now activity_id id (old_pos + 1) new_pos (-1)));;
    execute_sql (alter (set_number now new_pos) id).

Definition pg_get_leg_summary (id : uuid) : eff LegDb RecordedActivityError (option LegSummary) :=
  db ← get;
  mret (r ← legs_table db !! id; track ← lr_recorded_track_id r;
        tr ← tracks_table db !! track;
        Some (mkLegSummary (default f64_zero (tr_distance_meters tr))
                (tr_elevation_gain_meters tr) (tr_elevation_loss_meters tr)
                (u32_of (default 0%Z (tr_point_count tr))) None)).

#[export] Instance PgLegRepository (now : datetime) : LegRepository LegDb := {|
  list_legs := pg_list_legs;
  find_leg := pg_find_leg;
  save_leg := pg_save_leg;
  update_leg := pg_update_leg;
  delete_leg := pg_delete_leg;
  next_leg_number := pg_next_leg_number;
  reorder_legs := pg_reorder_legs now;
  get_leg_summary := pg_get_leg_summary |}.
End postgres.
