(* ===== verification/LegTheory.v ===== *)
(** Properties of legs over the PostgreSQL repository: removal compacts the
    numbering and keeps the order, moving a leg next to others is refused by
    the database, and titles are canonical. *)
From stdpp Require Import sorting.
From S2P Require Import Prelude Float64 RustString RecordedActivity Sorting Legs.

(** ** Well-formed tables *)

Definition table_wf (t : gmap N LegRow) : Prop :=
  unique_ok t /\
  map_Forall (fun i r => lr_id r = i /\ (1 <= lr_leg_number r <= 30)%Z) t.

Lemma u32_of_small z : (0 <= z < 2 ^ 32)%Z -> u32_of z = Z.to_N z.
Proof. intros. unfold u32_of. by rewrite Z.mod_small. Qed.

Lemma i32_of_u32_of z : (0 <= z < 2 ^ 31)%Z -> i32_of (Z.of_N (u32_of z)) = z.
Proof. intros. rewrite u32_of_small by lia. rewrite Z2N.id by lia. by apply i32_of_small. Qed.

Lemma leg_of_row_number r :
  (1 <= lr_leg_number r <= 30)%Z -> Z.of_N (leg_number (into_leg r)) = lr_leg_number r.
Proof. intros. simpl. rewrite u32_of_small by lia. lia. Qed.

Lemma elem_of_rows a t r :
  r ∈ rows_of a t <-> lr_activity_id r = a /\ exists i, t !! i = Some r.
Proof.
  unfold rows_of. rewrite list_elem_of_filter, list_elem_of_fmap. f_equiv. split.
  - intros ([i r'] & -> & Hin). exists i. by apply elem_of_map_to_list in Hin.
  - intros [i Hi]. exists (i, r). split; [done|]. by apply elem_of_map_to_list.
Qed.

(** ** Moving a leg *)

(** A leg of the same activity stands where the shift has to write. *)
Lemma shift_collides now a id lo hi delta t j r m :
  t !! id = Some m -> t !! j = Some r -> j <> id ->
  lr_activity_id m = a -> lr_activity_id r = a ->
  (lo <= lr_leg_number r <= hi)%Z -> (lr_leg_number r + delta = lr_leg_number m)%Z ->
  ~ unique_ok (shift_numbers now a id lo hi delta t).
Proof.
  intros Hm Hr Hne Ha1 Ha2 Hrange Heq Hu.
  assert (shift_numbers now a id lo hi delta t !! id = Some m) as H1.
  { unfold shift_numbers. rewrite map_lookup_imap, Hm. simpl. rewrite N.eqb_refl.
    by rewrite !andb_false_r. }
  assert (shift_numbers now a id lo hi delta t !! j = Some (set_number now (lr_leg_number r + delta) r)) as H2.
  { unfold shift_numbers. rewrite map_lookup_imap, Hr. simpl.
    rewrite (bool_decide_eq_true_2 _ Ha2), (proj2 (Z.leb_le lo _)), (proj2 (Z.leb_le _ hi)) by lia.
    by rewrite (proj2 (N.eqb_neq j id)). }
  apply Hne. apply (Hu j _ H2 id _ H1). unfold leg_key. simpl. congruence.
Qed.

Lemma execute_sql_refused `{DbMessages} f db :
  ~ unique_ok (f (legs_table db)) ->
  execute_sql f db = (Err (Persistence unique_violation), db).
Proof. intros Hu. unfold execute_sql. run. by case_decide. Qed.

Lemma execute_sql_done `{DbMessages} f db :
  unique_ok (f (legs_table db)) ->
  execute_sql f db = (Ok tt, mkLegDb (f (legs_table db)) (tracks_table db)).
Proof. intros Hu. unfold execute_sql. run. by case_decide. Qed.

(** The leg between whose position and [p] the shift starts. *)
Definition neighbour (t : gmap N LegRow) (id : uuid) (m : LegRow) (p : N) : Prop :=
  exists j r, t !! j = Some r /\ j <> id /\ lr_activity_id r = lr_activity_id m /\
    lr_leg_number r = (if (Z.of_N p <? lr_leg_number m)%Z
                       then lr_leg_number m - 1 else lr_leg_number m + 1)%Z.

Lemma reorder_refused `{DbMessages} now t tracks id m p :
  table_wf t -> t !! id = Some m -> (1 <= p <= 30)%N -> Z.of_N p <> lr_leg_number m ->
  neighbour t id m p ->
  pg_reorder_legs now (lr_activity_id m) id p (mkLegDb t tracks) =
    (Err (Persistence unique_violation), mkLegDb t tracks).
Proof.
  intros [Hu Hall] Hm Hp Hne (j & r & Hr & Hj & Hact & Hnum).
  destruct (Hall id m Hm) as [_ Hmr].
  assert (i32_of (Z.of_N p) = Z.of_N p) as Hi by (apply i32_of_small; lia).
  unfold pg_reorder_legs, pg_find_leg. run. simpl. rewrite Hm. simpl.
  rewrite i32_of_u32_of, Hi by lia. rewrite (proj2 (Z.eqb_neq _ _)) by lia.
  destruct (Z.ltb_spec (Z.of_N p) (lr_leg_number m)).
  - rewrite execute_sql_refused; [done|]. simpl. by eapply (shift_collides now _ id _ _ _ t j r m); eauto; lia.
  - rewrite execute_sql_refused; [done|]. simpl. by eapply (shift_collides now _ id _ _ _ t j r m); eauto; lia.
Qed.

(** ** Removing a leg *)

(** The state of the renumbering loop: the rows of the activity are the ones
    already numbered, by position, and the ones of the legs still to do, which
    are in strictly increasing order past the numbers given out. *)
Record renumbering (a : uuid) (t : gmap N LegRow) (done : list uuid) (todo : list Leg) : Prop := {
  rn_wf : table_wf t;
  rn_done : forall j r, t !! j = Some r -> lr_activity_id r = a ->
    (exists i, done !! i = Some j /\ lr_leg_number r = Z.of_nat i + 1)%Z \/
    (exists l, l ∈ todo /\ leg_id l = j);
  rn_todo : forall l, l ∈ todo ->
    exists r, t !! leg_id l = Some r /\ lr_activity_id r = a /\
      lr_leg_number r = Z.of_N (leg_number l) /\ leg_activity_id l = a /\
      (Z.of_nat (length done) < Z.of_N (leg_number l) <= 30)%Z;
  rn_sorted : StronglySorted (fun x y => (leg_number x < leg_number y)%N) todo }.

Definition renumbered (now : datetime) (n : N) (l : Leg) (r : LegRow) : LegRow :=
  mkLegRow (lr_id r) (lr_activity_id r) (Z.of_N n) (leg_title_str <$> leg_title l) (leg_date l)
    (leg_source_revision_id l) (leg_recorded_track_id l) (lr_created_at r) now.


(** The number the loop gives out next is free. *)
Lemma next_number_free a t dn l rest j r :
  renumbering a t dn (l :: rest) -> t !! j = Some r -> j <> leg_id l -> lr_activity_id r = a ->
  (lr_leg_number r <> Z.of_nat (length dn) + 1)%Z.
Proof.
  intros [Hwf Hd Ht Hs] Hr Hne Ha. inversion Hs as [|? ? _ HF]; subst.
  destruct (Hd j r Hr eq_refl) as [(i & Hi & ->)|(l' & Hin & <-)].
  - apply lookup_lt_Some in Hi. lia.
  - apply elem_of_cons in Hin as [->|Hin]; [done|].
    destruct (Ht l') as (r' & Hr' & _ & Hn & _ & _); [by right|].
    destruct (Ht l) as (_ & _ & _ & _ & _ & Hl); [by left|].
    rewrite Forall_forall in HF. specialize (HF _ Hin). simplify_eq. lia.
Qed.

Lemma renumbering_write now a t dn l rest r :
  renumbering a t dn (l :: rest) -> t !! leg_id l = Some r ->
  let n := N.of_nat (S (length dn)) in
  table_wf (<[leg_id l := renumbered now n l r]> t) /\
  renumbering a (<[leg_id l := renumbered now n l r]> t) (dn ++ [leg_id l]) rest.
Proof.
  intros Hrn Hr n. pose proof (fun j r => next_number_free a t dn l rest j r Hrn) as Hfree.
  destruct Hrn as [[Hu Hall] Hd Ht Hs].
  destruct (Ht l) as (r0 & Hr0 & Hact & Hn & Hla & Hb); [by left|]. simplify_eq.
  destruct (Hall _ _ Hr) as [Hid Hrange].
  set (t' := <[leg_id l := renumbered now n l r]> t).
  assert (Hlook : forall j r', t' !! j = Some r' ->
    (j = leg_id l /\ r' = renumbered now n l r) \/ (j <> leg_id l /\ t !! j = Some r')).
  { intros j r'. unfold t'. rewrite lookup_insert_Some. naive_solver. }
  assert (table_wf t') as Hwf'.
  { split.
    - intros i ri Hi j rj Hj Hk. unfold leg_key in Hk.
      destruct (Hlook _ _ Hi) as [[-> ->]|[Hni Hi']], (Hlook _ _ Hj) as [[-> ->]|[Hnj Hj']];
        [done| | |exact (Hu i ri Hi' j rj Hj' Hk)]; simpl in Hk; injection Hk as Ha Hnum; exfalso.
      + apply (Hfree j rj Hj' Hnj); [congruence|unfold n in Hnum; lia].
      + apply (Hfree i ri Hi' Hni); [congruence|unfold n in Hnum; lia].
    - intros i ri Hi. destruct (Hlook _ _ Hi) as [[-> ->]|[_ Hi']]; [|by apply Hall].
      split; [done|]. simpl. unfold n. lia. }
  split; [done|]. apply StronglySorted_inv in Hs as [Hs HF]. rewrite Forall_forall in HF.
  split; [done| | |done].
  - intros j rj Hj Ha. destruct (Hlook _ _ Hj) as [[-> ->]|[Hnj Hj']].
    + left. exists (length dn). split; [|simpl; unfold n; lia].
      rewrite lookup_app_r, Nat.sub_diag by done. done.
    + destruct (Hd _ _ Hj' Ha) as [(i & Hi & Hnum)|(l' & Hin & <-)].
      * left. exists i. split; [|done]. by apply lookup_app_l_Some.
      * right. exists l'. split; [|done]. by apply elem_of_cons in Hin as [->|Hin].
  - intros l' Hin. destruct (Ht l') as (r' & Hr' & Ha' & Hn' & Hla' & Hb'); [by right|].
    specialize (HF _ Hin). exists r'. rewrite length_app. simpl. split_and!; try done; try lia.
    unfold t'. rewrite lookup_insert_ne; [done|]. intros He. rewrite He in Hr. simplify_eq. lia.
Qed.

(** A leg that already has the next number stays. *)
Lemma renumbering_keep a t dn l rest :
  renumbering a t dn (l :: rest) -> leg_number l = N.of_nat (S (length dn)) ->
  renumbering a t (dn ++ [leg_id l]) rest.
Proof.
  intros [Hwf Hd Ht Hs] Hn. destruct (Ht l) as (r & Hr & Hact & Hnum & _); [by left|].
  apply StronglySorted_inv in Hs as [Hs HF]. rewrite Forall_forall in HF. split; [done| | |done].
  - intros j rj Hj Ha. destruct (Hd _ _ Hj Ha) as [(i & Hi & Hi')|(l' & Hin & <-)].
    + left. exists i. split; [|done]. by apply lookup_app_l_Some.
    + apply elem_of_cons in Hin as [->|Hin]; [|right; by exists l'].
      left. exists (length dn). simplify_eq. split; [|lia].
      by rewrite lookup_app_r, Nat.sub_diag.
  - intros l' Hin. destruct (Ht l') as (r' & Hr' & Ha' & Hn' & Hla' & Hb'); [by right|].
    specialize (HF _ Hin). exists r'. rewrite length_app. simpl. split_and!; try done; lia.
Qed.

(** The same rows, those of other activities untouched. *)
Definition same_rows (a : uuid) (t t' : gmap N LegRow) : Prop :=
  forall j, (lr_activity_id <$> t' !! j = lr_activity_id <$> t !! j) /\
            (forall r, t !! j = Some r -> lr_activity_id r <> a -> t' !! j = Some r).

Lemma same_rows_trans a t1 t2 t3 : same_rows a t1 t2 -> same_rows a t2 t3 -> same_rows a t1 t3.
Proof.
  intros H1 H2 j. destruct (H1 j) as [E1 O1], (H2 j) as [E2 O2].
  split; [congruence|eauto].
Qed.

Lemma same_rows_renumbered now a t l n r :
  t !! leg_id l = Some r -> lr_activity_id r = a ->
  same_rows a t (<[leg_id l := renumbered now n l r]> t).
Proof.
  intros Hr Ha j. destruct (decide (j = leg_id l)) as [->|Hne].
  - rewrite lookup_insert_eq, Hr. split; [done|]. intros r' [= <-]. done.
  - by rewrite lookup_insert_ne.
Qed.

Section remove.
Context `{DbMessages}.

Lemma pg_update_leg_alter now l n t tracks r :
  t !! leg_id l = Some r -> (n <= 30)%N ->
  let l' := mkLeg (leg_id l) (leg_activity_id l) n (leg_title l) (leg_date l)
              (leg_source_revision_id l) (leg_recorded_track_id l) (leg_created_at l) now in
  let t' := <[leg_id l := renumbered now n l r]> t in
  unique_ok t' -> pg_update_leg l' (mkLegDb t tracks) = (Ok tt, mkLegDb t' tracks).
Proof.
  intros Hr Hn l' t' Hu. unfold pg_update_leg.
  match goal with |- context [execute_sql ?f] => set (g := f) end.
  assert (g t = t') as He.
  { unfold g, t', l'. cbn [leg_id leg_number leg_title leg_date leg_source_revision_id
      leg_recorded_track_id leg_updated_at]. apply map_eq. intros j. destruct (decide (j = leg_id l)) as [->|Hne].
    - rewrite lookup_alter_eq, lookup_insert_eq, Hr. simpl. unfold renumbered.
      by rewrite i32_of_small by lia.
    - by rewrite lookup_alter_ne, lookup_insert_ne by done. }
  rewrite execute_sql_done; simpl; by rewrite He.
Qed.

Lemma renumber_ok now a todo t tracks dn :
  renumbering a t dn todo -> length dn + length todo <= 30 ->
  exists t', renumber (H := PgLegRepository now) now (N.of_nat (length dn)) todo
               (mkLegDb t tracks) = (Ok tt, mkLegDb t' tracks) /\
    renumbering a t' (dn ++ map leg_id todo) [] /\ same_rows a t t'.
Proof.
  revert t dn. induction todo as [|l rest IH]; intros t dn Hrn Hlen.
  { exists t. rewrite app_nil_r. split_and!; try done. }
  destruct (rn_todo _ _ _ _ Hrn l) as (r & Hr & Hact & Hnum & Hla & Hb); [by left|].
  assert (u32_wrap (u32_wrap (N.of_nat (length dn)) + 1) = N.of_nat (S (length dn))) as Hn.
  { simpl in Hlen. unfold u32_wrap, u32_modulus.
    rewrite !N.mod_small by (rewrite ?N.mod_small by lia; lia). lia. }
  assert (exists t1, (if negb (leg_number l =? N.of_nat (S (length dn)))%N
      then leg ← lift (update_leg_number now (N.of_nat (S (length dn))) l); pg_update_leg leg
      else mret tt) (mkLegDb t tracks) = (Ok tt, mkLegDb t1 tracks) /\
      renumbering a t1 (dn ++ [leg_id l]) rest /\ same_rows a t t1) as (t1 & Hrun & Hrn1 & Hsame).
  { destruct (renumbering_write now a t dn l rest r Hrn Hr) as [[Hu' _] Hrn'].
    destruct (N.eqb_spec (leg_number l) (N.of_nat (S (length dn)))) as [He|Hne]; simpl negb.
    - exists t. split_and!; [done| |done]. by apply (renumbering_keep a t dn l rest).
    - eexists. split_and!; [|exact Hrn'|].
      + unfold update_leg_number, check_leg_number.
        rewrite (proj2 (N.ltb_ge _ 1)), (proj2 (N.ltb_ge MAX_LEGS_PER_ACTIVITY _))
          by (unfold MAX_LEGS_PER_ACTIVITY; simpl in Hlen; lia).
        run. apply pg_update_leg_alter; [done|simpl in Hlen; lia|done].
      + by apply (same_rows_renumbered _ _ _ _ _ r). }
  destruct (IH t1 (dn ++ [leg_id l]) Hrn1) as (t' & Hrest & Hrn' & Hsame').
  { rewrite length_app. simpl in *. lia. }
  exists t'. rewrite <- app_assoc in Hrn'. split_and!; [|done|by eapply same_rows_trans].
  cbn [renumber]. rewrite Hn. etransitivity; [apply (eff_bind_ok _ _ _ _ _ Hrun)|].
  rewrite length_app in Hrest. simpl in Hrest.
  replace (N.of_nat (length dn) + 1)%N with (N.of_nat (length dn + 1)) by lia. done.
Qed.

Lemma delete_wf t id : table_wf t -> table_wf (delete id t).
Proof.
  intros [Hu Hall]. split.
  - intros i r Hi j r' Hj Hk. apply lookup_delete_Some in Hi as [_ Hi], Hj as [_ Hj].
    exact (Hu i r Hi j r' Hj Hk).
  - intros i r Hi. apply lookup_delete_Some in Hi as [_ Hi]. by apply Hall.
Qed.

Lemma rows_NoDup a t : table_wf t -> NoDup (rows_of a t).
Proof.
  intros [_ Hall]. apply NoDup_filter. apply (NoDup_fmap_2_strong snd).
  - intros [i r] [j r'] Hi Hj E. simpl in E. subst r'.
    apply elem_of_map_to_list in Hi, Hj.
    destruct (Hall _ _ Hi) as [<- _], (Hall _ _ Hj) as [<- _]. done.
  - apply NoDup_map_to_list.
Qed.

(** The legs the loop starts with. *)
Definition legs_in_order (a : uuid) (t : gmap N LegRow) : list Leg :=
  sort_by_key leg_number (map into_leg (sort_by_key number_key (rows_of a t))).

Lemma elem_of_legs_in_order a t l :
  l ∈ legs_in_order a t <->
  exists r j, t !! j = Some r /\ lr_activity_id r = a /\ l = into_leg r.
Proof.
  unfold legs_in_order. rewrite sort_by_key_perm, list_elem_of_fmap. split.
  - intros (r & -> & Hr). rewrite sort_by_key_perm, elem_of_rows in Hr. naive_solver.
  - intros (r & j & Hj & Ha & ->). exists r. rewrite sort_by_key_perm, elem_of_rows. eauto.
Qed.

Lemma renumbering_start a t : table_wf t -> renumbering a t [] (legs_in_order a t).
Proof.
  intros Hwf. pose proof (rows_NoDup a t Hwf) as Hnd. destruct Hwf as [Hu Hall].
  assert (Hsame : forall r r' i j, t !! i = Some r -> t !! j = Some r' ->
    lr_id r = lr_id r' -> r = r').
  { intros r r' i j Hi Hj E. destruct (Hall _ _ Hi) as [<- _], (Hall _ _ Hj) as [<- _].
    rewrite E in Hi. congruence. }
  split; [done| | |].
  - intros j r Hj Ha. right. exists (into_leg r). split; [|by apply Hall in Hj as [? _]].
    apply elem_of_legs_in_order. by exists r, j.
  - intros l (r & j & Hj & Ha & ->)%elem_of_legs_in_order. destruct (Hall _ _ Hj) as [Hid Hr].
    exists r. rewrite leg_of_row_number by done. simpl. rewrite Hid. split_and!; try done; lia.
  - apply sorted_strict; [apply sort_by_key_sorted| |].
    + unfold legs_in_order. rewrite sort_by_key_perm.
      apply (NoDup_fmap_2_strong into_leg); [|by rewrite sort_by_key_perm].
      intros r r'. rewrite !sort_by_key_perm, !elem_of_rows.
      intros (_ & i & Hi) (_ & j & Hj) E. apply (Hsame r r' i j Hi Hj). by injection E.
    + intros l l' (r & i & Hi & Ha & ->)%elem_of_legs_in_order
        (r' & j & Hj & Ha' & ->)%elem_of_legs_in_order E.
      destruct (Hall _ _ Hi) as [<- Hr], (Hall _ _ Hj) as [<- Hr'].
      apply (f_equal Z.of_N) in E. rewrite !leg_of_row_number in E by done. f_equal.
      eapply Hsame; [done..|]. apply (Hu _ _ Hi _ _ Hj). unfold leg_key. congruence.
Qed.

Lemma legs_count a t :
  table_wf t -> length (legs_in_order a t) <= 30.
Proof.
  intros Hwf. destruct (renumbering_start a t Hwf) as [_ _ Ht Hs].
  set (l := legs_in_order a t) in *.
  assert (forall x y, (forall z, z ∈ y -> (x < leg_number z <= 30)%N) ->
    StronglySorted (fun x y => (leg_number x < leg_number y)%N) y ->
    (N.of_nat (length y) <= 30 - x)%N) as Hlen.
  { intros x y. revert x. induction y as [|z y IH]; intros x Hy Hsy; [simpl; lia|].
    apply StronglySorted_inv in Hsy as [Hsy HF]. rewrite Forall_forall in HF.
    assert (x < leg_number z <= 30)%N by (apply Hy; left).
    assert (N.of_nat (length y) <= 30 - leg_number z)%N; [|simpl; lia].
    apply IH; [|done]. intros w Hw. split; [by apply HF|apply Hy; by right]. }
  specialize (Hlen 0%N l). rewrite N.sub_0_r in Hlen. assert (N.of_nat (length l) <= 30)%N; [|lia].
  apply Hlen; [|done]. intros z Hz. destruct (Ht z Hz) as (r & _ & _ & _ & _ & Hb). simpl in Hb. lia.
Qed.
End remove.

(** ** Properties *)

(** The outcome of a removal: nothing of the other activities changed, the leg
    is gone, and the rest of the activity is numbered 1, 2, .. in [order],
    which is the order of the old numbers. *)
Definition compacted (a id : uuid) (t t' : gmap N LegRow) (order : list uuid) : Prop :=
  t' !! id = None /\
  (forall j r, t !! j = Some r -> lr_activity_id r <> a -> t' !! j = Some r) /\
  (forall j, j ∈ order <-> j <> id /\ exists r, t !! j = Some r /\ lr_activity_id r = a) /\
  (forall j r, t' !! j = Some r -> lr_activity_id r = a ->
     exists i, order !! i = Some j /\ lr_leg_number r = (Z.of_nat i + 1)%Z) /\
  (forall j, j ∈ order -> exists r, t' !! j = Some r /\ lr_activity_id r = a) /\
  (forall i k j j' r r', i < k -> order !! i = Some j -> order !! k = Some j' ->
     t !! j = Some r -> t !! j' = Some r' -> (lr_leg_number r < lr_leg_number r')%Z).

Lemma remove_leg_compacts `{DbMessages} now t tracks id m :
  table_wf t -> t !! id = Some m ->
  exists t' order,
    remove_leg (H := PgLegRepository now) now id (mkLegDb t tracks) = (Ok tt, mkLegDb t' tracks) /\
    table_wf t' /\ compacted (lr_activity_id m) id t t' order.
Proof.
  intros Hwf Hm. set (a := lr_activity_id m). set (t1 := delete id t).
  pose proof (delete_wf t id Hwf) as Hwf1. fold t1 in Hwf1.
  pose proof (renumbering_start a t1 Hwf1) as Hst.
  pose proof (legs_count a t1 Hwf1) as Hcnt.
  destruct (renumber_ok now a _ t1 tracks [] Hst) as (t' & Hrun & Hend & Hsame); [done|].
  exists t', (map leg_id (legs_in_order a t1)). split_and!.
  - unfold remove_leg, load_leg. simpl find_leg. unfold pg_find_leg. run. simpl.
    rewrite Hm. simpl. unfold pg_delete_leg. rewrite execute_sql_done by (simpl; apply Hwf1).
    simpl. exact Hrun.
  - apply Hend.
  - assert (Hdom : forall j, lr_activity_id <$> t' !! j = lr_activity_id <$> t1 !! j)
      by (intros j; apply Hsame).
    unfold compacted. simpl in Hend. split_and!.
    + specialize (Hdom id). unfold t1 in Hdom. rewrite lookup_delete_eq in Hdom.
      by apply fmap_None in Hdom.
    + intros j r Hj Ha. apply Hsame; [|done]. unfold t1. rewrite lookup_delete_ne; [done|].
      intros <-. by simplify_eq.
    + intros j. rewrite list_elem_of_fmap. setoid_rewrite elem_of_legs_in_order. unfold t1.
      setoid_rewrite lookup_delete_Some. destruct Hwf as [_ Hall]. split.
      * intros (l & -> & r & k & [Hne Hj] & Ha & ->). simpl.
        destruct (Hall _ _ Hj) as [-> _]. eauto.
      * intros (Hne & r & Hj & Ha). exists (into_leg r). simpl.
        destruct (Hall _ _ Hj) as [-> _]. split; [done|]. by exists r, j.
    + intros j r Hj Ha. destruct (rn_done _ _ _ _ Hend j r Hj Ha) as [?|(l & Hl & _)]; [done|].
      by apply elem_of_nil in Hl.
    + intros j Hj. apply list_elem_of_fmap in Hj as (l & -> & Hl).
      destruct (rn_todo _ _ _ _ Hst l Hl) as (r & Hr & Ha & _).
      specialize (Hdom (leg_id l)). rewrite Hr in Hdom. simpl in Hdom.
      apply fmap_Some in Hdom as (r' & Hr' & E). exists r'. split; [done|congruence].
    + intros i k j j' r r' Hik Hi Hk Hj Hj'.
      rewrite list_lookup_fmap in Hi, Hk. apply fmap_Some in Hi as (l & Hi & ->), Hk as (l' & Hk & ->).
      pose proof (rn_sorted _ _ _ _ Hst) as Hs.
      assert (leg_number l < leg_number l')%N.
      { refine (StronglySorted_lookup _ _ i k l l' Hs Hik Hi Hk). }
      apply list_elem_of_lookup_2 in Hi, Hk.
      destruct (rn_todo _ _ _ _ Hst l Hi) as (q & Hq & _ & Hn & _).
      destruct (rn_todo _ _ _ _ Hst l' Hk) as (q' & Hq' & _ & Hn' & _).
      apply lookup_delete_Some in Hq as [_ Hq], Hq' as [_ Hq']. simplify_eq. lia.
Qed.

Definition day (n : uuid) (k : Z) : LegRow := mkLegRow n 7 k None 0 None None 0 0.
Definition three_days : gmap N LegRow := {[ 1%N := day 1 1; 2%N := day 2 2; 3%N := day 3 3 ]}.
#[local] Instance db_texts : DbMessages := lit "duplicate key value violates unique constraint".

Lemma three_days_wf : table_wf three_days.
Proof.
  split; [apply (bool_decide_unpack _); by vm_compute|].
  unfold three_days. repeat (apply map_Forall_insert_2; [by simpl|]). apply map_Forall_empty.
Qed.

(** Removing a leg compacts the numbering.  On any well-formed table of
    the repository the command succeeds; the leg is gone, the legs of other
    activities are untouched, and the legs left of the activity carry the
    numbers 1, 2, .. without gap, in the order of their old numbers.  No
    intermediate update violates the uniqueness of numbers. *)
Theorem remove_leg_renumbers `{DbMessages} now t tracks id m :
  table_wf t -> t !! id = Some m ->
  exists t' order,
    remove_leg (H := PgLegRepository now) now id (mkLegDb t tracks) = (Ok tt, mkLegDb t' tracks) /\
    table_wf t' /\ compacted (lr_activity_id m) id t t' order.
Proof. apply remove_leg_compacts. Qed.

Lemma remove_leg_renumbers_witness :
  exists t' order,
    remove_leg (H := PgLegRepository 9) 9 1 (mkLegDb three_days ∅) = (Ok tt, mkLegDb t' ∅) /\
    table_wf t' /\ compacted 7 1 three_days t' order.
Proof. apply (remove_leg_renumbers 9 three_days ∅ 1 (day 1 1)); [apply three_days_wf|done]. Defined.

(** Moving a leg within a contiguous activity never works against this
    schema.  As soon as a leg of the activity stands next to the moved one on
    the side it is to move to, the first UPDATE would put it on the number the
    moved leg still holds, the uniqueness constraint refuses the statement, and
    the command ends in a persistence error with the table unchanged. *)
Theorem reorder_leg_refused `{DbMessages} now t tracks id m p :
  table_wf t -> t !! id = Some m -> (1 <= p <= 30)%N -> Z.of_N p <> lr_leg_number m ->
  neighbour t id m p ->
  reorder_leg (H := PgLegRepository now) id p (mkLegDb t tracks) =
    (Err (Persistence unique_violation), mkLegDb t tracks).
Proof.
  intros Hwf Hm Hp Hne Hnb. pose proof (reorder_refused now t tracks id m p Hwf Hm Hp Hne Hnb) as Hr.
  unfold reorder_leg, load_leg. simpl find_leg. unfold pg_find_leg. run. simpl guard_err.
  rewrite (proj2 (N.ltb_ge p 1)), (proj2 (N.ltb_ge MAX_LEGS_PER_ACTIVITY p))
    by (unfold MAX_LEGS_PER_ACTIVITY; lia).
  simpl. rewrite Hm. simpl. exact Hr.
Qed.

Lemma reorder_leg_refused_witness :
  reorder_leg (H := PgLegRepository 9) 3 1 (mkLegDb three_days ∅) =
    (Err (Persistence unique_violation), mkLegDb three_days ∅).
Proof.
  apply (reorder_leg_refused 9 three_days ∅ 3 (day 3 3)); [apply three_days_wf|done|done|done|].
  by exists 2%N, (day 2 2).
Defined.
