(* ===== verification/Base64.v ===== *)
(** The base64 of crates/app/src/activity_catalog/queries.rs: the streaming
    encoder and the bit-accumulating decoder behind opaque cursors. *)
From S2P Require Import Prelude RustString RustVec Utf8.

Definition BASE64_CHARS : bytes :=
  as_bytes (lit "ABCDEFGHIJKLMNOPQRSTUVWXYZabcdefghijklmnopqrstuvwxyz0123456789+/").

(** [BASE64_CHARS\[i\]]; the indices are always below 64. *)
Definition base64_char (i : N) : byte := nth (N.to_nat i) BASE64_CHARS 0%N.

(** ** Encoder *)

(** [struct Base64Encoder]: the output, the three-byte buffer and how much of
    it is filled. *)
Record Base64Encoder := mkEncoder {
  be_output : bytes; be_b0 : byte; be_b1 : byte; be_b2 : byte; be_len : N }.

Definition new_encoder : Base64Encoder := mkEncoder [] 0 0 0 0.

Definition index0 (b0 : byte) : N := N.shiftr b0 2.
Definition index1_last (b0 : byte) : N := N.shiftl (N.land b0 3) 4.
Definition index1 (b0 b1 : byte) : N := N.lor (N.shiftl (N.land b0 3) 4) (N.shiftr b1 4).
Definition index2_last (b1 : byte) : N := N.shiftl (N.land b1 15) 2.
Definition index2 (b1 b2 : byte) : N := N.lor (N.shiftl (N.land b1 15) 2) (N.shiftr b2 6).
Definition index3 (b2 : byte) : N := N.land b2 63.

Definition pad_byte : byte := 61.

Definition encode_block (e : Base64Encoder) : Base64Encoder :=
  let b0 := be_b0 e in let b1 := be_b1 e in let b2 := be_b2 e in
  match be_len e with
  | 1%N => mkEncoder (be_output e ++ [base64_char (index0 b0); base64_char (index1_last b0);
                                      pad_byte; pad_byte]) b0 b1 b2 1
  | 2%N => mkEncoder (be_output e ++ [base64_char (index0 b0); base64_char (index1 b0 b1);
                                      base64_char (index2_last b1); pad_byte]) b0 b1 b2 2
  | 3%N => mkEncoder (be_output e ++ [base64_char (index0 b0); base64_char (index1 b0 b1);
                                      base64_char (index2 b1 b2); base64_char (index3 b2)])
             b0 b1 b2 0
  | _ => e
  end.

(** [self.buffer\[self.buffer_len\] = byte; self.buffer_len += 1; ..]. *)
Definition write_byte (e : Base64Encoder) (b : byte) : Base64Encoder :=
  let e := match be_len e with
           | 0%N => mkEncoder (be_output e) b (be_b1 e) (be_b2 e) 1
           | 1%N => mkEncoder (be_output e) (be_b0 e) b (be_b2 e) 2
           | _ => mkEncoder (be_output e) (be_b0 e) (be_b1 e) b 3
           end in
  if (be_len e =? 3)%N then encode_block e else e.

Definition write_all (buf : bytes) (e : Base64Encoder) : Base64Encoder :=
  fold_left write_byte buf e.

Definition finish (e : Base64Encoder) : bytes :=
  be_output (if (0 <? be_len e)%N then encode_block e else e).

(** [String::from_utf8(buf).unwrap()]: the output is ASCII. *)
Definition base64_encode (input : rstr) : result rstr rstr :=
  match from_utf8 (finish (write_all (as_bytes input) new_encoder)) with
  | Some s => Ok s
  | None => Panicked
  end.

(** ** Decoder *)

Definition char_value (c : rchar) : option N :=
  (if (65 <=? c) && (c <=? 90) then Some (c - 65)
   else if (97 <=? c) && (c <=? 122) then Some (c - 97 + 26)
   else if (48 <=? c) && (c <=? 57) then Some (c - 48 + 52)
   else if c =? 43 then Some 62
   else if c =? 47 then Some 63
   else None)%N.

Record Decoder := mkDecoder { de_output : bytes; de_buffer : N; de_bits : N }.

Definition decode_step (d : Decoder) (val : N) : Decoder :=
  let buffer := N.lor (u32_wrap (N.shiftl (de_buffer d) 6)) val in
  let bits := (de_bits d + 6)%N in
  if (8 <=? bits)%N then
    let bits := (bits - 8)%N in
    mkDecoder (de_output d ++ [(N.shiftr buffer bits mod 256)%N])
      (N.land buffer (N.shiftl 1 bits - 1)) bits
  else mkDecoder (de_output d) buffer bits.

Fixpoint decode_chars (cs : rstr) (d : Decoder) : result rstr Decoder :=
  match cs with
  | [] => Ok d
  | c :: rest =>
      val ← ok_or (char_value c) (lit "invalid base64 character");
      decode_chars rest (decode_step d val)
  end.

Definition base64_decode_bytes (input : rstr) : result rstr bytes :=
  d ← decode_chars (trim_end_matches (fun c => (c =? 61)%N) input) (mkDecoder [] 0 0);
  mret (de_output d).

Definition base64_decode (input : rstr) : result rstr rstr :=
  bs ← base64_decode_bytes input;
  ok_or (from_utf8 bs) (lit "invalid utf8").

Example base64_1 : base64_encode (lit "hiking") = Ok (lit "aGlraW5n").
Proof. vm_compute. reflexivity. Qed.
Example base64_2 : base64_encode (lit "hike") = Ok (lit "aGlrZQ==") /\
  base64_decode (lit "aGlrZQ==") = Ok (lit "hike").
Proof. vm_compute. split; reflexivity. Qed.

(** ** The bit operations as arithmetic *)

Lemma lor_add a b k : (b < 2 ^ k)%N -> N.lor (a * 2 ^ k) b = (a * 2 ^ k + b)%N.
Proof.
  intros Hb. rewrite <- N.lxor_lor, N.add_nocarry_lxor; [done| |];
  apply N.bits_inj; intros n; rewrite N.land_spec, N.bits_0;
    (destruct (N.lt_ge_cases n k) as [Hn|Hn];
     [by rewrite N.mul_pow2_bits_low|
      rewrite <- (N.mod_small b (2 ^ k)), N.mod_pow2_bits_high by done; apply andb_false_r]).
Qed.

Lemma index0_eq b0 : index0 b0 = (b0 / 4)%N.
Proof. apply (N.shiftr_div_pow2 b0 2). Qed.
Lemma index1_last_eq b0 : index1_last b0 = (b0 mod 4 * 16)%N.
Proof. unfold index1_last. change 3%N with (N.ones 2). rewrite N.land_ones. apply (N.shiftl_mul_pow2 _ 4). Qed.
Lemma index1_eq b0 b1 : (b1 < 256)%N -> index1 b0 b1 = (b0 mod 4 * 16 + b1 / 16)%N.
Proof.
  intros H. unfold index1. fold (index1_last b0). rewrite index1_last_eq, (N.shiftr_div_pow2 b1 4).
  apply (lor_add _ _ 4). apply N.Div0.div_lt_upper_bound. done.
Qed.
Lemma index2_last_eq b1 : index2_last b1 = (b1 mod 16 * 4)%N.
Proof. unfold index2_last. change 15%N with (N.ones 4). rewrite N.land_ones. apply (N.shiftl_mul_pow2 _ 2). Qed.
Lemma index2_eq b1 b2 : (b2 < 256)%N -> index2 b1 b2 = (b1 mod 16 * 4 + b2 / 64)%N.
Proof.
  intros H. unfold index2. fold (index2_last b1). rewrite index2_last_eq, (N.shiftr_div_pow2 b2 6).
  apply (lor_add _ _ 2). apply N.Div0.div_lt_upper_bound. done.
Qed.
Lemma index3_eq b2 : index3 b2 = (b2 mod 64)%N.
Proof. apply (N.land_ones b2 6). Qed.

(** One turn of the decoder, for a buffer that holds fewer than eight bits. *)
Lemma decode_step_eq d v :
  (de_bits d < 8)%N -> (de_buffer d < 2 ^ de_bits d)%N -> (v < 64)%N ->
  decode_step d v =
    let buffer := (de_buffer d * 64 + v)%N in
    if (2 <=? de_bits d)%N then
      mkDecoder (de_output d ++ [(buffer / 2 ^ (de_bits d - 2)) mod 256])%N
        (buffer mod 2 ^ (de_bits d - 2)) (de_bits d - 2)
    else mkDecoder (de_output d) buffer (de_bits d + 6).
Proof.
  intros Hb Hbuf Hv. unfold decode_step.
  assert (2 ^ de_bits d <= 2 ^ 7)%N by (apply N.pow_le_mono_r; lia).
  change (2 ^ 7)%N with 128%N in *.
  rewrite (N.shiftl_mul_pow2 _ 6). change (2 ^ 6)%N with 64%N.
  unfold u32_wrap, u32_modulus. rewrite (N.mod_small (de_buffer d * 64)) by lia.
  rewrite (lor_add _ v 6) by done. change (2 ^ 6)%N with 64%N. cbv zeta.
  destruct (N.leb_spec 2 (de_bits d)).
  - rewrite (proj2 (N.leb_le 8 _)) by lia. replace (de_bits d + 6 - 8)%N with (de_bits d - 2)%N by lia.
    rewrite N.shiftr_div_pow2. f_equal. rewrite <- N.land_ones. f_equal.
    unfold N.ones. apply N.sub_1_r.
  - by rewrite (proj2 (N.leb_gt 8 _)) by lia.
Qed.

(** ** Round trip *)

Definition is_byte (b : byte) : Prop := (b < 256)%N.

Definition bytes_below (n : N) : list N := map N.of_nat (seq 0 (N.to_nat n)).

Lemma elem_of_bytes_below i n : (i < n)%N -> i ∈ bytes_below n.
Proof.
  intros H. apply list_elem_of_fmap. exists (N.to_nat i). split; [lia|]. apply elem_of_seq. lia.
Qed.

(** The decoder reads every character of the alphabet as its index. *)
Lemma char_value_base64_char i : (i < 64)%N -> char_value (base64_char i) = Some i.
Proof.
  intros H. apply elem_of_bytes_below in H. revert i H. apply Forall_forall.
  apply (bool_decide_unpack _). vm_compute. done.
Qed.

Lemma base64_char_not_pad i : (i < 64)%N -> (base64_char i =? 61)%N = false.
Proof.
  intros H. apply elem_of_bytes_below in H. revert i H. apply Forall_forall.
  apply (bool_decide_unpack _). vm_compute. done.
Qed.

Lemma base64_char_ascii i : (i < 64)%N -> (base64_char i < 128)%N.
Proof.
  intros H. apply elem_of_bytes_below in H. revert i H. apply Forall_forall.
  apply (bool_decide_unpack _). vm_compute. done.
Qed.

(** The sextets of a byte string, padding left out. *)
Fixpoint sextets (bs : bytes) : list N :=
  match bs with
  | b0 :: b1 :: b2 :: rest =>
      (b0 / 4)%N :: (b0 mod 4 * 16 + b1 / 16)%N :: (b1 mod 16 * 4 + b2 / 64)%N :: (b2 mod 64)%N
      :: sextets rest
  | [b0; b1] => [(b0 / 4)%N; (b0 mod 4 * 16 + b1 / 16)%N; (b1 mod 16 * 4)%N]
  | [b0] => [(b0 / 4)%N; (b0 mod 4 * 16)%N]
  | [] => []
  end.

Definition padding (bs : bytes) : bytes :=
  match (length bs mod 3)%nat with 1 => [pad_byte; pad_byte] | 2 => [pad_byte] | _ => [] end.

(** Induction in steps of three. *)
Lemma three_ind (P : bytes -> Prop) :
  P [] -> (forall a, P [a]) -> (forall a b, P [a; b]) ->
  (forall a b c l, P l -> P (a :: b :: c :: l)) -> forall l, P l.
Proof.
  intros H0 H1 H2 H3 l. assert (P l /\ (forall a, P (a :: l)) /\ (forall a b, P (a :: b :: l))) as [? _];
    [|done]. induction l as [|x l (IH0 & IH1 & IH2)]; [done|]. split_and!; eauto.
Qed.

Lemma sextets_bound bs : Forall is_byte bs -> Forall (fun v => (v < 64)%N) (sextets bs).
Proof.
  unfold is_byte. induction bs as [|a|a b|a b c l IH] using three_ind; rewrite ?Forall_cons;
    intros Hb; simpl; repeat constructor; try lia. apply IH. naive_solver.
Qed.

Lemma padding_three a b c l : padding (a :: b :: c :: l) = padding l.
Proof.
  unfold padding. cbn [length]. replace (S (S (S (length l)))) with (length l + 1 * 3)%nat by lia.
  by rewrite Nat.Div0.mod_add.
Qed.

Lemma encode_bytes bs out x1 x2 x3 :
  Forall is_byte bs ->
  finish (write_all bs (mkEncoder out x1 x2 x3 0)) =
    out ++ map base64_char (sextets bs) ++ padding bs.
Proof.
  revert out x1 x2 x3. unfold is_byte.
  induction bs as [|a|a b|a b c l IH] using three_ind; intros out x1 x2 x3;
    rewrite ?Forall_cons; intros Hb; cbn [write_all fold_left].
  - by rewrite app_nil_r.
  - cbn. by rewrite index0_eq, index1_last_eq.
  - cbn. rewrite index0_eq, index1_eq, index2_last_eq by tauto. done.
  - rewrite padding_three. change (fold_left write_byte l ?e) with (write_all l e).
    cbn [write_byte be_len be_output be_b0 be_b1 be_b2 N.eqb encode_block Pos.eqb].
    rewrite IH by tauto. rewrite index0_eq, index1_eq, index2_eq, index3_eq by tauto.
    by rewrite <- app_assoc.
Qed.

Lemma decode_step0 out v : (v < 64)%N -> decode_step (mkDecoder out 0 0) v = mkDecoder out v 6.
Proof. intros. by rewrite decode_step_eq. Qed.

Lemma decode_step6 out buf v : (buf < 64)%N -> (v < 64)%N ->
  decode_step (mkDecoder out buf 6) v =
    mkDecoder (out ++ [((buf * 64 + v) / 16) mod 256])%N ((buf * 64 + v) mod 16) 4.
Proof. intros. by rewrite decode_step_eq. Qed.

Lemma decode_step4 out buf v : (buf < 16)%N -> (v < 64)%N ->
  decode_step (mkDecoder out buf 4) v =
    mkDecoder (out ++ [((buf * 64 + v) / 4) mod 256])%N ((buf * 64 + v) mod 4) 2.
Proof. intros. by rewrite decode_step_eq. Qed.

Lemma decode_step2 out buf v : (buf < 4)%N -> (v < 64)%N ->
  decode_step (mkDecoder out buf 2) v = mkDecoder (out ++ [(buf * 64 + v) mod 256])%N 0 0.
Proof. intros. rewrite decode_step_eq by done. simpl. by rewrite N.div_1_r, N.mod_1_r. Qed.

Lemma div64 a b : (b < 64)%N -> ((a * 64 + b) / 64 = a)%N /\ ((a * 64 + b) mod 64 = b)%N.
Proof. intros. lia. Qed.

(** The first byte of a group, and what is left in the buffer. *)
Lemma decode_first a b out :
  is_byte a -> is_byte b ->
  fold_left decode_step [(a / 4)%N; (a mod 4 * 16 + b / 16)%N] (mkDecoder out 0 0) =
    mkDecoder (out ++ [a]) (b / 16) 4.
Proof.
  unfold is_byte. intros Ha Hb. cbn [fold_left].
  rewrite decode_step0, decode_step6 by lia.
  assert ((a / 4 * 64 + (a mod 4 * 16 + b / 16)) / 16 = a)%N as -> by lia.
  assert ((a / 4 * 64 + (a mod 4 * 16 + b / 16)) mod 16 = b / 16)%N as -> by lia.
  by rewrite N.mod_small.
Qed.

Lemma decode_second b c out :
  is_byte b -> is_byte c ->
  decode_step (mkDecoder out (b / 16) 4) (b mod 16 * 4 + c / 64) = mkDecoder (out ++ [b]) (c / 64) 2.
Proof.
  unfold is_byte. intros Hb Hc. rewrite decode_step4 by lia.
  assert ((b / 16 * 64 + (b mod 16 * 4 + c / 64)) / 4 = b)%N as -> by lia.
  assert ((b / 16 * 64 + (b mod 16 * 4 + c / 64)) mod 4 = c / 64)%N as -> by lia.
  by rewrite N.mod_small.
Qed.

Lemma decode_third c out :
  is_byte c -> decode_step (mkDecoder out (c / 64) 2) (c mod 64) = mkDecoder (out ++ [c]) 0 0.
Proof.
  unfold is_byte. intros Hc. rewrite decode_step2 by lia.
  assert (c / 64 * 64 + c mod 64 = c)%N as -> by lia. by rewrite N.mod_small.
Qed.

Lemma decode_sextets bs out :
  Forall is_byte bs ->
  de_output (fold_left decode_step (sextets bs) (mkDecoder out 0 0)) = out ++ bs.
Proof.
  assert (is_byte 0) as H0 by done.
  revert out. induction bs as [|a|a b|a b c l IH] using three_ind; intros out;
    rewrite ?Forall_cons; intros Hb; cbn [sextets].
  - by rewrite app_nil_r.
  - pose proof (decode_first a 0 out) as H. rewrite N.add_0_r in H. rewrite H by tauto. done.
  - destruct Hb as (Ha & Hb & _). pose proof (decode_first a b out Ha Hb) as H.
    cbn [fold_left] in *. rewrite H. pose proof (decode_second b 0 (out ++ [a]) Hb H0) as H'.
    rewrite N.add_0_r in H'. rewrite H'. by rewrite <- app_assoc.
  - destruct Hb as (Ha & Hb & Hc & Hl). pose proof (decode_first a b out Ha Hb) as H.
    cbn [fold_left] in *. rewrite H, decode_second, decode_third by done.
    rewrite IH by done. by rewrite <- !app_assoc.
Qed.

Lemma decode_chars_eq vs d :
  Forall (fun v => (v < 64)%N) vs ->
  decode_chars (map base64_char vs) d = Ok (fold_left decode_step vs d).
Proof.
  intros H. revert d. induction H as [|v vs Hv _ IH]; intros d; simpl; [done|].
  rewrite char_value_base64_char by done. simpl. apply IH.
Qed.

(** Characters of the alphabet survive UTF-8 and the trimming of padding. *)
Lemma as_bytes_ascii s : Forall (fun c => (c < 128)%N) s -> as_bytes s = s.
Proof.
  unfold as_bytes. induction 1 as [|c s Hc _ IH]; [done|]. simpl. rewrite IH.
  unfold encode_char. by rewrite (proj2 (N.ltb_lt c 128)).
Qed.

Lemma ascii_valid s : Forall (fun c => (c < 128)%N) s -> valid_str s.
Proof.
  intros H. eapply Forall_impl; [exact H|]. intros c Hc. unfold is_scalar.
  by rewrite (proj2 (N.ltb_lt c 55296)) by (simpl in Hc; lia).
Qed.

Lemma drop_while_all p s : forallb p s = true -> forall t, drop_while p (s ++ t) = drop_while p t.
Proof. induction s as [|c s IH]; simpl; [done|]. intros [-> H]%andb_true_iff t. by apply IH. Qed.

Lemma drop_while_none p c s : p c = false -> drop_while p (c :: s) = c :: s.
Proof. intros H. simpl. by rewrite H. Qed.

Lemma trim_padding s pad :
  Forall (fun c => (c =? 61)%N = false) s -> forallb (fun c => c =? 61)%N pad = true ->
  trim_end_matches (fun c => (c =? 61)%N) (s ++ pad) = s.
Proof.
  intros Hs Hp. unfold trim_end_matches. rewrite reverse_app, drop_while_all.
  - destruct s as [|c s _] using rev_ind; [done|]. rewrite reverse_snoc, drop_while_none.
    + rewrite <- reverse_snoc. apply reverse_involutive.
    + apply Forall_app in Hs as [_ Hs]. by inversion Hs.
  - rewrite forallb_forall in *. intros x Hx. apply Hp. apply list_elem_of_In.
    by rewrite <- list_elem_of_In, elem_of_reverse in Hx.
Qed.

Lemma as_bytes_is_byte s : valid_str s -> Forall is_byte (as_bytes s).
Proof.
  intros H. unfold as_bytes. rewrite Forall_concat, Forall_map. eapply Forall_impl; [exact H|].
  intros c Hc. assert (c < 1114112)%N.
  { unfold is_scalar in Hc. apply orb_true_iff in Hc as [Hc|Hc]; to_prop; lia. }
  unfold encode_char, is_byte.
  repeat match goal with |- context [if (?a <? ?b)%N then _ else _] => destruct (N.ltb_spec a b) end;
    repeat constructor; lia.
Qed.

Lemma encode_text s :
  valid_str s ->
  let text := map base64_char (sextets (as_bytes s)) ++ padding (as_bytes s) in
  base64_encode s = Ok text /\ Forall (fun c => (c < 128)%N) text.
Proof.
  intros Hv text. pose proof (as_bytes_is_byte s Hv) as Hb.
  assert (Forall (fun c => (c < 128)%N) text) as Ha.
  { apply Forall_app_2.
    - rewrite Forall_map. eapply Forall_impl; [by apply sextets_bound|]. apply base64_char_ascii.
    - unfold padding. repeat case_match; repeat constructor. }
  split; [|done]. unfold base64_encode, new_encoder. rewrite encode_bytes by done. simpl.
  fold text. pose proof (from_utf8_as_bytes text (ascii_valid _ Ha)) as Hu.
  rewrite (as_bytes_ascii text Ha) in Hu. by rewrite Hu.
Qed.

Lemma base64_roundtrip s :
  valid_str s -> exists text, base64_encode s = Ok text /\ base64_decode text = Ok s.
Proof.
  intros Hv. destruct (encode_text s Hv) as [He _]. eexists. split; [exact He|].
  pose proof (sextets_bound _ (as_bytes_is_byte s Hv)) as Hb.
  unfold base64_decode, base64_decode_bytes. rewrite trim_padding.
  - rewrite decode_chars_eq by done. run. rewrite decode_sextets by (by apply as_bytes_is_byte).
    simpl. by rewrite from_utf8_as_bytes.
  - rewrite Forall_map. eapply Forall_impl; [exact Hb|]. apply base64_char_not_pad.
  - unfold padding. by repeat case_match.
Qed.
