(* ===== verification/ActivityCatalog.v ===== *)
(** The activity catalog context, crates/app/src/activity_catalog: titles,
    activities and errors (mod.rs), commands (commands.rs), cursors and queries
    (queries.rs), and the PostgreSQL repository of
    crates/infrastructure/src/activity_persistence.rs. *)
From stdpp Require Import sorting.
From S2P Require Import Prelude Float64 RustString RustVec Utf8 Base64 RouteEditing.
From S2P Require Import DraftValidation RecordedActivity RouteVersioning.

(** ** Domain *)

Definition MAX_TITLE_LENGTH : N := 500.

Inductive ActivityCatalogError : Type :=
| CActivityNotFound
| InvalidTitle (message : rstr)
| CUnauthorized
| VersionNotBelongsToActivity
| PersistenceError (message : rstr)
| InvalidCursor (message : rstr).

#[export] Instance ActivityCatalogError_eq_dec : EqDecision ActivityCatalogError.
Proof. solve_decision. Defined.

Record ActivityTitle := mkTitle { title_str : rstr }.

#[export] Instance ActivityTitle_eq_dec : EqDecision ActivityTitle.
Proof. solve_decision. Defined.

Definition ActivityTitle_new (value : rstr) : result ActivityCatalogError ActivityTitle :=
  let trimmed := trim value in
  if is_empty trimmed then Err (InvalidTitle (lit "title must not be empty"))
  else
    truncated ← (if (MAX_TITLE_LENGTH <? str_len trimmed)%N
                 then slice_to trimmed MAX_TITLE_LENGTH else Ok trimmed);
    mret (mkTitle truncated).

Inductive ActivityType := Hike | Walk | Run | Other.
Inductive LifecycleState := LActive | LDeleted.

#[export] Instance ActivityType_eq_dec : EqDecision ActivityType.
Proof. solve_decision. Defined.
#[export] Instance LifecycleState_eq_dec : EqDecision LifecycleState.
Proof. solve_decision. Defined.

Definition lifecycle_display (s : LifecycleState) : rstr :=
  match s with LActive => lit "active" | LDeleted => lit "deleted" end.
Definition type_display (t : ActivityType) : rstr :=
  match t with
  | Hike => lit "hike" | Walk => lit "walk" | Run => lit "run" | Other => lit "other"
  end.

Record Activity := mkActivity {
  ac_id : uuid;
  ac_owner_id : uuid;
  ac_title : ActivityTitle;
  ac_activity_type : ActivityType;
  ac_lifecycle_state : LifecycleState;
  ac_started_at : option datetime;
  ac_ended_at : option datetime;
  ac_recorded_summary : option Json;
  ac_corrected_summary : option Json;
  ac_current_route_version_id : option uuid;
  ac_created_at : datetime;
  ac_updated_at : datetime }.

Definition Activity_new (new_id : uuid) (now : datetime) (owner_id : uuid) (title : ActivityTitle)
    (t : ActivityType) (started_at ended_at : option datetime) : Activity :=
  mkActivity new_id owner_id title t LActive started_at ended_at None None None now now.

Definition update_title (now : datetime) (title : ActivityTitle) (a : Activity) : Activity :=
  mkActivity (ac_id a) (ac_owner_id a) title (ac_activity_type a) (ac_lifecycle_state a)
    (ac_started_at a) (ac_ended_at a) (ac_recorded_summary a) (ac_corrected_summary a)
    (ac_current_route_version_id a) (ac_created_at a) now.
Definition update_activity_type (now : datetime) (t : ActivityType) (a : Activity) : Activity :=
  mkActivity (ac_id a) (ac_owner_id a) (ac_title a) t (ac_lifecycle_state a)
    (ac_started_at a) (ac_ended_at a) (ac_recorded_summary a) (ac_corrected_summary a)
    (ac_current_route_version_id a) (ac_created_at a) now.
Definition delete_state (now : datetime) (a : Activity) : Activity :=
  mkActivity (ac_id a) (ac_owner_id a) (ac_title a) (ac_activity_type a) LDeleted
    (ac_started_at a) (ac_ended_at a) (ac_recorded_summary a) (ac_corrected_summary a)
    (ac_current_route_version_id a) (ac_created_at a) now.
Definition select_version (now : datetime) (version_id : uuid) (summary : Json) (a : Activity)
    : Activity :=
  mkActivity (ac_id a) (ac_owner_id a) (ac_title a) (ac_activity_type a) (ac_lifecycle_state a)
    (ac_started_at a) (ac_ended_at a) (ac_recorded_summary a) (Some summary)
    (Some version_id) (ac_created_at a) now.

(** ** Interfaces *)

Record ActivityPage := mkPage {
  ap_items : list Activity; ap_next_cursor : option rstr; ap_has_more : bool }.

Class ActivityRepository (S : Type) := {
  repo_list_activities : uuid -> option rstr -> N -> eff S ActivityCatalogError ActivityPage;
  find_activity : uuid -> eff S ActivityCatalogError (option Activity);
  save_activity : Activity -> eff S ActivityCatalogError unit;
  update_activity : Activity -> eff S ActivityCatalogError unit;
  delete_row : uuid -> eff S ActivityCatalogError unit }.

(** [AuditSink::record]: actor, action, resource type, resource id. *)
Class AuditSink (S : Type) :=
  record_audit : uuid -> rstr -> rstr -> rstr -> eff S ActivityCatalogError unit.

(** ** Commands *)

Section commands.
Context {S : Type} `{ActivityRepository S} `{AuditSink S} `{UuidDisplay}.

(** [if let Err(e) = audit.record(..) { warn }]. *)
Definition audit_best_effort (actor : uuid) (action : rstr) (activity_id : uuid)
    : eff S ActivityCatalogError unit :=
  attempt (record_audit actor action (lit "activity") (uuid_display activity_id));; mret tt.

Definition load_activity (id : uuid) : eff S ActivityCatalogError Activity :=
  o ← find_activity id; lift (ok_or o CActivityNotFound).

Definition rename_activity (now : datetime) (activity_id owner_id : uuid) (new_title : rstr)
    : eff S ActivityCatalogError Activity :=
  title ← lift (ActivityTitle_new new_title);
  activity ← load_activity activity_id;
  lift (guard_err (negb (ac_owner_id activity =? owner_id)%N) CUnauthorized);;
  lift (guard_err (bool_decide (ac_lifecycle_state activity = LDeleted)) CActivityNotFound);;
  let activity := update_title now title activity in
  update_activity activity;;
  audit_best_effort owner_id (lit "activity.title.updated") activity_id;;
  mret activity.

Definition delete_activity (now : datetime) (activity_id owner_id : uuid)
    : eff S ActivityCatalogError unit :=
  activity ← load_activity activity_id;
  lift (guard_err (negb (ac_owner_id activity =? owner_id)%N) CUnauthorized);;
  if bool_decide (ac_lifecycle_state activity = LDeleted) then mret tt
  else
    update_activity (delete_state now activity);;
    audit_best_effort owner_id (lit "activity.deleted") activity_id.

Definition select_current_route_version `{RouteVersionRepository S} `{StatisticsToJson}
    `{DebugStrings} (now : datetime) (activity_id owner_id route_version_id : uuid)
    : eff S ActivityCatalogError Activity :=
  activity ← load_activity activity_id;
  lift (guard_err (negb (ac_owner_id activity =? owner_id)%N) CUnauthorized);;
  lift (guard_err (bool_decide (ac_lifecycle_state activity = LDeleted)) CActivityNotFound);;
  found ← eff_map_err (fun e => PersistenceError (versioning_error_display e))
            (find_version route_version_id);
  version ← lift (ok_or found VersionNotBelongsToActivity);
  lift (guard_err (negb (rv_activity_id version =? activity_id)%N) VersionNotBelongsToActivity);;
  corrected_summary ← lift
    (match statistics_to_value (rv_corrected_statistics version) with
     | inr v => Ok v
     | inl e => Err (PersistenceError (lit "failed to serialize corrected_statistics: " ++ e))
     end);
  let activity := select_version now route_version_id corrected_summary activity in
  update_activity activity;;
  audit_best_effort owner_id (lit "activity.current_version.selected") activity_id;;
  mret activity.
End commands.

(** ** Cursors *)

Record CursorPayload := mkCursor { cp_started_at : option rstr; cp_id : rstr }.

(** serde_json on the payload. *)
Class CursorJson := {
  cursor_to_string : CursorPayload -> rstr;
  cursor_from_str : rstr -> option CursorPayload }.

Definition encode_cursor `{CursorJson} {E} (payload : CursorPayload) : result E rstr :=
  match base64_encode (cursor_to_string payload) with
  | Ok s => Ok s
  | _ => Panicked
  end.

Definition decode_cursor `{CursorJson} (cursor : rstr) : result ActivityCatalogError CursorPayload :=
  json ← map_err (fun _ => InvalidCursor (lit "invalid base64 encoding")) (base64_decode cursor);
  ok_or (cursor_from_str json) (InvalidCursor (lit "invalid cursor format")).

(** ** Queries *)

Definition DEFAULT_PAGE_SIZE : N := 25.
Definition MAX_PAGE_SIZE : N := 100.

(** [page_size.unwrap_or(DEFAULT).clamp(1, MAX)]. *)
Definition clamp_page_size (page_size : option N) : N :=
  N.min (N.max (default DEFAULT_PAGE_SIZE page_size) 1) MAX_PAGE_SIZE.

(** The filter the reading queries share: owned and not deleted. *)
Definition visible_to (owner_id : uuid) (a : Activity) : bool :=
  (ac_owner_id a =? owner_id)%N && negb (bool_decide (ac_lifecycle_state a = LDeleted)).
Definition keep_visible (owner_id : uuid) (o : option Activity) : option Activity :=
  a ← o; if visible_to owner_id a then Some a else None.

Section queries.
Context {S : Type} `{ActivityRepository S}.

Definition list_activities (owner_id : uuid) (cursor : option rstr) (page_size : option N)
    : eff S ActivityCatalogError ActivityPage :=
  repo_list_activities owner_id cursor (clamp_page_size page_size).

Definition get_activity (activity_id owner_id : uuid) : eff S ActivityCatalogError Activity :=
  o ← find_activity activity_id;
  lift (ok_or (keep_visible owner_id o) CActivityNotFound).

(** [verify_activity_ownership] of route_versioning/queries.rs. *)
Definition verify_activity_ownership (activity_id owner_id : uuid)
    : eff S RouteVersioningError unit :=
  o ← eff_map_err (fun e => match e with
                            | PersistenceError m => VPersistenceError m
                            | _ => VersionNotFound
                            end) (find_activity activity_id);
  lift (ok_or (keep_visible owner_id o) VersionNotFound);;
  mret tt.

Definition list_route_versions `{RouteVersionRepository S} (activity_id owner_id : uuid)
    (cursor : option rstr) (page_size : option N) : eff S RouteVersioningError RouteVersionPage :=
  verify_activity_ownership activity_id owner_id;;
  list_by_activity activity_id cursor (clamp_page_size page_size).

Definition load_owned_version `{RouteVersionRepository S} (route_version_id owner_id : uuid)
    : eff S RouteVersioningError RouteVersion :=
  o ← find_version route_version_id;
  version ← lift (ok_or o VersionNotFound);
  verify_activity_ownership (rv_activity_id version) owner_id;;
  mret version.

Definition get_route_version `{RouteVersionRepository S} (route_version_id owner_id : uuid)
    : eff S RouteVersioningError RouteVersion := load_owned_version route_version_id owner_id.

Record RouteVersionGeometry := mkVersionGeometry {
  rvg_geometry : list Coordinate;
  rvg_bounding_box : BoundingBox;
  rvg_corrected_statistics : CorrectedStatistics }.

Definition get_route_version_geometry `{RouteVersionRepository S}
    (route_version_id owner_id : uuid) : eff S RouteVersioningError RouteVersionGeometry :=
  version ← load_owned_version route_version_id owner_id;
  mret (mkVersionGeometry (rv_geometry version) (rv_bounding_box version)
          (rv_corrected_statistics version)).

(** [get_recorded_route] of recorded_activity/queries.rs. *)
Inductive RecordedRouteResult :=
| RouteFull (d : RecordedRouteData)
| RoutePreview (p : RecordedRoutePreview).

Definition get_recorded_route `{RecordedRouteRepository S} (activity_id owner_id : uuid)
    (preview : bool) : eff S RecordedActivityError RecordedRouteResult :=
  o ← eff_map_err (fun e => match e with
                            | PersistenceError m => Persistence m
                            | _ => NotFound
                            end) (find_activity activity_id);
  activity ← lift (ok_or (keep_visible owner_id o) NotFound);
  if preview then
    p ← get_recorded_route_preview (ac_id activity);
    p ← lift (ok_or p NotFound);
    mret (RoutePreview p)
  else
    d ← get_recorded_route_data (ac_id activity);
    d ← lift (ok_or d NotFound);
    mret (RouteFull d).
End queries.

(** ** The PostgreSQL repository *)

Record ActivityRow := mkActivityRow {
  ar_id : uuid;
  ar_owner_id : uuid;
  ar_title : rstr;
  ar_activity_type : rstr;
  ar_lifecycle_state : rstr;
  ar_started_at : option datetime;
  ar_ended_at : option datetime;
  ar_recorded_summary : option Json;
  ar_corrected_summary : option Json;
  ar_current_route_version_id : option uuid;
  ar_created_at : datetime;
  ar_updated_at : datetime }.

Definition parse_activity_type (s : rstr) : ActivityType :=
  if decide (s = lit "hike") then Hike
  else if decide (s = lit "walk") then Walk
  else if decide (s = lit "run") then Run
  else Other.
Definition parse_lifecycle_state (s : rstr) : LifecycleState :=
  if decide (s = lit "active") then LActive
  else if decide (s = lit "deleted") then LDeleted
  else LActive.

(** A title that is refused becomes [Untitled]; one that cannot be cut at 500
    bytes panics. *)
Definition row_to_activity {E} (r : ActivityRow) : result E Activity :=
  title ← match ActivityTitle_new (ar_title r) with
          | Ok t => Ok t
          | Err _ => match ActivityTitle_new (lit "Untitled") with Ok t => Ok t | _ => Panicked end
          | Panicked => Panicked
          end;
  mret (mkActivity (ar_id r) (ar_owner_id r) title (parse_activity_type (ar_activity_type r))
          (parse_lifecycle_state (ar_lifecycle_state r)) (ar_started_at r) (ar_ended_at r)
          (ar_recorded_summary r) (ar_corrected_summary r) (ar_current_route_version_id r)
          (ar_created_at r) (ar_updated_at r)).

Definition activity_row (a : Activity) : ActivityRow :=
  mkActivityRow (ac_id a) (ac_owner_id a) (title_str (ac_title a))
    (type_display (ac_activity_type a)) (lifecycle_display (ac_lifecycle_state a))
    (ac_started_at a) (ac_ended_at a) (ac_recorded_summary a) (ac_corrected_summary a)
    (ac_current_route_version_id a) (ac_created_at a) (ac_updated_at a).

Abbreviation activities := (gmap N ActivityRow) (only parsing).

(** [ORDER BY started_at DESC NULLS LAST, id DESC]. *)
Definition row_order (r r' : ActivityRow) : Prop :=
  match ar_started_at r, ar_started_at r' with
  | Some t, Some t' => (t' < t)%Z \/ (t = t' /\ (ar_id r' <= ar_id r)%N)
  | Some _, None => True
  | None, Some _ => False
  | None, None => (ar_id r' <= ar_id r)%N
  end.

#[export] Instance row_order_dec r r' : Decision (row_order r r').
Proof. unfold row_order. repeat case_match; apply _. Defined.

Definition visible_row (owner_id : uuid) (r : ActivityRow) : bool :=
  (ar_owner_id r =? owner_id)%N && negb (bool_decide (ar_lifecycle_state r = lit "deleted")).

(** The condition the cursor adds to the query. *)
Definition after_cursor (cursor : option (option datetime * uuid)) (r : ActivityRow) : bool :=
  match cursor with
  | None => true
  | Some (Some t, id) =>
      match ar_started_at r with
      | Some t' => (t' <? t)%Z || ((t' =? t)%Z && (ar_id r <? id)%N)
      | None => true
      end
  | Some (None, id) =>
      match ar_started_at r with
      | Some _ => false
      | None => (ar_id r <? id)%N
      end
  end.

Definition select_rows (owner_id : uuid) (cursor : option (option datetime * uuid)) (limit : N)
    (t : activities) : list ActivityRow :=
  take (N.to_nat limit)
    (merge_sort row_order
       (List.filter (fun r => visible_row owner_id r && after_cursor cursor r)
          (map snd (map_to_list t)))).

(** Rendering and parsing of identifiers and instants (uuid and chrono). *)
Class CursorText := {
  uuid_to_string : uuid -> rstr;
  parse_uuid : rstr -> option uuid;
  to_rfc3339 : datetime -> rstr;
  parse_rfc3339 : rstr -> option datetime }.

Section postgres.
Context `{CursorJson} `{CursorText}.

Definition read_cursor (cursor : option rstr)
    : result ActivityCatalogError (option (option datetime * uuid)) :=
  match cursor with
  | None => Ok None
  | Some s =>
      payload ← decode_cursor s;
      id ← ok_or (parse_uuid (cp_id payload)) (InvalidCursor (lit "invalid id in cursor"));
      started_at ← match cp_started_at payload with
                   | None => Ok None
                   | Some s => t ← ok_or (parse_rfc3339 s)
                                    (InvalidCursor (lit "invalid started_at in cursor"));
                               Ok (Some t)
                   end;
      mret (Some (started_at, id))
  end.

Fixpoint rows_to_activities (rows : list ActivityRow) : result ActivityCatalogError (list Activity) :=
  match rows with
  | [] => Ok []
  | r :: rest => a ← row_to_activity r; items ← rows_to_activities rest; mret (a :: items)
  end.

Definition cursor_of (a : Activity) : CursorPayload :=
  mkCursor (to_rfc3339 <$> ac_started_at a) (uuid_to_string (ac_id a)).

Definition pg_list_activities (owner_id : uuid) (cursor : option rstr) (page_size : N)
    : eff activities ActivityCatalogError ActivityPage :=
  t ← get;
  c ← lift (read_cursor cursor);
  let rows := select_rows owner_id c (u32_wrap (page_size + 1)) t in
  let has_more := (page_size <? u32_wrap (len rows))%N in
  items ← lift (rows_to_activities (take (N.to_nat page_size) rows));
  next_cursor ← lift
    (if has_more then
       match last items with
       | Some a => s ← encode_cursor (cursor_of a); mret (Some s)
       | None => mret None
       end
     else mret None);
  mret (mkPage items next_cursor has_more).

Definition pg_find_activity (id : uuid) : eff activities ActivityCatalogError (option Activity) :=
  t ← get;
  match t !! id with
  | None => mret None
  | Some r => a ← lift (row_to_activity r); mret (Some a)
  end.

(** The primary key refuses a second row; the text is the database's. *)
Definition pg_save_activity (duplicate : rstr) (a : Activity)
    : eff activities ActivityCatalogError unit :=
  t ← get;
  match t !! ac_id a with
  | Some _ => throw (PersistenceError duplicate)
  | None => put (<[ac_id a := activity_row a]> t)
  end.

Definition pg_update_activity (a : Activity) : eff activities ActivityCatalogError unit :=
  modify (alter (fun r => mkActivityRow (ar_id r) (ar_owner_id r) (title_str (ac_title a))
    (type_display (ac_activity_type a)) (lifecycle_display (ac_lifecycle_state a))
    (ac_started_at a) (ac_ended_at a) (ac_recorded_summary a) (ac_corrected_summary a)
    (ac_current_route_version_id a) (ar_created_at r) (ac_updated_at a)) (ac_id a)).

Definition pg_delete_row (now : datetime) (id : uuid) : eff activities ActivityCatalogError unit :=
  modify (alter (fun r => mkActivityRow (ar_id r) (ar_owner_id r) (ar_title r)
    (ar_activity_type r) (lit "deleted") (ar_started_at r) (ar_ended_at r)
    (ar_recorded_summary r) (ar_corrected_summary r) (ar_current_route_version_id r)
    (ar_created_at r) now) id).

#[export] Instance PgActivityRepository (now : datetime) (duplicate : rstr)
    : ActivityRepository activities := {|
  repo_list_activities := pg_list_activities;
  find_activity := pg_find_activity;
  save_activity := pg_save_activity duplicate;
  update_activity := pg_update_activity;
  delete_row := pg_delete_row now |}.
End postgres.
