(* ===== verification/CatalogTheory.v ===== *)
(** Properties of the activity catalog: cursors round-trip, keyset pagination
    visits every visible activity exactly once and in order, titles, and the
    authorisation of commands and queries. *)
From stdpp Require Import sorting.
From S2P Require Import Prelude Float64 RustString RustVec Utf8 Base64 RouteEditing.
From S2P Require Import DraftValidation RecordedActivity RouteVersioning ActivityCatalog.

(** ** The order of the listing *)

Lemma row_order_total r r' : row_order r r' \/ row_order r' r.
Proof. unfold row_order. repeat case_match; lia. Qed.

Lemma row_order_trans r1 r2 r3 : row_order r1 r2 -> row_order r2 r3 -> row_order r1 r3.
Proof. unfold row_order. repeat case_match; lia || done. Qed.

Lemma row_order_antisym r r' : row_order r r' -> row_order r' r -> ar_id r = ar_id r'.
Proof. unfold row_order. repeat case_match; lia || done. Qed.

#[local] Instance row_order_total_inst : Total row_order.
Proof. exact row_order_total. Qed.
#[local] Instance row_order_trans_inst : Transitive row_order.
Proof. exact row_order_trans. Qed.

(** The cursor's condition is the order itself, for rows of one table. *)
Lemma after_cursor_spec r r' :
  (ar_id r = ar_id r' -> r = r') ->
  after_cursor (Some (ar_started_at r, ar_id r)) r' = true <-> row_order r r' /\ r <> r'.
Proof.
  intros Hid. unfold after_cursor, row_order.
  assert (forall P : Prop, (P /\ r <> r') <-> (P /\ ar_id r <> ar_id r')) as E.
  { intros P. split; intros [? Hne]; (split; [done|]); [eauto|congruence]. }
  rewrite E. clear E.
  destruct (ar_started_at r) as [t|] eqn:Ht, (ar_started_at r') as [t'|] eqn:Ht'.
  - rewrite orb_true_iff, andb_true_iff, Z.ltb_lt, Z.eqb_eq, N.ltb_lt.
    assert (ar_id r = ar_id r' -> t = t') by (intros ?%Hid; congruence). lia.
  - split; [|done]. intros _. split; [done|]. intros ?%Hid. congruence.
  - split; [done|]. by intros [? _].
  - rewrite N.ltb_lt. lia.
Qed.

(** ** The listing as a sorted list *)

Definition table_ids (t : gmap N ActivityRow) : Prop := map_Forall (fun i r => ar_id r = i) t.

Definition rows_in (t : gmap N ActivityRow) : list ActivityRow := map snd (map_to_list t).

Lemma elem_of_rows_in t r : r ∈ rows_in t <-> exists i, t !! i = Some r.
Proof.
  unfold rows_in. rewrite list_elem_of_fmap. split.
  - intros ([i r'] & -> & H). exists i. by apply elem_of_map_to_list in H.
  - intros [i H]. exists (i, r). split; [done|]. by apply elem_of_map_to_list.
Qed.

Lemma same_id_same_row t r r' :
  table_ids t -> r ∈ rows_in t -> r' ∈ rows_in t -> ar_id r = ar_id r' -> r = r'.
Proof.
  rewrite !elem_of_rows_in. intros H [i Hi] [j Hj] E.
  rewrite (H _ _ Hi), (H _ _ Hj) in E. congruence.
Qed.

Lemma rows_in_NoDup t : table_ids t -> NoDup (rows_in t).
Proof.
  intros H. apply (NoDup_fmap_2_strong snd); [|apply NoDup_map_to_list].
  intros [i r] [j r'] Hi Hj E. simpl in E. subst r'. apply elem_of_map_to_list in Hi, Hj.
  rewrite <- (H _ _ Hi), <- (H _ _ Hj). done.
Qed.

(** All the rows a user sees, in the order of the listing. *)
Definition listing (owner : uuid) (t : gmap N ActivityRow) : list ActivityRow :=
  merge_sort row_order (List.filter (visible_row owner) (rows_in t)).

Definition listing_after (owner : uuid) c (t : gmap N ActivityRow) : list ActivityRow :=
  merge_sort row_order
    (List.filter (fun r => visible_row owner r && after_cursor c r) (rows_in t)).

Lemma listing_after_none owner t : listing_after owner None t = listing owner t.
Proof.
  unfold listing_after, listing. f_equal. apply List.filter_ext. intros r.
  by rewrite andb_true_r.
Qed.

Lemma elem_of_listing owner t r :
  r ∈ listing owner t <-> r ∈ rows_in t /\ visible_row owner r = true.
Proof.
  unfold listing. rewrite merge_sort_Permutation, list_elem_of_In, filter_In, list_elem_of_In. done.
Qed.

Lemma listing_sorted owner t : StronglySorted row_order (listing owner t).
Proof. apply StronglySorted_merge_sort; apply _. Qed.

Lemma listing_NoDup owner t : table_ids t -> NoDup (listing owner t).
Proof.
  intros H. unfold listing. rewrite merge_sort_Permutation.
  apply NoDup_List_filter. by apply rows_in_NoDup.
Qed.

(** In a sorted list without duplicates, what comes after the [k]-th element is
    what the order puts after it. *)
Lemma sorted_filter_after {A} (R : A -> A -> Prop) (f : A -> bool) l k x :
  StronglySorted R l -> NoDup l -> l !! k = Some x ->
  (forall y, y ∈ l -> f y = true <-> R x y /\ x <> y) ->
  (forall y, y ∈ l -> R y x -> R x y -> x = y) ->
  List.filter f l = drop (S k) l.
Proof.
  intros Hs. revert k. induction Hs as [|z l Hl IH HF]; intros k Hnd Hk Hf Ha; [done|].
  apply NoDup_cons in Hnd as [Hz Hnd]. rewrite Forall_forall in HF. destruct k as [|k]; simpl.
  - simpl in Hk. injection Hk as ->. rewrite drop_0.
    assert (f x = false) as ->.
    { apply not_true_iff_false. rewrite Hf by left. by intros [_ ?]. }
    assert (forall y, y ∈ l -> f y = true) as Hall.
    { intros y Hy. rewrite Hf by (by right). split; [by apply HF|]. by intros ->. }
    clear -Hall. induction l as [|y l IH]; simpl; [done|].
    rewrite Hall by left. f_equal. apply IH. intros; apply Hall; by right.
  - simpl in Hk. pose proof (list_elem_of_lookup_2 _ _ _ Hk) as Hx.
    assert (f z = false) as ->.
    { apply not_true_iff_false. rewrite Hf by left. intros [Hxz Hne]. apply Hne.
      apply Ha; [left|by apply HF|done]. }
    apply IH; [done|done| |].
    + intros y Hy. apply Hf. by right.
    + intros y Hy. apply Ha. by right.
Qed.

Lemma List_filter_and {A} (f g : A -> bool) l :
  List.filter (fun x => f x && g x) l = List.filter g (List.filter f l).
Proof.
  induction l as [|x l IH]; simpl; [done|]. destruct (f x); simpl; [|done].
  destruct (g x); by rewrite IH.
Qed.

Lemma Permutation_List_filter {A} (f : A -> bool) l l' :
  l ≡ₚ l' -> List.filter f l ≡ₚ List.filter f l'.
Proof.
  induction 1 as [|x l l' _ IH|x y l|l l' l'' _ IH _ IH']; simpl; [done| | |by rewrite IH].
  - destruct (f x); by rewrite IH.
  - destruct (f x), (f y); try done. apply Permutation_swap.
Qed.

Lemma listing_after_some owner t k r :
  table_ids t -> listing owner t !! k = Some r ->
  listing_after owner (Some (ar_started_at r, ar_id r)) t = drop (S k) (listing owner t).
Proof.
  intros Hids Hk. pose proof (list_elem_of_lookup_2 _ _ _ Hk) as Hr.
  set (c := Some (ar_started_at r, ar_id r)). set (L := listing owner t) in *.
  assert (forall y, y ∈ L -> ar_id r = ar_id y -> r = y) as Hinj.
  { intros y Hy. apply elem_of_listing in Hy as [Hy _], Hr as [Hr _].
    by apply (same_id_same_row t). }
  assert (List.filter (after_cursor c) L = drop (S k) L) as HL.
  { apply (sorted_filter_after row_order _ _ _ r); [apply listing_sorted|by apply listing_NoDup|done| |].
    - intros y Hy. apply after_cursor_spec. by apply Hinj.
    - intros y Hy H1 H2. apply Hinj; [done|]. by apply row_order_antisym. }
  unfold listing_after. rewrite List_filter_and.
  apply (StronglySorted_unique_strong row_order).
  - intros x y Hx Hy H1 H2.
    rewrite merge_sort_Permutation, list_elem_of_In, filter_In, filter_In, <- list_elem_of_In in Hx.
    assert (y ∈ L) as Hy' by (by eapply elem_of_list_drop || (rewrite <- (take_drop (S k) L); apply elem_of_app; by right)).
    apply elem_of_listing in Hy' as [Hy' _]. apply (same_id_same_row t); [done|tauto|done|].
    by apply row_order_antisym.
  - apply StronglySorted_merge_sort; apply _.
  - pose proof (listing_sorted owner t) as Hs. fold L in Hs.
    rewrite <- (take_drop (S k) L) in Hs. by apply StronglySorted_app in Hs as (_ & _ & ?).
  - rewrite merge_sort_Permutation, <- HL. apply Permutation_List_filter.
    unfold L, listing. by rewrite merge_sort_Permutation.
Qed.

(** ** Cursors *)

(** What the rendering of identifiers, instants and JSON must satisfy for a
    cursor to be readable: each parser inverts its printer, and the JSON text
    is a string. *)
Class CursorLaws `{CursorJson} `{CursorText} : Prop := {
  cursor_json_ok : forall p, cursor_from_str (cursor_to_string p) = Some p;
  cursor_json_str : forall p, valid_str (cursor_to_string p);
  uuid_text_ok : forall u, parse_uuid (uuid_to_string u) = Some u;
  instant_text_ok : forall t, parse_rfc3339 (to_rfc3339 t) = Some t }.

Section pagination.
#[local] Set Default Proof Using "All".
Context `{CursorLaws}.

Lemma encode_decode_cursor {E} p :
  exists s, encode_cursor (E := E) p = Ok s /\ decode_cursor s = Ok p.
Proof.
  destruct (base64_roundtrip (cursor_to_string p) (cursor_json_str p)) as (s & He & Hd).
  exists s. unfold encode_cursor, decode_cursor. rewrite He, Hd. split; [done|].
  run. simpl. by rewrite cursor_json_ok.
Qed.

Lemma read_encoded_cursor {E} a :
  exists s, encode_cursor (E := E) (cursor_of a) = Ok s /\
            read_cursor (Some s) = Ok (Some (ac_started_at a, ac_id a)).
Proof.
  destruct (encode_decode_cursor (E := E) (cursor_of a)) as (s & He & Hd). exists s. split; [done|].
  unfold read_cursor. rewrite Hd. run. simpl. rewrite uuid_text_ok. simpl.
  destruct (ac_started_at a); simpl; [by rewrite instant_text_ok|done].
Qed.

(** The activity of a row whose title can be read. *)
Definition readable (r : ActivityRow) : Prop :=
  exists a, row_to_activity (E := ActivityCatalogError) r = Ok a.
Definition activities_of (rows : list ActivityRow) (items : list Activity) : Prop :=
  Forall2 (fun r a => row_to_activity (E := ActivityCatalogError) r = Ok a) rows items.

Lemma rows_to_activities_ok rows :
  Forall readable rows -> exists items, rows_to_activities rows = Ok items /\ activities_of rows items.
Proof.
  induction 1 as [|r rows [a Ha] _ (items & Hi & HF)]; simpl; [exists []; split; [done|constructor]|].
  exists (a :: items). rewrite Ha, Hi. run. split; [done|by constructor].
Qed.

Lemma row_to_activity_key r a :
  row_to_activity (E := ActivityCatalogError) r = Ok a ->
  ac_started_at a = ar_started_at r /\ ac_id a = ar_id r.
Proof. unfold row_to_activity. intros (t & _ & [= <-])%result_bind_inv. done. Qed.

Lemma select_rows_eq owner c limit t :
  select_rows owner c limit t = take (N.to_nat limit) (listing_after owner c t).
Proof. done. Qed.

(** One page, from a cursor behind which [suffix] is left. *)
Lemma pg_page owner t c cursor p suffix :
  read_cursor cursor = Ok c -> listing_after owner c t = suffix ->
  Forall readable suffix -> (p <= MAX_PAGE_SIZE)%N ->
  exists items next,
    pg_list_activities owner cursor p t
      = (Ok (mkPage items next (p <? len suffix)%N), t) /\
    activities_of (take (N.to_nat p) suffix) items /\
    (if (p <? len suffix)%N
     then match last items with
          | Some a => exists s, next = Some s /\
                      read_cursor next = Ok (Some (ac_started_at a, ac_id a))
          | None => next = None
          end
     else next = None).
Proof.
  intros Hc Hs Hr Hp. unfold MAX_PAGE_SIZE in Hp.
  unfold pg_list_activities.
  assert (u32_wrap (p + 1) = p + 1)%N as Hw.
  { apply N.mod_small. unfold u32_modulus. lia. }
  set (rows := take (N.to_nat (u32_wrap (p + 1))) suffix).
  assert (u32_wrap (len rows) = len rows) as Hl.
  { apply N.mod_small. unfold rows, len, u32_modulus. rewrite length_take, Hw. lia. }
  assert ((p <? u32_wrap (len rows)) = (p <? len suffix))%N as Hmore.
  { rewrite Hl. unfold rows, len. rewrite length_take, Hw.
    destruct (N.ltb_spec p (N.of_nat (length suffix))), (N.ltb_spec p (N.of_nat (N.to_nat (p + 1) `min` length suffix)));
      try done; lia. }
  assert (take (N.to_nat p) rows = take (N.to_nat p) suffix) as Htake.
  { unfold rows. rewrite take_take, Hw. f_equal. lia. }
  destruct (rows_to_activities_ok (take (N.to_nat p) suffix)) as (items & Hi & HF);
    [by apply Forall_take|].
  exists items. run. rewrite Hc. rewrite select_rows_eq, Hs. fold rows. rewrite Htake, Hi, Hmore.
  destruct (p <? len suffix)%N; [|by exists None].
  destruct (last items) as [a|] eqn:Ha; [|by exists None].
  destruct (read_encoded_cursor (E := ActivityCatalogError) a) as (s & -> & Hs').
  exists (Some s). split_and!; [done|done|]. by exists s.
Qed.

(** Following the cursors: the items of all the pages. *)
Fixpoint walk (fuel : nat) (owner : uuid) (cursor : option rstr) (p : N)
    (t : gmap N ActivityRow) : option (list Activity) :=
  match fuel with
  | O => None
  | S f =>
      match pg_list_activities owner cursor p t with
      | (Ok page, t') =>
          match ap_next_cursor page with
          | None => Some (ap_items page)
          | Some s => rest ← walk f owner (Some s) p t'; Some (ap_items page ++ rest)
          end
      | _ => None
      end
  end.

Lemma last_of_page (rows : list ActivityRow) items k r :
  activities_of rows items -> rows !! k = Some r -> length rows = S k ->
  exists a, last items = Some a /\ ac_started_at a = ar_started_at r /\ ac_id a = ar_id r.
Proof.
  intros HF Hk Hl. destruct (Forall2_lookup_l _ _ _ _ _ HF Hk) as (a & Ha & Hra).
  exists a. split; [|by apply row_to_activity_key].
  rewrite last_lookup. by rewrite <- (Forall2_length _ _ _ HF), Hl.
Qed.

Lemma walk_suffix owner t p fuel m cursor c :
  table_ids t -> (1 <= p <= MAX_PAGE_SIZE)%N -> Forall readable (listing owner t) ->
  read_cursor cursor = Ok c -> listing_after owner c t = drop m (listing owner t) ->
  length (drop m (listing owner t)) < fuel ->
  exists items, walk fuel owner cursor p t = Some items /\
                activities_of (drop m (listing owner t)) items.
Proof.
  intros Hids Hp Hr. revert m cursor c.
  induction fuel as [|fuel IH]; intros m cursor c Hc Hs Hf; [lia|].
  set (L := listing owner t) in *. set (suffix := drop m L) in *.
  destruct (pg_page owner t c cursor p suffix) as (items & next & Hpg & HF & Hnext);
    [done|done|by apply Forall_drop|lia|].
  simpl. rewrite Hpg. simpl. destruct (N.ltb_spec p (len suffix)) as [Hlt|Hge].
  - unfold len in Hlt. set (k := N.to_nat p - 1).
    destruct (lookup_lt_is_Some_2 suffix k) as [r Hk]; [lia|].
    destruct (last_of_page (take (N.to_nat p) suffix) items k r) as (a & Ha & E1 & E2);
      [done|by rewrite lookup_take_lt by lia|rewrite length_take; lia|].
    rewrite Ha in Hnext. destruct Hnext as (s & -> & Hrd). rewrite E1, E2 in Hrd. simpl.
    assert (L !! (m + k) = Some r) as HLk by (unfold suffix in Hk; by rewrite lookup_drop in Hk).
    destruct (IH (S (m + k)) (Some s) _ Hrd (listing_after_some _ _ _ _ Hids HLk))
      as (rest & Hw & HF').
    { fold L. rewrite length_drop. unfold suffix in Hf, Hlt. rewrite length_drop in Hf, Hlt. lia. }
    rewrite Hw. simpl. eexists. split; [done|].
    rewrite <- (take_drop (N.to_nat p) suffix). apply Forall2_app; [done|].
    unfold suffix. rewrite drop_drop. replace (m + N.to_nat p) with (S (m + k)) by lia. done.
  - rewrite Hnext. simpl. eexists. split; [done|].
    rewrite take_ge in HF; [done|]. unfold len in Hge. lia.
Qed.
End pagination.

(** ** Titles *)

(** Some prefix of [s] takes exactly [n] bytes. *)
Definition cut_exists (s : rstr) (n : N) : Prop :=
  exists k, str_len (take k s) = n.

Lemma slice_to_spec {E} s n :
  (exists t k, slice_to (E := E) s n = Ok t /\ t = take k s /\ str_len t = n) \/
  (slice_to (E := E) s n = Panicked /\ ~ cut_exists s n).
Proof.
  revert n. induction s as [|c s IH]; intros n; simpl; destruct (N.eqb_spec n 0) as [->|Hn].
  - left. by exists [], 0.
  - right. split; [done|]. intros [k Hk]. rewrite take_nil in Hk. simpl in Hk. lia.
  - left. by exists [], 0.
  - assert (forall k, str_len (take (S k) (c :: s)) = len_utf8 c + str_len (take k s))%N as Hc by done.
    destruct (N.leb_spec (len_utf8 c) n) as [Hle|Hgt].
    + destruct (IH (n - len_utf8 c)%N) as [(t & k & -> & -> & Hl)|[-> Hno]]; run.
      * left. exists (c :: take k s), (S k). split_and!; [done|done|]. simpl. lia.
      * right. split; [done|]. intros [[|k] Hk]; [simpl in Hk; lia|].
        apply Hno. exists k. rewrite Hc in Hk. lia.
    + right. split; [done|]. intros [[|k] Hk]; [simpl in Hk; lia|]. rewrite Hc in Hk. lia.
Qed.

Lemma str_len_drop_while p s : (str_len (drop_while p s) <= str_len s)%N.
Proof. induction s as [|c s IH]; simpl; [done|]. destruct (p c); simpl; lia. Qed.

Lemma str_len_app s t : str_len (s ++ t) = (str_len s + str_len t)%N.
Proof. induction s as [|c s IH]; simpl; [done|]. rewrite IH. lia. Qed.

Lemma str_len_reverse s : str_len (reverse s) = str_len s.
Proof. induction s as [|c s IH]; [done|]. rewrite reverse_cons, str_len_app, IH. simpl. lia. Qed.

Lemma str_len_trim s : (str_len (trim s) <= str_len s)%N.
Proof.
  unfold trim, trim_end_matches, trim_start_matches. rewrite str_len_reverse.
  etransitivity; [apply str_len_drop_while|]. rewrite str_len_reverse. apply str_len_drop_while.
Qed.

(** A title that was constructed can be read back. *)
Lemma title_short v t : ActivityTitle_new v = Ok t -> (str_len (title_str t) <= 500)%N.
Proof.
  unfold ActivityTitle_new. destruct (is_empty _); [done|]. unfold MAX_TITLE_LENGTH.
  destruct (N.ltb_spec 500 (str_len (trim v))); [|by intros [= <-]].
  destruct (slice_to_spec (E := ActivityCatalogError) (trim v) 500)
    as [(x & k & -> & _ & Hl)|[-> _]]; run; [|done]. intros [= <-]. simpl. lia.
Qed.

Lemma short_title_reads s : (str_len s <= 500)%N -> ActivityTitle_new s <> Panicked.
Proof.
  intros Hs. unfold ActivityTitle_new. destruct (is_empty _); [done|].
  pose proof (str_len_trim s). unfold MAX_TITLE_LENGTH.
  by rewrite (proj2 (N.ltb_ge 500 _)) by lia.
Qed.

Lemma row_title_short r a :
  row_to_activity (E := ActivityCatalogError) r = Ok a -> (str_len (title_str (ac_title a)) <= 500)%N.
Proof.
  unfold row_to_activity. intros (t & Ht & [= <-])%result_bind_inv. simpl.
  destruct (ActivityTitle_new (ar_title r)) as [t'|e|] eqn:Hn; [|simpl in Ht|done].
  - injection Ht as <-. by eapply title_short.
  - injection Ht as <-. by vm_compute.
Qed.

Lemma short_row_readable (r : ActivityRow) : (str_len (ar_title r) <= 500)%N -> readable r.
Proof.
  intros Hs. pose proof (short_title_reads _ Hs). unfold readable, row_to_activity.
  destruct (ActivityTitle_new (ar_title r)); [|simpl|done]; eexists; run; done.
Qed.

(** The title of the row cannot be read: cutting it at 500 bytes panics. *)
Definition title_panics (r : ActivityRow) : bool :=
  match ActivityTitle_new (ar_title r) with Panicked => true | _ => false end.

Lemma row_reads {E} (r : ActivityRow) :
  if title_panics r then row_to_activity (E := E) r = Panicked else exists a, row_to_activity (E := E) r = Ok a.
Proof.
  unfold title_panics, row_to_activity. destruct (ActivityTitle_new (ar_title r)); run; simpl; try done; eauto.
Qed.

Lemma readable_iff r : readable r <-> title_panics r = false.
Proof.
  pose proof (row_reads (E := ActivityCatalogError) r) as Hr. unfold readable.
  destruct (title_panics r); split; try done. intros [a Ha]. congruence.
Qed.

(** ** Commands on the table *)

Definition quiet_audit `{AuditSink (gmap N ActivityRow)} : Prop :=
  forall actor action kind id t, exists r, record_audit actor action kind id t = (r, t) /\ r <> Panicked.

Section commands.
Context `{CursorJson} `{CursorText} `{AuditSink (gmap N ActivityRow)} `{UuidDisplay}
  (now : datetime) (duplicate : rstr) (Hquiet : quiet_audit).
#[local] Set Default Proof Using "All".
#[local] Existing Instance PgActivityRepository.
#[local] Instance repo : ActivityRepository (gmap N ActivityRow) := PgActivityRepository now duplicate.

Lemma audit_quiet actor action id t : audit_best_effort actor action id t = (Ok tt, t).
Proof.
  unfold audit_best_effort. run.
  destruct (Hquiet actor action (lit "activity") (uuid_display id) t) as (r & -> & Hr).
  by destruct r.
Qed.

Lemma find_readable id r t a :
  t !! id = Some r -> row_to_activity (E := ActivityCatalogError) r = Ok a ->
  find_activity id t = (Ok (Some a), t).
Proof. intros Hr Ha. simpl. unfold pg_find_activity. run. rewrite Hr. by rewrite Ha. Qed.

Lemma find_missing id t : t !! id = None -> find_activity id t = (Ok None, t).
Proof. intros Hr. simpl. unfold pg_find_activity. run. by rewrite Hr. Qed.

Lemma row_owner r a :
  row_to_activity (E := ActivityCatalogError) r = Ok a ->
  ac_owner_id a = ar_owner_id r /\ ac_id a = ar_id r /\
  ac_lifecycle_state a = parse_lifecycle_state (ar_lifecycle_state r).
Proof. unfold row_to_activity. intros (t & _ & [= <-])%result_bind_inv. done. Qed.

(** A row that reads as deleted is hidden from everybody. *)
Lemma get_deleted id r t a user :
  t !! id = Some r -> row_to_activity (E := ActivityCatalogError) r = Ok a ->
  ac_lifecycle_state a = LDeleted -> get_activity id user t = (Err CActivityNotFound, t).
Proof.
  intros Hr Ha Hd. unfold get_activity. rewrite (eff_bind_ok _ _ _ _ _ (find_readable _ _ _ _ Hr Ha)).
  unfold keep_visible, visible_to. simpl. rewrite Hd. simpl. by rewrite andb_false_r.
Qed.

Definition del id user := delete_activity now id user.

Lemma delete_unowned id user r t a :
  t !! id = Some r -> row_to_activity (E := ActivityCatalogError) r = Ok a ->
  ar_owner_id r <> user -> del id user t = (Err CUnauthorized, t).
Proof.
  intros Hr Ha Hne. unfold del, delete_activity, load_activity. run.
  rewrite (find_readable _ _ _ _ Hr Ha). simpl. destruct (row_owner _ _ Ha) as (-> & _).
  by rewrite (proj2 (N.eqb_neq _ _) Hne).
Qed.

Lemma delete_deleted id r t a :
  t !! id = Some r -> row_to_activity (E := ActivityCatalogError) r = Ok a ->
  ac_lifecycle_state a = LDeleted -> del id (ar_owner_id r) t = (Ok tt, t).
Proof.
  intros Hr Ha Hd. unfold del, delete_activity, load_activity. run.
  rewrite (find_readable _ _ _ _ Hr Ha). simpl. destruct (row_owner _ _ Ha) as (-> & _).
  rewrite N.eqb_refl. simpl. by rewrite Hd.
Qed.

(** What the update writes over the row. *)
Definition deleted_row (r : ActivityRow) (a : Activity) : ActivityRow :=
  mkActivityRow (ar_id r) (ar_owner_id r) (title_str (ac_title a))
    (type_display (ac_activity_type a)) (lit "deleted") (ac_started_at a) (ac_ended_at a)
    (ac_recorded_summary a) (ac_corrected_summary a) (ac_current_route_version_id a)
    (ar_created_at r) now.

Lemma delete_owned id r t a :
  t !! id = Some r -> ar_id r = id -> row_to_activity (E := ActivityCatalogError) r = Ok a ->
  ac_lifecycle_state a <> LDeleted ->
  del id (ar_owner_id r) t = (Ok tt, <[id := deleted_row r a]> t).
Proof.
  intros Hr Hid Ha Hd. unfold del, delete_activity, load_activity. run.
  rewrite (find_readable _ _ _ _ Hr Ha). simpl. destruct (row_owner _ _ Ha) as (-> & Hai & _).
  rewrite N.eqb_refl, bool_decide_eq_false_2 by done. simpl. unfold pg_update_activity. run.
  change (audit_best_effort ?x ?y ?z) with (audit_best_effort x y z).
  rewrite audit_quiet. f_equal. apply map_eq. intros j.
  rewrite Hai, Hid. destruct (decide (j = id)) as [->|Hne].
  - by rewrite lookup_alter_eq, Hr, lookup_insert_eq.
  - by rewrite lookup_alter_ne, lookup_insert_ne by done.
Qed.
End commands.

(** ** Properties *)

(** The base64 of cursors loses nothing: every Rust string encodes, without
    panicking, to a text that decodes to the same string. *)
Theorem base64_decode_encode s :
  valid_str s -> exists text, base64_encode s = Ok text /\ base64_decode text = Ok s.
Proof. apply base64_roundtrip. Qed.

Lemma base64_decode_encode_witness :
  exists text, base64_encode [233%N; 8364%N; 128507%N] = Ok text /\
               base64_decode text = Ok [233%N; 8364%N; 128507%N].
Proof. apply base64_decode_encode. by repeat constructor. Defined.

(** Codecs for the witness: numbers as single-element texts, a payload as the
    binary digits of its code. *)
Definition payload_code (p : CursorPayload) : positive := encode (cp_started_at p, cp_id p).
Fixpoint digits (p : positive) : rstr :=
  match p with xH => [] | xO q => 48%N :: digits q | xI q => 49%N :: digits q end.
Fixpoint undigits (s : rstr) : positive :=
  match s with [] => xH | c :: s' => if (c =? 48)%N then xO (undigits s') else xI (undigits s') end.

#[local] Instance sample_json : CursorJson := {|
  cursor_to_string := fun p => digits (payload_code p);
  cursor_from_str := fun s => (fun c => mkCursor c.1 c.2) <$> decode (undigits s) |}.
#[local] Instance sample_text : CursorText := {|
  uuid_to_string := fun u => [u];
  parse_uuid := head;
  to_rfc3339 := fun t => [Npos (encode t)];
  parse_rfc3339 := fun s => match s with Npos p :: _ => decode p | _ => None end |}.

Lemma undigits_digits p : undigits (digits p) = p.
Proof. induction p; simpl; by f_equal. Qed.

#[local] Instance sample_laws : CursorLaws.
Proof.
  split.
  - intros [s i]. simpl. rewrite undigits_digits. unfold payload_code. by rewrite decode_encode.
  - intros p. simpl. induction (payload_code p); simpl; by constructor.
  - done.
  - intros t. unfold to_rfc3339, parse_rfc3339, sample_text. by rewrite decode_encode.
Qed.

Definition hike_row (id : uuid) (start : option datetime) : ActivityRow :=
  mkActivityRow id 5 (lit "Hike") (lit "hike") (lit "active") start None None None None 0 0.
Definition two_hikes : gmap N ActivityRow :=
  {[ 1%N := hike_row 1 (Some 10%Z); 2%N := hike_row 2 None ]}.

(** C40: paging is complete.  Starting without a cursor and following the cursor
    of each page, whatever the page size from 1 to [MAX_PAGE_SIZE], a user gets
    every activity of theirs that is not deleted exactly once, newest start
    first and those without a start last, and then no further cursor, provided
    the parsers invert the printers and every stored title can be read. *)
Theorem pagination_complete `{CursorLaws} owner p t :
  table_ids t -> (1 <= p <= MAX_PAGE_SIZE)%N -> Forall readable (listing owner t) ->
  exists items, walk (S (length (listing owner t))) owner None p t = Some items /\
                activities_of (listing owner t) items.
Proof.
  intros Hids Hp Hr.
  destruct (walk_suffix owner t p (S (length (listing owner t))) 0 None None) as (items & Hw & HF);
    [done|done|done|done|apply listing_after_none|rewrite drop_0; lia|].
  rewrite drop_0 in HF. eauto.
Qed.

Lemma pagination_complete_witness :
  exists items, walk (S (length (listing 5 two_hikes))) 5 None 1 two_hikes = Some items /\
                activities_of (listing 5 two_hikes) items.
Proof.
  apply (pagination_complete 5 1 two_hikes).
  - unfold two_hikes. repeat (apply map_Forall_insert_2; [done|]). apply map_Forall_empty.
  - by vm_compute.
  - apply Forall_forall. intros r (Hr & _)%elem_of_listing.
    apply elem_of_rows_in in Hr as [i Hi]. unfold two_hikes in Hi.
    apply lookup_insert_Some in Hi as [[_ <-]|[_ Hi]]; [by eexists|].
    apply lookup_singleton_Some in Hi as [_ <-]. by eexists.
Defined.

(** What a title does to its text.  A blank text is refused, a text of at
    most 500 bytes is kept without its surrounding blanks, and a longer one is
    cut to the prefix of exactly 500 bytes.  When no prefix has that length,
    because a character straddles byte 500, the constructor does not return a
    title or an error: it panics. *)
Theorem activity_title_cases v :
  (trim v = [] /\ exists m, ActivityTitle_new v = Err (InvalidTitle m)) \/
  (trim v <> [] /\ (str_len (trim v) <= 500)%N /\ ActivityTitle_new v = Ok (mkTitle (trim v))) \/
  (exists k, str_len (take k (trim v)) = 500%N /\ (500 < str_len (trim v))%N /\
     ActivityTitle_new v = Ok (mkTitle (take k (trim v)))) \/
  ((500 < str_len (trim v))%N /\ ~ cut_exists (trim v) 500 /\ ActivityTitle_new v = Panicked).
Proof.
  unfold ActivityTitle_new. destruct (trim v) as [|c s] eqn:Ht; [left; simpl; eauto|].
  rewrite <- Ht in *. replace (is_empty (trim v)) with false by (by rewrite Ht).
  unfold MAX_TITLE_LENGTH. destruct (N.ltb_spec 500 (str_len (trim v))).
  - do 2 right. destruct (slice_to_spec (E := ActivityCatalogError) (trim v) 500)
      as [(t & k & -> & -> & Hl)|[-> Hno]]; run; [left; by exists k|by right].
  - right. left. split; [by rewrite Ht|]. done.
Qed.

(** A title the importer can store but the listing cannot read: 499 letters and
    a two-byte character. *)
Lemma long_title_breaks_listing :
  let r := mkActivityRow 1 5 (replicate 499 97%N ++ [233%N; 97%N]) (lit "hike") (lit "active")
             None None None None None 0 0 in
  fst (pg_list_activities 5 None 25 {[ 1%N := r ]}) = Panicked.
Proof. vm_compute. reflexivity. Qed.

(** Deleting is authorised, final and idempotent.  An unknown activity is
    not found and somebody else's is refused, with the table unchanged; the
    owner's activity is marked deleted and no other row is touched; afterwards
    nobody can read it and deleting it again succeeds without a change. *)
Theorem delete_activity_correct `{CursorJson} `{CursorText} `{AuditSink (gmap N ActivityRow)}
    `{UuidDisplay} now duplicate id user (t : gmap N ActivityRow) :
  quiet_audit -> table_ids t ->
  let repo := PgActivityRepository now duplicate in
  match t !! id with
  | None => delete_activity now id user t = (Err CActivityNotFound, t)
  | Some r => forall a, row_to_activity (E := ActivityCatalogError) r = Ok a ->
      if (ar_owner_id r =? user)%N then
        exists t', delete_activity now id user t = (Ok tt, t') /\
          (forall j, j <> id -> t' !! j = t !! j) /\
          (forall reader, get_activity id reader t' = (Err CActivityNotFound, t')) /\
          delete_activity now id user t' = (Ok tt, t')
      else delete_activity now id user t = (Err CUnauthorized, t)
  end.
Proof.
  intros Hq Hids repo. destruct (t !! id) as [r|] eqn:Hr.
  - intros a Ha. destruct (row_owner now duplicate Hq r a Ha) as (Ho & Hi & Hl).
    destruct (N.eqb_spec (ar_owner_id r) user) as [<-|Hne];
      [|by apply (delete_unowned now duplicate Hq id user r t a)].
    destruct (decide (ac_lifecycle_state a = LDeleted)) as [Hd|Hd].
    + exists t. split_and!; [by apply (delete_deleted now duplicate Hq id r t a)|done| |
        by apply (delete_deleted now duplicate Hq id r t a)].
      intros reader. by apply (get_deleted now duplicate Hq id r t a).
    + set (r' := deleted_row now r a). set (t' := <[id := r']> t).
      assert (t' !! id = Some r') as Hr' by apply lookup_insert_eq.
      destruct (short_row_readable r' (row_title_short r a Ha)) as [a' Ha'].
      destruct (row_owner now duplicate Hq r' a' Ha') as (_ & _ & Hl').
      exists t'. split_and!.
      * apply (delete_owned now duplicate Hq id r t a); [done|by apply Hids|done|done].
      * intros j Hj. by apply lookup_insert_ne.
      * intros reader. by apply (get_deleted now duplicate Hq id r' t' a').
      * by apply (delete_deleted now duplicate Hq id r' t' a').
  - unfold delete_activity, load_activity. run.
    by rewrite (find_missing now duplicate Hq id t Hr).
Qed.

#[local] Instance silent_audit : AuditSink (gmap N ActivityRow) := fun _ _ _ _ t => (Ok tt, t).
#[local] Instance plain_uuid : UuidDisplay := display_N.

Lemma two_hikes_ids : table_ids two_hikes.
Proof. unfold two_hikes. repeat (apply map_Forall_insert_2; [done|]). apply map_Forall_empty. Qed.

Lemma delete_activity_correct_witness :
  delete_activity (H := PgActivityRepository 9 []) 9 1 6 two_hikes = (Err CUnauthorized, two_hikes).
Proof.
  refine (delete_activity_correct 9 [] 1 6 two_hikes _ two_hikes_ids _ eq_refl).
  intros actor action kind id t. by exists (Ok tt).
Defined.
