(* ===== verification/ImportHandlers.v ===== *)
(** The import use cases, crates/app/src/imports: starting an import and
    completing its upload (commands.rs), and the processing of a queued import
    by the worker (orchestrator.rs), with the data of the commit (commit.rs).
    SHA-256, the object store, the XML reader, dates and identifiers are
    parameters. *)
From S2P Require Import Prelude Float64 RustString RustVec Utf8 RecordedActivity.
From S2P Require Import RouteVersioning ActivityCatalog GpxParser Imports.

(** ** Commands *)

Definition MAX_FILE_SIZE_BYTES : N := 50 * 1024 * 1024.
Definition ALLOWED_CONTENT_TYPES : list rstr :=
  [lit "application/gpx+xml"; lit "application/xml"].

Definition content_type_allowed (c : rstr) : bool := bool_decide (c ∈ ALLOWED_CONTENT_TYPES).

Record StartImportCommand := mkStartImport {
  si_owner_id : uuid;
  si_idempotency_key : rstr;
  si_filename : rstr;
  si_content_type : rstr;
  si_file_size_bytes : N }.

Record StartImportResult := mkStartResult { sr_import : Import; sr_upload_url : rstr }.

Record CompleteUploadCommand := mkCompleteUpload {
  cu_import_id : uuid; cu_owner_id : uuid; cu_checksum : rstr }.

Record UploadMetadata := mkUploadMetadata {
  um_content_length : N; um_content_type : option rstr }.

Class UploadUrlGenerator (S : Type) := generate_upload_url : rstr -> eff S ImportError rstr.
Class UploadVerifier (S : Type) := verify_upload : rstr -> eff S ImportError UploadMetadata.

(** The bytes that are hashed: the file name, the content type and the size,
    separated by NUL. *)
Definition payload_preimage (filename content_type : rstr) (file_size_bytes : N) : bytes :=
  as_bytes filename ++ [0%N] ++ as_bytes content_type ++ [0%N] ++ u64_to_le_bytes file_size_bytes.

Definition compute_payload_hash `{Sha256} (filename content_type : rstr) (size : N) : rstr :=
  sha256_hex (payload_preimage filename content_type size).

Definition storage_key `{UuidDisplay} (owner import : uuid) : rstr :=
  lit "imports/" ++ uuid_display owner ++ lit "/" ++ uuid_display import.

Section commands.
Context {S : Type} `{ImportRepository S} `{UploadUrlGenerator S} `{UploadVerifier S}
  `{Sha256} `{UuidDisplay} `{UnicodeLower}.

(** The three checks before the store is touched. *)
Definition validate_start (cmd : StartImportCommand) : result ImportError unit :=
  guard_err (MAX_FILE_SIZE_BYTES <? si_file_size_bytes cmd)%N UploadTooLarge;;
  guard_err (negb (content_type_allowed (si_content_type cmd))) InvalidMediaType;;
  guard_err (is_empty (trim (si_filename cmd)))
    (ValidationFailed (lit "filename must not be empty")).

Definition handle_start_import (new_id : uuid) (now : datetime) (cmd : StartImportCommand)
    : eff S ImportError StartImportResult :=
  lift (validate_start cmd);;
  let payload_hash := compute_payload_hash (si_filename cmd) (si_content_type cmd)
                        (si_file_size_bytes cmd) in
  found ← find_by_idempotency_key (si_owner_id cmd) (si_idempotency_key cmd);
  match found with
  | Some existing =>
      lift (match im_payload_hash existing with
            | Some stored_hash =>
                guard_err (negb (bool_decide (stored_hash = payload_hash)))
                  IdempotencyPayloadMismatch
            | None => Ok tt
            end);;
      upload_url ← generate_upload_url (storage_key (si_owner_id cmd) (im_id existing));
      mret (mkStartResult existing upload_url)
  | None =>
      import ← lift (new_import new_id now (si_owner_id cmd) Gpx (si_idempotency_key cmd)
                       (Some payload_hash));
      let '(r, import) := start_upload now import in
      lift r;;
      upload_url ← generate_upload_url (storage_key (si_owner_id cmd) (im_id import));
      save import;;
      mret (mkStartResult import upload_url)
  end.

(** [import.fail(reason).map_err(|_| e)?; repo.update(&import).await?;
    return Err(e)]. *)
Definition fail_and_return {A} (now : datetime) (import : Import) (reason : rstr)
    (e : ImportError) : eff S ImportError A :=
  let '(r, import) := fail now reason import in
  lift (map_err (fun _ => e) r);;
  update import;;
  throw e.

(** The outcome of verifying the upload, storage errors left for a retry. *)
Definition verified_metadata (now : datetime) (cmd : CompleteUploadCommand) (import : Import)
    : eff S ImportError UploadMetadata :=
  r ← attempt (verify_upload (storage_key (cu_owner_id cmd) (cu_import_id cmd)));
  match r with
  | Ok meta => mret meta
  | Err (StorageError _) => throw (StorageError (lit "storage temporarily unavailable"))
  | Err ObjectNotFound =>
      fail_and_return now import (lit "upload not found in storage") ObjectNotFound
  | Err other => fail_and_return now import (import_error_display other) other
  | Panicked => panic
  end.

Definition check_metadata (now : datetime) (import : Import) (m : UploadMetadata)
    : eff S ImportError unit :=
  if (MAX_FILE_SIZE_BYTES <? um_content_length m)%N then
    fail_and_return now import (lit "upload too large") UploadTooLarge
  else if (um_content_length m =? 0)%N then
    fail_and_return now import (lit "upload is empty") (ValidationFailed (lit "upload is empty"))
  else match um_content_type m with
       | Some c => if content_type_allowed c then mret tt
                   else fail_and_return now import (lit "invalid media type") InvalidMediaType
       | None => mret tt
       end.

Definition handle_complete_upload (new_artifact_id : uuid) (now : datetime)
    (cmd : CompleteUploadCommand) : eff S ImportError Import :=
  checksum ← lift (Checksum_new (cu_checksum cmd));
  found ← find_by_id (cu_import_id cmd);
  import ← lift (ok_or found NotFound);
  lift (guard_err (negb (im_owner_id import =? cu_owner_id cmd)%N) Unauthorized);;
  lift (guard_err (negb (bool_decide (im_status import = Uploading)))
          (InvalidTransition (status_display (im_status import)) (lit "uploaded")));;
  metadata ← verified_metadata now cmd import;
  check_metadata now import metadata;;
  let '(r, import) := complete_upload now new_artifact_id checksum import in
  lift r;;
  update import;;
  mret import.

Definition handle_get_import (import_id owner_id : uuid) : eff S ImportError Import :=
  found ← find_by_id import_id;
  import ← lift (ok_or found NotFound);
  lift (guard_err (negb (im_owner_id import =? owner_id)%N) NotFound);;
  mret import.
End commands.

(** ** Commit data *)

Record ImportCommitData := mkImportCommit {
  icd_owner_id : uuid;
  icd_import_id : uuid;
  icd_correlation_id : uuid;
  icd_source_artifact_id : uuid;
  icd_object_storage_key : rstr;
  icd_content_type : rstr;
  icd_file_size_bytes : Z;
  icd_checksum : rstr;
  icd_source_revision_id : uuid;
  icd_revision_number : Z;
  icd_parser_version : rstr;
  icd_recorded_track_id : uuid;
  icd_segments : list TrackSegment;
  icd_bounding_box : BoundingBox;
  icd_statistics : RecordedStatistics;
  icd_preview_geometry : list Coordinate;
  icd_activity_id : uuid;
  icd_activity_title : rstr;
  icd_activity_type : ActivityType;
  icd_started_at : option datetime;
  icd_ended_at : option datetime;
  icd_route_version_id : uuid;
  icd_corrected_statistics : CorrectedStatistics }.

Class CommitImport (S : Type) := commit : ImportCommitData -> eff S ImportError uuid.
Class ObjectStore (S : Type) := download : rstr -> eff S ImportError bytes.

(** ** Orchestrator *)

Definition PARSER_VERSION : rstr := lit "1.0.0".

Inductive ImportProcessingResult : Type :=
| ProcessingCompleted (activity_id : uuid) (file_size_bytes point_count : N)
| ProcessingDuplicate (existing_import_id : uuid) (existing_activity_id : option uuid).

(** The identifiers one run of the orchestrator may generate. *)
Record FreshIds := mkFreshIds {
  fresh_activity : uuid; fresh_artifact : uuid; fresh_revision : uuid; fresh_track : uuid;
  fresh_version : uuid; fresh_recorded_track : uuid }.

Section orchestrator.
Context {S : Type} `{ImportRepository S} `{ObjectStore S} `{CheckDuplicate S} `{CommitImport S}
  `{Sha256} `{UuidDisplay} `{UnicodeLower} `{XmlReader} `{DateTimeParser} `{Libm}
  `{DebugStrings}.

(** [import.fail_with_code(reason, code)?; repo.update(&import).await?;
    return Err(e)]. *)
Definition fail_import {A} (now : datetime) (import : Import) (reason : rstr) (code : FailureCode)
    (e : ImportError) : eff S ImportError A :=
  let '(r, import) := fail_with_code now reason code import in
  lift r;;
  update import;;
  throw e.

(** Step 1: load the import, require [Queued], move it to [Parsing]. *)
Definition begin_parsing (now : datetime) (import_id : uuid) : eff S ImportError Import :=
  found ← find_by_id import_id;
  import ← lift (ok_or found NotFound);
  lift (guard_err (negb (bool_decide (im_status import = Queued)))
          (InvalidTransition (status_display (im_status import)) (lit "parsing")));;
  let '(r, import) := start_parsing now import in
  lift r;;
  update import;;
  mret import.

(** Steps 2 and 3: download the file and verify its checksum; the file and its
    hash. *)
Definition fetch_verified (now : datetime) (import : Import) (key : rstr)
    : eff S ImportError (bytes * rstr) :=
  r ← attempt (download key);
  file_bytes ← match r with
               | Ok b => mret b
               | Err e => fail_import now import
                   (lit "failed to download file: " ++ import_error_display e)
                   StorageUnavailable e
               | Panicked => panic
               end;
  let computed_hash := sha256_hex file_bytes in
  stored ← lift (ok_or (im_checksum import)
                   (ValidationFailed (lit "import has no stored checksum")));
  if bool_decide (computed_hash = checksum_str stored) then mret (file_bytes, computed_hash)
  else fail_import now import
         (lit "checksum mismatch: expected " ++ checksum_str stored ++ lit ", got " ++ computed_hash)
         CodeChecksumMismatch (ChecksumMismatch (checksum_str stored) computed_hash).

(** Step 4: parse. *)
Definition parse_file (now : datetime) (import : Import) (file_bytes : bytes)
    : eff S ImportError GpxParseResult :=
  match parse_gpx file_bytes with
  | Ok r => mret r
  | Err e =>
      let reason := lit "parsing failed: " ++ pe_message e ++ lit " (" ++ code_display (pe_code e)
                      ++ lit ")" in
      fail_import now import reason ParseError (ParsingFailed reason)
  | Panicked => panic
  end.

(** Step 6: a duplicate completes the import with a reference. *)
Definition finish_duplicate (now : datetime) (import : Import) (existing_import_id : uuid)
    (existing_activity_id : option uuid) : eff S ImportError ImportProcessingResult :=
  let import := set_activity existing_activity_id import in
  let '(r, import) := start_committing now import in
  lift r;;
  let '(r, import) := complete now import in
  lift r;;
  update import;;
  mret (ProcessingDuplicate existing_import_id existing_activity_id).

(** Step 7: normalise. *)
Definition normalize_file (now : datetime) (ids : FreshIds) (import : Import)
    (parse_result : GpxParseResult) : eff S ImportError NormalizedTrack :=
  match normalize_gpx (fresh_recorded_track ids) parse_result with
  | Ok n => mret n
  | Err e =>
      let reason := lit "normalization failed: " ++ recorded_error_display e in
      fail_import now import reason ParseError (ParsingFailed reason)
  | Panicked => panic
  end.

(** The commit data of step 9. *)
Definition build_commit_data (ids : FreshIds) (import : Import) (owner_id import_id : uuid)
    (key : rstr) (correlation_id : uuid) (file_bytes : bytes) (computed_hash : rstr)
    (n : NormalizedTrack) (route_version : RouteVersion) (stats : CorrectedStatistics)
    : ImportCommitData :=
  mkImportCommit owner_id import_id correlation_id
    (default (fresh_artifact ids) (im_source_artifact_id import)) key
    (lit "application/gpx+xml") (i64_of (Z.of_N (len file_bytes))) computed_hash
    (fresh_revision ids) 1 PARSER_VERSION (fresh_track ids)
    (rt_segments (nt_recorded_track n)) (rt_bounding_box (nt_recorded_track n))
    (rt_statistics (nt_recorded_track n)) (nt_preview_geometry n) (fresh_activity ids)
    (default (lit "Imported Activity") (nt_suggested_title n)) Hike (nt_started_at n)
    (nt_ended_at n) (rv_id route_version) stats.

(** Steps 8 and 9: move to [Committing] and commit; a failed commit fails the
    import, as far as that can be stored. *)
Definition commit_import (now : datetime) (ids : FreshIds) (import : Import)
    (owner_id import_id : uuid) (key : rstr) (correlation_id : uuid) (file_bytes : bytes)
    (computed_hash : rstr) (n : NormalizedTrack) : eff S ImportError ImportProcessingResult :=
  let '(r, import) := start_committing now import in
  lift r;;
  update import;;
  let stats := calculate_from_geometry (nt_preview_geometry n) in
  route_version ← lift (map_err
    (fun e => ValidationFailed (lit "route version validation failed: " ++ versioning_error_display e))
    (new_initial (fresh_version ids) now (fresh_activity ids) (nt_preview_geometry n)
       (rt_bounding_box (nt_recorded_track n)) stats PARSER_VERSION owner_id));
  let data := build_commit_data ids import owner_id import_id key correlation_id file_bytes
                computed_hash n route_version stats in
  outcome ← attempt (commit data);
  match outcome with
  | Ok _ => mret (ProcessingCompleted (fresh_activity ids) (u64_wrap (len file_bytes))
                    (point_count (rt_statistics (nt_recorded_track n))))
  | Err e =>
      let '(_, import) := fail_with_code now (lit "commit failed: " ++ import_error_display e)
                            InternalError import in
      attempt (F := ImportError) (update import);;
      throw e
  | Panicked => panic
  end.

Definition process_import (now : datetime) (ids : FreshIds) (import_id owner_id : uuid)
    (key : rstr) (correlation_id : uuid) : eff S ImportError ImportProcessingResult :=
  import ← begin_parsing now import_id;
  fetched ← fetch_verified now import key;
  let '(file_bytes, computed_hash) := fetched in
  parse_result ← parse_file now import file_bytes;
  checksum ← lift (Checksum_new computed_hash);
  dup_result ← check owner_id checksum;
  match dup_result with
  | ExactDuplicate existing_import_id existing_activity_id =>
      finish_duplicate now import existing_import_id existing_activity_id
  | NotDuplicate =>
      normalized ← normalize_file now ids import parse_result;
      commit_import now ids import owner_id import_id key correlation_id file_bytes computed_hash
        normalized
  end.
End orchestrator.
