(* ===== verification/ImportPersistence.v ===== *)
(** The import repository: the contract its clients rely on, and the PostgreSQL
    implementation of crates/infrastructure/src/import_persistence.rs over the
    table of migrations/20250102000001_create_imports_tables.sql, which meets it. *)
From S2P Require Import Prelude Float64 RustString Imports ImportTheory.

(** ** The contract *)

(** Two versions of one import: what an update never changes. *)
Definition same_identity (i j : Import) : Prop :=
  im_id i = im_id j /\ im_owner_id i = im_owner_id j /\ im_format i = im_format j /\
  im_idempotency_key i = im_idempotency_key j /\ im_payload_hash i = im_payload_hash j /\
  im_created_at i = im_created_at j.

(** A checksum that [Checksum::new] accepts as it stands. *)
Definition checksum_ok `{UnicodeLower} (i : Import) : Prop :=
  forall c, im_checksum i = Some c -> Checksum_new (checksum_str c) = Ok c.

(** A repository shows a map of imports.  Reads do not change it; a write either
    fails and leaves it alone or has its effect, on the import it is about and no
    other; whatever fails, fails with a storage error. *)
Class ImportRepositoryLaws (S : Type) `{ImportRepository S} `{UnicodeLower} := {
  imports : S -> gmap N Import;
  find_by_id_law : forall id s,
    find_by_id id s = (Ok (imports s !! id), s) \/
    (exists m, find_by_id id s = (Err (StorageError m), s));
  find_by_key_law : forall owner key s,
    (exists m, find_by_idempotency_key owner key s = (Err (StorageError m), s)) \/
    (exists o, find_by_idempotency_key owner key s = (Ok o, s) /\
       match o with
       | Some i => exists id, imports s !! id = Some i /\
                     im_owner_id i = owner /\ im_idempotency_key i = key
       | None => forall id i, imports s !! id = Some i ->
                   im_owner_id i = owner -> im_idempotency_key i <> key
       end);
  save_law : forall i s, checksum_ok i ->
    (exists m, save i s = (Err (StorageError m), s)) \/
    (exists s', save i s = (Ok tt, s') /\ imports s !! im_id i = None /\
       imports s' = <[im_id i := i]> (imports s));
  update_law : forall i old s,
    imports s !! im_id i = Some old -> same_identity old i -> checksum_ok i ->
    (exists m, update i s = (Err (StorageError m), s)) \/
    (exists s', update i s = (Ok tt, s') /\ imports s' = <[im_id i := i]> (imports s)) }.

(** ** Rows *)

Record ImportRow := mkImportRow {
  ir_id : uuid;
  ir_owner_id : uuid;
  ir_source_artifact_id : option uuid;
  ir_format : rstr;
  ir_status : rstr;
  ir_checksum : option rstr;
  ir_failure_reason : option rstr;
  ir_failure_code : option rstr;
  ir_idempotency_key : rstr;
  ir_payload_hash : option rstr;
  ir_activity_id : option uuid;
  ir_created_at : datetime;
  ir_updated_at : datetime }.

Definition parse_status (s : rstr) : ImportStatus :=
  if decide (s = lit "requested") then Requested
  else if decide (s = lit "uploading") then Uploading
  else if decide (s = lit "uploaded") then Uploaded
  else if decide (s = lit "validating") then Validating
  else if decide (s = lit "queued") then Queued
  else if decide (s = lit "parsing") then Parsing
  else if decide (s = lit "committing") then Committing
  else if decide (s = lit "completed") then Completed
  else if decide (s = lit "failed") then Failed
  else if decide (s = lit "cancelled") then Cancelled
  else Failed.

Definition row_to_import `{UnicodeLower} (r : ImportRow) : Import :=
  mkImport (ir_id r) (ir_owner_id r) (ir_source_artifact_id r)
    Gpx (* both arms of the match on the format *)
    (parse_status (ir_status r))
    (ir_checksum r ≫= fun c => match Checksum_new c with Ok k => Some k | _ => None end)
    (ir_failure_reason r) (ir_failure_code r ≫= parse_failure_code) (ir_idempotency_key r)
    (ir_payload_hash r) (ir_activity_id r) (ir_created_at r) (ir_updated_at r).

(** The bindings of the INSERT. *)
Definition import_row (i : Import) : ImportRow :=
  mkImportRow (im_id i) (im_owner_id i) (im_source_artifact_id i) (format_display (im_format i))
    (status_display (im_status i)) (checksum_str <$> im_checksum i) (im_failure_reason i)
    (as_str <$> im_failure_code i) (im_idempotency_key i) (im_payload_hash i) (im_activity_id i)
    (im_created_at i) (im_updated_at i).

(** The SET clause of the UPDATE. *)
Definition updated_row (i : Import) (r : ImportRow) : ImportRow :=
  mkImportRow (ir_id r) (ir_owner_id r) (im_source_artifact_id i) (ir_format r)
    (status_display (im_status i)) (checksum_str <$> im_checksum i) (im_failure_reason i)
    (as_str <$> im_failure_code i) (ir_idempotency_key r) (ir_payload_hash r) (im_activity_id i)
    (ir_created_at r) (im_updated_at i).

(** ** The table and its constraints *)

Abbreviation import_table := (gmap N ImportRow) (only parsing).

(** UNIQUE(owner_id, idempotency_key), and the partial unique index on
    (owner_id, checksum) of completed imports, where NULLs are distinct. *)
Definition keys_unique (t : import_table) : Prop :=
  map_Forall (fun i r => map_Forall (fun j r' =>
    ir_owner_id r = ir_owner_id r' /\ ir_idempotency_key r = ir_idempotency_key r' -> i = j) t) t.
Definition completed_unique (t : import_table) : Prop :=
  map_Forall (fun i r => map_Forall (fun j r' =>
    (ir_owner_id r = ir_owner_id r' /\ ir_status r = lit "completed" /\
     ir_status r' = lit "completed" /\ ir_checksum r = ir_checksum r' /\ ir_checksum r <> None)
    -> i = j) t) t.

Definition constraints_ok (t : import_table) : Prop := keys_unique t /\ completed_unique t.

#[export] Instance constraints_ok_dec t : Decision (constraints_ok t).
Proof. unfold constraints_ok, keys_unique, completed_unique. apply _. Defined.

Section postgres.
Context `{UnicodeLower} (violation : rstr) (now : datetime).

Definition commit_table (t : import_table) : eff import_table ImportError unit :=
  if decide (constraints_ok t) then put t else throw (StorageError violation).

Definition pg_save (i : Import) : eff import_table ImportError unit :=
  t ← get;
  match t !! im_id i with
  | Some _ => throw (StorageError violation)
  | None => commit_table (<[im_id i := import_row i]> t)
  end.

Definition pg_find_by_id (id : uuid) : eff import_table ImportError (option Import) :=
  t ← get; mret (row_to_import <$> t !! id).

(** The first row of the query; the constraint leaves at most one. *)
Definition rows_where (p : ImportRow -> bool) (t : import_table) : list ImportRow :=
  List.filter p (map snd (map_to_list t)).

Definition pg_find_by_idempotency_key (owner : uuid) (key : rstr)
    : eff import_table ImportError (option Import) :=
  t ← get;
  mret (row_to_import <$> head (rows_where (fun r =>
    bool_decide (ir_owner_id r = owner) && bool_decide (ir_idempotency_key r = key)) t)).

Definition pg_find_completed_by_checksum (owner : uuid) (c : Checksum)
    : eff import_table ImportError (option (uuid * option uuid)) :=
  t ← get;
  mret ((fun r => (ir_id r, ir_activity_id r)) <$> head (rows_where (fun r =>
    bool_decide (ir_owner_id r = owner) && bool_decide (ir_checksum r = Some (checksum_str c)) &&
    bool_decide (ir_status r = lit "completed")) t)).

Definition pg_update (i : Import) : eff import_table ImportError unit :=
  t ← get; commit_table (alter (updated_row i) (im_id i) t).

Definition pg_find_abandoned (timeout : Z) : eff import_table ImportError (list Import) :=
  t ← get;
  let threshold := (now - timeout)%Z in
  mret (map row_to_import (rows_where (fun r =>
    bool_decide (ir_status r ∈ [lit "validating"; lit "queued"; lit "parsing"; lit "committing"])
    && (ir_updated_at r <? threshold)%Z) t)).

#[export] Instance PgImportRepository : ImportRepository import_table := {|
  save := pg_save;
  find_by_id := pg_find_by_id;
  find_by_idempotency_key := pg_find_by_idempotency_key;
  find_completed_by_checksum := pg_find_completed_by_checksum;
  update := pg_update;
  find_abandoned := pg_find_abandoned |}.

(** ** The implementation meets the contract *)

Lemma parse_status_display s : parse_status (status_display s) = s.
Proof. by destruct s. Qed.

Lemma parse_failure_code_as_str c : parse_failure_code (as_str c) = Some c.
Proof. by destruct c. Qed.

Lemma row_import_roundtrip i : checksum_ok i -> row_to_import (import_row i) = i.
Proof.
  intros Hc. destruct i as [? ? ? [] st k fr fc ? ? ? ? ?]. unfold row_to_import, import_row. simpl.
  rewrite parse_status_display. f_equal.
  - destruct k as [k|]; [|done]. simpl. by rewrite (Hc k eq_refl).
  - destruct fc; [|done]. simpl. by rewrite parse_failure_code_as_str.
Qed.

Lemma row_import_update i r :
  checksum_ok i -> same_identity (row_to_import r) i -> row_to_import (updated_row i r) = i.
Proof.
  intros Hc (H1 & H2 & H3 & H4 & H5 & H6). simpl in *.
  rewrite <- (row_import_roundtrip i Hc) at 2. unfold row_to_import, updated_row, import_row. simpl.
  congruence.
Qed.

Definition shown (t : import_table) : gmap N Import := row_to_import <$> t.

Lemma commit_table_cases t t0 :
  (constraints_ok t /\ commit_table t t0 = (Ok tt, t)) \/
  (exists m, commit_table t t0 = (Err (StorageError m), t0)).
Proof. unfold commit_table. case_decide; [left|right]; run; eauto. Qed.

Lemma elem_of_rows_where p t r : r ∈ rows_where p t <-> p r = true /\ exists i, t !! i = Some r.
Proof.
  unfold rows_where. rewrite list_elem_of_In, filter_In, <- list_elem_of_In, list_elem_of_fmap.
  split.
  - intros [([i r'] & -> & Hin) Hp]. split; [done|]. exists i. by apply elem_of_map_to_list in Hin.
  - intros [Hp [i Hi]]. split; [|done]. exists (i, r). split; [done|]. by apply elem_of_map_to_list.
Qed.

#[export] Program Instance PgImportRepositoryLaws : ImportRepositoryLaws import_table :=
  {| imports := shown |}.
Next Obligation. intros id t. left. simpl. unfold pg_find_by_id, shown. run. by rewrite lookup_fmap. Qed.
Next Obligation.
  intros owner key t. right. simpl. unfold pg_find_by_idempotency_key. run.
  eexists. split; [done|]. unfold shown.
  set (p := fun r : ImportRow => _). destruct (head (rows_where p t)) as [r|] eqn:Hh; simpl.
  - assert (r ∈ rows_where p t) as Hr by (by apply head_Some_elem_of).
    apply elem_of_rows_where in Hr as [Hp [i Hi]]. exists i. rewrite lookup_fmap, Hi.
    unfold p in Hp. to_prop. by simpl.
  - intros id i Hl Ho Hk. rewrite lookup_fmap in Hl. apply fmap_Some in Hl as (r & Hr & ->).
    assert (r ∈ rows_where p t) as Hin.
    { apply elem_of_rows_where. split; [|eauto]. unfold p. simpl in *.
      by rewrite !bool_decide_eq_true_2. }
    apply head_None in Hh. rewrite Hh in Hin. by apply elem_of_nil in Hin.
Qed.
Next Obligation.
  intros i t Hc. simpl. unfold pg_save, shown. run.
  destruct (t !! im_id i) as [r|] eqn:Hr; [left; eauto|].
  destruct (commit_table_cases (<[im_id i := import_row i]> t) t) as [[_ ->]|[e ->]]; [right|left; eauto].
  eexists. split; [done|]. rewrite lookup_fmap, Hr. split; [done|].
  by rewrite fmap_insert, row_import_roundtrip.
Qed.
Next Obligation.
  intros i old t Hold Hid Hc. simpl. unfold pg_update, shown in *. run.
  rewrite lookup_fmap in Hold. apply fmap_Some in Hold as (r & Hr & ->).
  destruct (commit_table_cases (alter (updated_row i) (im_id i) t) t) as [[_ ->]|[e ->]];
    [right|left; eauto].
  eexists. split; [done|]. apply map_eq. intros j. rewrite lookup_fmap.
  destruct (decide (j = im_id i)) as [->|Hne].
  - rewrite lookup_alter_eq, lookup_insert_eq, Hr. simpl. by rewrite row_import_update.
  - by rewrite lookup_alter_ne, lookup_insert_ne, lookup_fmap by done.
Qed.
End postgres.

(** ** A table that is part of a larger state *)

Section zoomed.
Context {S T : Type} (view : S -> T) (set_view : T -> S -> S).
Context (view_set : forall t s, view (set_view t s) = t) (set_same : forall s, set_view (view s) s = s).
Context `{lower : UnicodeLower} {repo : ImportRepository T} {laws : ImportRepositoryLaws T}.

Definition ZoomImportRepository : ImportRepository S := {|
  save i := zoom view set_view (save i);
  find_by_id id := zoom view set_view (find_by_id id);
  find_by_idempotency_key o k := zoom view set_view (find_by_idempotency_key o k);
  find_completed_by_checksum o c := zoom view set_view (find_completed_by_checksum o c);
  update i := zoom view set_view (update i);
  find_abandoned t := zoom view set_view (find_abandoned t) |}.

(** The laws carry over. *)
Program Definition ZoomImportRepositoryLaws
    : ImportRepositoryLaws (H := ZoomImportRepository) S := {| imports s := imports (view s) |}.
Next Obligation.
  intros id s. simpl. unfold zoom.
  destruct (find_by_id_law id (view s)) as [->|[m ->]]; rewrite set_same; eauto.
Qed.
Next Obligation.
  intros owner key s. simpl. unfold zoom.
  destruct (find_by_key_law owner key (view s)) as [[m ->]|(o & -> & Ho)]; rewrite set_same; eauto.
Qed.
Next Obligation.
  intros i s Hc. simpl. unfold zoom. destruct (save_law i (view s) Hc) as [[m ->]|(t & -> & Ht)];
    [rewrite set_same; eauto|right; eexists; by rewrite view_set].
Qed.
Next Obligation.
  intros i old s Hold Hid Hc. simpl. unfold zoom.
  destruct (update_law i old (view s) Hold Hid Hc) as [[m ->]|(t & -> & Ht)];
    [rewrite set_same; eauto|right; eexists; by rewrite view_set].
Qed.
End zoomed.
