(* ===== verification/ImportHandlerTheory.v ===== *)
(** What the import use cases of ImportHandlers.v guarantee, proved against the
    contract of the import repository: starting an import is idempotent,
    completing its upload follows the verdict on the uploaded object, and
    processing commits verified files only, once. *)
From S2P Require Import Prelude Float64 RustString RustVec Utf8 RecordedActivity.
From S2P Require Import RecordedActivityTheory RouteVersioning ActivityCatalog GpxParser Imports.
From S2P Require Import ImportTheory ImportHandlers ImportPersistence.
#[local] Set Default Proof Using "All".

(** A call that leaves the stored imports alone, whatever else it does. *)
Definition silent {S A} `{ImportRepositoryLaws S} (m : eff S ImportError A) : Prop :=
  forall s, imports (snd (m s)) = imports s.

Lemma silent_run {S A} `{ImportRepositoryLaws S} (m : eff S ImportError A) s r s' :
  silent m -> m s = (r, s') -> imports s' = imports s.
Proof. intros Hm Hr. specialize (Hm s). by rewrite Hr in Hm. Qed.

(** No two imports share an owner and an idempotency key. *)
Definition unique_keys (t : gmap N Import) : Prop :=
  forall a b i j, t !! a = Some i -> t !! b = Some j ->
    im_owner_id i = im_owner_id j -> im_idempotency_key i = im_idempotency_key j -> a = b.

(** [str::to_lowercase] leaves no upper-case ASCII letter. *)
Class UnicodeLowerLaw `{UnicodeLower} : Prop :=
  lower_ascii : forall v, is_ascii (unicode_lower v) = true ->
                  map ascii_lower (unicode_lower v) = unicode_lower v.

Lemma Checksum_new_fixed `{UnicodeLowerLaw} v k :
  Checksum_new v = Ok k -> Checksum_new (checksum_str k) = Ok k.
Proof.
  intros (-> & Hl & Hx)%Checksum_new_inv. simpl in *. pose proof (hex_is_ascii _ Hx) as Ha.
  assert (to_lowercase (to_lowercase v) = to_lowercase v) as Hi.
  { unfold to_lowercase in *. destruct (is_ascii v) eqn:Hv; rewrite Ha.
    - rewrite map_map. apply map_ext, ascii_lower_idem.
    - by apply lower_ascii. }
  unfold Checksum_new. rewrite Hi, (ascii_str_len _ Ha), Hx. unfold len. by rewrite Hl.
Qed.

(** ** Starting an import *)

Section start.
Context {S : Type} `{Laws : ImportRepositoryLaws S} `{UploadUrlGenerator S} `{Sha256} `{UuidDisplay}.
Context (Hurl : forall key, silent (generate_upload_url key)).

(** The hash the handler compares, of the request's payload. *)
Definition request_hash (cmd : StartImportCommand) : rstr :=
  compute_payload_hash (si_filename cmd) (si_content_type cmd) (si_file_size_bytes cmd).

(** An import that recorded no hash accepts every payload. *)
Definition same_payload (cmd : StartImportCommand) (i : Import) : Prop :=
  match im_payload_hash i with Some h => h = request_hash cmd | None => True end.

#[local] Instance same_payload_dec cmd i : Decision (same_payload cmd i).
Proof using Type. unfold same_payload. destruct (im_payload_hash i); apply _. Defined.

(** What a request that finds [i] under its key answers. *)
Definition replay (cmd : StartImportCommand) (i : Import) : eff S ImportError StartImportResult :=
  if decide (same_payload cmd i) then
    upload_url ← generate_upload_url (storage_key (si_owner_id cmd) (im_id i));
    mret (mkStartResult i upload_url)
  else throw IdempotencyPayloadMismatch.

Lemma start_import_found new_id now cmd s i :
  validate_start cmd = Ok tt ->
  find_by_idempotency_key (si_owner_id cmd) (si_idempotency_key cmd) s = (Ok (Some i), s) ->
  handle_start_import new_id now cmd s = replay cmd i s.
Proof.
  intros Hv Hf. unfold handle_start_import, replay. rewrite Hv. run. rewrite Hf.
  case_decide as Hp; unfold same_payload, request_hash in Hp;
    destruct (im_payload_hash i) as [h|]; [| |unfold guard_err|]; try done.
  - by rewrite Hp, bool_decide_eq_true_2.
  - by rewrite bool_decide_eq_false_2.
Qed.

Lemma replay_silent cmd i : silent (replay cmd i).
Proof.
  intros s. unfold replay. case_decide; [|done]. run.
  specialize (Hurl (storage_key (si_owner_id cmd) (im_id i)) s).
  by destruct (generate_upload_url _ s) as [[u|e|] s'].
Qed.

Lemma start_upload_fresh now i :
  im_status i = Requested ->
  start_upload now i = (Ok tt, touch_import now (set_status Uploading i)).
Proof. intros Hi. unfold start_upload, move_to. run. by rewrite Hi. Qed.

(** A request that succeeded: the import it answers with is stored, and was
    already there or has just been added under a fresh key. *)
Lemma start_import_ok new_id now cmd s r s' :
  handle_start_import new_id now cmd s = (Ok r, s') ->
  validate_start cmd = Ok tt /\ im_owner_id (sr_import r) = si_owner_id cmd /\
  im_idempotency_key (sr_import r) = si_idempotency_key cmd /\ same_payload cmd (sr_import r) /\
  ((imports s' = imports s /\ exists id, imports s !! id = Some (sr_import r)) \/
   (imports s !! new_id = None /\ imports s' = <[new_id := sr_import r]> (imports s) /\
    im_status (sr_import r) = Uploading /\
    forall id i, imports s !! id = Some i -> im_owner_id i = si_owner_id cmd ->
      im_idempotency_key i <> si_idempotency_key cmd)).
Proof.
  intros Hrun. assert (validate_start cmd = Ok tt) as Hv.
  { unfold handle_start_import in Hrun. run. by destruct (validate_start cmd) as [[]|e|]. }
  split; [done|].
  destruct (find_by_key_law (si_owner_id cmd) (si_idempotency_key cmd) s) as [[m Hf]|([i|] & Hf & Hi)].
  - unfold handle_start_import in Hrun. run. by rewrite Hv, Hf in Hrun.
  - rewrite (start_import_found _ _ _ _ _ Hv Hf) in Hrun. destruct Hi as (id & Hi & Ho & Hk).
    pose proof (replay_silent cmd i s) as Hs. rewrite Hrun in Hs. unfold replay in Hrun.
    case_decide; [|done]. apply eff_bind_inv in Hrun as (u & s1 & _ & [= <- <-]). simpl in *. eauto 10.
  - unfold handle_start_import in Hrun. run. rewrite Hv, Hf in Hrun.
    destruct (new_import _ _ _ _ _ _) as [i0| |] eqn:Hn; [|done..].
    unfold new_import in Hn. destruct (is_empty _); [done|]. injection Hn as Hi0.
    rewrite start_upload_fresh in Hrun by (by rewrite <- Hi0).
    set (i := touch_import now (set_status Uploading i0)) in *.
    destruct (generate_upload_url _ s) as [[u|e|] s1] eqn:Hu; [|done..].
    pose proof (silent_run _ _ _ _ (Hurl _) Hu) as Hs1.
    destruct (save_law i s1) as [[m Hm]|(s2 & Hm & Hnone & Hs2)]; [by subst i0|by rewrite Hm in Hrun|].
    rewrite Hm in Hrun. injection Hrun as <- <-. simpl. rewrite Hs1 in Hnone, Hs2.
    subst i i0. split_and!; try done. right. done.
Qed.

Lemma unique_keys_insert t id i :
  unique_keys t -> t !! id = None ->
  (forall j k, t !! j = Some k -> im_owner_id k = im_owner_id i ->
     im_idempotency_key k <> im_idempotency_key i) ->
  unique_keys (<[id := i]> t).
Proof using Type.
  intros Ht Hid Hk a b x y. destruct (decide (a = id)) as [-> | Ha], (decide (b = id)) as [-> | Hb];
    rewrite ?lookup_insert_eq, ?lookup_insert_ne by done; [done| | |eauto].
  - intros [= <-] Hy Ho Hke. exfalso. by apply (Hk b y).
  - intros Hx [= <-] Ho Hke. exfalso. by apply (Hk a x).
Qed.
End start.

(** ** Payload hashes *)

(** The text before the first NUL is determined. *)
Lemma nul_first_inj (c d a b : bytes) :
  0%N ∉ c -> 0%N ∉ d -> c ++ 0%N :: a = d ++ 0%N :: b -> c = d /\ a = b.
Proof.
  revert d. induction c as [|x c IH]; intros [|y d] Hc Hd; simpl; intros Heq.
  - by injection Heq.
  - injection Heq as <- _. set_solver.
  - injection Heq as -> _. set_solver.
  - injection Heq as <- Heq. destruct (IH d) as [-> ->]; [set_solver..|done|done].
Qed.

(** So is the text after the last one. *)
Lemma app_nul_inj (a b c d : bytes) :
  0%N ∉ c -> 0%N ∉ d -> a ++ 0%N :: c = b ++ 0%N :: d -> a = b /\ c = d.
Proof.
  intros Hc Hd Heq. apply (f_equal reverse) in Heq.
  rewrite !reverse_app, !reverse_cons, <- !app_assoc in Heq. simpl in Heq.
  apply nul_first_inj in Heq as [H1 H2]; [|by rewrite elem_of_reverse..].
  split; by apply (inj reverse).
Qed.

Lemma payload_preimage_inj f c n f' c' n' :
  valid_str f -> valid_str f' -> content_type_allowed c = true -> content_type_allowed c' = true ->
  (n < u64_modulus)%N -> (n' < u64_modulus)%N ->
  payload_preimage f c n = payload_preimage f' c' n' -> f = f' /\ c = c' /\ n = n'.
Proof.
  unfold payload_preimage, u64_to_le_bytes, content_type_allowed. intros Hf Hf' Hc Hc' Hn Hn' Heq. to_prop.
  assert (forall a b l : bytes, a ++ [0%N] ++ b ++ [0%N] ++ l = ((a ++ 0%N :: b) ++ [0%N]) ++ l)
    as Hshape by (intros; by rewrite <- !app_assoc).
  rewrite !Hshape in Heq. apply app_inj_2 in Heq as [Heq Hle]; [|by rewrite !length_le_bytes].
  apply le_bytes_inj in Hle; [|done..]. apply app_inj_2 in Heq as [Heq _]; [|done].
  assert (forall t, t ∈ ALLOWED_CONTENT_TYPES -> 0%N ∉ as_bytes t /\ valid_str t) as Hall.
  { intros t Ht. repeat (apply elem_of_cons in Ht as [-> | Ht]); [| |by apply elem_of_nil in Ht];
      (split; [by apply (bool_decide_unpack _); vm_compute|by repeat constructor]). }
  apply app_nul_inj in Heq as [H1 H2]; [|by apply Hall..].
  split_and!; [by apply as_bytes_inj| |done]. apply as_bytes_inj; [by apply Hall..|done].
Qed.

(** ** Completing an upload *)

(** What the uploaded object decides. *)
Inductive verdict : Type :=
| Accept
| Reject (reason : rstr) (e : ImportError)
| Retry
| Crash.

Definition upload_verdict (r : result ImportError UploadMetadata) : verdict :=
  match r with
  | Ok m =>
      if (MAX_FILE_SIZE_BYTES <? um_content_length m)%N
      then Reject (lit "upload too large") UploadTooLarge
      else if (um_content_length m =? 0)%N
      then Reject (lit "upload is empty") (ValidationFailed (lit "upload is empty"))
      else match um_content_type m with
           | Some c => if content_type_allowed c then Accept
                       else Reject (lit "invalid media type") InvalidMediaType
           | None => Accept
           end
  | Err (StorageError _) => Retry
  | Err ObjectNotFound => Reject (lit "upload not found in storage") ObjectNotFound
  | Err e => Reject (import_error_display e) e
  | Panicked => Crash
  end.

Definition failed (now : datetime) (reason : rstr) (i : Import) : Import :=
  touch_import now (set_failure (Some reason) (im_failure_code i) (set_status Failed i)).
Definition uploaded (now : datetime) (artifact : uuid) (k : Checksum) (i : Import) : Import :=
  touch_import now (set_source (Some artifact) (Some k) (set_status Uploaded i)).

Lemma fail_live now reason i :
  is_terminal (im_status i) = false -> fail now reason i = (Ok tt, failed now reason i).
Proof. intros Hi. unfold fail, move_to, failed. run. by destruct (im_status i). Qed.

Lemma complete_upload_live now artifact k i :
  im_status i = Uploading -> complete_upload now artifact k i = (Ok tt, uploaded now artifact k i).
Proof. intros Hi. unfold complete_upload, move_to. run. by rewrite Hi. Qed.

Section complete.
Context {S : Type} `{Laws : ImportRepositoryLaws S} `{UploadVerifier S} `{UuidDisplay}.
Context (Hverify : forall key, silent (verify_upload key)).

(** Writing a new version of a stored import, from a state that shows it. *)
Lemma update_run (i i' : Import) t s :
  imports s = t -> t !! im_id i = Some i -> im_id i' = im_id i -> same_identity i i' ->
  checksum_ok i' ->
  (exists m, update i' s = (Err (StorageError m), s)) \/
  (exists s', update i' s = (Ok tt, s') /\ imports s' = <[im_id i := i']> t).
Proof.
  intros <- Hi Hid Hsame Hk. rewrite <- Hid in Hi.
  destruct (update_law i' i s) as [[m Hm]|(s' & Hm & Hs)]; [done..|eauto|].
  right. exists s'. by rewrite Hs, Hid.
Qed.

Lemma fail_and_return_run {A} now (i : Import) reason e t s :
  imports s = t -> t !! im_id i = Some i -> im_status i = Uploading -> checksum_ok i ->
  let '(r, s') := fail_and_return (A := A) now i reason e s in
  (exists m, r = Err (StorageError m) /\ imports s' = t) \/
  (r = Err e /\ imports s' = <[im_id i := failed now reason i]> t).
Proof.
  intros Hs Hi Hst Hk. unfold fail_and_return. rewrite fail_live by (by rewrite Hst). run. simpl.
  destruct (update_run i (failed now reason i) t s) as [[m ->]|(s' & -> & Hs')]; try done; eauto.
Qed.

(** The part of the handler after its guards. *)
Definition settle (artifact : uuid) (now : datetime) (cmd : CompleteUploadCommand)
    (k : Checksum) (i : Import) : eff S ImportError Import :=
  metadata ← verified_metadata now cmd i;
  check_metadata now i metadata;;
  let '(r, import) := complete_upload now artifact k i in
  lift r;;
  update import;;
  mret import.

Definition settled artifact now k (i : Import) (t : gmap N Import) (v : verdict)
    (r : result ImportError Import) (t' : gmap N Import) : Prop :=
  match v with
  | Accept => r = Ok (uploaded now artifact k i) /\ t' = <[im_id i := uploaded now artifact k i]> t
  | Reject reason e => r = Err e /\ t' = <[im_id i := failed now reason i]> t
  | Retry => False
  | Crash => r = Panicked /\ t' = t
  end.

(** A branch of the handler that fails the import. *)
Ltac reject_case Hfail A :=
  simpl in *; specialize (Hfail _ _ eq_refl A);
  destruct (fail_and_return _ _ _ _ _) as [[a|e|] s2]; naive_solver.

Lemma settle_run artifact now cmd k (i : Import) s :
  imports s !! im_id i = Some i -> im_status i = Uploading -> checksum_ok i ->
  Checksum_new (checksum_str k) = Ok k ->
  let '(v, _) := verify_upload (storage_key (cu_owner_id cmd) (cu_import_id cmd)) s in
  let '(r, s') := settle artifact now cmd k i s in
  (exists m, r = Err (StorageError m) /\ imports s' = imports s) \/
  settled artifact now k i (imports s) (upload_verdict v) r (imports s').
Proof.
  intros Hi Hst Hok Hk. unfold settle, verified_metadata. run.
  destruct (verify_upload _ s) as [v s1] eqn:Hv.
  pose proof (silent_run _ _ _ _ (Hverify _) Hv) as Hs1.
  assert (forall reason e, upload_verdict v = Reject reason e -> forall A,
    let '(r, s') := fail_and_return (A := A) now i reason e s1 in
    (exists m, r = Err (StorageError m) /\ imports s' = imports s) \/
    (r = Err e /\ imports s' = <[im_id i := failed now reason i]> (imports s))) as Hfail.
  { intros reason e _ A. by apply fail_and_return_run. }
  destruct v as [m|e|]; [|destruct e; try reject_case Hfail UploadMetadata; simpl; eauto|].
  - unfold check_metadata, upload_verdict in *. clear Hv.
    destruct (_ <? _)%N; [reject_case Hfail unit|]. destruct (_ =? _)%N; [reject_case Hfail unit|].
    assert (checksum_ok (uploaded now artifact k i)) as Hk' by (intros c [= <-]; done).
    destruct (um_content_type m) as [c|];
      [destruct (content_type_allowed c); [|reject_case Hfail unit]|];
      rewrite complete_upload_live by done; run; simpl;
      destruct (update_run i (uploaded now artifact k i) (imports s) s1)
        as [[x ->]|(s' & -> & Hs')]; eauto; done.
  - simpl. auto.
Qed.
(** The guards of the handler: the import of the command, if it may complete its
    upload. *)
Definition upload_guard (cmd : CompleteUploadCommand) (found : option Import)
    : result ImportError Import :=
  import ← ok_or found NotFound;
  guard_err (negb (im_owner_id import =? cu_owner_id cmd)%N) Unauthorized;;
  guard_err (negb (bool_decide (im_status import = Uploading)))
    (InvalidTransition (status_display (im_status import)) (lit "uploaded"));;
  mret import.

Lemma complete_upload_guarded artifact now cmd s :
  match Checksum_new (cu_checksum cmd) with
  | Ok k =>
      (exists m, handle_complete_upload artifact now cmd s = (Err (StorageError m), s)) \/
      handle_complete_upload artifact now cmd s =
        (import ← lift (upload_guard cmd (imports s !! cu_import_id cmd));
         settle artifact now cmd k import) s
  | r => handle_complete_upload artifact now cmd s = (r ≫= fun _ => Err NotFound, s)
  end.
Proof.
  unfold handle_complete_upload, upload_guard, settle. run.
  destruct (Checksum_new (cu_checksum cmd)) as [k|e|]; [|done..].
  destruct (find_by_id_law (cu_import_id cmd) s) as [->|[m ->]]; [right|eauto].
  destruct (imports s !! cu_import_id cmd) as [i|]; simpl; [|done].
  unfold guard_err. by repeat case_match.
Qed.
End complete.

(** ** Properties *)

(** Starting an import is idempotent.  After a request succeeded, its import
    is stored, and a further valid request of the same owner under the same
    idempotency key stores nothing: unless the store fails it is answered with
    that very import when it has the same payload, and is refused with
    [IdempotencyPayloadMismatch] when it has not.  So no owner ever gets two
    imports for one key. *)
Theorem start_import_idempotent {S} `{Laws : ImportRepositoryLaws S} `{UploadUrlGenerator S}
    `{Sha256} `{UuidDisplay} new_id new_id' now now' cmd cmd' (s : S) r s' :
  (forall key, silent (generate_upload_url key)) -> unique_keys (imports s) ->
  handle_start_import new_id now cmd s = (Ok r, s') ->
  validate_start cmd' = Ok tt -> si_owner_id cmd' = si_owner_id cmd ->
  si_idempotency_key cmd' = si_idempotency_key cmd ->
  unique_keys (imports s') /\ (exists id, imports s' !! id = Some (sr_import r)) /\
  imports (snd (handle_start_import new_id' now' cmd' s')) = imports s' /\
  ((exists m, handle_start_import new_id' now' cmd' s' = (Err (StorageError m), s')) \/
   handle_start_import new_id' now' cmd' s' = replay cmd' (sr_import r) s').
Proof.
  intros Hurl Hu Hrun Hv Ho Hk.
  destruct (start_import_ok Hurl _ _ _ _ _ _ Hrun) as (_ & Hro & Hrk & _ & Hcase).
  assert (unique_keys (imports s') /\ exists id, imports s' !! id = Some (sr_import r)) as [Hu' [id Hid]].
  { destruct Hcase as [[-> Hid]|(Hnew & -> & _ & Hno)]; [done|]. split.
    - apply unique_keys_insert; [done|done|]. by rewrite Hro, Hrk.
    - exists new_id. apply lookup_insert_eq. }
  split_and!; [done|eauto| |];
    destruct (find_by_key_law (si_owner_id cmd') (si_idempotency_key cmd') s')
      as [[m Hf]|([i|] & Hf & Hi)].
  1, 4: unfold handle_start_import; run; rewrite Hv, Hf; eauto.
  2, 4: exfalso; rewrite Ho, Hk in Hi; by apply (Hi _ _ Hid).
  all: destruct Hi as (id' & Hi & Hio & Hik);
    assert (id' = id) as -> by (eapply Hu'; [done|done|congruence..]);
    assert (i = sr_import r) as -> by congruence;
    rewrite (start_import_found Hurl _ _ _ _ _ Hv Hf); first [by apply replay_silent|by right].
Qed.

(** The payload hash binds the request.  For two requests that pass the
    validation, whose texts are Rust strings and whose sizes are [u64]s, equal
    hashes mean equal file name, content type and size, as long as SHA-256
    does not collide on the two byte strings that are hashed: joining the
    fields with NUL bytes does not confuse them. *)
Theorem payload_hash_binds_request `{Sha256} cmd cmd' :
  let preimage c := payload_preimage (si_filename c) (si_content_type c) (si_file_size_bytes c) in
  (sha256_hex (preimage cmd) = sha256_hex (preimage cmd') -> preimage cmd = preimage cmd') ->
  valid_str (si_filename cmd) -> valid_str (si_filename cmd') ->
  validate_start cmd = Ok tt -> validate_start cmd' = Ok tt ->
  (si_file_size_bytes cmd < u64_modulus)%N -> (si_file_size_bytes cmd' < u64_modulus)%N ->
  request_hash cmd = request_hash cmd' <->
  si_filename cmd = si_filename cmd' /\ si_content_type cmd = si_content_type cmd' /\
  si_file_size_bytes cmd = si_file_size_bytes cmd'.
Proof.
  intros preimage Hcol Hf Hf' Hv Hv' Hn Hn'.
  assert (forall c, validate_start c = Ok tt -> content_type_allowed (si_content_type c) = true) as Hall.
  { intros c Hc. unfold validate_start in Hc. apply result_bind_inv in Hc as (_ & _ & Hc).
    apply result_bind_inv in Hc as ([] & Hc%guard_err_ok & _). by apply negb_false_iff in Hc. }
  unfold request_hash, compute_payload_hash. split; [|by intros (-> & -> & ->)].
  intros Heq%Hcol. apply payload_preimage_inj in Heq; auto.
Qed.

(** Completing an upload follows the verdict on the uploaded object.  An
    invalid checksum, an unknown import, another owner's import and one that is
    not [Uploading] are refused and nothing changes.  Otherwise, unless the
    store fails, a good object makes the import [Uploaded] with the checksum and
    a new artifact; a missing, empty, too large or wrongly typed one makes it
    [Failed] with the reason, and the caller gets the error; and when the object
    store cannot be reached the import stays [Uploading], so that the call can be
    repeated.  No other import changes. *)
Theorem complete_upload_follows_verdict {S} `{Laws : ImportRepositoryLaws S} `{!UnicodeLowerLaw}
    `{UploadVerifier S} `{UuidDisplay} artifact now cmd (s : S) :
  (forall key, silent (verify_upload key)) ->
  (forall i, imports s !! cu_import_id cmd = Some i -> im_id i = cu_import_id cmd /\ checksum_ok i) ->
  let '(r, s') := handle_complete_upload artifact now cmd s in
  (exists m, r = Err (StorageError m) /\ imports s' = imports s) \/
  match Checksum_new (cu_checksum cmd), upload_guard cmd (imports s !! cu_import_id cmd) with
  | Ok k, Ok i =>
      settled artifact now k i (imports s)
        (upload_verdict (fst (verify_upload (storage_key (cu_owner_id cmd) (cu_import_id cmd)) s)))
        r (imports s')
  | Ok _, Err e | Err e, _ => r = Err e /\ s' = s
  | _, _ => False
  end.
Proof.
  intros Hverify Hwf. pose proof (complete_upload_guarded Hverify artifact now cmd s) as Hg.
  destruct (Checksum_new (cu_checksum cmd)) as [k|e|] eqn:Hk.
  2: { by rewrite Hg; right. }
  2: { exfalso. unfold Checksum_new in Hk. by repeat case_match. }
  destruct Hg as [[m ->]|Hg]; [left; eauto|rewrite Hg; clear Hg].
  unfold upload_guard. run.
  destruct (imports s !! cu_import_id cmd) as [i|] eqn:Hi; simpl; [|by right].
  destruct (Hwf i eq_refl) as [Hid Hok]. rewrite <- Hid in Hi.
  unfold guard_err. destruct (negb (_ =? _)%N); [by right|].
  destruct (decide (im_status i = Uploading)) as [Hst|Hst];
    [rewrite bool_decide_eq_true_2 by done|rewrite bool_decide_eq_false_2 by done; by right].
  pose proof (settle_run Hverify artifact now cmd k i s Hi Hst Hok (Checksum_new_fixed _ _ Hk)) as Hs.
  simpl. destruct (verify_upload _ s) as [v s1]. apply Hs.
Qed.

(** ** Witnesses, over the PostgreSQL repository *)

#[local] Instance sample_lower : UnicodeLower := map ascii_lower.
#[local] Instance sample_lower_law : UnicodeLowerLaw.
Proof. intros v _. unfold unicode_lower, sample_lower. rewrite map_map. apply map_ext, ascii_lower_idem. Qed.
#[local] Instance sample_sha : Sha256 := fun b => b.
#[local] Instance sample_uuid : UuidDisplay := display_N.
#[local] Instance sample_url : UploadUrlGenerator import_table := fun key => mret key.
#[local] Instance sample_verifier : UploadVerifier import_table :=
  fun key => mret (mkUploadMetadata 10 (Some (lit "application/gpx+xml"))).
#[local] Instance sample_repo : ImportRepository import_table := PgImportRepository (lit "conflict") 0.
#[local] Instance sample_laws : ImportRepositoryLaws import_table :=
  PgImportRepositoryLaws (lit "conflict") 0.

Definition sample_request : StartImportCommand :=
  mkStartImport 5 (lit "key") (lit "hike.gpx") (lit "application/gpx+xml") 10.
Definition started : result ImportError StartImportResult * import_table :=
  handle_start_import 1 0 sample_request ∅.

Lemma start_import_idempotent_witness :
  exists r, fst started = Ok r /\
    (exists id, imports (snd started) !! id = Some (sr_import r)) /\
    imports (snd (handle_start_import 2 9 sample_request (snd started))) = imports (snd started).
Proof.
  eexists. split; [vm_compute; reflexivity|].
  edestruct (start_import_idempotent 1 2 0 9 sample_request sample_request ∅) as (_ & Hid & Hsame & _).
  - done.
  - intros a b i j Ha. done.
  - vm_compute. reflexivity.
  - done.
  - done.
  - done.
  - split; [apply Hid|apply Hsame].
Defined.

Definition other_request : StartImportCommand :=
  mkStartImport 5 (lit "key") (lit "hike.gpx") (lit "application/xml") 10.

Lemma payload_hash_binds_request_witness :
  request_hash sample_request = request_hash other_request <->
  si_filename sample_request = si_filename other_request /\
  si_content_type sample_request = si_content_type other_request /\
  si_file_size_bytes sample_request = si_file_size_bytes other_request.
Proof.
  apply (payload_hash_binds_request sample_request other_request).
  - by intros.
  - by repeat constructor.
  - by repeat constructor.
  - done.
  - done.
  - done.
  - done.
Defined.

Lemma complete_upload_follows_verdict_witness :
  let cmd := mkCompleteUpload 1 5 (replicate 64 65%N) in
  let '(r, s') := handle_complete_upload 7 3 cmd (snd started) in
  (exists m, r = Err (StorageError m) /\ imports s' = imports (snd started)) \/
  exists k i, settled 7 3 k i (imports (snd started)) Accept r (imports s').
Proof.
  pose proof (complete_upload_follows_verdict 7 3 (mkCompleteUpload 1 5 (replicate 64 65%N)) (snd started))
    as Hp.
  cbv zeta. destruct (handle_complete_upload _ _ _ _) as [r s'].
  destruct Hp as [Hm|Hp]; [| |by left|right; eexists _, _; exact Hp].
  - done.
  - intros i Hi.
    assert ((fun j => (im_id j, im_checksum j)) <$> imports (snd started) !! 1%N = Some (1%N, None))
      as Hs by (vm_compute; reflexivity).
    change (imports (snd started) !! 1%N = Some i) in Hi. rewrite Hi in Hs. injection Hs as Hid Hc.
    split; [done|]. intros c Hc'. congruence.
Defined.
