(* ===== verification/ImportProcessing.v ===== *)
(** What the worker's processing of a queued import guarantees (process_import
    of ImportHandlers.v, crates/app/src/imports/orchestrator.rs): only a verified,
    parsed and new file is committed, only the import's own row changes, and no
    import is processed twice. *)
From S2P Require Import Prelude Float64 RustString RustVec Utf8 RecordedActivity.
From S2P Require Import RecordedActivityTheory RouteVersioning ActivityCatalog GpxParser GpxParserTheory.
From S2P Require Import Imports ImportTheory ImportHandlers ImportPersistence ImportHandlerTheory.
#[local] Set Default Proof Using "All".

(** The versions of an import that processing stores. *)
Definition parsing (now : datetime) (i : Import) : Import := touch_import now (set_status Parsing i).
Definition committing (now : datetime) (i : Import) : Import :=
  touch_import now (set_status Committing i).
Definition failed_with (now : datetime) (reason : rstr) (code : FailureCode) (i : Import) : Import :=
  touch_import now (set_failure (Some reason) (Some code) (set_status Failed i)).
Definition duplicate_of (now : datetime) (activity : option uuid) (i : Import) : Import :=
  touch_import now (set_status Completed (committing now (set_activity activity i))).

Lemma fail_with_code_live now reason code i :
  is_terminal (im_status i) = false ->
  fail_with_code now reason code i = (Ok tt, failed_with now reason code i).
Proof. intros Hi. unfold fail_with_code, move_to, failed_with. run. by destruct (im_status i). Qed.

Lemma start_parsing_live now i :
  im_status i = Queued -> start_parsing now i = (Ok tt, parsing now i).
Proof. intros Hi. unfold start_parsing, move_to, parsing. run. by rewrite Hi. Qed.

Lemma start_committing_live now i :
  im_status i = Parsing -> start_committing now i = (Ok tt, committing now i).
Proof. intros Hi. unfold start_committing, move_to, committing. run. by rewrite Hi. Qed.

(** The transaction of a commit completes the import it is given, or leaves all
    imports alone. *)
Definition commit_law {S} `{ImportRepositoryLaws S} `{CommitImport S} : Prop :=
  forall d s i, imports s !! icd_import_id d = Some i ->
    match commit d s with
    | (Ok _, s') => exists i', im_status i' = Completed /\
                      imports s' = <[icd_import_id d := i']> (imports s)
    | (_, s') => imports s' = imports s
    end.

Section process.
Context {S : Type} `{Laws : ImportRepositoryLaws S} `{ObjectStore S} `{CheckDuplicate S}
  `{CommitImport S} `{Sha256} `{UuidDisplay} `{XmlReader} `{DateTimeParser} `{Libm}
  `{DebugStrings}.
Context (Hdownload : forall key, silent (download key))
  (Hcheck : forall owner c, silent (check owner c)) (Hcommit : commit_law).
Context (now : datetime) (id : uuid) (p : Import) (t : gmap N Import).
Context (Hid : im_id p = id) (Hp : t !! id = Some p) (Hparsing : im_status p = Parsing)
  (Hok : checksum_ok p).

(** How a run that has begun ends: only the row of this import differs, and its
    status matches the outcome. *)
Definition ends {A} (x : result ImportError A * S) : Prop :=
  exists i, imports (snd x) = <[id := i]> t /\
    match fst x with
    | Ok _ => im_status i = Completed
    | _ => im_status i ∈ [Parsing; Committing; Failed]
    end.

(** A step that goes on with the imports unchanged, or stops the run. *)
Definition stage {A} (m : eff S ImportError A) : Prop :=
  forall s, imports s = t ->
    match m s with
    | (Ok _, s') => imports s' = t
    | (r, s') => forall B, ends (A := B) (match r with Err e => Err e | _ => Panicked end, s')
    end.

Lemma ends_unchanged {A} (r : result ImportError A) s :
  imports s = t -> is_ok r = false -> ends (r, s).
Proof.
  intros Hs Hr. exists p. simpl. rewrite insert_id by done. split; [done|].
  destruct r; [done|rewrite Hparsing; set_solver..].
Qed.

Lemma stage_silent {A} (m : eff S ImportError A) : silent m -> stage m.
Proof.
  intros Hm s Hs. specialize (Hm s). destruct (m s) as [[a|e|] s'].
  - simpl in Hm. congruence.
  - intros B. apply ends_unchanged; [simpl in Hm; congruence|done].
  - intros B. apply ends_unchanged; [simpl in Hm; congruence|done].
Qed.

Lemma stage_lift {A} (r : result ImportError A) : stage (lift r).
Proof. by apply stage_silent. Qed.

Lemma update_from (i i' : Import) t' s :
  imports s = t' -> t' !! id = Some i -> im_id i' = id -> same_identity i i' -> checksum_ok i' ->
  (exists m, update i' s = (Err (StorageError m), s)) \/
  (exists s', update i' s = (Ok tt, s') /\ imports s' = <[id := i']> t').
Proof.
  intros <- Hi Hi' Hsame Hk. rewrite <- Hi' in *.
  destruct (update_law i' i s) as [[m Hm]|(s' & Hm & Hs)]; eauto.
Qed.

Lemma stage_fail_import {A} reason code e : stage (fail_import (A := A) now p reason code e).
Proof.
  intros s Hs. unfold fail_import. rewrite fail_with_code_live by (by rewrite Hparsing). run.
  destruct (update_from p (failed_with now reason code p) t s) as [[m ->]|(s' & -> & Hs')]; try done.
  - intros B. by apply ends_unchanged.
  - intros B. eexists. split; [done|]. simpl. set_solver.
Qed.

Lemma stage_bind {A B} (m : eff S ImportError A) (f : A -> eff S ImportError B) :
  stage m -> (forall a, stage (f a)) -> stage (m ≫= f).
Proof.
  intros Hm Hf s Hs. specialize (Hm s Hs). run.
  destruct (m s) as [[a|e|] s']; [by apply Hf|done..].
Qed.

Lemma ends_bind {A B} (m : eff S ImportError A) (f : A -> eff S ImportError B) s :
  imports s = t -> stage m -> (forall a s', imports s' = t -> ends (f a s')) -> ends ((m ≫= f) s).
Proof.
  intros Hs Hm Hf. specialize (Hm s Hs). run.
  destruct (m s) as [[a|e|] s']; [by apply Hf|by apply Hm..].
Qed.

Lemma stage_attempt {A B} (m : eff S ImportError A) (f : result ImportError A -> eff S ImportError B) :
  silent m -> (forall r, r <> Panicked -> stage (f r)) -> stage (attempt m ≫= f).
Proof.
  intros Hm Hf s Hs. run. specialize (Hm s).
  destruct (m s) as [[a|e|] s'] eqn:Hr; simpl in Hm.
  - apply Hf; [done|congruence].
  - apply Hf; [done|congruence].
  - intros C. apply ends_unchanged; [congruence|done].
Qed.

Lemma stage_fetch key : stage (fetch_verified now p key).
Proof.
  unfold fetch_verified. apply stage_attempt; [done|]. intros r Hr. apply stage_bind.
  - destruct r; [by apply stage_silent|apply stage_fail_import|done].
  - intros b. apply stage_bind; [apply stage_lift|]. intros c.
    case_bool_decide; [by apply stage_silent|apply stage_fail_import].
Qed.

Lemma stage_parse b : stage (parse_file now p b).
Proof.
  unfold parse_file. destruct (parse_gpx b); [by apply stage_silent|apply stage_fail_import|].
  by apply stage_silent.
Qed.

Lemma stage_normalize ids pr : stage (normalize_file now ids p pr).
Proof.
  unfold normalize_file. destruct (normalize_gpx _ pr);
    [by apply stage_silent|apply stage_fail_import|by apply stage_silent].
Qed.

Lemma ends_duplicate existing activity s :
  imports s = t -> ends (finish_duplicate now p existing activity s).
Proof.
  intros Hs. unfold finish_duplicate. rewrite start_committing_live by done. run.
  unfold complete, move_to. run. simpl.
  destruct (update_from p (duplicate_of now activity p) t s) as [[m Hm]|(s' & Hm & Hs')]; try done;
    unfold duplicate_of in Hm; rewrite Hm.
  - by apply ends_unchanged.
  - eexists. split; done.
Qed.

(** After the import has moved to [Committing]. *)
Lemma ends_committing {A} (r : result ImportError A) s :
  imports s = <[id := committing now p]> t -> is_ok r = false -> ends (r, s).
Proof.
  intros Hs Hr. exists (committing now p). split; [done|]. simpl.
  destruct r; [done|set_solver..].
Qed.

Lemma ends_commit ids owner key corr b h n s :
  imports s = t -> ends (commit_import now ids p owner id key corr b h n s).
Proof.
  intros Hs. unfold commit_import. rewrite start_committing_live by done. run.
  destruct (update_from p (committing now p) t s) as [[m ->]|(s1 & -> & Hs1)]; try done;
    [by apply ends_unchanged|].
  destruct (map_err _ _) as [v|e|]; [|by apply ends_committing..].
  set (d := build_commit_data _ _ _ _ _ _ _ _ _ _ _).
  assert (imports s1 !! icd_import_id d = Some (committing now p)) as Hd
    by (rewrite Hs1; apply lookup_insert_eq).
  pose proof (Hcommit d s1 _ Hd) as Hc.
  destruct (commit d s1) as [[a|e|] s2]; cbn [fst snd].
  - destruct Hc as (i' & Hi' & Hs2). exists i'. split; [|done].
    simpl. by rewrite Hs2, Hs1, insert_insert_eq.
  - rewrite fail_with_code_live by done.
    destruct (update_from (committing now p)
                (failed_with now (lit "commit failed: " ++ import_error_display e) InternalError
                   (committing now p)) (<[id := committing now p]> t) s2)
      as [[m ->]|(s3 & -> & Hs3)]; try done; [congruence|by rewrite lookup_insert_eq| |].
    + apply ends_committing; [congruence|done].
    + eexists. split; [simpl; by rewrite Hs3, insert_insert_eq|]. simpl. set_solver.
  - apply ends_committing; [congruence|done].
Qed.

(** The run from the moment the import is [Parsing]. *)
Definition process_parsing (ids : FreshIds) (owner : uuid) (key : rstr) (corr : uuid)
    : eff S ImportError ImportProcessingResult :=
  fetched ← fetch_verified now p key;
  let '(file_bytes, computed_hash) := fetched in
  parse_result ← parse_file now p file_bytes;
  checksum ← lift (Checksum_new computed_hash);
  dup_result ← check owner checksum;
  match dup_result with
  | ExactDuplicate existing_import_id existing_activity_id =>
      finish_duplicate now p existing_import_id existing_activity_id
  | NotDuplicate =>
      normalized ← normalize_file now ids p parse_result;
      commit_import now ids p owner id key corr file_bytes computed_hash normalized
  end.

Lemma process_parsing_ends ids owner key corr s :
  imports s = t -> ends (process_parsing ids owner key corr s).
Proof.
  intros Hs. apply ends_bind; [done|apply stage_fetch|]. intros [b h] s1 Hs1.
  apply ends_bind; [done|apply stage_parse|]. intros pr s2 Hs2.
  apply ends_bind; [done|apply stage_lift|]. intros k s3 Hs3.
  apply ends_bind; [done|by apply stage_silent|]. intros [|ex act] s4 Hs4.
  - apply ends_bind; [done|apply stage_normalize|]. intros n s5 Hs5. by apply ends_commit.
  - by apply ends_duplicate.
Qed.
End process.

(** ** The whole run *)

Section run.
Context {S : Type} `{Laws : ImportRepositoryLaws S} `{ObjectStore S} `{CheckDuplicate S}
  `{CommitImport S} `{Sha256} `{UuidDisplay} `{XmlReader} `{DateTimeParser} `{Libm}
  `{DebugStrings}.

Lemma begin_parsing_run now id s :
  (forall i, imports s !! id = Some i -> im_id i = id /\ checksum_ok i) ->
  (exists e, begin_parsing now id s = (Err e, s)) \/
  (exists i s', imports s !! id = Some i /\ im_id i = id /\ checksum_ok i /\ im_status i = Queued /\
     begin_parsing now id s = (Ok (parsing now i), s') /\
     imports s' = <[id := parsing now i]> (imports s)).
Proof.
  intros Hwf. unfold begin_parsing. run.
  destruct (find_by_id_law id s) as [->|[m ->]]; [|eauto].
  destruct (imports s !! id) as [i|] eqn:Hi; simpl; [|eauto].
  destruct (Hwf i eq_refl) as [Hid Hok]. unfold guard_err.
  destruct (decide (im_status i = Queued)) as [Hst|Hst];
    [rewrite bool_decide_eq_true_2 by done|rewrite bool_decide_eq_false_2 by done; simpl; eauto].
  simpl. rewrite start_parsing_live by done.
  destruct (update_law (parsing now i) i s) as [[m ->]|(s' & -> & Hs)]; try done; simpl; eauto.
  - by rewrite Hid.
  - right. exists i, s'. simpl in Hs. rewrite Hid in Hs. eauto 10.
Qed.

(** An import that is not [Queued] is not processed. *)
Lemma process_import_refuses now ids id owner key corr s i :
  imports s !! id = Some i -> im_status i <> Queued ->
  exists e, process_import now ids id owner key corr s = (Err e, s).
Proof.
  intros Hi Hst. unfold process_import, begin_parsing. run.
  destruct (find_by_id_law id s) as [->|[m ->]]; [|eauto]. rewrite Hi. simpl.
  rewrite bool_decide_eq_false_2 by done. simpl. eauto.
Qed.

(** A run either stops before it has begun, or is [process_parsing]. *)
Lemma process_import_run now ids id owner key corr s :
  (forall i, imports s !! id = Some i -> im_id i = id /\ checksum_ok i) ->
  (exists e, process_import now ids id owner key corr s = (Err e, s)) \/
  (exists i s1, imports s !! id = Some i /\ im_id i = id /\ checksum_ok i /\ im_status i = Queued /\
     imports s1 = <[id := parsing now i]> (imports s) /\
     process_import now ids id owner key corr s =
       process_parsing now id (parsing now i) ids owner key corr s1).
Proof.
  intros Hwf. unfold process_import.
  destruct (begin_parsing_run now id s Hwf) as [[e He]|(i & s1 & Hi & Hid & Hok & Hst & Hr & Hs1)].
  - left. exists e. by apply eff_bind_err.
  - right. exists i, s1. split_and!; try done. by erewrite eff_bind_ok by done.
Qed.

(** What a download that passed the verification returned. *)
Lemma fetch_verified_ok now p key s b h s' :
  fetch_verified now p key s = (Ok (b, h), s') ->
  exists k, download key s = (Ok b, s') /\ im_checksum p = Some k /\
            h = checksum_str k /\ sha256_hex b = checksum_str k.
Proof.
  unfold fetch_verified, fail_import. run. destruct (download key s) as [[b'|e|] s1] eqn:Hd; simpl.
  - destruct (im_checksum p) as [k|]; simpl; [|done].
    case_bool_decide as Hk; [intros [= <- <- <-]; eauto 10|].
    destruct (fail_with_code _ _ _ _) as [[[]|e|] i']; [|done..].
    by destruct (update i' s1) as [[[]|e|] s2].
  - destruct (fail_with_code _ _ _ _) as [[[]|e'|] i']; [|done..].
    by destruct (update i' s1) as [[[]|e'|] s2].
  - done.
Qed.

Lemma parse_file_ok now p b s pr s' :
  parse_file now p b s = (Ok pr, s') -> parse_gpx b = Ok pr /\ s' = s.
Proof.
  unfold parse_file, fail_import. destruct (parse_gpx b) as [r|e|]; run; [naive_solver| |done].
  destruct (fail_with_code _ _ _ _) as [[[]|e'|] i']; [|done..].
  by destruct (update i' s) as [[[]|e'|] s2].
Qed.

Lemma normalize_file_ok now ids p pr s n s' :
  normalize_file now ids p pr s = (Ok n, s') ->
  normalize_gpx (fresh_recorded_track ids) pr = Ok n /\ s' = s.
Proof.
  unfold normalize_file, fail_import. destruct (normalize_gpx _ pr) as [r|e|]; run;
    [naive_solver| |done].
  destruct (fail_with_code _ _ _ _) as [[[]|e'|] i']; [|done..].
  by destruct (update i' s) as [[[]|e'|] s2].
Qed.

(** The commit of a normalised file. *)
Definition committed_from (now : datetime) (ids : FreshIds) (i : Import) (owner id : uuid)
    (key : rstr) (corr : uuid) (b : bytes) (n : NormalizedTrack) (d : ImportCommitData) : Prop :=
  exists v, let stats := calculate_from_geometry (nt_preview_geometry n) in
    new_initial (fresh_version ids) now (fresh_activity ids) (nt_preview_geometry n)
      (rt_bounding_box (nt_recorded_track n)) stats PARSER_VERSION owner = Ok v /\
    d = build_commit_data ids i owner id key corr b (sha256_hex b) n v stats.

Lemma commit_import_ok now ids p owner id key corr b n s o s' t :
  imports s = t -> t !! id = Some p -> im_id p = id -> im_status p = Parsing -> checksum_ok p ->
  commit_import now ids p owner id key corr b (sha256_hex b) n s = (Ok o, s') ->
  exists s1 act d,
    imports s1 = <[id := committing now p]> t /\
    committed_from now ids (committing now p) owner id key corr b n d /\
    commit d s1 = (Ok act, s') /\
    o = ProcessingCompleted (fresh_activity ids) (u64_wrap (len b))
          (point_count (rt_statistics (nt_recorded_track n))).
Proof.
  intros Hs Hp Hid Hst Hok. unfold commit_import. rewrite start_committing_live by done. run.
  destruct (update_law (committing now p) p s) as [[m ->]|(s1 & -> & Hs1)];
    try done; [by rewrite Hs; simpl; rewrite Hid|].
  destruct (new_initial _ _ _ _ _ _ _ _) as [v|e|] eqn:Hv; cbn [map_err]; [|done..].
  destruct (commit _ s1) as [[act|e|] s2] eqn:Hc; cbn beta iota.
  - intros [= <- <-]. eexists s1, act, _. split_and!; [|by exists v|exact Hc|done].
    by rewrite Hs1, Hs; simpl; rewrite Hid.
  - destruct (fail_with_code _ _ _ _) as [r' i']. run. by destruct (update i' s2) as [[[]|e'|] s3].
  - done.
Qed.
End run.

(** ** Properties *)

(** Only verified files are committed.  When processing reports an import
    completed with a new activity, the import was [Queued]; the downloaded bytes
    hash to the checksum stored with it, which the duplicate check found new;
    they parse as GPX; and what the commit transaction received, with the
    import stored as [Committing], was made from the normalised track of that
    parse: its segments and points are those of the file, and the reported
    activity, size and point count belong to it. *)
Theorem process_import_commits_verified {S} `{Laws : ImportRepositoryLaws S} `{ObjectStore S}
    `{CheckDuplicate S} `{CommitImport S} `{Sha256} `{UuidDisplay} `{XmlReader} `{DateTimeParser}
    `{Libm} `{DebugStrings} now ids id owner key corr (s : S) a size points s' :
  (forall k, silent (download k)) -> (forall o c, silent (check o c)) -> commit_law ->
  (forall i, imports s !! id = Some i -> im_id i = id /\ checksum_ok i) ->
  process_import now ids id owner key corr s = (Ok (ProcessingCompleted a size points), s') ->
  exists i k b pr n d act s1 s2 s3,
    imports s !! id = Some i /\ im_status i = Queued /\
    fst (download key s1) = Ok b /\ im_checksum i = Some k /\ sha256_hex b = checksum_str k /\
    parse_gpx b = Ok pr /\ fst (check owner k s2) = Ok NotDuplicate /\
    normalize_gpx (fresh_recorded_track ids) pr = Ok n /\ normalized_from pr n /\
    imports s3 = <[id := committing now (parsing now i)]> (imports s) /\
    committed_from now ids (committing now (parsing now i)) owner id key corr b n d /\
    commit d s3 = (Ok act, s') /\ a = fresh_activity ids /\ size = u64_wrap (len b) /\
    points = point_count (rt_statistics (nt_recorded_track n)).
Proof.
  intros Hdl Hch Hco Hwf Hrun.
  destruct (process_import_run now ids id owner key corr s Hwf)
    as [[e He]|(i & s1 & Hi & Hid & Hok & Hst & Hs1 & Hr)]; [congruence|].
  rewrite Hrun in Hr. symmetry in Hr. unfold process_parsing in Hr.
  apply eff_bind_inv in Hr as ([b h] & s2 & Hf & Hr).
  pose proof (fetch_verified_ok _ _ _ _ _ _ _ Hf) as (k & Hd & Hk & -> & Hh).
  apply eff_bind_inv in Hr as (pr & s3 & [Hpr ->]%parse_file_ok & Hr).
  apply eff_bind_inv in Hr as (k' & s4 & Hk' & Hr). injection Hk' as Hk' <-.
  rewrite (Hok k Hk) in Hk'. injection Hk' as <-.
  apply eff_bind_inv in Hr as (dup & s5 & Hc & Hr).
  assert (imports s5 = <[id := parsing now i]> (imports s)) as Hs5.
  { rewrite (silent_run _ _ _ _ (Hch _ _) Hc), (silent_run _ _ _ _ (Hdl _) Hd). done. }
  destruct dup as [|ex act]; [|exfalso; revert Hr; clear; unfold finish_duplicate; run;
    repeat case_match; congruence].
  apply eff_bind_inv in Hr as (n & s6 & [Hn ->]%normalize_file_ok & Hr).
  rewrite <- Hh in Hr.
  apply (commit_import_ok now ids _ owner id key corr b n s5 _ s' (<[id := parsing now i]> (imports s)))
    in Hr as (s7 & act & d & Hs7 & Hd7 & Hcd & [= -> -> ->]);
    [|done|apply lookup_insert_eq|done..].
  rewrite insert_insert_eq in Hs7.
  exists i, k, b, pr, n, d, act, s1, s2, s7. rewrite Hd, Hc.
  assert (gpx_result_wf pr) as Hpw.
  { destruct (parse_gpx_inv _ _ Hpr) as (_ & q & Hinv & _ & Ht & Hm & Hp & _).
    by eapply result_wf_of_inv. }
  destruct (normalize_gpx_spec (fresh_recorded_track ids) pr Hpw) as [[_ Hno]|(_ & n' & Hn' & Hnf)];
    [congruence|].
  assert (n' = n) as -> by congruence. by split_and!.
Qed.

(** An import is processed at most once, and only its own row changes.  A
    run on a stored import either stops with an error before anything is
    written, or the import was [Queued] and leaves that status for good: it is
    [Completed] when the run succeeds and [Parsing], [Committing] or [Failed]
    when it does not, every other import is unchanged, and whatever job is
    delivered for it afterwards is refused without writing anything. *)
Theorem process_import_at_most_once {S} `{Laws : ImportRepositoryLaws S} `{ObjectStore S}
    `{CheckDuplicate S} `{CommitImport S} `{Sha256} `{UuidDisplay} `{XmlReader} `{DateTimeParser}
    `{Libm} `{DebugStrings} now ids id owner key corr (s : S) i :
  (forall k, silent (download k)) -> (forall o c, silent (check o c)) -> commit_law ->
  imports s !! id = Some i -> im_id i = id -> checksum_ok i ->
  let '(r, s') := process_import now ids id owner key corr s in
  (s' = s /\ exists e, r = Err e) \/
  (im_status i = Queued /\ exists i',
     imports s' = <[id := i']> (imports s) /\
     match r with
     | Ok _ => im_status i' = Completed
     | _ => im_status i' ∈ [Parsing; Committing; Failed]
     end /\
     forall now' ids' owner' key' corr', exists e,
       process_import now' ids' id owner' key' corr' s' = (Err e, s')).
Proof.
  intros Hdl Hch Hco Hi Hid Hok.
  destruct (process_import_run now ids id owner key corr s)
    as [[e ->]|(i0 & s1 & Hi0 & _ & _ & Hst & Hs1 & ->)]; [naive_solver|eauto|].
  assert (i0 = i) as -> by congruence.
  pose proof (process_parsing_ends Hdl Hch Hco now id (parsing now i) (imports s1) Hid) as Hends.
  rewrite Hs1, lookup_insert_eq in Hends.
  destruct (Hends eq_refl eq_refl Hok ids owner key corr s1 Hs1) as (i' & Hs' & Hst').
  rewrite insert_insert_eq in Hs'.
  destruct (process_parsing _ _ _ _ _ _ _ s1) as [r s']. simpl in Hs', Hst'.
  right. split; [done|]. exists i'. split_and!; [done|done|]. intros.
  apply (process_import_refuses _ _ _ _ _ _ _ i'); [by rewrite Hs', lookup_insert_eq|].
  destruct r; intros Hq; rewrite Hq in Hst'; [done|set_solver..].
Qed.

(** ** Witnesses, over the PostgreSQL repository *)

#[local] Instance sample_lower : UnicodeLower := map ascii_lower.
#[local] Instance sample_sha : Sha256 := fun _ => replicate 64 97%N.
#[local] Instance sample_uuid : UuidDisplay := display_N.
#[local] Instance sample_reader : XmlReader := fun _ => sample_events.
#[local] Instance sample_dates : DateTimeParser := fun _ => None.
#[local] Instance sample_libm : Libm := {| f64_sin := id; f64_cos := id; f64_asin := id |}.
#[local] Instance sample_store : ObjectStore import_table := fun _ => mret (bs "<gpx/>").
#[local] Instance sample_check : CheckDuplicate import_table := fun _ _ => mret NotDuplicate.
#[local] Instance sample_repo : ImportRepository import_table := PgImportRepository (lit "conflict") 0.
#[local] Instance sample_laws : ImportRepositoryLaws import_table :=
  PgImportRepositoryLaws (lit "conflict") 0.

(** The update of the import inside the transaction. *)
Definition completed_row (activity : uuid) (r : ImportRow) : ImportRow :=
  mkImportRow (ir_id r) (ir_owner_id r) (ir_source_artifact_id r) (ir_format r) (lit "completed")
    (ir_checksum r) (ir_failure_reason r) (ir_failure_code r) (ir_idempotency_key r)
    (ir_payload_hash r) (Some activity) (ir_created_at r) (ir_updated_at r).
#[local] Instance sample_commit : CommitImport import_table := fun d t =>
  (Ok (icd_activity_id d), alter (completed_row (icd_activity_id d)) (icd_import_id d) t).

Lemma sample_commit_law : commit_law.
Proof.
  intros d t i Hi. change (shown t !! icd_import_id d = Some i) in Hi.
  unfold shown in Hi. rewrite lookup_fmap in Hi. apply fmap_Some in Hi as (r & Hr & ->).
  exists (row_to_import (completed_row (icd_activity_id d) r)). split; [done|].
  change (shown (alter (completed_row (icd_activity_id d)) (icd_import_id d) t) =
          <[icd_import_id d := row_to_import (completed_row (icd_activity_id d) r)]> (shown t)).
  unfold shown.
  apply map_eq. intros j. rewrite lookup_fmap. destruct (decide (j = icd_import_id d)) as [->|Hj].
  - by rewrite lookup_alter_eq, lookup_insert_eq, Hr.
  - by rewrite lookup_alter_ne, lookup_insert_ne, lookup_fmap by done.
Qed.

Definition queued_row : ImportRow :=
  mkImportRow 1 5 (Some 7%N) (lit "gpx") (lit "queued") (Some (replicate 64 97%N)) None None
    (lit "key") None None 0 0.
Definition queue : import_table := {[ 1%N := queued_row ]}.
Definition new_ids : FreshIds := mkFreshIds 11 12 13 14 15 16.

Lemma queued_row_ok i : imports queue !! 1%N = Some i -> im_id i = 1%N /\ checksum_ok i.
Proof.
  intros Hi. assert (imports queue !! 1%N = Some (row_to_import queued_row)) as Hq by done.
  rewrite Hi in Hq. injection Hq as ->. split; [done|]. intros c Hc. vm_compute in Hc.
  injection Hc as <-. vm_compute. done.
Qed.

#[local] Instance sample_strings : DebugStrings := fun l => concat l.

Definition sample_run : result ImportError ImportProcessingResult * import_table :=
  process_import 3 new_ids 1 5 (lit "key") 9 queue.

Lemma process_import_commits_verified_witness :
  exists size points i k b pr,
    fst sample_run = Ok (ProcessingCompleted 11 size points) /\
    imports queue !! 1%N = Some i /\ im_status i = Queued /\
    im_checksum i = Some k /\ sha256_hex b = checksum_str k /\ parse_gpx b = Ok pr.
Proof.
  edestruct (process_import_commits_verified 3 new_ids 1 5 (lit "key") 9 queue)
    as (i & k & b & pr & n & d & act & s1 & s2 & s3 & Hi & Hst & _ & Hk & Hb & Hpr & _).
  - done.
  - done.
  - apply sample_commit_law.
  - apply queued_row_ok.
  - vm_compute. reflexivity.
  - eexists _, _, i, k, b, pr. split; [vm_compute; reflexivity|]. by split_and!.
Defined.

Lemma process_import_at_most_once_witness :
  exists e, process_import 4 new_ids 1 5 (lit "key") 10 (snd sample_run) = (Err e, snd sample_run).
Proof.
  pose proof (process_import_at_most_once 3 new_ids 1 5 (lit "key") 9 queue
                (row_to_import queued_row)) as Honce.
  assert (is_ok (fst sample_run) = true) as Hrun by (vm_compute; reflexivity).
  unfold sample_run in *. destruct (process_import _ _ _ _ _ _ queue) as [r s'].
  destruct Honce as [[-> [e ->]]|(_ & i' & _ & _ & Hagain)].
  - done.
  - done.
  - apply sample_commit_law.
  - done.
  - done.
  - by apply queued_row_ok.
  - done.
  - apply Hagain.
Defined.

(** An import without a stored checksum is left in [Parsing] by its run. *)
Lemma missing_checksum_strands_import :
  let row := mkImportRow 1 5 (Some 7%N) (lit "gpx") (lit "queued") None None None (lit "key") None None 0 0 in
  let '(r, t) := process_import 3 new_ids 1 5 (lit "key") 9 ({[ 1%N := row ]} : import_table) in
  r = Err (ValidationFailed (lit "import has no stored checksum")) /\
  ir_status <$> t !! 1%N = Some (lit "parsing").
Proof. vm_compute. split; reflexivity. Qed.
