(* ===== verification/DraftPersistence.v ===== *)
(** The PostgreSQL repository of route drafts,
    crates/infrastructure/src/route_editing_persistence.rs, over the tables of
    migrations/20250104000001_create_route_editing_tables.sql.

    The JSON encoding of geometries and operations (serde_json) is a parameter, and
    so is what is left of a time in a TIMESTAMPTZ column (sqlx and PostgreSQL).
    A transaction is computed on a copy of the tables and stored at its end, so
    an error before the end leaves them unchanged. *)
From S2P Require Import Prelude Float64 RustString RustVec RouteEditing RouteVersioning Sorting.

(** ** Rows *)

Definition state_to_str (s : DraftState) : rstr :=
  match s with
  | Active => lit "active"
  | Published => lit "published"
  | Discarded => lit "discarded"
  end.

Definition parse_state (s : rstr) : DraftState :=
  if decide (s = lit "active") then Active
  else if decide (s = lit "published") then Published
  else if decide (s = lit "discarded") then Discarded
  else Discarded.

Class DraftJson := {
  geometry_to_json : geometry -> Json;
  json_to_geometry : Json -> geometry;
  operation_to_json : RouteOperation -> Json;
  json_to_operation : Json -> option RouteOperation }.

(** A column of type TIMESTAMPTZ: what is read where the given time was written. *)
Class TimestamptzColumn := timestamptz : datetime -> datetime.

Definition operation_type_str (op : RouteOperation) : rstr :=
  match op with
  | MovePoint _ _ _ => lit "move_point"
  | AddPoint _ _ _ => lit "add_point"
  | DeletePoint _ _ => lit "delete_point"
  | DeleteSection _ _ _ => lit "delete_section"
  | ReplaceSection _ _ _ _ => lit "replace_section"
  | SplitSegment _ _ => lit "split_segment"
  | JoinSegments _ _ => lit "join_segments"
  end.

(** A row of route_editing.drafts; [expires_at] is always NULL. *)
Record DraftRow := mkDraftRow {
  dr_id : uuid;
  dr_activity_id : uuid;
  dr_owner_id : uuid;
  dr_base_route_version_id : option uuid;
  dr_revision : Z;
  dr_geometry : Json;
  dr_state : rstr;
  dr_created_at : datetime;
  dr_updated_at : datetime }.

(** The JSON object of the column operation_data. *)
Record StoredOperation := mkStored { so_operation : Json; so_geometry_before : Json }.

(** A row of route_editing.draft_operations; its own id and creation time are
    never read. *)
Record OperationRow := mkOpRow {
  or_draft_id : uuid;
  or_operation_id : uuid;
  or_operation_type : rstr;
  or_operation_data : StoredOperation;
  or_sequence_number : Z;
  or_is_undone : bool }.

(** The two tables, keyed by [id] and by the unique [operation_id]. *)
Record DraftDb := mkDraftDb {
  db_drafts : gmap N DraftRow;
  db_operations : gmap N OperationRow }.

(** [i as i64] of a revision, and back. *)
Definition i64_of_u64 (n : N) : Z := i64_of (Z.of_N n).
Definition u64_of_i64 (z : Z) : N := Z.to_N (z mod 2 ^ 64)%Z.

Section postgres.
Context `{DraftJson} `{TimestamptzColumn} (violation : rstr).

Definition draft_row (d : RouteDraft) : DraftRow :=
  mkDraftRow (rd_id d) (rd_activity_id d) (rd_owner_id d) (rd_base_route_version_id d)
    (i64_of_u64 (rd_revision d)) (geometry_to_json (rd_geometry d)) (state_to_str (rd_state d))
    (timestamptz (rd_created_at d)) (timestamptz (rd_updated_at d)).

Definition operation_row (draft_id : uuid) (undone : bool) (seq : nat) (e : OperationEntry)
    : OperationRow :=
  mkOpRow draft_id (oe_id e) (operation_type_str (oe_operation e))
    (mkStored (operation_to_json (oe_operation e)) (geometry_to_json (oe_geometry_before e)))
    (i32_of (Z.of_nat seq)) undone.

(** ** Loading *)

Definition entry_of_row (r : OperationRow) : option OperationEntry :=
  op ← json_to_operation (so_operation (or_operation_data r));
  mret (mkEntry (or_operation_id r) op
          (json_to_geometry (so_geometry_before (or_operation_data r)))).

(** The order of an INTEGER column. *)
Definition sequence_key (r : OperationRow) : N := Z.to_N (or_sequence_number r + 2 ^ 31).

Definition operation_rows (draft_id : uuid) (ops : gmap N OperationRow) : list OperationRow :=
  sort_by_key sequence_key
    (List.filter (fun r => (or_draft_id r =? draft_id)%N) (map snd (map_to_list ops))).

Definition load_draft_with_operations (db : DraftDb) (row : DraftRow) : RouteDraft :=
  let op_rows := operation_rows (dr_id row) (db_operations db) in
  mkDraft (dr_id row) (dr_activity_id row) (dr_owner_id row) (dr_base_route_version_id row)
    (u64_of_i64 (dr_revision row)) (json_to_geometry (dr_geometry row))
    (omap entry_of_row (List.filter (fun r => negb (or_is_undone r)) op_rows))
    (omap entry_of_row (List.filter or_is_undone op_rows))
    (parse_state (dr_state row)) (dr_created_at row) (dr_updated_at row).

Definition pg_find_draft (id : uuid) : eff DraftDb RouteEditingError (option RouteDraft) :=
  db ← get; mret (load_draft_with_operations db <$> db_drafts db !! id).

Definition pg_find_active (activity_id owner_id : uuid)
    : eff DraftDb RouteEditingError (option RouteDraft) :=
  db ← get;
  mret (load_draft_with_operations db <$>
    head (List.filter (fun r => (dr_activity_id r =? activity_id)%N && (dr_owner_id r =? owner_id)%N
                                && bool_decide (dr_state r = lit "active"))
            (map snd (map_to_list (db_drafts db))))).

(** ** Saving *)

(** INSERT, refused when the operation id is taken. *)
Definition insert_operation (ops : gmap N OperationRow) (r : OperationRow)
    : result RouteEditingError (gmap N OperationRow) :=
  match ops !! or_operation_id r with
  | Some _ => Err (OperationFailed violation)
  | None => Ok (<[or_operation_id r := r]> ops)
  end.

Fixpoint insert_operations (ops : gmap N OperationRow) (rows : list OperationRow)
    : result RouteEditingError (gmap N OperationRow) :=
  match rows with
  | [] => Ok ops
  | r :: rows => ops ← insert_operation ops r; insert_operations ops rows
  end.

Definition pg_save_draft (d : RouteDraft) : eff DraftDb RouteEditingError unit :=
  db ← get;
  match db_drafts db !! rd_id d with
  | Some _ => throw (OperationFailed violation)
  | None =>
      ops ← lift (insert_operations (db_operations db)
                    (imap (operation_row (rd_id d) false) (rd_applied_operations d)));
      put (mkDraftDb (<[rd_id d := draft_row d]> (db_drafts db)) ops)
  end.

(** ** Updating *)

(** The SET clause of the UPDATE of the draft. *)
Definition updated_draft_row (d : RouteDraft) (r : DraftRow) : DraftRow :=
  mkDraftRow (dr_id r) (dr_activity_id r) (dr_owner_id r) (dr_base_route_version_id r)
    (i64_of_u64 (rd_revision d)) (geometry_to_json (rd_geometry d)) (state_to_str (rd_state d))
    (dr_created_at r) (timestamptz (rd_updated_at d)).

Definition set_undone (b : bool) (r : OperationRow) : OperationRow :=
  mkOpRow (or_draft_id r) (or_operation_id r) (or_operation_type r) (or_operation_data r)
    (or_sequence_number r) b.

(** The two UPDATEs of the undone flags: everything undone, then the applied
    operations back. *)
Definition mark_all_undone (draft_id : uuid) (ops : gmap N OperationRow) : gmap N OperationRow :=
  (fun r => if decide (or_draft_id r = draft_id /\ or_is_undone r = false)
            then set_undone true r else r) <$> ops.

Definition mark_applied (draft_id : uuid) (applied_ids : list uuid) (ops : gmap N OperationRow)
    : gmap N OperationRow :=
  (fun r => if decide (or_draft_id r = draft_id /\ or_operation_id r ∈ applied_ids)
            then set_undone false r else r) <$> ops.

(** INSERT .. ON CONFLICT (operation_id) DO UPDATE SET sequence_number,
    is_undone: an existing row keeps its draft and its data. *)
Definition upsert_operation (ops : gmap N OperationRow) (r : OperationRow) : gmap N OperationRow :=
  <[or_operation_id r :=
      match ops !! or_operation_id r with
      | Some old => mkOpRow (or_draft_id old) (or_operation_id old) (or_operation_type old)
                      (or_operation_data old) (or_sequence_number r) (or_is_undone r)
      | None => r
      end]> ops.

(** The rows of both stacks, undone operations numbered after the applied ones. *)
Definition stack_rows (d : RouteDraft) : list OperationRow :=
  imap (operation_row (rd_id d) false) (rd_applied_operations d) ++
  imap (fun i => operation_row (rd_id d) true (length (rd_applied_operations d) + i))
    (rd_undone_operations d).

Definition stack_ids (d : RouteDraft) : list uuid :=
  map oe_id (rd_applied_operations d ++ rd_undone_operations d).

(** DELETE of the operations of the draft in neither stack. *)
Definition prune_operations (draft_id : uuid) (ids : list uuid) (ops : gmap N OperationRow)
    : gmap N OperationRow :=
  filter (fun '(_, r) => or_draft_id r <> draft_id \/ or_operation_id r ∈ ids) ops.

Definition pg_update_draft (d : RouteDraft) : eff DraftDb RouteEditingError unit :=
  db ← get;
  let expected_revision := i64_of (i64_of_u64 (rd_revision d) - 1) in
  let conflict := throw (RevisionConflict (u64_sub (rd_revision d) 1) (rd_revision d)) in
  match db_drafts db !! rd_id d with
  | Some row =>
      if decide (dr_revision row = expected_revision) then
        let ops := mark_all_undone (rd_id d) (db_operations db) in
        let ops := mark_applied (rd_id d) (map oe_id (rd_applied_operations d)) ops in
        let ops := fold_left upsert_operation (stack_rows d) ops in
        let ops := prune_operations (rd_id d) (stack_ids d) ops in
        put (mkDraftDb (<[rd_id d := updated_draft_row d row]> (db_drafts db)) ops)
      else conflict
  | None => conflict
  end.

Definition pg_find_by_operation_id (operation_id : uuid)
    : eff DraftDb RouteEditingError (option uuid) :=
  db ← get; mret (or_draft_id <$> db_operations db !! operation_id).

#[export] Instance PgRouteDraftRepository : RouteDraftRepository DraftDb := {|
  save_draft := pg_save_draft;
  find_draft := pg_find_draft;
  find_active_by_activity := pg_find_active;
  update_draft := pg_update_draft;
  find_by_operation_id := pg_find_by_operation_id |}.
End postgres.
