(* ===== verification/DraftPersistenceTheory.v ===== *)
(** What the repository of route drafts keeps (DraftPersistence.v): an update
    that follows the optimistic lock stores the draft as it is, its two times cut
    to microseconds, a stale one is refused, an undone operation loses its redo state on the way through the
    database, and a closed draft can never be stored. *)
From stdpp Require Import sorting.
From S2P Require Import Prelude Float64 RustString RustVec RouteEditing RouteEditingSpec.
From S2P Require Import RouteDraftTheory RouteDraftProperties RouteVersioning Sorting DraftPersistence.

(** ** Sequence numbers *)

Lemma sorted_by_index {A} (key : A -> N) c l :
  (forall i x, l !! i = Some x -> key x = c + N.of_nat i)%N ->
  StronglySorted (fun x y => (key x < key y)%N) l.
Proof.
  revert c. induction l as [|x l IH]; intros c Hl; constructor.
  - apply (IH (c + 1)%N). intros i y Hi. rewrite (Hl (S i) y Hi). lia.
  - apply Forall_lookup. intros i y Hi. rewrite (Hl 0 x eq_refl), (Hl (S i) y Hi). lia.
Qed.

Lemma i32_of_nat n : (Z.of_nat n < 2 ^ 31)%Z -> i32_of (Z.of_nat n) = Z.of_nat n.
Proof. intros Hn. apply i32_of_small. lia. Qed.

Lemma i64_of_mod z : (i64_of z mod 2 ^ 64 = z mod 2 ^ 64)%Z.
Proof.
  unfold i64_of, to_signed. change (2 ^ Z.of_N 64)%Z with (2 ^ 64)%Z.
  destruct (_ <? _)%Z; [by rewrite Z.mod_mod|].
  by rewrite Zminus_mod, Z.mod_same, Z.sub_0_r, !Z.mod_mod by done.
Qed.

(** The lock compares with a different revision than the one it stores. *)
Lemma i64_pred_ne z : i64_of (z - 1) <> z.
Proof.
  intros He. pose proof (i64_of_mod (z - 1)) as Hm. rewrite He in Hm.
  assert ((z - (z - 1)) mod 2 ^ 64 = 0)%Z as H1 by (by rewrite Zminus_mod, Hm, Z.sub_diag).
  by replace (z - (z - 1))%Z with 1%Z in H1 by lia.
Qed.

Lemma i64_pred_of n : (0 < n < 2 ^ 63)%N -> i64_of (i64_of_u64 n - 1) = i64_of_u64 (n - 1).
Proof.
  intros Hn. unfold i64_of_u64. rewrite (i64_of_small (Z.of_N n)) by lia.
  rewrite !i64_of_small by lia. lia.
Qed.

Lemma u64_of_i64_of_u64 n : (n < 2 ^ 63)%N -> u64_of_i64 (i64_of_u64 n) = n.
Proof. intros Hn. unfold u64_of_i64, i64_of_u64. rewrite i64_of_small, Z.mod_small by lia. lia. Qed.

Lemma filter_imap_all {A B} (p : B -> bool) (f : nat -> A -> B) l :
  (forall i x, p (f i x) = true) -> List.filter p (imap f l) = imap f l.
Proof.
  revert f. induction l as [|x l IH]; intros f Hp; simpl; [done|]. rewrite Hp. f_equal.
  apply IH. intros i y. apply (Hp (S i)).
Qed.

Lemma filter_imap_none {A B} (p : B -> bool) (f : nat -> A -> B) l :
  (forall i x, p (f i x) = false) -> List.filter p (imap f l) = [].
Proof.
  revert f. induction l as [|x l IH]; intros f Hp; simpl; [done|]. rewrite Hp.
  apply IH. intros i y. apply (Hp (S i)).
Qed.

(** The documented behaviour of the column: it keeps whole microseconds. *)
Class TimestamptzLaws `{TimestamptzColumn} : Prop := {
  timestamptz_whole t : (timestamptz t mod 1000 = 0)%Z;
  timestamptz_near t : (Z.abs (timestamptz t - t) < 1000)%Z;
  timestamptz_exact t : (t mod 1000 = 0)%Z -> timestamptz t = t }.

Section drafts.
Context `{DraftJson} `{TimestamptzColumn}.

Definition with_times (created updated : datetime) (d : RouteDraft) : RouteDraft :=
  mkDraft (rd_id d) (rd_activity_id d) (rd_owner_id d) (rd_base_route_version_id d) (rd_revision d)
    (rd_geometry d) (rd_applied_operations d) (rd_undone_operations d) (rd_state d) created updated.

(** The draft with its times as the columns keep them. *)
Definition in_store (d : RouteDraft) : RouteDraft :=
  with_times (timestamptz (rd_created_at d)) (timestamptz (rd_updated_at d)) d.

(** [d'] is [d], but for its times, which are those of [d] to the microsecond. *)
Definition same_to_microseconds (d d' : RouteDraft) : Prop :=
  d' = with_times (rd_created_at d') (rd_updated_at d') d /\
  Forall2 (fun t t' => (t' mod 1000 = 0)%Z /\ (Z.abs (t' - t) < 1000)%Z /\ ((t mod 1000 = 0)%Z -> t' = t))
    [rd_created_at d; rd_updated_at d] [rd_created_at d'; rd_updated_at d'].

Lemma in_store_same `{!TimestamptzLaws} d : same_to_microseconds d (in_store d).
Proof.
  split; [done|]. repeat apply List.Forall2_cons; [..|apply List.Forall2_nil];
    (split_and!; [apply timestamptz_whole|apply timestamptz_near|apply timestamptz_exact]).
Qed.

(** Stored and loaded once, a draft does not change any more. *)
Lemma draft_row_in_store `{!TimestamptzLaws} d : draft_row (in_store d) = draft_row d.
Proof. unfold draft_row, in_store. simpl. f_equal; apply timestamptz_exact, timestamptz_whole. Qed.

Lemma in_store_idemp `{!TimestamptzLaws} d : in_store (in_store d) = in_store d.
Proof.
  unfold in_store, with_times. simpl. f_equal; apply timestamptz_exact, timestamptz_whole.
Qed.

(** The codec gives back what it was given, as far as this draft needs it. *)
Definition encodable (e : OperationEntry) : Prop :=
  json_to_operation (operation_to_json (oe_operation e)) = Some (oe_operation e) /\
  json_to_geometry (geometry_to_json (oe_geometry_before e)) = oe_geometry_before e.

Definition storable (d : RouteDraft) : Prop :=
  json_to_geometry (geometry_to_json (rd_geometry d)) = rd_geometry d /\
  Forall encodable (rd_applied_operations d ++ rd_undone_operations d) /\
  NoDup (stack_ids d) /\ (Z.of_nat (length (stack_ids d)) < 2 ^ 31)%Z /\
  (rd_revision d < 2 ^ 63)%N.

Definition ops_wf (ops : gmap N OperationRow) : Prop :=
  map_Forall (fun k r => or_operation_id r = k) ops.

(** The tables hold exactly this draft. *)
Definition stored (db : DraftDb) (d : RouteDraft) : Prop :=
  db_drafts db !! rd_id d = Some (draft_row d) /\
  forall k r, or_draft_id r = rd_id d ->
    db_operations db !! k = Some r <-> r ∈ stack_rows d /\ or_operation_id r = k.

Lemma stack_rows_ids d : map or_operation_id (stack_rows d) = stack_ids d.
Proof.
  unfold stack_rows, stack_ids. rewrite !map_app. f_equal;
    apply list_eq; intros i; rewrite !list_lookup_fmap, list_lookup_imap;
    by destruct (_ !! i).
Qed.

Lemma stack_rows_draft d r : r ∈ stack_rows d -> or_draft_id r = rd_id d.
Proof.
  unfold stack_rows. intros [Hr|Hr]%elem_of_app; apply elem_of_lookup_imap in Hr as (i & e & -> & _); done.
Qed.

Lemma stack_rows_sorted d :
  (Z.of_nat (length (stack_ids d)) < 2 ^ 31)%Z ->
  StronglySorted (fun x y => (sequence_key x < sequence_key y)%N) (stack_rows d).
Proof.
  intros Hlen. apply (sorted_by_index _ (2 ^ 31)%N). intros i r Hi.
  assert (Z.of_nat i < 2 ^ 31)%Z as Hb.
  { apply lookup_lt_Some in Hi. rewrite <- stack_rows_ids, length_map in Hlen. lia. }
  unfold stack_rows in Hi. apply lookup_app_Some in Hi as [Hi|[Hge Hi]].
  - rewrite list_lookup_imap in Hi. apply fmap_Some in Hi as (e & _ & ->).
    unfold sequence_key. simpl. rewrite i32_of_nat; lia.
  - rewrite list_lookup_imap in Hi. apply fmap_Some in Hi as (e & _ & ->).
    rewrite length_imap in *. unfold sequence_key. simpl. rewrite i32_of_nat; lia.
Qed.

Lemma filter_stack_rows d :
  List.filter (fun r => negb (or_is_undone r)) (stack_rows d) =
    imap (operation_row (rd_id d) false) (rd_applied_operations d) /\
  List.filter or_is_undone (stack_rows d) =
    imap (fun i => operation_row (rd_id d) true (length (rd_applied_operations d) + i))
      (rd_undone_operations d).
Proof.
  unfold stack_rows. rewrite !List.filter_app. split.
  - rewrite filter_imap_all, filter_imap_none by done. apply app_nil_r.
  - by rewrite filter_imap_none, filter_imap_all by done.
Qed.

Lemma omap_entries d f u l :
  Forall encodable l -> omap entry_of_row (imap (fun i => operation_row (rd_id d) u (f i)) l) = l.
Proof.
  intros Hl. revert f. induction Hl as [|e l [Hop Hg] _ IH]; intros f; [done|].
  cbn [imap omap list_omap]. unfold entry_of_row at 1, operation_row at 1 2 3 4. cbn.
  rewrite Hop. cbn. rewrite Hg. destruct e as [i op g]. simpl. f_equal. apply (IH (fun i => f (S i))).
Qed.

(** The operations of a stored draft are its rows, in their order. *)
Lemma stored_operation_rows db d :
  ops_wf (db_operations db) -> storable d -> stored db d ->
  operation_rows (rd_id d) (db_operations db) = stack_rows d.
Proof.
  intros Hwf (_ & _ & Hnd & Hlen & _) [_ Hops]. apply sort_by_key_unique; [|by apply stack_rows_sorted].
  apply NoDup_Permutation.
  - apply NoDup_List_filter. by apply (NoDup_snd_map_to_list or_operation_id).
  - apply (NoDup_fmap_1 or_operation_id). by rewrite <- stack_rows_ids in Hnd.
  - intros r. rewrite list_elem_of_In, filter_In, <- list_elem_of_In, list_elem_of_fmap. split.
    + intros [([k r'] & -> & Hk%elem_of_map_to_list) Hd%N.eqb_eq]. simpl in *. by apply (Hops k r').
    + intros Hr. pose proof (stack_rows_draft _ _ Hr) as Hd. split; [|by apply N.eqb_eq].
      exists (or_operation_id r, r). split; [done|]. apply elem_of_map_to_list.
      by apply (Hops _ r).
Qed.

Lemma stored_in_store `{!TimestamptzLaws} db d : stored db d -> stored db (in_store d).
Proof. unfold stored. by rewrite draft_row_in_store. Qed.

(** A stored draft is found again, whole. *)
Lemma stored_find db d :
  ops_wf (db_operations db) -> storable d -> stored db d ->
  pg_find_draft (rd_id d) db = (Ok (Some (in_store d)), db).
Proof.
  intros Hwf Hs Hst. unfold pg_find_draft. run. destruct Hst as [Hrow Hops]. rewrite Hrow. simpl.
  unfold load_draft_with_operations. simpl.
  rewrite (stored_operation_rows db d Hwf Hs (conj Hrow Hops)).
  destruct (filter_stack_rows d) as [-> ->]. destruct Hs as (Hg & [He1 He2]%Forall_app & _ & _ & Hr).
  rewrite Hg, u64_of_i64_of_u64 by done. rewrite (omap_entries d id), omap_entries by done.
  destruct d as [? ? ? ? ? ? ? ? [] ? ?]; done.
Qed.

(** ** Updating *)

(** Two versions of one operation row: what an update never changes. *)
Definition same_operation (r r' : OperationRow) : Prop :=
  or_draft_id r = or_draft_id r' /\ or_operation_id r = or_operation_id r' /\
  or_operation_type r = or_operation_type r' /\ or_operation_data r = or_operation_data r'.

(** If the table has the operation, it has it with this data. *)
Definition compatible (ops : gmap N OperationRow) (r : OperationRow) : Prop :=
  forall old, ops !! or_operation_id r = Some old -> same_operation old r.

Definition marked (draft_id : uuid) (ids : list uuid) (ops : gmap N OperationRow) :=
  mark_applied draft_id ids (mark_all_undone draft_id ops).

Lemma marked_lookup id ids ops k r :
  marked id ids ops !! k = Some r -> exists old, ops !! k = Some old /\ same_operation old r /\
    (or_draft_id r <> id -> old = r).
Proof.
  unfold marked, mark_applied, mark_all_undone. rewrite !lookup_fmap.
  destruct (ops !! k) as [old|]; [|done]. simpl. intros [= <-]. exists old. split; [done|].
  repeat (case_decide; simpl in * ); (split; [done|intros Hne; tauto || done]).
Qed.

Lemma marked_other id ids ops k r :
  ops !! k = Some r -> or_draft_id r <> id -> marked id ids ops !! k = Some r.
Proof.
  unfold marked, mark_applied, mark_all_undone. rewrite !lookup_fmap. intros -> Hr. simpl.
  rewrite (decide_False (P := or_draft_id r = id /\ or_is_undone r = false)) by tauto.
  by rewrite decide_False by tauto.
Qed.

Lemma upsert_compatible ops r : compatible ops r -> upsert_operation ops r = <[or_operation_id r := r]> ops.
Proof.
  intros Hc. unfold upsert_operation. destruct (ops !! or_operation_id r) as [old|] eqn:Hold; [|done].
  destruct (Hc old Hold) as (H1 & H2 & H3 & H4). f_equal. rewrite H1, H2, H3, H4. by destruct r.
Qed.

Lemma upsert_all rows ops :
  Forall (compatible ops) rows -> NoDup (map or_operation_id rows) ->
  (forall r, r ∈ rows -> fold_left upsert_operation rows ops !! or_operation_id r = Some r) /\
  (forall k, k ∉ map or_operation_id rows -> fold_left upsert_operation rows ops !! k = ops !! k).
Proof.
  revert ops. induction rows as [|r rows IH]; intros ops Hc Hnd; simpl.
  - split; [by intros r ?%elem_of_nil|done].
  - apply Forall_cons in Hc as [Hr Hc]. apply NoDup_cons in Hnd as [Hnew Hnd].
    rewrite (upsert_compatible _ _ Hr).
    destruct (IH (<[or_operation_id r := r]> ops)) as [H1 H2]; [|done|split].
    + rewrite Forall_forall in *. intros x Hx old Hold. apply (Hc x Hx).
      rewrite lookup_insert_ne in Hold; [done|]. intros He. apply Hnew. rewrite He.
      by apply list_elem_of_fmap_2.
    + intros x [-> | Hx]%elem_of_cons; [|by apply H1]. rewrite H2 by done. apply lookup_insert_eq.
    + intros k [Hk Hk']%not_elem_of_cons. rewrite H2 by done. by rewrite lookup_insert_ne.
Qed.

(** The operations table after an update: the rows of the draft are those of its
    stacks, the rows of other drafts are what they were. *)
Lemma updated_operations ops d :
  ops_wf ops -> Forall (compatible ops) (stack_rows d) -> NoDup (stack_ids d) ->
  let ops' := prune_operations (rd_id d) (stack_ids d)
    (fold_left upsert_operation (stack_rows d)
       (marked (rd_id d) (map oe_id (rd_applied_operations d)) ops)) in
  ops_wf ops' /\
  (forall k r, or_draft_id r = rd_id d ->
     ops' !! k = Some r <-> r ∈ stack_rows d /\ or_operation_id r = k) /\
  (forall k r, or_draft_id r <> rd_id d -> ops' !! k = Some r <-> ops !! k = Some r).
Proof.
  intros Hwf Hc Hnd. set (m := marked _ _ ops).
  assert (Forall (compatible m) (stack_rows d)) as Hm.
  { rewrite Forall_forall in *. intros r Hr old Hold.
    apply marked_lookup in Hold as (old' & Hold & (H1 & H2 & H3 & H4) & _).
    destruct (Hc r Hr old' Hold) as (K1 & K2 & K3 & K4). split_and!; congruence. }
  destruct (upsert_all _ _ Hm) as [Hin Hout]; [by rewrite stack_rows_ids|].
  rewrite stack_rows_ids in Hout. set (m' := fold_left _ _ m) in *. cbn zeta.
  assert (forall k r, m' !! k = Some r -> r ∈ stack_rows d /\ or_operation_id r = k \/
            k ∉ stack_ids d /\ m !! k = Some r) as Hcase.
  { intros k r Hr. destruct (decide (k ∈ stack_ids d)) as [Hk|Hk]; [left|right; by rewrite Hout in Hr].
    rewrite <- stack_rows_ids in Hk. apply list_elem_of_fmap in Hk as (x & -> & Hx).
    rewrite (Hin x Hx) in Hr. by injection Hr as ->. }
  assert (forall k r, m !! k = Some r -> or_operation_id r = k) as Hmwf.
  { intros k r Hr. apply marked_lookup in Hr as (old & Hold & (_ & <- & _) & _). by apply Hwf. }
  split_and!.
  - intros k r Hr. apply map_lookup_filter_Some in Hr as [Hr _].
    destruct (Hcase k r Hr) as [[_ H1]|[_ H1]]; [done|by apply Hmwf].
  - intros k r Hd. unfold prune_operations. rewrite map_lookup_filter_Some. split.
    + intros [Hr [Hne|Hi]]; [done|]. destruct (Hcase k r Hr) as [H1|[Hk H1]]; [done|].
      by rewrite (Hmwf k r H1) in Hi.
    + intros [Hr <-]. split; [by apply Hin|]. right. rewrite <- stack_rows_ids.
      by apply list_elem_of_fmap_2.
  - intros k r Hd. unfold prune_operations. rewrite map_lookup_filter_Some. split.
    + intros [Hr _]. destruct (Hcase k r Hr) as [[H1 _]|[_ H1]]; [by apply stack_rows_draft in H1|].
      apply marked_lookup in H1 as (old & Hold & _ & He). by rewrite <- He.
    + intros Hr. split; [|by left].
      assert (k ∉ stack_ids d) as Hk.
      { rewrite <- stack_rows_ids. intros (x & -> & Hx)%list_elem_of_fmap.
        rewrite Forall_forall in Hc. destruct (Hc x Hx r Hr) as [H1 _].
        apply stack_rows_draft in Hx. congruence. }
      rewrite Hout by done. by apply marked_other.
Qed.

(** An update under the lock stores the draft. *)
Lemma update_stored db d row :
  ops_wf (db_operations db) -> db_drafts db !! rd_id d = Some row ->
  dr_revision row = i64_of (i64_of_u64 (rd_revision d) - 1) -> updated_draft_row d row = draft_row d ->
  Forall (compatible (db_operations db)) (stack_rows d) -> NoDup (stack_ids d) ->
  exists db', pg_update_draft d db = (Ok tt, db') /\ stored db' d /\ ops_wf (db_operations db') /\
    (forall id, id <> rd_id d -> db_drafts db' !! id = db_drafts db !! id) /\
    (forall k r, or_draft_id r <> rd_id d ->
       db_operations db' !! k = Some r <-> db_operations db !! k = Some r).
Proof.
  intros Hwf Hrow Hrev Hsame Hc Hnd. unfold pg_update_draft. run. rewrite Hrow, decide_True by done.
  destruct (updated_operations _ d Hwf Hc Hnd) as (Hwf' & Hin & Hout).
  eexists. split; [done|]. rewrite Hsame. split; [split|split; [exact Hwf'|split; [|exact Hout]]].
  - simpl. by rewrite lookup_insert_eq.
  - exact Hin.
  - intros id Hid. simpl. by rewrite lookup_insert_ne.
Qed.

Definition entries (d : RouteDraft) : list OperationEntry :=
  rd_applied_operations d ++ rd_undone_operations d.

Lemma elem_of_stack_rows d r :
  r ∈ stack_rows d <-> exists e u seq, r = operation_row (rd_id d) u seq e /\
    ((u = false /\ rd_applied_operations d !! seq = Some e) \/
     (u = true /\ exists i, seq = length (rd_applied_operations d) + i /\
                           rd_undone_operations d !! i = Some e)).
Proof.
  unfold stack_rows. rewrite elem_of_app, !elem_of_lookup_imap. naive_solver.
Qed.

Lemma stack_row_of_entry d e : e ∈ entries d -> exists u seq, operation_row (rd_id d) u seq e ∈ stack_rows d.
Proof.
  unfold entries. intros [(i & Hi)%list_elem_of_lookup|(i & Hi)%list_elem_of_lookup]%elem_of_app.
  - exists false, i. apply elem_of_stack_rows. naive_solver.
  - exists true, (length (rd_applied_operations d) + i). apply elem_of_stack_rows. naive_solver.
Qed.

Lemma entry_of_stack_row d r :
  r ∈ stack_rows d -> exists e u seq, e ∈ entries d /\ r = operation_row (rd_id d) u seq e.
Proof.
  intros (e & u & seq & -> & He)%elem_of_stack_rows. exists e, u, seq. split; [|done].
  unfold entries. apply elem_of_app.
  destruct He as [[_ He]|(_ & i & _ & He)]; [left|right]; by eapply list_elem_of_lookup_2.
Qed.

(** Operations that are stored with the draft, or are new, are compatible. *)
Lemma stack_rows_compatible db d0 d :
  stored db d0 -> rd_id d = rd_id d0 ->
  (forall e, e ∈ entries d -> e ∈ entries d0 \/ db_operations db !! oe_id e = None) ->
  Forall (compatible (db_operations db)) (stack_rows d).
Proof.
  intros [_ Hops] Hid He. apply Forall_forall. intros r (e & u & seq & Hin & ->)%entry_of_stack_row old Hold.
  simpl in Hold. destruct (He e Hin) as [Hin0|Hnone]; [|congruence].
  destruct (stack_row_of_entry d0 e Hin0) as (u0 & seq0 & Hr0).
  assert (db_operations db !! oe_id e = Some (operation_row (rd_id d0) u0 seq0 e)) as Hr.
  { by apply (Hops _ (operation_row (rd_id d0) u0 seq0 e)). }
  rewrite Hold in Hr. injection Hr as ->. unfold same_operation. simpl. by rewrite Hid.
Qed.

(** Two versions of one draft: what no operation on it changes. *)
Definition same_draft (d0 d : RouteDraft) : Prop :=
  rd_id d = rd_id d0 /\ rd_activity_id d = rd_activity_id d0 /\ rd_owner_id d = rd_owner_id d0 /\
  rd_base_route_version_id d = rd_base_route_version_id d0 /\ rd_created_at d = rd_created_at d0.

Lemma updated_row_same d0 d : same_draft d0 d -> updated_draft_row d (draft_row d0) = draft_row d.
Proof. intros (H1 & H2 & H3 & H4 & H5). unfold updated_draft_row, draft_row. simpl. congruence. Qed.

(** The outcome of an update of a stored draft is decided by the revisions. *)
Lemma update_cases db d0 d :
  ops_wf (db_operations db) -> stored db d0 -> same_draft d0 d ->
  (forall e, e ∈ entries d -> e ∈ entries d0 \/ db_operations db !! oe_id e = None) ->
  NoDup (stack_ids d) -> (0 < rd_revision d < 2 ^ 63)%N -> (rd_revision d0 < 2 ^ 63)%N ->
  if decide (rd_revision d = rd_revision d0 + 1)%N
  then exists db', pg_update_draft d db = (Ok tt, db') /\ stored db' d /\ ops_wf (db_operations db') /\
         (forall id, id <> rd_id d -> db_drafts db' !! id = db_drafts db !! id) /\
         (forall k r, or_draft_id r <> rd_id d ->
            db_operations db' !! k = Some r <-> db_operations db !! k = Some r)
  else pg_update_draft d db =
         (Err (RevisionConflict (rd_revision d - 1) (rd_revision d)), db).
Proof.
  intros Hwf Hst Hsame He Hnd Hr Hr0. destruct (id Hst) as [Hrow _].
  pose proof (updated_row_same _ _ Hsame) as Hup. destruct Hsame as [Hid _].
  rewrite <- Hid in Hrow. case_decide as Hrev.
  - apply (update_stored db d (draft_row d0)); try done; [|by eapply stack_rows_compatible].
    simpl. rewrite i64_pred_of by lia. by replace (rd_revision d - 1)%N with (rd_revision d0) by lia.
  - unfold pg_update_draft. run. rewrite Hrow, decide_False.
    + unfold u64_sub. rewrite (u64_wrap_small 1) by done. do 3 f_equal.
      unfold u64_wrap, u64_modulus.
      replace (rd_revision d + 2 ^ 64 - 1)%N with (rd_revision d - 1 + 1 * 2 ^ 64)%N by lia.
      rewrite N.Div0.mod_add, N.mod_small; lia.
    + simpl. rewrite i64_pred_of by lia. unfold i64_of_u64. rewrite !i64_of_small by lia. lia.
Qed.

(** ** What an upsert forgets *)

(** The draft an undo leads to, as the database keeps it: the undone operation
    still carries the geometry from before it. *)
Definition undone_in_store (now : datetime) (applied : list OperationEntry) (e : OperationEntry)
    (d : RouteDraft) : RouteDraft :=
  with_stacks applied (rd_undone_operations d ++ [e]) (undone_draft now applied e d).

Lemma upsert_keep ops r k : is_Some (ops !! k) -> is_Some (upsert_operation ops r !! k).
Proof. intros Hk. unfold upsert_operation. apply lookup_insert_is_Some'. auto. Qed.

(** Two rows for one operation: if the table has it, they are stored alike. *)
Definition same_slot (ops : gmap N OperationRow) (r r' : OperationRow) : Prop :=
  r = r' \/
  (is_Some (ops !! or_operation_id r) /\ or_operation_id r = or_operation_id r' /\
   or_sequence_number r = or_sequence_number r' /\ or_is_undone r = or_is_undone r').

Lemma upserts_ignore_data rows rows' ops :
  Forall2 (same_slot ops) rows rows' ->
  fold_left upsert_operation rows ops = fold_left upsert_operation rows' ops.
Proof.
  intros Hr. revert rows' ops Hr. induction rows as [|r rows IH]; intros rows' ops Hr.
  - by apply Forall2_nil_inv_l in Hr as ->.
  - apply Forall2_cons_inv_l in Hr as (r' & rows'' & Hrr & Hrs & ->). simpl.
    replace (upsert_operation ops r') with (upsert_operation ops r).
    + apply IH. eapply Forall2_impl; [exact Hrs|]. intros x y [->|[Hx Hxy]]; [by left|right].
      split; [by apply upsert_keep|done].
    + destruct Hrr as [->|([old Hold] & Hid & Hseq & Hund)]; [done|].
      unfold upsert_operation. by rewrite <- Hid, Hold, Hseq, Hund.
Qed.

Lemma Forall2_imap_alike {A B} (P : A -> A -> Prop) (Q : B -> B -> Prop) (f : nat -> A -> B) l k :
  Forall2 P l k -> (forall i x y, P x y -> Q (f i x) (f i y)) -> Forall2 Q (imap f l) (imap f k).
Proof.
  intros Hl. revert f. induction Hl as [|x y l k Hxy _ IH]; intros f Hf; [constructor|].
  constructor; [by apply Hf|]. apply IH. intros i. apply Hf.
Qed.

(** Two entries for one operation: equal, or the operation is stored already. *)
Definition same_entry (ops : gmap N OperationRow) (x y : OperationEntry) : Prop :=
  x = y \/ (is_Some (ops !! oe_id x) /\ oe_id x = oe_id y).

Lemma same_entry_ids ops l k : Forall2 (same_entry ops) l k -> map oe_id l = map oe_id k.
Proof. induction 1 as [|x y l k [->|[_ Hxy]] _ IH]; simpl; congruence. Qed.

(** An update does not depend on the data of operations that are stored already. *)
Lemma update_ignores_data db d a u :
  Forall2 (same_entry (db_operations db)) (rd_applied_operations d) a ->
  Forall2 (same_entry (db_operations db)) (rd_undone_operations d) u ->
  pg_update_draft d db = pg_update_draft (with_stacks a u d) db.
Proof.
  intros Ha Hu. unfold pg_update_draft. run.
  replace (stack_ids (with_stacks a u d)) with (stack_ids d)
    by (unfold stack_ids; simpl; rewrite !map_app; f_equal; by eapply same_entry_ids).
  change (rd_id (with_stacks a u d)) with (rd_id d).
  change (rd_revision (with_stacks a u d)) with (rd_revision d).
  change (rd_applied_operations (with_stacks a u d)) with a.
  change (updated_draft_row (with_stacks a u d)) with (updated_draft_row d).
  rewrite (same_entry_ids _ _ _ Ha).
  destruct (db_drafts db !! rd_id d) as [row|]; [|done]. case_decide; [|done].
  fold (marked (rd_id d) (map oe_id a) (db_operations db)). set (m := marked _ _ _).
  assert (forall k, is_Some (db_operations db !! k) -> is_Some (m !! k)) as Hm.
  { intros k Hk. unfold m, marked, mark_applied, mark_all_undone. by rewrite !lookup_fmap, !fmap_is_Some. }
  assert (forall b seq x y, same_entry (db_operations db) x y ->
    same_slot m (operation_row (rd_id d) b seq x) (operation_row (rd_id d) b seq y)) as Hslot.
  { intros b seq x y [->|[Hx Hxy]]; [by left|right]. split; [by apply Hm|]. by split. }
  do 3 f_equal. apply upserts_ignore_data. unfold stack_rows. simpl.
  rewrite (Forall2_length _ _ _ Ha). apply Forall2_app; eapply Forall2_imap_alike; eauto.
Qed.

Lemma undone_entries applied e d :
  rd_applied_operations d = applied ++ [e] ->
  applied ++ rd_undone_operations d ++ [e] ≡ₚ entries d.
Proof.
  intros Ha. unfold entries. rewrite Ha, <- app_assoc. apply Permutation_app_head.
  apply Permutation_app_comm.
Qed.

Lemma stored_operation db d e :
  stored db d -> e ∈ entries d -> is_Some (db_operations db !! oe_id e).
Proof.
  intros [_ Hops] (u & seq & Hr)%stack_row_of_entry. eexists.
  by apply (Hops (oe_id e) _ (stack_rows_draft _ _ Hr)).
Qed.

Lemma Forall2_same_entry_refl ops l : Forall2 (same_entry ops) l l.
Proof. induction l; constructor; [by left|done]. Qed.

Lemma update_undone db d now applied e :
  stored db d -> rd_applied_operations d = applied ++ [e] ->
  pg_update_draft (undone_draft now applied e d) db =
  pg_update_draft (undone_in_store now applied e d) db.
Proof.
  intros Hst Ha. apply update_ignores_data; [apply Forall2_same_entry_refl|].
  apply Forall2_app; [apply Forall2_same_entry_refl|]. constructor; [|constructor]. right.
  split; [|done]. apply (stored_operation db d e); [done|]. unfold entries. rewrite Ha. set_solver.
Qed.

(** ** What an update keeps

    The draft that the database holds after an update: an operation that was
    stored before keeps its data. *)
Definition kept_entry (d0 : RouteDraft) (e : OperationEntry) : OperationEntry :=
  match list_find (fun x => oe_id x = oe_id e) (entries d0) with Some (_, x) => x | None => e end.

Definition as_stored (d0 d : RouteDraft) : RouteDraft :=
  with_stacks (map (kept_entry d0) (rd_applied_operations d))
    (map (kept_entry d0) (rd_undone_operations d)) d.

Lemma kept_entry_cases d0 e :
  oe_id (kept_entry d0 e) = oe_id e /\
  (kept_entry d0 e ∈ entries d0 \/ kept_entry d0 e = e /\ oe_id e ∉ stack_ids d0).
Proof.
  unfold kept_entry. destruct (list_find _ (entries d0)) as [[i x]|] eqn:Hf.
  - apply list_find_Some in Hf as (Hi & He & _). split; [done|]. left. by eapply list_elem_of_lookup_2.
  - split; [done|]. right. split; [done|]. intros (x & Hx & Hin)%list_elem_of_fmap.
    apply list_find_None in Hf. rewrite Forall_forall in Hf. by apply (Hf x Hin).
Qed.

Lemma as_stored_ids d0 d : stack_ids (as_stored d0 d) = stack_ids d.
Proof.
  unfold stack_ids, as_stored. simpl. rewrite <- map_app, map_map. apply map_ext.
  intros e. apply kept_entry_cases.
Qed.

Lemma elem_of_as_stored d0 d e :
  e ∈ entries (as_stored d0 d) -> e ∈ entries d0 \/ (e ∈ entries d /\ oe_id e ∉ stack_ids d0).
Proof.
  unfold entries, as_stored. simpl. rewrite <- map_app.
  intros (x & -> & Hx)%list_elem_of_fmap.
  destruct (kept_entry_cases d0 x) as [_ [?|[-> ?]]]; [by left|right; done].
Qed.

Lemma same_entry_kept db d0 l :
  stored db d0 -> Forall2 (same_entry (db_operations db)) l (map (kept_entry d0) l).
Proof.
  intros Hst. induction l as [|e l IH]; constructor; [|done].
  destruct (kept_entry_cases d0 e) as [Hid [Hin|[-> _]]]; [right|by left].
  split; [|done]. rewrite <- Hid. by apply (stored_operation db d0).
Qed.

Lemma update_as_stored db d0 d :
  ops_wf (db_operations db) -> stored db d0 -> same_draft d0 d -> NoDup (stack_ids d) ->
  (forall e, e ∈ entries d -> oe_id e ∈ stack_ids d0 \/ db_operations db !! oe_id e = None) ->
  rd_revision d = (rd_revision d0 + 1)%N -> (rd_revision d < 2 ^ 63)%N ->
  exists db', pg_update_draft d db = (Ok tt, db') /\ stored db' (as_stored d0 d) /\
    ops_wf (db_operations db') /\
    (forall id, id <> rd_id d -> db_drafts db' !! id = db_drafts db !! id) /\
    (forall k r, or_draft_id r <> rd_id d ->
       db_operations db' !! k = Some r <-> db_operations db !! k = Some r).
Proof.
  intros Hwf Hst Hsame Hnd He Hrev Hb.
  rewrite (update_ignores_data db d _ _ (same_entry_kept db d0 _ Hst) (same_entry_kept db d0 _ Hst)).
  fold (as_stored d0 d).
  assert (same_draft d0 (as_stored d0 d)) as Hsame' by exact Hsame.
  pose proof (update_cases db d0 (as_stored d0 d) Hwf Hst Hsame') as Hup.
  rewrite as_stored_ids in Hup. change (rd_revision (as_stored d0 d)) with (rd_revision d) in Hup.
  rewrite decide_True in Hup by done. apply Hup; [|done|lia|lia].
  intros e [Hin|[Hin Hnew]]%elem_of_as_stored; [by left|right]. by destruct (He e Hin).
Qed.

(** Undo, store and load again: the loaded draft is [undone_in_store], with its
    times as the columns keep them. *)
Lemma undo_update_find db d now applied e :
  ops_wf (db_operations db) -> stored db d -> storable d ->
  (rd_revision d + 1 < 2 ^ 63)%N -> rd_applied_operations d = applied ++ [e] ->
  exists db', pg_update_draft (undone_draft now applied e d) db = (Ok tt, db') /\
    pg_find_draft (rd_id d) db' = (Ok (Some (in_store (undone_in_store now applied e d))), db').
Proof.
  intros Hwf Hst Hsto Hrev Ha. destruct (id Hsto) as (Hg & Henc & Hnd & Hlen & Hr).
  rewrite (update_undone db d now applied e) by done.
  pose proof (undone_entries applied e d Ha) as Hent.
  assert (stack_ids (undone_in_store now applied e d) ≡ₚ stack_ids d) as Hids
    by (unfold stack_ids; simpl; by rewrite Hent).
  assert (rd_revision (undone_in_store now applied e d) = rd_revision d + 1)%N as Hrd.
  { simpl. apply u64_succ_small. unfold u64_modulus. lia. }
  assert (storable (undone_in_store now applied e d)) as Hsto'.
  { unfold storable. rewrite Hrd, Hids. simpl. rewrite Hent. split_and!; try done.
    unfold entries in Henc. rewrite Ha in Henc. rewrite !Forall_app in Henc.
    destruct Henc as [[_ He] _]. by apply Forall_singleton in He as [_ He]. }
  pose proof (update_cases db d (undone_in_store now applied e d) Hwf Hst) as Hup.
  rewrite Hrd, decide_True in Hup by done.
  destruct Hup as (db' & Hup & Hst' & Hwf' & _); [done| |by rewrite Hids|lia|done|].
  { intros x Hx. left. unfold entries in *. simpl in Hx. by rewrite Hent in Hx. }
  exists db'. split; [done|]. by apply (stored_find db' (undone_in_store now applied e d)).
Qed.
End drafts.

(** ** Properties *)

(** C36: a draft survives the database.  Take a stored draft and a later version
    of it whose operations are stored already with the same data or are new.
    If it is exactly one revision ahead, the update succeeds, and no row of another
    draft changed; loading the draft gives back every field, both stacks with
    their order included, except that the two times, which the program takes in
    nanoseconds, come back as the TIMESTAMPTZ columns keep them: in whole
    microseconds, less than one away from the time that was stored, and unchanged
    where that was whole.  Otherwise the update is refused with a revision conflict
    and nothing changed.  That the columns do this is a hypothesis about sqlx and
    PostgreSQL; that the JSON columns give back what this draft stores in them, and
    that its revision and the length of its stacks fit their columns, are others. *)
Theorem draft_update_roundtrip `{DraftJson} `{TimestamptzLaws} db d0 d :
  ops_wf (db_operations db) -> stored db d0 -> same_draft d0 d -> storable d ->
  (forall e, e ∈ entries d -> e ∈ entries d0 \/ db_operations db !! oe_id e = None) ->
  (0 < rd_revision d)%N -> (rd_revision d0 < 2 ^ 63)%N ->
  if decide (rd_revision d = rd_revision d0 + 1)%N
  then exists db', pg_update_draft d db = (Ok tt, db') /\
         (exists d', pg_find_draft (rd_id d) db' = (Ok (Some d'), db') /\ same_to_microseconds d d') /\
         stored db' d /\
         (forall id, id <> rd_id d -> db_drafts db' !! id = db_drafts db !! id) /\
         (forall k r, or_draft_id r <> rd_id d ->
            db_operations db' !! k = Some r <-> db_operations db !! k = Some r)
  else pg_update_draft d db =
         (Err (RevisionConflict (rd_revision d - 1) (rd_revision d)), db).
Proof.
  intros Hwf Hst Hsame Hsto He Hpos Hr0. destruct (id Hsto) as (_ & _ & Hnd & _ & Hr).
  pose proof (update_cases db d0 d Hwf Hst Hsame He Hnd (conj Hpos Hr) Hr0) as Hup.
  case_decide; [|done]. destruct Hup as (db' & Hup & Hst' & Hwf' & Hd & Ho).
  exists db'. split; [done|]. split; [|done]. exists (in_store d).
  split; [by apply stored_find|apply in_store_same].
Qed.

(** The optimistic lock holds across processes.  Once one version of a draft
    has been written, every update that carries the same revision, whatever it
    holds, is refused with a revision conflict and changes nothing. *)
Theorem stale_update_rejected `{DraftJson} `{TimestamptzColumn} db db' d d' :
  pg_update_draft d db = (Ok tt, db') -> rd_id d' = rd_id d -> rd_revision d' = rd_revision d ->
  pg_update_draft d' db' =
    (Err (RevisionConflict (u64_sub (rd_revision d) 1) (rd_revision d)), db').
Proof.
  unfold pg_update_draft. run. destruct (db_drafts db !! rd_id d) as [row|]; [|done].
  case_decide; [|done]. intros [= <-] -> ->. simpl. rewrite lookup_insert_eq, decide_False; [done|].
  simpl. intros He. by apply (i64_pred_ne (i64_of_u64 (rd_revision d))).
Qed.

(** A redo does not survive the database.  Undoing the last operation of a
    stored draft, storing the draft and loading it again gives the right geometry
    but an undone operation that carries the wrong one: redo on the loaded draft
    reports success and leaves the geometry as it was after the undo, whereas on
    the draft in memory it restores the edit.  ON CONFLICT keeps the old
    operation_data of the row. *)
Theorem redo_lost_in_database `{DraftJson} `{TimestamptzColumn} db d now now' applied e :
  ops_wf (db_operations db) -> stored db d -> storable d -> rd_state d = Active ->
  (rd_revision d + 1 < 2 ^ 63)%N -> rd_applied_operations d = applied ++ [e] ->
  exists d1 db' d2 d3 d4,
    undo now (rd_revision d) d = (Ok tt, d1) /\ pg_update_draft d1 db = (Ok tt, db') /\
    pg_find_draft (rd_id d) db' = (Ok (Some d2), db') /\ rd_geometry d2 = rd_geometry d1 /\
    redo now' (rd_revision d1) d1 = (Ok tt, d3) /\ rd_geometry d3 = rd_geometry d /\
    redo now' (rd_revision d2) d2 = (Ok tt, d4) /\ rd_geometry d4 = rd_geometry d1.
Proof.
  intros Hwf Hst Hsto Hact Hrev Ha.
  destruct (undo_update_find db d now applied e Hwf Hst Hsto Hrev Ha) as (db' & Hup & Hfind).
  exists (undone_draft now applied e d), db', (in_store (undone_in_store now applied e d)).
  exists (redone_draft now' (rd_undone_operations d) (swap_entry e (rd_geometry d))
            (undone_draft now applied e d)),
         (redone_draft now' (rd_undone_operations d) e (in_store (undone_in_store now applied e d))).
  split; [by apply undo_here_run|]. split; [done|]. split; [done|]. split; [done|].
  split; [by apply redo_here_run|]. split; [done|]. split; [by apply redo_here_run|done].
Qed.

(** A draft cannot be closed in the database.  Publishing or discarding a
    stored active draft succeeds in memory but does not move its revision, so
    the update that should store it is refused with a revision conflict and the
    draft stays active. *)
Theorem closing_is_never_stored `{DraftJson} `{TimestamptzColumn} db d d' now (close : datetime -> eff RouteDraft RouteEditingError unit) :
  close = publish \/ close = discard -> stored db d -> rd_state d = Active ->
  close now d = (Ok tt, d') ->
  pg_update_draft d' db =
    (Err (RevisionConflict (u64_sub (rd_revision d) 1) (rd_revision d)), db).
Proof.
  intros Hclose [Hrow _] Hact Hrun.
  assert (rd_id d' = rd_id d /\ rd_revision d' = rd_revision d) as [Hid Hrev].
  { destruct Hclose as [-> | ->]; unfold publish, discard in Hrun; run;
      rewrite check_active_run, decide_True in Hrun by done; by injection Hrun as <-. }
  unfold pg_update_draft. run. rewrite Hid, Hrev, Hrow, decide_False; [done|].
  simpl. intros He. by apply (i64_pred_ne (i64_of_u64 (rd_revision d))).
Qed.

(** ** Witnesses *)

(** A codec for geometries; every operation is read as [move_first]. *)
Definition point_to_json (p : RoutePoint) : Json :=
  JArray [JFloat (latitude (coordinate p)); JFloat (longitude (coordinate p));
          match elevation p with Some x => JFloat x | None => JNull end].
Definition point_of_json (j : Json) : option RoutePoint :=
  match j with
  | JArray [JFloat lat; JFloat lon; JFloat x] => Some (mkRoutePoint (mkCoordinate lat lon) (Some x))
  | JArray [JFloat lat; JFloat lon; JNull] => Some (mkRoutePoint (mkCoordinate lat lon) None)
  | _ => None
  end.
Definition array_of_json {A} (f : Json -> option A) (j : Json) : option (list A) :=
  match j with JArray l => mapM f l | _ => None end.

#[local] Instance sample_json : DraftJson := {|
  geometry_to_json g := JArray (map (fun s => JArray (map point_to_json s)) g);
  json_to_geometry j := default [] (array_of_json (array_of_json point_of_json) j);
  operation_to_json op := JNull;
  json_to_operation j := Some move_first |}.

(** Times are cut towards 2000-01-01, from where PostgreSQL counts. *)
Definition pg_epoch : Z := 946684800 * 10 ^ 9.
#[local] Instance micros : TimestamptzColumn := fun t => (pg_epoch + Z.quot (t - pg_epoch) 1000 * 1000)%Z.

#[local] Instance micros_laws : TimestamptzLaws.
Proof.
  assert (forall t, timestamptz t = (t - Z.rem (t - pg_epoch) 1000)%Z) as Hcut.
  { intros t. unfold timestamptz, micros. pose proof (Z.quot_rem' (t - pg_epoch) 1000). lia. }
  assert (forall t, (pg_epoch + t * 1000) mod 1000 = 0)%Z as Hwhole
    by (intros t; change pg_epoch with (946684800000000 * 1000)%Z; by rewrite <- Z.mul_add_distr_r, Z.mod_mul).
  split.
  - intros t. apply Hwhole.
  - intros t. rewrite Hcut. pose proof (Z.rem_bound_abs (t - pg_epoch) 1000). lia.
  - intros t Ht. rewrite Hcut. apply Z.mod_divide in Ht as [k ->]; [|done].
    change pg_epoch with (946684800000000 * 1000)%Z. rewrite <- Z.mul_sub_distr_r, Z.rem_mul by done. lia.
Qed.

Definition db_with (d : RouteDraft) : DraftDb :=
  mkDraftDb {[ rd_id d := draft_row d ]}
    (list_to_map (map (fun r => (or_operation_id r, r)) (stack_rows d))).

Lemma fresh_stored : stored (db_with fresh_draft) fresh_draft.
Proof. split; [done|]. intros k r _. split; [done|]. by intros [?%elem_of_nil _]. Qed.

Lemma edited_stored : stored (db_with edited_draft) edited_draft.
Proof.
  split; [done|]. intros k r _.
  change (db_operations (db_with edited_draft)) with
    ({[ 100%N := operation_row 1 false 0 (mkEntry 100 move_first square) ]} : gmap N OperationRow).
  change (stack_rows edited_draft) with [operation_row 1 false 0 (mkEntry 100 move_first square)].
  rewrite lookup_singleton_Some, list_elem_of_singleton. split.
  - by intros [<- <-].
  - by intros [-> <-].
Qed.

Lemma edited_ops_wf : ops_wf (db_operations (db_with edited_draft)).
Proof. apply map_Forall_singleton. done. Qed.

Lemma edited_storable : storable edited_draft.
Proof.
  split; [done|]. split; [by repeat constructor|]. split; [by repeat constructor; set_solver|done].
Qed.

Lemma draft_update_roundtrip_witness :
  exists db', pg_update_draft edited_draft (db_with fresh_draft) = (Ok tt, db') /\
    exists d', pg_find_draft 1 db' = (Ok (Some d'), db') /\ same_to_microseconds edited_draft d'.
Proof.
  destruct (draft_update_roundtrip (db_with fresh_draft) fresh_draft edited_draft)
    as (db' & Hup & Hfind & _).
  - apply map_Forall_empty.
  - apply fresh_stored.
  - done.
  - apply edited_storable.
  - intros e _. by right.
  - done.
  - done.
  - by exists db'.
Defined.

Lemma stale_update_rejected_witness :
  let db' := snd (pg_update_draft edited_draft (db_with fresh_draft)) in
  pg_update_draft edited_draft db' = (Err (RevisionConflict 0 1), db').
Proof.
  apply (stale_update_rejected (db_with fresh_draft) _ edited_draft edited_draft); [|done..].
  vm_compute. reflexivity.
Defined.

Lemma redo_lost_in_database_witness :
  exists d1 db' d2 d4,
    undo 11 1 edited_draft = (Ok tt, d1) /\ pg_update_draft d1 (db_with edited_draft) = (Ok tt, db') /\
    pg_find_draft 1 db' = (Ok (Some d2), db') /\
    redo 12 (rd_revision d2) d2 = (Ok tt, d4) /\ rd_geometry d4 = rd_geometry d1.
Proof.
  destruct (redo_lost_in_database (db_with edited_draft) edited_draft 11 12 []
              (mkEntry 100 move_first square))
    as (d1 & db' & d2 & d3 & d4 & H1 & H2 & H3 & _ & _ & _ & H6 & H7).
  - apply edited_ops_wf.
  - apply edited_stored.
  - apply edited_storable.
  - done.
  - done.
  - done.
  - by exists d1, db', d2, d4.
Defined.

Lemma closing_is_never_stored_witness :
  let d' := snd (discard 20 edited_draft) in
  pg_update_draft d' (db_with edited_draft) = (Err (RevisionConflict 0 1), db_with edited_draft).
Proof.
  apply (closing_is_never_stored (db_with edited_draft) edited_draft _ 20 discard);
    [by right|apply edited_stored|done|done].
Defined.
