(* ===== verification/PublicationTheory.v ===== *)
(** What publishing a draft does (execute_publish of RouteVersioning.v,
    crates/app/src/route_versioning/publish_command.rs): a valid draft always
    becomes the next version of its activity, nothing is written for any other. *)
From S2P Require Import Prelude Float64 RustString RustVec RouteEditing DraftValidation.
From S2P Require Import RecordedActivity RecordedActivityTheory RouteVersioning RouteDraftProperties.

(** A call that only reads. *)
Definition reads {S E A} (m : eff S E A) : Prop := forall s, snd (m s) = s.

Lemma reads_run {S E A} (m : eff S E A) s : reads m -> m s = (fst (m s), s).
Proof. intros Hm. specialize (Hm s). by destruct (m s) as [r s']; simpl in *; subst. Qed.

(** ** Flattening *)

Lemma flatten_publishable g :
  publishable g -> (2 <= len (flatten_geometry g))%N /\ Forall in_range (flatten_geometry g).
Proof.
  intros [Hne HF]. unfold flatten_geometry. split.
  - destruct g as [|s g]; [done|]. apply Forall_cons in HF as [[Hs _] _].
    unfold len. rewrite length_map. simpl. rewrite length_app. lia.
  - rewrite Forall_map. apply Forall_concat.
    eapply Forall_impl; [exact HF|]. intros s [_ Hs]. done.
Qed.

Section publish.
Context {S : Type} `{RouteVersionRepository S} `{RouteDraftRepository S} `{PublicationGateway S}
  `{Libm} `{StatisticsToJson}.

(** The version that publishing makes of a draft. *)
Definition published_version (new_id : uuid) (now : datetime) (cmd : PublishRouteVersionCommand)
    (d : RouteDraft) (latest : RouteVersion) (b : BoundingBox) : RouteVersion :=
  let flat := flatten_geometry (rd_geometry d) in
  mkVersion new_id (rd_activity_id d) (Some (rv_id latest)) (rv_version_number latest + 1) flat b
    (calculate_from_geometry flat) CALCULATION_VERSION (pc_edit_summary cmd) (pc_actor_id cmd) now.

Lemma build_version_valid new_id now cmd d latest b :
  publishable (rd_geometry d) -> (1 <= rv_version_number latest < 2 ^ 31 - 1)%Z ->
  build_version new_id now cmd d latest b = Ok (published_version new_id now cmd d latest b).
Proof.
  intros Hg Hn. destruct (flatten_publishable _ Hg) as [Hlen _].
  assert (i32_of (rv_version_number latest + 1) = rv_version_number latest + 1)%Z as Hi.
  { unfold i32_of, to_signed. change (2 ^ Z.of_N 32)%Z with (2 ^ 32)%Z. rewrite Z.mod_small by lia.
    change (2 ^ 32 / 2)%Z with (2 ^ 31)%Z. destruct (Z.ltb_spec (rv_version_number latest + 1) (2 ^ 31)); lia. }
  unfold build_version, new_from_publication. rewrite Hi.
  destruct (Z.ltb_spec (rv_version_number latest + 1) 2); [lia|].
  by destruct (N.ltb_spec (len (flatten_geometry (rd_geometry d))) 2); [lia|].
Qed.

Lemma publish_active now d :
  rd_state d = Active -> publish now d = (Ok tt, touch now (with_state Published d)).
Proof. intros Hd. unfold publish, check_active. run. by rewrite decide_True. Qed.

(** The writes of a publication, in their order: the version, the draft, the
    activity. *)
Definition publication_writes (v : RouteVersion) (d : RouteDraft)
    : eff S RouteVersioningError RouteVersion :=
  save_version v;;
  eff_map_err (fun _ => VPersistenceError (lit "failed to update draft")) (update_draft d);;
  update_activity_current_version (rd_activity_id d) (rv_id v)
    (match statistics_to_value (rv_corrected_statistics v) with inr j => j | inl _ => JNull end);;
  mret v.

Lemma store_publication_active now d v :
  rd_state d = Active ->
  store_publication now d v = publication_writes v (touch now (with_state Published d)).
Proof. intros Hd. unfold store_publication. by rewrite publish_active. Qed.
End publish.

(** Publishing is all or nothing up to its writes.  A request whose key was
    seen before answers with that version; an unknown draft, an invalid one and
    an activity without versions are refused, with exactly the errors of the
    validation; in all these cases nothing is written.  A valid draft always
    gets as far as the writes: its version is the successor of the latest one,
    of the same activity, with the points of all segments in order, a bounding
    box that contains them and is tight, and the statistics of that geometry;
    then the version, the draft as published and the activity's current version
    are stored in this order.  The code's checks on the bounding box, the number
    of points and the version number never fail after the validation. *)
Theorem execute_publish_correct {S} `{RouteVersionRepository S} `{RouteDraftRepository S}
    `{PublicationGateway S} `{Libm} `{StatisticsToJson} new_id now cmd (s : S) :
  (forall key, reads (find_version_by_key key)) -> (forall id, reads (find_draft id)) ->
  (forall id, reads (find_latest_by_activity id)) ->
  (forall id v, fst (find_latest_by_activity id s) = Ok (Some v) ->
     (1 <= rv_version_number v < 2 ^ 31 - 1)%Z) ->
  match fst (find_version_by_key (pc_idempotency_key cmd) s) with
  | Err e => execute_publish new_id now cmd s = (Err e, s)
  | Panicked => execute_publish new_id now cmd s = (Panicked, s)
  | Ok (Some v) => execute_publish new_id now cmd s = (Ok v, s)
  | Ok None =>
      match fst (find_draft (pc_draft_id cmd) s) with
      | Panicked => execute_publish new_id now cmd s = (Panicked, s)
      | Err _ | Ok None => execute_publish new_id now cmd s = (Err VDraftNotFound, s)
      | Ok (Some d) =>
          match validate_for_publication d (pc_expected_revision cmd) (pc_actor_id cmd),
                fst (find_latest_by_activity (rd_activity_id d) s) with
          | Err es, _ => execute_publish new_id now cmd s = (Err (map_validation_errors es), s)
          | _, Err e => execute_publish new_id now cmd s = (Err e, s)
          | _, Ok None => execute_publish new_id now cmd s = (Err VActivityNotFound, s)
          | Ok _, Ok (Some latest) => exists b,
              let flat := flatten_geometry (rd_geometry d) in
              Forall (inside b) flat /\ tight b flat /\
              execute_publish new_id now cmd s =
                publication_writes (published_version new_id now cmd d latest b)
                  (touch now (with_state Published d)) s
          | _, _ => execute_publish new_id now cmd s = (Panicked, s)
          end
      end
  end.
Proof.
  intros Hk Hd Hl Hn. unfold execute_publish. run. rewrite (reads_run _ _ (Hk _)).
  destruct (fst (find_version_by_key _ s)) as [[v|]|e|]; [done| |done..].
  rewrite (reads_run _ _ (Hd _)). destruct (fst (find_draft _ s)) as [[d|]|e|]; simpl; [|done..].
  destruct (validate_for_publication _ _ _) as [[]|es|] eqn:Hv; simpl.
  2: done.
  2: { exfalso. unfold validate_for_publication in Hv. repeat case_match; done. }
  apply validate_ok_iff in Hv as (_ & Hact & _ & Hg & _).
  destruct (flatten_publishable _ Hg) as [Hlen Hr].
  destruct (from_coordinates_spec (flatten_geometry (rd_geometry d))) as (b & Hb & Hin & Ht);
    [by intros He; rewrite He in Hlen|done|].
  rewrite Hb. simpl. rewrite (reads_run _ _ (Hl _)).
  destruct (fst (find_latest_by_activity _ s)) as [[latest|]|e|] eqn:Hlat; simpl; [|done..].
  exists b. split; [done|]. split; [done|].
  rewrite build_version_valid by eauto. by rewrite store_publication_active.
Qed.

(** ** Witness: one activity with one version, and the draft [fresh_draft] *)

Definition first_version : RouteVersion :=
  mkVersion 4 2 None 1 [] (mkBoundingBox (mkCoordinate f64_zero f64_zero) (mkCoordinate f64_zero f64_zero))
    (mkCorrected f64_zero 0 CALCULATION_VERSION) CALCULATION_VERSION None 3 0.

#[local] Instance sample_versions : RouteVersionRepository (list RouteVersion) := {|
  save_version v := modify (cons v);
  find_version id := mret None;
  find_latest_by_activity id := fun s => (Ok (head s), s);
  find_version_by_key key := mret None;
  list_by_activity id cursor size := mret (mkVersionPage [] None false) |}.
#[local] Instance sample_drafts : RouteDraftRepository (list RouteVersion) := {|
  save_draft d := mret tt;
  find_draft id := mret (Some fresh_draft);
  find_active_by_activity a o := mret None;
  update_draft d := mret tt;
  find_by_operation_id id := mret None |}.
#[local] Instance sample_gateway : PublicationGateway (list RouteVersion) := fun _ _ _ => mret tt.
#[local] Instance sample_libm : Libm := {| f64_sin := id; f64_cos := id; f64_asin := id |}.
#[local] Instance sample_statistics : StatisticsToJson := fun _ => inr JNull.

Definition publish_fresh : PublishRouteVersionCommand :=
  mkPublishCommand 1 0 3 (lit "key") (Some (lit "moved")).

Lemma execute_publish_correct_witness :
  exists b, execute_publish 9 50 publish_fresh [first_version] =
    publication_writes (published_version 9 50 publish_fresh fresh_draft first_version b)
      (touch 50 (with_state Published fresh_draft)) [first_version].
Proof.
  destruct (execute_publish_correct 9 50 publish_fresh [first_version]) as (b & _ & _ & Hb).
  - done.
  - done.
  - done.
  - intros id v [= <-]. done.
  - by exists b.
Defined.
