(* ===== verification/Exports.v ===== *)
(** Exports of route versions: crates/app/src/exports (mod.rs, state_machine.rs,
    commands.rs, repository.rs, job_types.rs, gpx_generator.rs).

    SHA-256, the bytes of a UUID and the XML escaping of quick_xml are
    parameters; the repository, the version gateway and the artifact store are
    interfaces, as in the code. *)
From S2P Require Import Prelude Float64 RustString Utf8.

(** ** Errors *)

Inductive ExportError : Type :=
| NotFound
| Unauthorized
| InvalidTransition (from to : rstr)
| IdempotencyPayloadMismatch
| RouteVersionNotFound
| ActivityNotFound
| ValidationFailed (message : rstr)
| PersistenceError (message : rstr)
| ChecksumMismatch (expected actual : rstr)
| ArtifactExpired
| NotReady (status : rstr).

#[export] Instance ExportError_eq_dec : EqDecision ExportError.
Proof. solve_decision. Defined.

(** ** State machine *)

Inductive ExportStatus : Type := Queued | Generating | Ready | Failed | Expired.

#[export] Instance ExportStatus_eq_dec : EqDecision ExportStatus.
Proof. solve_decision. Defined.

Definition export_status_display (s : ExportStatus) : rstr :=
  match s with
  | Queued => lit "queued"
  | Generating => lit "generating"
  | Ready => lit "ready"
  | Failed => lit "failed"
  | Expired => lit "expired"
  end.

Definition is_terminal (s : ExportStatus) : bool :=
  match s with Ready | Failed | Expired => true | _ => false end.

Definition transition_to (s target : ExportStatus) : result ExportError ExportStatus :=
  let refused := Err (InvalidTransition (export_status_display s) (export_status_display target)) in
  if is_terminal s then
    if bool_decide (s = Ready) && bool_decide (target = Expired) then Ok target
    else if bool_decide (s = Expired) && bool_decide (target = Expired) then Ok Expired
    else refused
  else
    match s, target with
    | Queued, Generating => Ok target
    | Generating, Ready => Ok target
    | Ready, Expired => Ok target
    | _, Failed => Ok target
    | _, _ => refused
    end.

(** ** The aggregate *)

Inductive ExportFormat : Type := Gpx.

#[export] Instance ExportFormat_eq_dec : EqDecision ExportFormat.
Proof. solve_decision. Defined.

Definition export_format_display (f : ExportFormat) : rstr := match f with Gpx => lit "gpx" end.

Record ExportJob := mkExportJob {
  ej_id : uuid;
  ej_activity_id : uuid;
  ej_route_version_id : uuid;
  ej_requested_by : uuid;
  ej_format : ExportFormat;
  ej_status : ExportStatus;
  ej_idempotency_key : rstr;
  ej_payload_hash : option rstr;
  ej_object_storage_key : option rstr;
  ej_checksum : option rstr;
  ej_failure_reason : option rstr;
  ej_expires_at : option datetime;
  ej_created_at : datetime;
  ej_updated_at : datetime }.

#[export] Instance ExportJob_eq_dec : EqDecision ExportJob.
Proof. solve_decision. Defined.

Definition set_status (s : ExportStatus) (j : ExportJob) : ExportJob :=
  mkExportJob (ej_id j) (ej_activity_id j) (ej_route_version_id j) (ej_requested_by j) (ej_format j)
    s (ej_idempotency_key j) (ej_payload_hash j) (ej_object_storage_key j) (ej_checksum j)
    (ej_failure_reason j) (ej_expires_at j) (ej_created_at j) (ej_updated_at j).
Definition set_artifact (key checksum : rstr) (expires_at : datetime) (j : ExportJob) : ExportJob :=
  mkExportJob (ej_id j) (ej_activity_id j) (ej_route_version_id j) (ej_requested_by j) (ej_format j)
    (ej_status j) (ej_idempotency_key j) (ej_payload_hash j) (Some key) (Some checksum)
    (ej_failure_reason j) (Some expires_at) (ej_created_at j) (ej_updated_at j).
Definition set_failure (reason : rstr) (j : ExportJob) : ExportJob :=
  mkExportJob (ej_id j) (ej_activity_id j) (ej_route_version_id j) (ej_requested_by j) (ej_format j)
    (ej_status j) (ej_idempotency_key j) (ej_payload_hash j) (ej_object_storage_key j)
    (ej_checksum j) (Some reason) (ej_expires_at j) (ej_created_at j) (ej_updated_at j).
Definition touch_export (now : datetime) (j : ExportJob) : ExportJob :=
  mkExportJob (ej_id j) (ej_activity_id j) (ej_route_version_id j) (ej_requested_by j) (ej_format j)
    (ej_status j) (ej_idempotency_key j) (ej_payload_hash j) (ej_object_storage_key j)
    (ej_checksum j) (ej_failure_reason j) (ej_expires_at j) (ej_created_at j) now.

Definition new_export (new_id : uuid) (now : datetime) (requested_by activity_id route_version_id : uuid)
    (format : ExportFormat) (idempotency_key : rstr) (payload_hash : option rstr)
    : result ExportError ExportJob :=
  if is_empty (trim idempotency_key)
  then Err (ValidationFailed (lit "idempotency key must not be empty"))
  else Ok (mkExportJob new_id activity_id route_version_id requested_by format Queued
             idempotency_key payload_hash None None None None now now).

Abbreviation on_export := (eff ExportJob ExportError unit) (only parsing).

(** [self.status = self.status.transition_to(target)?]. *)
Definition move_to (target : ExportStatus) : on_export :=
  j ← get; s ← lift (transition_to (ej_status j) target); modify (set_status s).

Definition start_generating (now : datetime) : on_export :=
  move_to Generating;; modify (touch_export now).

Definition complete (now : datetime) (key checksum : rstr) (expires_at : datetime) : on_export :=
  move_to Ready;; modify (set_artifact key checksum expires_at);; modify (touch_export now).

Definition complete_with_verified_checksum (now : datetime) (key expected verified : rstr)
    (expires_at : datetime) : on_export :=
  lift (guard_err (negb (bool_decide (expected = verified))) (ChecksumMismatch expected verified));;
  move_to Ready;; modify (set_artifact key expected expires_at);; modify (touch_export now).

Definition fail (now : datetime) (reason : rstr) : on_export :=
  move_to Failed;; modify (set_failure reason);; modify (touch_export now).

Definition expire (now : datetime) : on_export :=
  j ← get;
  if bool_decide (ej_status j = Expired) then mret tt
  else move_to Expired;; modify (touch_export now).

(** ** Interfaces *)

Class ExportRepository (S : Type) := {
  save_export : ExportJob -> eff S ExportError unit;
  find_export : uuid -> eff S ExportError (option ExportJob);
  find_export_by_key : uuid -> rstr -> eff S ExportError (option ExportJob);
  update_export : ExportJob -> eff S ExportError unit }.

Class RouteVersionGateway (S : Type) :=
  verify_owned_route_version : uuid -> uuid -> uuid -> eff S ExportError unit.

Class ArtifactStore (S : Type) := delete_artifact : rstr -> eff S ExportError unit.

Record DownloadInfo := mkDownloadInfo { di_url : rstr; di_expires_at : datetime }.
Class DownloadUrlGenerator (S : Type) :=
  generate_download_url : rstr -> rstr -> rstr -> N -> eff S ExportError DownloadInfo.

Definition GENERATE_EXPORT_JOB_TYPE : rstr := lit "generate_export".

Record GenerateExportJob := mkGenerateExport {
  ge_export_job_id : uuid;
  ge_activity_id : uuid;
  ge_route_version_id : uuid;
  ge_owner_id : uuid;
  ge_format : rstr;
  ge_correlation_id : uuid }.

(** ** Commands *)

Record RequestExportCommand := mkRequestExport {
  re_owner_id : uuid;
  re_activity_id : uuid;
  re_route_version_id : uuid;
  re_format : ExportFormat;
  re_idempotency_key : rstr }.

(** [Uuid::as_bytes], and the lower-case hexadecimal SHA-256. *)
Class UuidBytes := uuid_as_bytes : uuid -> bytes.
Class ExportHash := export_sha256_hex : bytes -> rstr.

Definition export_preimage `{UuidBytes} (activity_id route_version_id : uuid) (format : ExportFormat)
    : bytes :=
  uuid_as_bytes activity_id ++ [0%N] ++ uuid_as_bytes route_version_id ++ [0%N] ++
  as_bytes (export_format_display format).

Definition compute_payload_hash `{UuidBytes} `{ExportHash} (activity_id route_version_id : uuid)
    (format : ExportFormat) : rstr :=
  export_sha256_hex (export_preimage activity_id route_version_id format).

Section commands.
Context {S : Type} `{ExportRepository S} `{RouteVersionGateway S} `{ArtifactStore S}
  `{UuidBytes} `{ExportHash}.

Definition handle_request_export (new_id : uuid) (now : datetime) (cmd : RequestExportCommand)
    : eff S ExportError ExportJob :=
  lift (guard_err (is_empty (trim (re_idempotency_key cmd)))
          (ValidationFailed (lit "idempotency key must not be empty")));;
  let payload_hash := compute_payload_hash (re_activity_id cmd) (re_route_version_id cmd)
                        (re_format cmd) in
  found ← find_export_by_key (re_owner_id cmd) (re_idempotency_key cmd);
  match found with
  | Some existing =>
      lift (match ej_payload_hash existing with
            | Some stored_hash =>
                guard_err (negb (bool_decide (stored_hash = payload_hash))) IdempotencyPayloadMismatch
            | None => Ok tt
            end);;
      mret existing
  | None =>
      verify_owned_route_version (re_activity_id cmd) (re_route_version_id cmd) (re_owner_id cmd);;
      export_job ← lift (new_export new_id now (re_owner_id cmd) (re_activity_id cmd)
        (re_route_version_id cmd) (re_format cmd) (re_idempotency_key cmd) (Some payload_hash));
      save_export export_job;;
      mret export_job
  end.

Definition handle_get_export (export_id owner_id : uuid) : eff S ExportError ExportJob :=
  found ← find_export export_id;
  export_job ← lift (ok_or found NotFound);
  lift (guard_err (negb (ej_requested_by export_job =? owner_id)%N) NotFound);;
  mret export_job.

Definition handle_expire_export (now : datetime) (export_id : uuid) : eff S ExportError unit :=
  found ← find_export export_id;
  export_job ← lift (ok_or found NotFound);
  if bool_decide (ej_status export_job = Expired) then mret tt
  else
    match ej_object_storage_key export_job with
    | Some key => delete_artifact key
    | None => mret tt
    end;;
    let '(r, export_job) := expire now export_job in
    lift r;;
    update_export export_job.

Definition handle_download_export (now : datetime) (export_id caller_id : uuid)
    : eff S ExportError ExportJob :=
  found ← find_export export_id;
  export_job ← lift (ok_or found NotFound);
  lift (guard_err (negb (ej_requested_by export_job =? caller_id)%N) NotFound);;
  lift (guard_err (negb (bool_decide (ej_status export_job = Ready)))
          (NotReady (export_status_display (ej_status export_job))));;
  lift (match ej_expires_at export_job with
        | Some expires_at => guard_err (expires_at <=? now)%Z ArtifactExpired
        | None => Ok tt
        end);;
  mret export_job.
End commands.

(** ** The in-memory repository of crates/api/src/exports.rs *)

Abbreviation export_map := (gmap N ExportJob) (only parsing).

#[export] Instance InMemoryExportRepository : ExportRepository export_map := {|
  save_export j := modify (fun m => <[ej_id j := j]> m);
  find_export id := m ← get; mret (m !! id);
  find_export_by_key owner key :=
    m ← get;
    mret (head (List.filter (fun j => (ej_requested_by j =? owner)%N &&
                                      bool_decide (ej_idempotency_key j = key))
                  (map snd (map_to_list m))));
  update_export j := modify (fun m => <[ej_id j := j]> m) |}.

(** ** GPX generation *)

Record GpxPoint := mkGpxPoint {
  gp_latitude : f64; gp_longitude : f64; gp_elevation : option f64 }.
Record GpxGeneratorInput := mkGeneratorInput {
  gi_activity_name : option rstr; gi_segments : list (list GpxPoint) }.
Inductive GpxGeneratorError : Type := GenerationFailed (message : rstr).

(** [quick_xml::escape::escape]. *)
Class XmlEscape := escape : rstr -> rstr.

(** Seven decimals without trailing zeros and without a trailing point. *)
Definition format_coordinate (value : f64) : rstr :=
  let formatted := display_fixed 7 value in
  trim_end_matches (N.eqb 46) (trim_end_matches (N.eqb 48) formatted).

Definition newline : rstr := [10%N].

(** A tag in quotes is written with its character code. *)
Definition quoted (s : rstr) : rstr := [34%N] ++ s ++ [34%N].

Definition gpx_header : rstr :=
  lit "<?xml version=" ++ quoted (lit "1.0") ++ lit " encoding=" ++ quoted (lit "UTF-8") ++ lit "?>"
    ++ newline ++
  lit "<gpx xmlns=" ++ quoted (lit "http://www.topografix.com/GPX/1/1") ++ lit " version="
    ++ quoted (lit "1.1") ++ lit " creator=" ++ quoted (lit "Haiker") ++ lit ">" ++ newline ++
  lit "<trk>" ++ newline.

Definition point_xml (p : GpxPoint) : rstr :=
  lit "<trkpt lat=" ++ quoted (format_coordinate (gp_latitude p)) ++ lit " lon="
    ++ quoted (format_coordinate (gp_longitude p)) ++ lit ">" ++
  match gp_elevation p with
  | Some ele => lit "<ele>" ++ format_coordinate ele ++ lit "</ele>"
  | None => []
  end ++ lit "</trkpt>" ++ newline.

Definition segment_xml (s : list GpxPoint) : rstr :=
  match s with
  | [] => []
  | _ => lit "<trkseg>" ++ newline ++ concat (map point_xml s) ++ lit "</trkseg>" ++ newline
  end.

(** Writing to a [String] does not fail. *)
Definition generate_gpx `{XmlEscape} (input : GpxGeneratorInput) : result GpxGeneratorError bytes :=
  Ok (as_bytes
    (gpx_header ++
     match gi_activity_name input with
     | Some name => lit "<name>" ++ escape name ++ lit "</name>" ++ newline
     | None => []
     end ++
     concat (map segment_xml (gi_segments input)) ++
     lit "</trk>" ++ newline ++ lit "</gpx>" ++ newline)).
