(* ===== verification/ExportTheory.v ===== *)
(** What exports guarantee (Exports.v): the invariant and the end of their
    lifecycle, and the guards of the handlers against the contract of the
    export repository. *)
From S2P Require Import Prelude Float64 RustString Utf8 Exports.

(** ** Lifecycle *)

Inductive ExportCall : Type :=
| CallStart (now : datetime)
| CallComplete (now : datetime) (key checksum : rstr) (expires : datetime)
| CallCompleteVerified (now : datetime) (key expected verified : rstr) (expires : datetime)
| CallFail (now : datetime) (reason : rstr)
| CallExpire (now : datetime).

Definition run_export_call (c : ExportCall) : eff ExportJob ExportError unit :=
  match c with
  | CallStart now => start_generating now
  | CallComplete now key checksum expires => complete now key checksum expires
  | CallCompleteVerified now key e v expires => complete_with_verified_checksum now key e v expires
  | CallFail now reason => fail now reason
  | CallExpire now => expire now
  end.

Definition export_target (c : ExportCall) : ExportStatus :=
  match c with
  | CallStart _ => Generating
  | CallComplete _ _ _ _ | CallCompleteVerified _ _ _ _ _ => Ready
  | CallFail _ _ => Failed
  | CallExpire _ => Expired
  end.

Definition export_step (j j' : ExportJob) : Prop := exists c, j' = snd (run_export_call c j).

(** An artifact, with its checksum and expiry, exactly from [Ready] on; a failure
    reason exactly when failed. *)
Definition export_wf (j : ExportJob) : Prop :=
  (is_Some (ej_object_storage_key j) <-> ej_status j = Ready \/ ej_status j = Expired) /\
  (is_Some (ej_checksum j) <-> is_Some (ej_object_storage_key j)) /\
  (is_Some (ej_expires_at j) <-> is_Some (ej_object_storage_key j)) /\
  (is_Some (ej_failure_reason j) <-> ej_status j = Failed).

(** What identifies an export never changes. *)
Definition same_export (j j' : ExportJob) : Prop :=
  ej_id j' = ej_id j /\ ej_requested_by j' = ej_requested_by j /\
  ej_activity_id j' = ej_activity_id j /\ ej_route_version_id j' = ej_route_version_id j /\
  ej_idempotency_key j' = ej_idempotency_key j /\ ej_payload_hash j' = ej_payload_hash j.

(** The moves of the state machine. *)
Inductive moves : ExportStatus -> ExportStatus -> Prop :=
| moves_start : moves Queued Generating
| moves_ready : moves Generating Ready
| moves_expire : moves Ready Expired
| moves_fail_queued : moves Queued Failed
| moves_fail_generating : moves Generating Failed.

(** [Expired] to [Expired] is let through without being a move. *)
Lemma transition_to_ok s target :
  transition_to s target = Ok target <-> moves s target \/ (s = Expired /\ target = Expired).
Proof.
  split; [destruct s, target; try done; intros _; auto using moves|].
  intros [[]|[-> ->]]; done.
Qed.

Lemma transition_to_err s target :
  ~ (moves s target \/ (s = Expired /\ target = Expired)) ->
  transition_to s target =
    Err (InvalidTransition (export_status_display s) (export_status_display target)).
Proof.
  intros Hn. destruct s, target; try done; exfalso; apply Hn; auto using moves.
Qed.

(** A call changes nothing, or moves the status along the state machine. *)
Lemma export_call_cases c j :
  let '(r, j') := run_export_call c j in
  (j' = j /\ (r = Ok tt -> ej_status j = Expired /\ export_target c = Expired)) \/
  (r = Ok tt /\ moves (ej_status j) (export_target c) /\ ej_status j' = export_target c /\
   same_export j j' /\ (export_wf j -> export_wf j')).
Proof.
  destruct c; simpl; unfold start_generating, complete, complete_with_verified_checksum, fail, expire,
    move_to, guard_err; run.
  all: try (case_bool_decide; simpl; try by left).
  all: destruct (ej_status j) eqn:Hst; simpl; try (by left); try congruence; right;
    (split; [done|split; [constructor|split; [done|split; [done|]]]]);
    unfold export_wf; rewrite Hst; simpl; rewrite <- ?not_eq_None_Some; naive_solver.
Qed.

Lemma new_export_wf new_id now owner activity version f key hash j :
  new_export new_id now owner activity version f key hash = Ok j -> export_wf j.
Proof.
  unfold new_export. destruct (is_empty _); [done|]. intros [= <-].
  unfold export_wf. simpl. rewrite <- ?not_eq_None_Some. naive_solver.
Qed.

Lemma same_export_trans a b c : same_export a b -> same_export b c -> same_export a c.
Proof. unfold same_export. intuition congruence. Qed.

Lemma export_step_keeps j0 j j' :
  export_wf j /\ same_export j0 j -> export_step j j' -> export_wf j' /\ same_export j0 j'.
Proof.
  intros [Hwf Hs] [c ->]. pose proof (export_call_cases c j) as Hc.
  destruct (run_export_call c j) as [r j']. simpl.
  destruct Hc as [[-> _]|(_ & _ & _ & Hs' & Hwf')]; [done|].
  split; [by apply Hwf'|by apply (same_export_trans _ j)].
Qed.

(** Once [Failed] or [Expired], nothing changes any more. *)
Lemma closed_export_final j j' :
  ej_status j = Failed \/ ej_status j = Expired -> reach export_step j j' -> j' = j.
Proof.
  intros Hst. apply (reach_invariant _ (fun x => x = j)); [|done]. intros a b -> [c ->].
  pose proof (export_call_cases c j) as Hc. destruct (run_export_call c j) as [r j''].
  destruct Hc as [[-> _]|(_ & Hm & _)]; [done|].
  inversion Hm; destruct Hst; congruence.
Qed.

Definition expired (now : datetime) (j : ExportJob) : ExportJob :=
  touch_export now (set_status Expired j).

Lemma expire_cases now j :
  expire now j =
    if decide (ej_status j = Expired) then (Ok tt, j)
    else if decide (ej_status j = Ready) then (Ok tt, expired now j)
    else (Err (InvalidTransition (export_status_display (ej_status j)) (lit "expired")), j).
Proof.
  unfold expire, move_to. run. destruct (ej_status j) eqn:Hst; simpl; rewrite ?Hst; done.
Qed.

(** Once [Ready], an export can only expire, and keeps its artifact. *)
Lemma ready_export_keeps_artifact j j' :
  ej_status j = Ready -> reach export_step j j' ->
  (ej_status j' = Ready \/ ej_status j' = Expired) /\
  ej_object_storage_key j' = ej_object_storage_key j /\ ej_checksum j' = ej_checksum j /\
  ej_expires_at j' = ej_expires_at j.
Proof.
  intros Hst.
  apply (reach_invariant _ (fun x => (ej_status x = Ready \/ ej_status x = Expired) /\
    ej_object_storage_key x = ej_object_storage_key j /\ ej_checksum x = ej_checksum j /\
    ej_expires_at x = ej_expires_at j)); [|naive_solver].
  intros a b (Ha & H1 & H2 & H3) [c ->].
  pose proof (export_call_cases c a) as Hc. destruct (run_export_call c a) as [r b] eqn:Hr.
  destruct Hc as [[-> _]|(_ & Hm & _)]; [done|].
  assert (ej_status a = Ready /\ export_target c = Expired) as [Hra Ht]
    by (inversion Hm; destruct Ha; split; congruence).
  destruct c; try done. simpl in *. rewrite expire_cases, decide_False, decide_True in Hr by congruence.
  injection Hr as _ <-. simpl. auto.
Qed.

(** ** The contract of the repository *)

Class ExportRepositoryLaws (S : Type) `{ExportRepository S} := {
  exports : S -> gmap N ExportJob;
  find_export_law : forall id s,
    find_export id s = (Ok (exports s !! id), s) \/
    (exists m, find_export id s = (Err (PersistenceError m), s));
  find_export_by_key_law : forall owner key s,
    (exists m, find_export_by_key owner key s = (Err (PersistenceError m), s)) \/
    (exists o, find_export_by_key owner key s = (Ok o, s) /\
       match o with
       | Some j => exists id, exports s !! id = Some j /\ ej_requested_by j = owner /\
                     ej_idempotency_key j = key
       | None => forall id j, exports s !! id = Some j -> ej_requested_by j = owner ->
                   ej_idempotency_key j <> key
       end);
  save_export_law : forall j s,
    (exists m, save_export j s = (Err (PersistenceError m), s)) \/
    (exists s', save_export j s = (Ok tt, s') /\ exports s' = <[ej_id j := j]> (exports s));
  update_export_law : forall j s,
    (exists m, update_export j s = (Err (PersistenceError m), s)) \/
    (exists s', update_export j s = (Ok tt, s') /\ exports s' = <[ej_id j := j]> (exports s)) }.

#[export] Program Instance InMemoryExportRepositoryLaws : ExportRepositoryLaws (gmap N ExportJob) :=
  {| exports m := m |}.
Next Obligation. intros id m. by left. Qed.
Next Obligation.
  intros owner key m. right. simpl. run. eexists. split; [done|].
  set (p := fun j : ExportJob => _). set (l := List.filter p (map snd (map_to_list m))).
  assert (forall j, j ∈ l <-> p j = true /\ exists id, m !! id = Some j) as Hl.
  { intros j. unfold l. rewrite list_elem_of_In, filter_In, <- list_elem_of_In, list_elem_of_fmap. split.
    - intros [([id k] & -> & Hin%elem_of_map_to_list) Hp]. eauto.
    - intros [Hp [id Hj]]. split; [|done]. exists (id, j). by rewrite elem_of_map_to_list. }
  destruct (head l) as [j|] eqn:Hh; simpl.
  - apply head_Some_elem_of, Hl in Hh as [Hp [id Hj]]. exists id. unfold p in Hp. by to_prop.
  - apply head_None in Hh. intros id j Hj Ho Hk. assert (j ∈ l) as Hin.
    { apply Hl. split; [|eauto]. unfold p. by rewrite Ho, N.eqb_refl, bool_decide_eq_true_2. }
    rewrite Hh in Hin. by apply elem_of_nil in Hin.
Qed.
Next Obligation. intros j m. right. by eexists. Qed.
Next Obligation. intros j m. right. by eexists. Qed.

(** ** Requesting an export *)

Section request.
Context {S : Type} `{Laws : ExportRepositoryLaws S} `{gateway : RouteVersionGateway S} `{UuidBytes} `{ExportHash}.
Context (Hgateway : forall a v o s, exports (snd (verify_owned_route_version a v o s)) = exports s).

(** No two exports share an owner and an idempotency key. *)
Definition unique_export_keys (t : gmap N ExportJob) : Prop :=
  forall a b i j, t !! a = Some i -> t !! b = Some j -> ej_requested_by i = ej_requested_by j ->
    ej_idempotency_key i = ej_idempotency_key j -> i = j.

Definition export_request_hash (cmd : RequestExportCommand) : rstr :=
  compute_payload_hash (re_activity_id cmd) (re_route_version_id cmd) (re_format cmd).

(** A request that succeeded: its export is stored, and was there already, or is
    new and queued. *)
Lemma request_export_ok new_id now cmd s j s' :
  handle_request_export new_id now cmd s = (Ok j, s') ->
  is_empty (trim (re_idempotency_key cmd)) = false /\
  ej_requested_by j = re_owner_id cmd /\ ej_idempotency_key j = re_idempotency_key cmd /\
  (ej_payload_hash j = None \/ ej_payload_hash j = Some (export_request_hash cmd)) /\
  ((exports s' = exports s /\ exists id, exports s !! id = Some j) \/
   (exports s' = <[new_id := j]> (exports s) /\ ej_id j = new_id /\ ej_status j = Queued /\
    ej_activity_id j = re_activity_id cmd /\ ej_route_version_id j = re_route_version_id cmd /\
    ej_payload_hash j = Some (export_request_hash cmd) /\
    forall id k, exports s !! id = Some k -> ej_requested_by k = re_owner_id cmd ->
      ej_idempotency_key k <> re_idempotency_key cmd)).
Proof using Laws Hgateway.
  unfold handle_request_export, export_request_hash. run. destruct (is_empty _) eqn:He; simpl; [done|].
  destruct (find_export_by_key_law (re_owner_id cmd) (re_idempotency_key cmd) s) as [[m ->]|(o & -> & Ho)]; [done|].
  destruct o as [k|].
  - destruct Ho as (id & Hk & Howner & Hkey). destruct (ej_payload_hash k) as [h|] eqn:Hh; simpl.
    + unfold guard_err. case_bool_decide as Heq; simpl; [|done]. intros [= <- <-]. subst h.
      split_and!; eauto 10.
    + intros [= <- <-]. split_and!; eauto 10.
  - specialize (Hgateway (re_activity_id cmd) (re_route_version_id cmd) (re_owner_id cmd) s).
    destruct (verify_owned_route_version _ _ _ s) as [[[]|e|] s1]; [|done..]. simpl in Hgateway.
    unfold new_export. rewrite He. set (k := mkExportJob _ _ _ _ _ _ _ _ _ _ _ _ _ _).
    destruct (save_export_law k s1) as [[m ->]|(s2 & -> & Hs2)]; [done|]. intros [= <- <-].
    rewrite Hgateway in Hs2. split_and!; try done; [by right|]. right. split_and!; done.
Qed.

(** A further request under the key of a stored export. *)
Lemma request_export_again new_id now cmd s j id :
  unique_export_keys (exports s) -> exports s !! id = Some j ->
  is_empty (trim (re_idempotency_key cmd)) = false ->
  ej_requested_by j = re_owner_id cmd -> ej_idempotency_key j = re_idempotency_key cmd ->
  (exists m, handle_request_export new_id now cmd s = (Err (PersistenceError m), s)) \/
  handle_request_export new_id now cmd s =
    (if decide (ej_payload_hash j = None \/ ej_payload_hash j = Some (export_request_hash cmd))
     then Ok j else Err IdempotencyPayloadMismatch, s).
Proof using Laws.
  intros Hu Hj He Ho Hk. unfold handle_request_export, export_request_hash. run. rewrite He. simpl.
  destruct (find_export_by_key_law (re_owner_id cmd) (re_idempotency_key cmd) s) as [[m ->]|(o & -> & Hf)]; [eauto|].
  right. destruct o as [k|]; [|by destruct (Hf id j)]. destruct Hf as (id' & Hk' & Howner & Hkey).
  assert (k = j) as -> by (apply (Hu id' id); congruence).
  unfold guard_err. destruct (decide _) as [Hh|Hh]; destruct (ej_payload_hash j) as [h|]; simpl; try done.
  - destruct Hh as [|[= ->]]; [done|]. by rewrite bool_decide_eq_true_2.
  - rewrite bool_decide_eq_false_2 by naive_solver. done.
  - naive_solver.
Qed.

Lemma unique_export_keys_insert t id j :
  unique_export_keys t ->
  (forall i k, t !! i = Some k -> ej_requested_by k = ej_requested_by j ->
     ej_idempotency_key k <> ej_idempotency_key j) ->
  unique_export_keys (<[id := j]> t).
Proof using Type.
  intros Ht Hj a b x y [[<- <-]|[_ Hx]]%lookup_insert_Some [[Hb <-]|[_ Hy]]%lookup_insert_Some Ho Hk; try done.
  - by destruct (Hj b y).
  - by destruct (Hj a x).
  - by apply (Ht a b).
Qed.
End request.

Section handlers.
Context {S : Type} `{Laws : ExportRepositoryLaws S} `{ArtifactStore S}.

(** What the handler does on a stored export when its reads and writes work. *)
Definition expire_outcome (now : datetime) (j : ExportJob) : eff S ExportError unit :=
  if decide (ej_status j = Expired) then mret tt
  else
    match ej_object_storage_key j with Some key => delete_artifact key | None => mret tt end;;
    if decide (ej_status j = Ready) then update_export (expired now j)
    else throw (InvalidTransition (export_status_display (ej_status j)) (lit "expired")).

Lemma handle_expire_run now id s j :
  exports s !! id = Some j ->
  (exists m, handle_expire_export now id s = (Err (PersistenceError m), s)) \/
  handle_expire_export now id s = expire_outcome now j s.
Proof.
  intros Hj. unfold handle_expire_export, expire_outcome. run.
  destruct (find_export_law id s) as [->|[m ->]]; [right|eauto]. rewrite Hj. simpl.
  destruct (decide (ej_status j = Expired)) as [He|He];
    [by rewrite bool_decide_eq_true_2|rewrite bool_decide_eq_false_2 by done].
  rewrite expire_cases, decide_False by done. run.
  destruct (ej_object_storage_key j) as [key|]; [|by case_decide].
  destruct (delete_artifact key s) as [[[]|e|] s1]; [by case_decide|done..].
Qed.
End handlers.

(** ** Properties *)

(** The lifecycle of an export.  However it is driven from its creation, it
    has an artifact key, a checksum and an expiry exactly while it is [Ready]
    or [Expired] and a failure reason exactly when it is [Failed]; its owner,
    version, key and payload hash never change; once [Ready] it keeps its
    artifact and can only expire; and once [Failed] or [Expired] no call
    changes it. *)
Theorem export_lifecycle new_id now owner activity version f key hash j j' j'' :
  new_export new_id now owner activity version f key hash = Ok j ->
  reach export_step j j' -> reach export_step j' j'' ->
  export_wf j' /\ same_export j j' /\
  (ej_status j' = Failed \/ ej_status j' = Expired -> j'' = j') /\
  (ej_status j' = Ready ->
     (ej_status j'' = Ready \/ ej_status j'' = Expired) /\
     ej_object_storage_key j'' = ej_object_storage_key j' /\ ej_checksum j'' = ej_checksum j' /\
     ej_expires_at j'' = ej_expires_at j').
Proof.
  intros Hnew Hr Hr'.
  destruct (reach_invariant export_step (fun x => export_wf x /\ same_export j x)
              (export_step_keeps j) j j') as [Hwf Hs];
    [split; [by eapply new_export_wf|done]|done|].
  split; [done|]. split; [done|]. split.
  - intros Hst. by apply closed_export_final.
  - intros Hst. by apply ready_export_keeps_artifact.
Qed.

(** Who may download.  The handler never changes anything and, unless the
    store fails, gives an export to its owner exactly when it is [Ready] and not
    past its expiry; a stranger gets the same answer as for an export that does
    not exist, whatever the state of the export. *)
Theorem download_export_guarded {S} `{Laws : ExportRepositoryLaws S} now id caller (s : S) :
  (exists m, handle_download_export now id caller s = (Err (PersistenceError m), s)) \/
  match exports s !! id with
  | Some j =>
      (ej_requested_by j <> caller -> handle_download_export now id caller s = (Err NotFound, s)) /\
      (handle_download_export now id caller s = (Ok j, s) <->
       ej_requested_by j = caller /\ ej_status j = Ready /\
       forall e, ej_expires_at j = Some e -> (now < e)%Z) /\
      snd (handle_download_export now id caller s) = s
  | None => handle_download_export now id caller s = (Err NotFound, s)
  end.
Proof.
  unfold handle_download_export. run.
  destruct (find_export_law id s) as [->|[m ->]]; [right|eauto].
  destruct (exports s !! id) as [j|]; [|done]. simpl. unfold guard_err.
  destruct (N.eqb_spec (ej_requested_by j) caller) as [Ho|Ho]; simpl; [|split_and!; naive_solver].
  destruct (decide (ej_status j = Ready)) as [Hst|Hst];
    [rewrite bool_decide_eq_true_2 by done|rewrite bool_decide_eq_false_2 by done; naive_solver].
  simpl. destruct (ej_expires_at j) as [e|]; [|naive_solver].
  destruct (Z.leb_spec e now); (split; [done|split; [|done]]).
  - split; [done|]. intros (_ & _ & He). specialize (He e eq_refl). lia.
  - split; [|done]. intros _. split; [done|]. split; [done|]. intros e' [= <-]. lia.
Qed.

(** Expiring is safe and idempotent.  For a stored export that satisfies the
    invariant, unless the store fails: if it is [Ready], its artifact is
    deleted, and only after that worked it is stored as [Expired], no other
    export changes, and expiring it again succeeds without deleting or writing
    anything; if it is [Expired] already nothing happens; and in every other
    state the call is refused with nothing deleted or written. *)
Theorem expire_export_once {S} `{Laws : ExportRepositoryLaws S} `{ArtifactStore S} now id (s : S) j :
  (forall key s, exports (snd (delete_artifact key s)) = exports s) ->
  exports s !! id = Some j -> ej_id j = id -> export_wf j ->
  let '(r, s') := handle_expire_export now id s in
  (exists m, r = Err (PersistenceError m) /\ exports s' = exports s) \/
  match ej_status j with
  | Ready => exists key, ej_object_storage_key j = Some key /\
      match delete_artifact key s with
      | (Ok _, _) =>
          r = Ok tt /\ exports s' = <[id := expired now j]> (exports s) /\
          forall now', handle_expire_export now' id s' = (Ok tt, s') \/
            exists m, handle_expire_export now' id s' = (Err (PersistenceError m), s')
      | (_, s1) => is_ok r = false /\ s' = s1 /\ exports s' = exports s
      end
  | Expired => r = Ok tt /\ s' = s
  | st => r = Err (InvalidTransition (export_status_display st) (lit "expired")) /\ s' = s
  end.
Proof.
  intros Hdel Hj Hid (Hkey & _).
  destruct (handle_expire_run now id s j Hj) as [[m ->]| ->]; [left; eauto|].
  unfold expire_outcome.
  destruct (decide (ej_status j = Expired)) as [He|He]; [rewrite He; by right|]. run.
  destruct (decide (ej_status j = Ready)) as [Hr|Hr].
  - destruct Hkey as [_ Hkey]. destruct (Hkey (or_introl Hr)) as [key Hk]. rewrite Hk, Hr.
    pose proof (Hdel key s) as Hs1.
    destruct (delete_artifact key s) as [[[]|e|] s1] eqn:Hd; simpl in Hs1;
      [|right; exists key; by rewrite Hd..].
    destruct (update_export_law (expired now j) s1) as [[m ->]|(s2 & -> & Hs2)]; [left; eauto|].
    simpl in Hs2. rewrite Hid, Hs1 in Hs2. right. exists key. rewrite Hd. split_and!; [done..|].
    intros now'. destruct (handle_expire_run now' id s2 (expired now j)) as [Hm| ->];
      [by rewrite Hs2, lookup_insert_eq|by right|by left].
  - destruct (ej_object_storage_key j) as [key|] eqn:Hk.
    { destruct Hkey as [Hkey _]. destruct (Hkey ltac:(by eexists)); congruence. }
    right. by destruct (ej_status j).
Qed.

(** ** Witnesses, over the in-memory repository *)

#[local] Instance sample_artifacts : ArtifactStore (gmap N ExportJob) := fun _ => mret tt.

Definition queued_export : ExportJob :=
  mkExportJob 1 2 3 5 Gpx Queued (lit "key") None None None None None 0 0.
Definition ready_export : ExportJob :=
  snd (complete 2 (lit "file") (lit "sum") 100 (snd (start_generating 1 queued_export))).
Definition one_export : gmap N ExportJob := {[ 1%N := ready_export ]}.

Lemma reach_ready : reach export_step queued_export ready_export.
Proof.
  eapply reach_step; [by exists (CallStart 1)|].
  eapply reach_step; [by exists (CallComplete 2 (lit "file") (lit "sum") 100)|]. apply reach_refl.
Qed.

Lemma ready_export_wf : export_wf ready_export.
Proof.
  apply (reach_invariant export_step (fun x => export_wf x /\ same_export queued_export x)
           (export_step_keeps queued_export) queued_export ready_export); [|apply reach_ready].
  split; [|done]. by apply (new_export_wf 1 0 5 2 3 Gpx (lit "key") None).
Qed.

Lemma export_lifecycle_witness : export_wf ready_export /\ same_export queued_export ready_export.
Proof.
  destruct (export_lifecycle 1 0 5 2 3 Gpx (lit "key") None queued_export ready_export ready_export)
    as (H1 & H2 & _).
  - by vm_compute.
  - apply reach_ready.
  - apply reach_refl.
  - by split.
Defined.

Lemma expire_export_once_witness :
  let '(r, s') := handle_expire_export 7 1 one_export in
  (exists m, r = Err (PersistenceError m) /\ s' = one_export) \/
  (r = Ok tt /\ s' = {[ 1%N := expired 7 ready_export ]}).
Proof.
  pose proof (expire_export_once 7 1 one_export ready_export) as Hp. cbv zeta.
  destruct (handle_expire_export 7 1 one_export) as [r s'].
  destruct Hp as [Hm|(key & _ & Hr & Hs & _)].
  - done.
  - done.
  - done.
  - apply ready_export_wf.
  - by left.
  - right. split; [done|]. simpl in Hs. rewrite Hs. unfold one_export. by rewrite insert_singleton_eq.
Defined.
