(* ===== verification/OidcState.v ===== *)
(** The store of pending OIDC logins, crates/infrastructure/src/oidc_state_store.rs:
    a state handed out at the start of a login can be redeemed once, before it
    expires.  The mutex makes each method one step; [Instant::now()] is an
    argument, in nanoseconds, and never goes back. *)
From S2P Require Import Prelude Float64 RustString.

Definition DEFAULT_TTL : Z := 600 * 1000000000.

Record StateEntry := mkStateEntry { se_nonce : rstr; se_code_verifier : rstr; se_expires_at : Z }.

Record OidcStateStore := mkStateStore { oss_entries : gmap rstr StateEntry; oss_ttl : Z }.

Definition new_store : OidcStateStore := mkStateStore ∅ DEFAULT_TTL.

Definition store_state (now : Z) (state nonce code_verifier : rstr) (s : OidcStateStore)
    : OidcStateStore :=
  let kept := filter (fun '(_, e) => now < se_expires_at e)%Z (oss_entries s) in
  mkStateStore (<[state := mkStateEntry nonce code_verifier (now + oss_ttl s)]> kept) (oss_ttl s).

Definition consume_state (now : Z) (state : rstr) (s : OidcStateStore)
    : option (rstr * rstr) * OidcStateStore :=
  match oss_entries s !! state with
  | None => (None, s)
  | Some e =>
      (if (now <? se_expires_at e)%Z then Some (se_nonce e, se_code_verifier e) else None,
       mkStateStore (delete state (oss_entries s)) (oss_ttl s))
  end.

(** ** Histories *)

Inductive StoreCall : Type :=
| Stored (now : Z) (state nonce code_verifier : rstr)
| Consumed (now : Z) (state : rstr).

Definition call_time (c : StoreCall) : Z := match c with Stored t _ _ _ | Consumed t _ => t end.

Definition run_store_call (s : OidcStateStore) (c : StoreCall) : OidcStateStore :=
  match c with
  | Stored t st n v => store_state t st n v s
  | Consumed t st => snd (consume_state t st s)
  end.

Definition run_history (h : list StoreCall) : OidcStateStore := fold_left run_store_call h new_store.

(** What the history says of a state: its last call about it, if that stored
    it. *)
Definition pending_step (st : rstr) (p : option StateEntry) (c : StoreCall) : option StateEntry :=
  match c with
  | Stored t st' n v => if decide (st' = st) then Some (mkStateEntry n v (t + DEFAULT_TTL)) else p
  | Consumed _ st' => if decide (st' = st) then None else p
  end.
Definition pending (st : rstr) (h : list StoreCall) : option StateEntry :=
  fold_left (pending_step st) h None.

(** Times never go back. *)
Fixpoint times_from (t : Z) (h : list StoreCall) : Prop :=
  match h with [] => True | c :: h' => (t <= call_time c)%Z /\ times_from (call_time c) h' end.

(** The store agrees with the history but for entries that have expired. *)
Definition agrees (now : Z) (s : OidcStateStore) (p : rstr -> option StateEntry) : Prop :=
  oss_ttl s = DEFAULT_TTL /\
  forall st, oss_entries s !! st = p st \/
             (oss_entries s !! st = None /\ exists e, p st = Some e /\ (se_expires_at e <= now)%Z).

Lemma run_store_call_agrees t s p c :
  agrees t s p -> (t <= call_time c)%Z ->
  agrees (call_time c) (run_store_call s c) (fun st => pending_step st (p st) c).
Proof.
  intros [Httl Hag] Ht. destruct c as [t' st n v|t' st]; simpl in *; split; try done.
  - intros st'. unfold store_state. simpl. destruct (decide (st = st')) as [->|Hne].
    + left. by rewrite lookup_insert_eq, Httl.
    + rewrite lookup_insert_ne by done. destruct (Hag st') as [He|(He & e & Hp & Hexp)].
      * destruct (p st') as [e|] eqn:Hp.
        -- destruct (decide (t' < se_expires_at e)%Z) as [Hlt|Hge].
           ++ left. by apply map_lookup_filter_Some.
           ++ right. split; [|exists e; split; [done|lia]].
              apply map_lookup_filter_None. right. intros x Hx. rewrite He in Hx. by injection Hx as <-.
        -- left. apply map_lookup_filter_None. by left.
      * right. split; [apply map_lookup_filter_None; by left|]. exists e. split; [done|lia].
  - unfold consume_state. by destruct (oss_entries s !! st).
  - intros st'. unfold consume_state.
    assert (oss_entries (snd (match oss_entries s !! st with
              | Some e => (if (t' <? se_expires_at e)%Z then Some (se_nonce e, se_code_verifier e) else None,
                           mkStateStore (delete st (oss_entries s)) (oss_ttl s))
              | None => (None, s) end)) = delete st (oss_entries s)) as ->.
    { destruct (oss_entries s !! st) eqn:He; simpl; [done|]. by rewrite delete_id. }
    destruct (decide (st = st')) as [->|Hne]; [left; apply lookup_delete_eq|].
    rewrite lookup_delete_ne by done. destruct (Hag st') as [He|(He & e & Hp & Hexp)]; [by left|].
    right. split; [done|]. exists e. split; [done|lia].
Qed.

Lemma run_history_agrees h c t s p :
  agrees t s p -> times_from t (h ++ [c]) ->
  exists t', (t' <= call_time c)%Z /\
    agrees t' (fold_left run_store_call h s) (fun st => fold_left (pending_step st) h (p st)).
Proof.
  revert t s p. induction h as [|c' h IH]; intros t s p Hag; simpl.
  - intros [Ht _]. exists t. by split.
  - intros [Hc Ht]. apply (IH (call_time c')); [|done]. by apply run_store_call_agrees with (t := t).
Qed.

Lemma consume_history h now st t :
  times_from t (h ++ [Consumed now st]) ->
  fst (consume_state now st (run_history h)) =
    (e ← pending st h; if (now <? se_expires_at e)%Z then Some (se_nonce e, se_code_verifier e) else None).
Proof.
  intros Ht. destruct (run_history_agrees h (Consumed now st) t new_store (fun _ => None))
    as (t' & Hle & _ & Hag); [split; [done|by left]|done|].
  specialize (Hag st). simpl in Hag. unfold consume_state, run_history, pending in *.
  destruct Hag as [->|(-> & e & -> & Hexp)]; [by destruct (fold_left _ h None)|].
  simpl. simpl in Hle. destruct (Z.ltb_spec now (se_expires_at e)); [lia|done].
Qed.

(** ** Property *)

(** A login state is redeemed at most once, in time, for what was stored.
    After any history of calls at times that never go back, redeeming a state
    gives the nonce and verifier of its last store, provided that it has not
    been redeemed since and is not past its ten minutes, and gives nothing
    otherwise; purging expired entries on the way never loses a valid one.  And
    after it has been redeemed, or tried to, it gives nothing until it is stored
    again. *)
Theorem oidc_state_single_use h now st h' now' t :
  times_from t (h ++ Consumed now st :: h' ++ [Consumed now' st]) ->
  (forall c, c ∈ h' -> match c with Stored _ st' _ _ => st' <> st | Consumed _ _ => True end) ->
  fst (consume_state now st (run_history h)) =
    (e ← pending st h;
     if (now <? se_expires_at e)%Z then Some (se_nonce e, se_code_verifier e) else None) /\
  fst (consume_state now' st (run_history (h ++ Consumed now st :: h'))) = None.
Proof.
  intros Ht Hno. split.
  - apply (consume_history h now st t). revert Ht. clear. revert t.
    induction h as [|c h IH]; intros t; simpl; [by intros [H _]|]. intros [H1 H2]. eauto.
  - rewrite (consume_history (h ++ Consumed now st :: h') now' st t) by (by rewrite <- app_assoc).
    assert (pending st (h ++ Consumed now st :: h') = None) as ->; [|done].
    unfold pending. rewrite fold_left_app. simpl. rewrite decide_True by done.
    clear -Hno. induction h' as [|c h' IH]; simpl; [done|].
    assert (pending_step st None c = None) as ->.
    { specialize (Hno c ltac:(left)). destruct c; simpl in *; by case_decide. }
    apply IH. intros c' Hc'. apply Hno. by right.
Qed.

Definition login_history : list StoreCall := [Stored 0 (lit "s1") (lit "n") (lit "v")].

Lemma oidc_state_single_use_witness :
  fst (consume_state 5 (lit "s1") (run_history login_history)) = Some (lit "n", lit "v") /\
  fst (consume_state 9 (lit "s1") (run_history (login_history ++ [Consumed 5 (lit "s1")]))) = None.
Proof.
  apply (oidc_state_single_use login_history 5 (lit "s1") [] 9 0).
  - repeat split; done.
  - intros c Hc. by apply elem_of_nil in Hc.
Defined.
