(* ===== verification/JobQueue.v ===== *)
(** The job queue of crates/infrastructure/src/job_queue.rs over the table
    platform.jobs of migrations/20250101000002, 20250101000006 and 20250106000001.

    Every method is its SQL statements in order.  The payload is opaque JSON and
    a parameter; [now] is the database's clock in nanoseconds.  Where a method
    runs more than one statement outside a transaction, other connections may
    change the table in between: the methods take what they do as an argument.
    Arithmetic on INTEGER columns fails beyond 32 bits, and timestamps outside
    PostgreSQL's range are refused. *)
From S2P Require Import Prelude Float64 RustString.

(** ** Data *)

Inductive JobStatus : Type := Pending | Running | Completed | Cancelled | Failed.

#[export] Instance JobStatus_eq_dec : EqDecision JobStatus.
Proof. solve_decision. Defined.

Definition status_text (s : JobStatus) : rstr :=
  match s with
  | Pending => lit "pending"
  | Running => lit "running"
  | Completed => lit "completed"
  | Cancelled => lit "cancelled"
  | Failed => lit "failed"
  end.

(** [status NOT IN ('completed', 'cancelled', 'failed')]. *)
Definition active (s : JobStatus) : bool :=
  match s with Completed | Cancelled | Failed => false | _ => true end.

(** A row of platform.jobs. *)
Record JobRow (Payload : Type) := mkJobRow {
  jr_id : uuid;
  jr_job_type : rstr;
  jr_payload : Payload;
  jr_status : JobStatus;
  jr_priority : Z;
  jr_max_retries : Z;
  jr_retry_count : Z;
  jr_error_message : option rstr;
  jr_scheduled_at : datetime;
  jr_started_at : option datetime;
  jr_completed_at : option datetime;
  jr_failed_at : option datetime;
  jr_created_at : datetime;
  jr_updated_at : datetime;
  jr_correlation_id : option uuid;
  jr_timeout_seconds : Z }.
Arguments mkJobRow {Payload}.
Arguments jr_id {Payload}.
Arguments jr_job_type {Payload}.
Arguments jr_payload {Payload}.
Arguments jr_status {Payload}.
Arguments jr_priority {Payload}.
Arguments jr_max_retries {Payload}.
Arguments jr_retry_count {Payload}.
Arguments jr_error_message {Payload}.
Arguments jr_scheduled_at {Payload}.
Arguments jr_started_at {Payload}.
Arguments jr_completed_at {Payload}.
Arguments jr_failed_at {Payload}.
Arguments jr_created_at {Payload}.
Arguments jr_updated_at {Payload}.
Arguments jr_correlation_id {Payload}.
Arguments jr_timeout_seconds {Payload}.

Record Job (Payload : Type) := mkJob {
  job_id : uuid;
  job_type : rstr;
  job_payload : Payload;
  job_status : rstr;
  job_retry_count : Z;
  job_max_retries : Z;
  job_scheduled_at : datetime;
  job_created_at : datetime;
  job_correlation_id : option uuid;
  job_timeout_seconds : Z }.
Arguments mkJob {Payload}.
Arguments job_id {Payload}.
Arguments job_type {Payload}.
Arguments job_payload {Payload}.
Arguments job_status {Payload}.
Arguments job_retry_count {Payload}.
Arguments job_max_retries {Payload}.
Arguments job_scheduled_at {Payload}.
Arguments job_created_at {Payload}.
Arguments job_correlation_id {Payload}.
Arguments job_timeout_seconds {Payload}.

(** [sqlx::Error]. *)
Inductive QueueError : Type :=
| RowNotFound
| DatabaseError (message : rstr).

Definition violation : rstr := lit "duplicate key value violates unique constraint".
Definition out_of_range : rstr := lit "integer out of range".
Definition timestamp_out_of_range : rstr := lit "timestamp out of range".

Definition seconds (n : Z) : Z := n * 1000000000.
Definition i32_max : Z := 2 ^ 31 - 1.

(** The timestamps of PostgreSQL: 4713 BC to 294276 AD. *)
Definition timestamp_ok (t : datetime) : bool :=
  (seconds (-210866803200) <=? t)%Z && (t <? seconds 9224318016000)%Z.

(** [2_i64.pow(n as u32)], with the wrap-around of a release build. *)
Definition pow2_i64 (n : Z) : Z :=
  let e := (n mod 2 ^ 32)%Z in if (e <? 64)%Z then i64_of (2 ^ e) else 0%Z.

Section queue.
Context {Payload : Type}.
Abbreviation JobRow := (JobRow Payload).
Abbreviation Job := (Job Payload).
Abbreviation job_table := (gmap N JobRow).

(** ** The table *)

(** The partial unique index idx_jobs_idempotent_correlation. *)
Definition same_key (r r' : JobRow) : Prop :=
  jr_job_type r = jr_job_type r' /\ jr_correlation_id r = jr_correlation_id r' /\
  jr_correlation_id r <> None /\ active (jr_status r) = true /\ active (jr_status r') = true.
Definition active_unique (t : job_table) : Prop :=
  map_Forall (fun i r => map_Forall (fun j r' => same_key r r' -> i = j) t) t.

#[export] Instance active_unique_dec t : Decision (active_unique t).
Proof. unfold active_unique, same_key. apply _. Defined.

(** What a writing statement does with the table it computed. *)
Definition commit_jobs (t : job_table) : eff job_table QueueError unit :=
  if decide (active_unique t) then put t else throw (DatabaseError violation).

(** [UPDATE .. SET f WHERE p], and the number of rows it affects. *)
Definition update_where (p : JobRow -> bool) (f : JobRow -> JobRow)
    : eff job_table QueueError N :=
  t ← get;
  _ ← commit_jobs ((fun r => if p r then f r else r) <$> t);
  mret (N.of_nat (size (filter (fun kr => p (snd kr) = true) t))).

(** [SELECT .. WHERE p], in an order of the database's choice. *)
Definition rows_where (p : JobRow -> bool) (t : job_table) : list JobRow :=
  List.filter p (map snd (map_to_list t)).

(** A new row: the columns the INSERTs bind and the defaults of the others. *)
Definition new_job_row (now : datetime) (id : uuid) (type : rstr) (payload : Payload)
    (scheduled_at : datetime) (correlation_id : option uuid) : JobRow :=
  mkJobRow id type payload Pending 0 3 0 None scheduled_at None None None now now
    correlation_id 300.

Definition insert_job (r : JobRow) : eff job_table QueueError unit :=
  t ← get;
  match t !! jr_id r with
  | Some _ => throw (DatabaseError violation)
  | None => commit_jobs (<[jr_id r := r]> t)
  end.

Definition has_key (type : rstr) (cid : uuid) (r : JobRow) : bool :=
  bool_decide (jr_job_type r = type) && bool_decide (jr_correlation_id r = Some cid) &&
  active (jr_status r).

(** [INSERT .. ON CONFLICT DO NOTHING], with the number of rows inserted. *)
Definition insert_job_or_nothing (r : JobRow) (cid : uuid) : eff job_table QueueError N :=
  t ← get;
  match rows_where (has_key (jr_job_type r) cid) t with
  | _ :: _ => mret 0%N
  | [] => _ ← insert_job r; mret 1%N
  end.

(** ** Enqueueing *)

Definition enqueue (now : datetime) (id : uuid) (type : rstr) (payload : Payload)
    : eff job_table QueueError uuid :=
  _ ← insert_job (new_job_row now id type payload now None); mret id.

Definition enqueue_with_correlation (now : datetime) (id : uuid) (type : rstr) (payload : Payload)
    (correlation_id : uuid) : eff job_table QueueError uuid :=
  _ ← insert_job (new_job_row now id type payload now (Some correlation_id)); mret id.

Definition enqueue_scheduled (now : datetime) (id : uuid) (type : rstr) (payload : Payload)
    (scheduled_at : datetime) : eff job_table QueueError uuid :=
  _ ← insert_job (new_job_row now id type payload scheduled_at None); mret id.

(** [between1] and [between2]: what other connections commit between its
    statements. *)
Definition enqueue_idempotent (between1 between2 : job_table -> job_table) (now : datetime)
    (id retry_id : uuid) (type : rstr) (payload : Payload) (correlation_id : uuid)
    : eff job_table QueueError uuid :=
  inserted ←
    insert_job_or_nothing (new_job_row now id type payload now (Some correlation_id)) correlation_id;
  if (inserted =? 0)%N then
    _ ← modify between1;
    t ← get;
    match head (rows_where (has_key type correlation_id) t) with
    | Some r => mret (jr_id r)
    | None =>
        _ ← modify between2;
        _ ← insert_job_or_nothing
              (new_job_row now retry_id type payload now (Some correlation_id)) correlation_id;
        mret retry_id
    end
  else mret id.

(** ** Polling *)

(** [ORDER BY priority DESC, scheduled_at ASC]. *)
Definition runs_before (r r' : JobRow) : bool :=
  (jr_priority r' <? jr_priority r)%Z ||
  ((jr_priority r =? jr_priority r')%Z && (jr_scheduled_at r <? jr_scheduled_at r')%Z).

(** The first row in that order; ties as the database likes. *)
Fixpoint first_job (l : list JobRow) : option JobRow :=
  match l with
  | [] => None
  | r :: l' =>
      match first_job l' with
      | Some r' => Some (if runs_before r' r then r' else r)
      | None => Some r
      end
  end.

Definition due (now : datetime) (r : JobRow) : bool :=
  bool_decide (jr_status r = Pending) && (jr_scheduled_at r <=? now)%Z.

Definition set_running (now : datetime) (r : JobRow) : JobRow :=
  mkJobRow (jr_id r) (jr_job_type r) (jr_payload r) Running (jr_priority r) (jr_max_retries r)
    (jr_retry_count r) (jr_error_message r) (jr_scheduled_at r) (Some now) (jr_completed_at r)
    (jr_failed_at r) (jr_created_at r) now (jr_correlation_id r) (jr_timeout_seconds r).

Definition row_to_job (r : JobRow) : Job :=
  mkJob (jr_id r) (jr_job_type r) (jr_payload r) (status_text (jr_status r)) (jr_retry_count r)
    (jr_max_retries r) (jr_scheduled_at r) (jr_created_at r) (jr_correlation_id r)
    (jr_timeout_seconds r).

(** [FOR UPDATE SKIP LOCKED] makes the selection and the update one step. *)
Definition poll (now : datetime) : eff job_table QueueError (option Job) :=
  t ← get;
  match first_job (rows_where (due now) t) with
  | None => mret None
  | Some r =>
      _ ← update_where (fun x => bool_decide (jr_id x = jr_id r)) (set_running now);
      mret (Some (row_to_job (set_running now r)))
  end.

(** ** Ends of a run *)

Definition with_id (id : uuid) (r : JobRow) : bool := bool_decide (jr_id r = id).

Definition set_completed (now : datetime) (r : JobRow) : JobRow :=
  mkJobRow (jr_id r) (jr_job_type r) (jr_payload r) Completed (jr_priority r) (jr_max_retries r)
    (jr_retry_count r) (jr_error_message r) (jr_scheduled_at r) (jr_started_at r) (Some now)
    (jr_failed_at r) (jr_created_at r) now (jr_correlation_id r) (jr_timeout_seconds r).

Definition complete (now : datetime) (id : uuid) : eff job_table QueueError unit :=
  _ ← update_where (with_id id) (set_completed now); mret tt.

Definition set_cancelled (now : datetime) (r : JobRow) : JobRow :=
  mkJobRow (jr_id r) (jr_job_type r) (jr_payload r) Cancelled (jr_priority r) (jr_max_retries r)
    (jr_retry_count r) (jr_error_message r) (jr_scheduled_at r) (jr_started_at r)
    (jr_completed_at r) (jr_failed_at r) (jr_created_at r) now (jr_correlation_id r)
    (jr_timeout_seconds r).

Definition cancel (now : datetime) (id : uuid) : eff job_table QueueError unit :=
  _ ← update_where
        (fun r => with_id id r &&
                  (bool_decide (jr_status r = Pending) || bool_decide (jr_status r = Running)))
        (set_cancelled now);
  mret tt.

(** Both kinds of retry, by [timeout_stale_jobs] and by [fail]. *)
Definition set_retry (now : datetime) (count : Z) (message : rstr) (scheduled_at : datetime)
    (r : JobRow) : JobRow :=
  mkJobRow (jr_id r) (jr_job_type r) (jr_payload r) Pending (jr_priority r) (jr_max_retries r)
    count (Some message) scheduled_at (jr_started_at r) (jr_completed_at r) (jr_failed_at r)
    (jr_created_at r) now (jr_correlation_id r) (jr_timeout_seconds r).

Definition set_failed (now : datetime) (count : Z) (message : rstr) (r : JobRow) : JobRow :=
  mkJobRow (jr_id r) (jr_job_type r) (jr_payload r) Failed (jr_priority r) (jr_max_retries r)
    count (Some message) (jr_scheduled_at r) (jr_started_at r) (jr_completed_at r) (Some now)
    (jr_created_at r) now (jr_correlation_id r) (jr_timeout_seconds r).

(** Running beyond its timeout; never so where [started_at] is NULL. *)
Definition stale (now : datetime) (r : JobRow) : bool :=
  bool_decide (jr_status r = Running) &&
  match jr_started_at r with
  | Some s => (s + seconds (jr_timeout_seconds r) <? now)%Z
  | None => false
  end.

(** [retry_count + 1] in SQL. *)
Definition check_retry_counts (now : datetime) : eff job_table QueueError unit :=
  t ← get;
  match rows_where (fun r => stale now r && (i32_max <=? jr_retry_count r)%Z) t with
  | [] => mret tt
  | _ => throw (DatabaseError out_of_range)
  end.

Definition timed_out : rstr := lit "job timed out".
Definition timed_out_exhausted : rstr := lit "job timed out (max retries exhausted)".

(** [between]: other connections between its two statements. *)
Definition timeout_stale_jobs (between : job_table -> job_table) (now : datetime)
    : eff job_table QueueError N :=
  _ ← check_retry_counts now;
  reset ← update_where
            (fun r => stale now r && (jr_retry_count r + 1 <? jr_max_retries r)%Z)
            (fun r => set_retry now (jr_retry_count r + 1) timed_out (jr_scheduled_at r) r);
  _ ← modify between;
  _ ← check_retry_counts now;
  failed ← update_where
             (fun r => stale now r && (jr_max_retries r <=? jr_retry_count r + 1)%Z)
             (fun r => set_failed now (jr_retry_count r + 1) timed_out_exhausted r);
  mret (reset + failed)%N.

(** [between]: other connections between the SELECT and the UPDATE. *)
Definition fail (between : job_table -> job_table) (now : datetime) (id : uuid)
    (error_message : rstr) : eff job_table QueueError unit :=
  t ← get;
  match head (rows_where (with_id id) t) with
  | None => throw RowNotFound
  | Some r =>
      let new_retry_count := i32_of (jr_retry_count r + 1) in
      _ ← modify between;
      if (new_retry_count <? jr_max_retries r)%Z then
        let at_ := (now + seconds (pow2_i64 new_retry_count))%Z in
        if timestamp_ok at_ then
          _ ← update_where (with_id id) (set_retry now new_retry_count error_message at_);
          mret tt
        else throw (DatabaseError timestamp_out_of_range)
      else
        _ ← update_where (with_id id) (set_failed now new_retry_count error_message);
        mret tt
  end.
End queue.
