(* ===== verification/JobQueueTheory.v ===== *)
(** The job queue: what its statements do to the table, which job a poll hands
    out, and enqueueing with a key. *)
From S2P Require Import Prelude Float64 RustString JobQueue.

#[local] Open Scope Z_scope.

Section queue.
Context {Payload : Type}.
Abbreviation JobRow := (JobRow Payload).
Abbreviation job_table := (gmap N JobRow).
Implicit Types (t : job_table) (r : JobRow).

(** The primary key. *)
Definition keyed t : Prop := map_Forall (fun k r => jr_id r = k) t.

Definition table_ok t : Prop := keyed t /\ active_unique t.

(** ** Queries *)

Lemma elem_of_job_rows p t r : r ∈ rows_where p t <-> exists k, t !! k = Some r /\ p r = true.
Proof.
  unfold rows_where. rewrite list_elem_of_In, List.filter_In, <- list_elem_of_In, list_elem_of_fmap.
  split.
  - intros ([[k x] [-> Hk%elem_of_map_to_list]] & Hp). by exists k.
  - intros (k & Hk & Hp). split; [|done]. exists (k, r). by rewrite elem_of_map_to_list.
Qed.

Lemma rows_where_nil p t :
  rows_where p t = [] <-> forall k r, t !! k = Some r -> p r = false.
Proof.
  split.
  - intros Hn k r Hk. destruct (p r) eqn:Hp; [|done].
    assert (r ∈ rows_where p t) as Hin by (apply elem_of_job_rows; eauto).
    rewrite Hn in Hin. by apply elem_of_nil in Hin.
  - intros Hall. destruct (rows_where p t) as [|r l] eqn:Hr; [done|].
    assert (r ∈ rows_where p t) as (k & Hk & Hp)%elem_of_job_rows by (rewrite Hr; left).
    by rewrite (Hall k r Hk) in Hp.
Qed.

(** A primary key finds its row. *)
Lemma rows_with_id t id :
  keyed t -> head (rows_where (with_id id) t) = t !! id.
Proof.
  intros Hk. destruct (rows_where (with_id id) t) as [|r l] eqn:Hr; simpl.
  - destruct (t !! id) as [r|] eqn:Hid; [|done].
    assert (Hf : with_id id r = false) by (eapply rows_where_nil; eauto).
    unfold with_id in Hf. rewrite (Hk id r Hid), bool_decide_eq_true_2 in Hf by done. done.
  - assert (r ∈ rows_where (with_id id) t) as (k & Hkr & Hp)%elem_of_job_rows
      by (rewrite Hr; left).
    apply bool_decide_eq_true in Hp. rewrite <- (Hk k r Hkr), Hp in Hkr. done.
Qed.

(** Updating the row with an id updates that row. *)
Lemma update_with_id t (f : JobRow -> JobRow) id r :
  keyed t -> t !! id = Some r ->
  ((fun x => if with_id id x then f x else x) <$> t) = <[id := f r]> t.
Proof.
  intros Hk Hr. apply map_eq. intros k. rewrite lookup_fmap.
  destruct (decide (k = id)) as [->|Hne].
  - rewrite lookup_insert_eq, Hr. simpl. unfold with_id.
    by rewrite (Hk id r Hr), bool_decide_eq_true_2.
  - rewrite lookup_insert_ne by done. destruct (t !! k) as [x|] eqn:Hx; [|done]. simpl.
    unfold with_id. rewrite (Hk k x Hx), bool_decide_eq_false_2; done.
Qed.

(** ** Writes *)

(** A change of a row that never makes it active. *)
Definition retires (f : JobRow -> JobRow) (r : JobRow) : Prop :=
  jr_id (f r) = jr_id r /\ jr_job_type (f r) = jr_job_type r /\
  jr_correlation_id (f r) = jr_correlation_id r /\
  (active (jr_status (f r)) = true -> active (jr_status r) = true).

Lemma keyed_fmap (f : JobRow -> JobRow) t :
  keyed t -> (forall k r, t !! k = Some r -> jr_id (f r) = jr_id r) -> keyed (f <$> t).
Proof.
  intros Hk Hf k x. rewrite lookup_fmap, fmap_Some. intros (r & Hr & ->).
  rewrite (Hf k r Hr). by apply Hk.
Qed.

Lemma active_unique_fmap (f : JobRow -> JobRow) t :
  active_unique t -> (forall k r, t !! k = Some r -> retires f r) -> active_unique (f <$> t).
Proof.
  intros Hu Hf i x Hx j y Hy. rewrite lookup_fmap, fmap_Some in Hx, Hy.
  destruct Hx as (r & Hr & ->), Hy as (r' & Hr' & ->).
  destruct (Hf i r Hr) as (_ & Ht & Hc & Ha), (Hf j r' Hr') as (_ & Ht' & Hc' & Ha').
  unfold same_key. rewrite Ht, Ht', Hc, Hc'. intros (E1 & E2 & E3 & E4 & E5).
  apply (Hu i r Hr j r' Hr'). repeat split; eauto.
Qed.

Lemma table_ok_fmap (f : JobRow -> JobRow) t :
  table_ok t -> (forall k r, t !! k = Some r -> retires f r) -> table_ok (f <$> t).
Proof.
  intros [Hk Hu] Hf. split; [|by apply active_unique_fmap].
  apply keyed_fmap; [done|]. intros k r Hr. apply (Hf k r Hr).
Qed.

Lemma commit_jobs_ok t s : active_unique t -> commit_jobs t s = (Ok tt, t).
Proof. intros H. unfold commit_jobs. by rewrite decide_True. Qed.

Lemma commit_jobs_cases t s :
  (commit_jobs t s = (Ok tt, t) /\ active_unique t) \/
  commit_jobs t s = (Err (DatabaseError violation), s).
Proof. unfold commit_jobs. case_decide; [by left|by right]. Qed.

(** An UPDATE has its whole effect or none. *)
Lemma update_where_cases (p : JobRow -> bool) (f : JobRow -> JobRow) t :
  let t' : job_table := (fun r : JobRow => if p r then f r else r) <$> t in
  (exists n, update_where p f t = (Ok n, t') /\ active_unique t') \/
  update_where p f t = (Err (DatabaseError violation), t).
Proof.
  intros t'. unfold update_where, mbind, eff_bind, get. simpl. fold t'.
  destruct (commit_jobs_cases t' t) as [[-> Hu] | ->]; [left|by right]. by eexists.
Qed.

Lemma update_where_ok p (f : JobRow -> JobRow) t :
  active_unique t -> (forall k r, t !! k = Some r -> p r = true -> retires f r) ->
  exists n, update_where p f t = (Ok n, (fun r => if p r then f r else r) <$> t).
Proof.
  intros Hu Hf. unfold update_where, mbind, eff_bind, get. simpl.
  rewrite commit_jobs_ok; [by eexists|].
  apply active_unique_fmap; [done|]. intros k r Hr. specialize (Hf k r Hr).
  unfold retires in *. destruct (p r); [by apply Hf|done].
Qed.

Lemma set_running_retires now r : jr_status r = Pending -> retires (set_running now) r.
Proof. intros Hs. repeat split. by rewrite Hs. Qed.
Lemma set_completed_retires now r : retires (set_completed now) r.
Proof. by repeat split. Qed.
Lemma set_cancelled_retires now r : retires (set_cancelled now) r.
Proof. by repeat split. Qed.
Lemma set_failed_retires now n m r : retires (set_failed now n m) r.
Proof. by repeat split. Qed.
Lemma set_retry_retires now n m a r :
  active (jr_status r) = true -> retires (set_retry now n m a) r.
Proof. by repeat split. Qed.

(** ** Choosing a job *)

Lemma runs_before_trans r1 r2 r3 :
  runs_before r1 r2 = false -> runs_before r2 r3 = false -> runs_before r1 r3 = false.
Proof. unfold runs_before. rewrite !orb_false_iff, !andb_false_iff. lia. Qed.

Lemma runs_before_asym r1 r2 : runs_before r1 r2 = true -> runs_before r2 r1 = false.
Proof. unfold runs_before. rewrite !orb_false_iff, !orb_true_iff, !andb_false_iff, !andb_true_iff. lia. Qed.

Lemma runs_before_irrefl r : runs_before r r = false.
Proof. unfold runs_before. rewrite !orb_false_iff, !andb_false_iff. lia. Qed.

Lemma first_job_spec (l : list JobRow) :
  match first_job l with
  | None => l = []
  | Some r => r ∈ l /\ forall r', r' ∈ l -> runs_before r' r = false
  end.
Proof.
  induction l as [|x l IH]; simpl; [done|]. destruct (first_job l) as [y|].
  - destruct IH as [Hy Hall]. destruct (runs_before y x) eqn:Hyx.
    + split; [by right|]. intros r' [-> | Hr']%elem_of_cons; eauto using runs_before_asym.
    + split; [left|]. intros r' [-> | Hr']%elem_of_cons; [apply runs_before_irrefl|].
      eapply runs_before_trans; eauto.
  - subst. split; [left|]. intros r' [-> | []%elem_of_nil]%elem_of_cons. apply runs_before_irrefl.
Qed.

(** ** The operations *)

(** What a poll can do. *)
Lemma poll_cases now t :
  table_ok t ->
  (poll now t = (Ok None, t) /\ forall k r, t !! k = Some r -> due now r = false) \/
  (exists id r, t !! id = Some r /\ due now r = true /\
     (forall k r', t !! k = Some r' -> due now r' = true -> runs_before r' r = false) /\
     poll now t = (Ok (Some (row_to_job (set_running now r))), <[id := set_running now r]> t)).
Proof.
  intros [Hk Hu]. unfold poll, mbind, eff_bind, get. simpl.
  pose proof (first_job_spec (rows_where (due now) t)) as Hf.
  destruct (first_job _) as [r|]; [right|left].
  - destruct Hf as [(id & Hid & Hd)%elem_of_job_rows Hbest]. exists id, r.
    split; [done|]. split; [done|].
    split. { intros k r' Hr' Hd'. apply Hbest, elem_of_job_rows. eauto. }
    assert (jr_status r = Pending) as Hs.
    { unfold due in Hd. apply andb_true_iff in Hd as [Hd _]. by apply bool_decide_eq_true in Hd. }
    rewrite (Hk id r Hid).
    destruct (update_where_ok (with_id id) (set_running now) t Hu) as [n Hn].
    { intros k x Hx Hp. apply set_running_retires. apply bool_decide_eq_true in Hp.
      rewrite (Hk k x Hx) in Hp. subst. congruence. }
    unfold with_id in Hn. rewrite Hn. unfold mret, eff_ret.
    by rewrite (update_with_id t _ id r Hk Hid).
  - split; [done|]. apply rows_where_nil, Hf.
Qed.

Lemma complete_effect now id t :
  table_ok t ->
  complete now id t = (Ok tt, (fun r => if with_id id r then set_completed now r else r) <$> t).
Proof.
  intros [Hk Hu]. unfold complete, mbind, eff_bind.
  destruct (update_where_ok (with_id id) (set_completed now) t Hu) as [n ->]; [|done].
  intros. apply set_completed_retires.
Qed.

Lemma cancel_effect now id t :
  table_ok t ->
  cancel now id t =
    (Ok tt, (fun r => if with_id id r && (bool_decide (jr_status r = Pending) ||
                                          bool_decide (jr_status r = Running))
                      then set_cancelled now r else r) <$> t).
Proof.
  intros [Hk Hu]. unfold cancel, mbind, eff_bind.
  edestruct (update_where_ok (fun r => with_id id r && (bool_decide (jr_status r = Pending) ||
    bool_decide (jr_status r = Running))) (set_cancelled now) t Hu) as [n ->]; [|done].
  intros. apply set_cancelled_retires.
Qed.

(** What the timeouts do to a row. *)
Definition time_out (now : datetime) (r : JobRow) : JobRow :=
  if stale now r then
    if jr_retry_count r + 1 <? jr_max_retries r
    then set_retry now (jr_retry_count r + 1) timed_out (jr_scheduled_at r) r
    else set_failed now (jr_retry_count r + 1) timed_out_exhausted r
  else r.

Lemma check_retry_counts_ok now t :
  (forall k r, t !! k = Some r -> jr_retry_count r < i32_max) ->
  check_retry_counts now t = (Ok tt, t).
Proof.
  intros Hb. unfold check_retry_counts, mbind, eff_bind, get. simpl.
  assert (rows_where (fun r => stale now r && (i32_max <=? jr_retry_count r)) t = []) as ->; [|done].
  apply rows_where_nil. intros k r Hr. apply andb_false_iff. right. specialize (Hb k r Hr). lia.
Qed.

Lemma stale_running now r : stale now r = true -> jr_status r = Running.
Proof. unfold stale. intros [H _]%andb_true_iff. by apply bool_decide_eq_true in H. Qed.

Lemma timeout_stale_jobs_effect now t :
  table_ok t -> (forall k r, t !! k = Some r -> jr_retry_count r < i32_max) ->
  exists n, timeout_stale_jobs (fun x => x) now t = (Ok n, time_out now <$> t).
Proof.
  intros Hok Hb. unfold timeout_stale_jobs, mbind, eff_bind. rewrite check_retry_counts_ok by done.
  edestruct (update_where_ok (fun r => stale now r && (jr_retry_count r + 1 <? jr_max_retries r))
    (fun r => set_retry now (jr_retry_count r + 1) timed_out (jr_scheduled_at r) r) t (proj2 Hok))
    as [n1 ->].
  { intros k r Hr [Hs _]%andb_true_iff. repeat split. by rewrite (stale_running now r). }
  simpl. set (t1 := _ <$> t).
  assert (table_ok t1) as Hok1.
  { apply table_ok_fmap; [done|]. intros k r Hr.
    destruct (stale now r) eqn:Hs; [|unfold retires; by rewrite Hs].
    unfold retires. rewrite Hs. simpl.
    destruct (_ <? _); repeat split; by rewrite (stale_running now r). }
  assert (check_retry_counts now t1 = (Ok tt, t1)) as ->.
  { unfold check_retry_counts, mbind, eff_bind, get. simpl.
    assert (rows_where (fun r => stale now r && (i32_max <=? jr_retry_count r)) t1 = []) as ->; [|done].
    apply rows_where_nil. intros k x. unfold t1. rewrite lookup_fmap, fmap_Some. intros (r & Hr & ->).
    specialize (Hb k r Hr). destruct (stale now r) eqn:Hs; simpl.
    - destruct (_ <? _); [done|]. rewrite Hs. simpl. lia.
    - by rewrite Hs. }
  edestruct (update_where_ok (fun r => stale now r && (jr_max_retries r <=? jr_retry_count r + 1))
    (fun r => set_failed now (jr_retry_count r + 1) timed_out_exhausted r) t1 (proj2 Hok1))
    as [n2 ->].
  { intros. apply set_failed_retires. }
  exists (n1 + n2)%N. unfold mret, eff_ret. apply (f_equal (pair _)). unfold t1. apply map_eq. intros k. rewrite !lookup_fmap.
  destruct (t !! k) as [r|]; [|done]. simpl. f_equal. unfold time_out.
  destruct (stale now r) eqn:Hs; simpl.
  - destruct (Z.ltb_spec (jr_retry_count r + 1) (jr_max_retries r)); [done|].
    rewrite Hs. simpl. destruct (Z.leb_spec (jr_max_retries r) (jr_retry_count r + 1)); [done|lia].
  - by rewrite Hs.
Qed.

(** What a failure does to the row of its job. *)
Definition fail_row (now : datetime) (message : rstr) (r : JobRow) : JobRow :=
  let n := i32_of (jr_retry_count r + 1) in
  if n <? jr_max_retries r then set_retry now n message (now + seconds (pow2_i64 n)) r
  else set_failed now n message r.

Lemma fail_cases now id message t :
  table_ok t ->
  let t' : job_table := (fun r : JobRow => if with_id id r then fail_row now message r else r) <$> t in
  (fail (fun x => x) now id message t = (Ok tt, t') /\ active_unique t') \/
  (exists e, fail (fun x => x) now id message t = (Err e, t)).
Proof.
  intros [Hk Hu] t'. unfold fail, mbind, eff_bind, get. simpl. rewrite (rows_with_id t id Hk).
  destruct (t !! id) as [r|] eqn:Hr; [|right; by eexists].
  assert (t' = <[id := fail_row now message r]> t) as Ht'.
  { unfold t'. by apply (update_with_id t (fail_row now message)). }
  unfold modify. unfold fail_row in Ht'. cbv zeta in *.
  destruct (i32_of (jr_retry_count r + 1) <? jr_max_retries r).
  - destruct (timestamp_ok _); [|right; by eexists].
    edestruct (update_where_cases (with_id id)
      (set_retry now (i32_of (jr_retry_count r + 1)) message
        (now + seconds (pow2_i64 (i32_of (jr_retry_count r + 1))))) t) as [(n & -> & Hu')| ->];
      [left|right; by eexists].
    rewrite (update_with_id t _ id r Hk Hr), <- Ht' in Hu' |- *. done.
  - edestruct (update_where_cases (with_id id)
      (set_failed now (i32_of (jr_retry_count r + 1)) message) t) as [(n & -> & Hu')| ->];
      [left|right; by eexists].
    rewrite (update_with_id t _ id r Hk Hr), <- Ht' in Hu' |- *. done.
Qed.

(** An INSERT of a fresh row, or nothing. *)
Lemma insert_job_cases r t :
  (insert_job r t = (Ok tt, <[jr_id r := r]> t) /\ t !! jr_id r = None /\
   active_unique (<[jr_id r := r]> t)) \/
  insert_job r t = (Err (DatabaseError violation), t).
Proof.
  unfold insert_job, mbind, eff_bind, get. simpl. destruct (t !! jr_id r) eqn:Hr; [by right|].
  destruct (commit_jobs_cases (<[jr_id r := r]> t) t) as [[-> Hu] | ->]; [by left|by right].
Qed.

Lemma keyed_insert r t : keyed t -> keyed (<[jr_id r := r]> t).
Proof. intros Hk. by apply map_Forall_insert_2. Qed.

(** A key that no active job has can be inserted. *)
Lemma insert_fresh_key now id type payload at_ cid t :
  table_ok t -> t !! id = None -> rows_where (has_key type cid) t = [] ->
  insert_job (new_job_row now id type payload at_ (Some cid)) t =
    (Ok tt, <[id := new_job_row now id type payload at_ (Some cid)]> t).
Proof.
  intros [Hk Hu] Hid Hnone. unfold insert_job, mbind, eff_bind, get. simpl. rewrite Hid.
  apply commit_jobs_ok. rewrite rows_where_nil in Hnone.
  assert (Hf : forall k r, t !! k = Some r ->
    jr_job_type r = type -> jr_correlation_id r = Some cid -> active (jr_status r) = false).
  { intros k r Hr H1 H2. specialize (Hnone k r Hr). unfold has_key in Hnone.
    rewrite !bool_decide_eq_true_2 in Hnone by done. done. }
  intros i r Hr j r' Hr' (E1 & E2 & E3 & E4 & E5).
  apply lookup_insert_Some in Hr as [[Hi <-] | [Hi Hr]], Hr' as [[Hj <-] | [Hj Hr']]; simpl in *.
  - congruence.
  - rewrite (Hf j r' Hr') in E5; congruence.
  - rewrite (Hf i r Hr) in E4; congruence.
  - apply (Hu i r Hr j r' Hr'). repeat split; done.
Qed.
(** ** The unique index

    Every statement checks it, so every operation keeps it, whatever happens. *)

Definition keeps_unique {E A} (m : eff job_table E A) : Prop :=
  forall t, active_unique t -> active_unique (snd (m t)).

Lemma keeps_bind {E A B} (m : eff job_table E A) (f : A -> eff job_table E B) :
  keeps_unique m -> (forall a, keeps_unique (f a)) -> keeps_unique (m ≫= f).
Proof.
  intros Hm Hf t Ht. unfold mbind, eff_bind. specialize (Hm t Ht).
  destruct (m t) as [[a|e|] t']; [by apply Hf|done|done].
Qed.

Lemma keeps_update p (f : JobRow -> JobRow) : keeps_unique (update_where p f).
Proof. intros t Ht. by destruct (update_where_cases p f t) as [(n & -> & Hu) | ->]. Qed.

Lemma keeps_insert r : keeps_unique (insert_job r).
Proof. intros t Ht. by destruct (insert_job_cases r t) as [(-> & _ & Hu) | ->]. Qed.

Lemma keeps_insert_or_nothing r cid : keeps_unique (insert_job_or_nothing r cid).
Proof.
  intros t Ht. unfold insert_job_or_nothing. run.
  destruct (rows_where _ t); [|done]. pose proof (keeps_insert r t Ht).
  by destruct (insert_job r t) as [[]].
Qed.

Ltac keeps :=
  repeat lazymatch goal with
  | |- keeps_unique (_ ≫= _) => apply keeps_bind; [|intros]
  | |- keeps_unique (match _ with _ => _ end) => case_match
  | |- keeps_unique (update_where _ _) => apply keeps_update
  | |- keeps_unique (insert_job _) => apply keeps_insert
  | |- keeps_unique (insert_job_or_nothing _ _) => apply keeps_insert_or_nothing
  | |- keeps_unique (modify _) => by intros ?
  | |- keeps_unique get => by intros ?
  | |- keeps_unique (mret _) => by intros ?
  | |- keeps_unique (throw _) => by intros ?
  end.

Lemma poll_keeps now : keeps_unique (poll (Payload := Payload) now).
Proof. unfold poll. keeps. Qed.
Lemma complete_keeps now id : keeps_unique (complete (Payload := Payload) now id).
Proof. unfold complete. keeps. Qed.
Lemma cancel_keeps now id : keeps_unique (cancel (Payload := Payload) now id).
Proof. unfold cancel. keeps. Qed.
Lemma timeout_keeps now : keeps_unique (timeout_stale_jobs (Payload := Payload) (fun t => t) now).
Proof. unfold timeout_stale_jobs, check_retry_counts. keeps. Qed.
Lemma fail_keeps now id m : keeps_unique (fail (Payload := Payload) (fun t => t) now id m).
Proof. unfold fail. keeps. Qed.
Lemma enqueue_idempotent_keeps now id retry_id type (payload : Payload) cid :
  keeps_unique (enqueue_idempotent (fun t => t) (fun t => t) now id retry_id type payload cid).
Proof. unfold enqueue_idempotent. keeps. Qed.
End queue.

(** ** Properties *)

Section properties.
Context {Payload : Type}.
Abbreviation job_table := (gmap N (JobRow Payload)).
Implicit Types (t : job_table) (r : JobRow Payload).

Lemma due_spec now r : due now r = true <-> jr_status r = Pending /\ jr_scheduled_at r <= now.
Proof. unfold due. by rewrite andb_true_iff, bool_decide_eq_true, Z.leb_le. Qed.

Lemma runs_before_false r' r :
  runs_before r' r = false ->
  jr_priority r' < jr_priority r \/
  (jr_priority r' = jr_priority r /\ jr_scheduled_at r <= jr_scheduled_at r').
Proof.
  unfold runs_before. intros [Hp Hs]%orb_false_iff. apply Z.ltb_ge in Hp.
  destruct (Z.eqb_spec (jr_priority r') (jr_priority r)) as [He|]; [right|left; lia].
  simpl in Hs. by apply Z.ltb_ge in Hs.
Qed.

(** A poll hands out the right job, once.  On a sound table it always
    succeeds.  It gives nothing, and changes nothing, exactly when no pending job
    is due; otherwise it gives a due job such that no due job has a higher
    priority, or the same priority and an earlier schedule, marks that row as
    running since now, and changes no other row; and no later poll gives that job
    again as long as its row stays as it is. *)
Theorem poll_hands_out_first now t :
  table_ok t ->
  let '(res, t') := poll now t in
  table_ok t' /\
  match res with
  | Ok None => t' = t /\ forall k r, t !! k = Some r -> jr_status r = Pending -> now < jr_scheduled_at r
  | Ok (Some j) =>
      exists r, t !! job_id j = Some r /\ jr_status r = Pending /\ jr_scheduled_at r <= now /\
        job_status j = lit "running" /\ job_type j = jr_job_type r /\
        job_payload j = jr_payload r /\ job_retry_count j = jr_retry_count r /\
        (forall k r', t !! k = Some r' -> jr_status r' = Pending -> jr_scheduled_at r' <= now ->
           jr_priority r' < jr_priority r \/
           (jr_priority r' = jr_priority r /\ jr_scheduled_at r <= jr_scheduled_at r')) /\
        t' = <[job_id j := set_running now r]> t /\
        forall now' j' t'', poll now' t' = (Ok (Some j'), t'') -> job_id j' <> job_id j
  | _ => False
  end.
Proof.
  intros Hok. destruct (poll_cases now t Hok) as [[-> Hno] | (id & r & Hr & Hd & Hbest & ->)].
  { split_and!; [done|done|]. intros k r Hr Hp. specialize (Hno k r Hr).
    destruct (Z.le_gt_cases (jr_scheduled_at r) now) as [Hs|]; [|done].
    by rewrite (proj2 (due_spec now r) (conj Hp Hs)) in Hno. }
  assert (jr_id r = id) as Hid by (by apply Hok).
  assert (table_ok (<[id := set_running now r]> t)) as Hok'.
  { rewrite <- (update_with_id t (set_running now) id r (proj1 Hok) Hr).
    apply table_ok_fmap; [done|]. intros k x Hx. unfold retires, with_id.
    case_bool_decide as He; [|done]. rewrite (proj1 Hok k x Hx) in He. subst k. simplify_eq.
    by apply set_running_retires, (due_spec now). }
  apply due_spec in Hd as [Hd Hsch].
  split; [done|]. exists r. simpl. rewrite Hid. split_and!; try done.
  { intros k r' Hr' Hp Hs. apply runs_before_false, (Hbest k r' Hr'). by apply due_spec. }
  intros now' j' t'' Hp.
  destruct (poll_cases now' _ Hok') as [[Hp' _] | (id' & r' & Hr' & Hd' & _ & Hp')]; [congruence|].
  rewrite Hp' in Hp. injection Hp as <- _. simpl.
  rewrite (proj1 Hok' id' r' Hr'). intros ->. rewrite lookup_insert_eq in Hr'. simplify_eq.
Qed.

Lemma has_key_row type cid k r t :
  table_ok t -> t !! k = Some r -> has_key type cid r = true ->
  forall k' r', t !! k' = Some r' -> has_key type cid r' = true -> k' = k.
Proof.
  intros [_ Hu] Hr Hk k' r' Hr' Hk'. unfold has_key in *. to_prop.
  apply (Hu k' r' Hr' k r Hr). repeat split; congruence.
Qed.

(** A call that finds the key returns its job. *)
Lemma enqueue_idempotent_found t r l type cid now id retry_id (payload : Payload) :
  rows_where (has_key type cid) t = r :: l ->
  enqueue_idempotent (fun x => x) (fun x => x) now id retry_id type payload cid t = (Ok (jr_id r), t).
Proof.
  intros Hr. unfold enqueue_idempotent, insert_job_or_nothing. run.
  change (jr_job_type (new_job_row now id type payload now (Some cid))) with type. rewrite Hr. simpl.
  by rewrite Hr.
Qed.

(** A call that does not inserts one. *)
Lemma enqueue_idempotent_new t type cid now id retry_id (payload : Payload) :
  table_ok t -> t !! id = None -> rows_where (has_key type cid) t = [] ->
  let t' := <[id := new_job_row now id type payload now (Some cid)]> t in
  enqueue_idempotent (fun x => x) (fun x => x) now id retry_id type payload cid t = (Ok id, t') /\
  table_ok t'.
Proof.
  intros Hok Hid Hrows t'. pose proof (insert_fresh_key now id type payload now cid t Hok Hid Hrows) as Hi.
  split.
  - unfold enqueue_idempotent, insert_job_or_nothing. run.
    change (jr_job_type (new_job_row now id type payload now (Some cid))) with type. rewrite Hrows.
    by rewrite Hi.
  - split; [apply (keyed_insert (new_job_row now id type payload now (Some cid))), Hok|].
    destruct (insert_job_cases (new_job_row now id type payload now (Some cid)) t)
      as [(_ & _ & Hu) | He]; [done|congruence].
Qed.

(** The only job of the key is the one that every later call returns. *)
Lemma enqueue_idempotent_only type cid k r t :
  table_ok t -> t !! k = Some r -> has_key type cid r = true ->
  forall now id retry_id (payload : Payload),
    enqueue_idempotent (fun x => x) (fun x => x) now id retry_id type payload cid t = (Ok k, t).
Proof.
  intros Hok Hr Hp now id retry_id payload.
  assert (r ∈ rows_where (has_key type cid) t) as Hin by (apply elem_of_job_rows; eauto).
  destruct (rows_where (has_key type cid) t) as [|r' l] eqn:Hrows; [by apply elem_of_nil in Hin|].
  rewrite (enqueue_idempotent_found t r' l type cid now id retry_id payload Hrows).
  assert (r' ∈ rows_where (has_key type cid) t) as (k' & Hk' & Hp')%elem_of_job_rows
    by (rewrite Hrows; left).
  rewrite (proj1 Hok k' r' Hk'). by rewrite (has_key_row type cid k r t Hok Hr Hp k' r' Hk' Hp').
Qed.

(** Enqueueing with a key is idempotent.  Undisturbed, the call succeeds,
    leaves exactly one active job of that type and correlation id, and returns
    that job's id: the job that was there, with the table unchanged, or the new
    one.  Every repetition returns the same id and changes nothing, whatever its
    payload. *)
Theorem enqueue_idempotent_once now id retry_id type (payload : Payload) cid t :
  table_ok t -> t !! id = None ->
  let '(res, t') := enqueue_idempotent (fun x => x) (fun x => x) now id retry_id type payload cid t in
  exists j r,
    res = Ok j /\ table_ok t' /\ t' !! j = Some r /\ has_key type cid r = true /\
    (forall k r', t' !! k = Some r' -> has_key type cid r' = true -> k = j) /\
    (t' = t \/ t' = <[id := new_job_row now id type payload now (Some cid)]> t) /\
    forall now' id' retry_id' payload',
      enqueue_idempotent (fun x => x) (fun x => x) now' id' retry_id' type payload' cid t' =
        (Ok j, t').
Proof.
  intros Hok Hid. destruct (rows_where (has_key type cid) t) as [|r l] eqn:Hrows.
  - destruct (enqueue_idempotent_new t type cid now id retry_id payload Hok Hid Hrows) as [-> Hok'].
    set (r := new_job_row now id type payload now (Some cid)) in *. exists id, r.
    assert (has_key type cid r = true) as Hkey.
    { unfold has_key, r. simpl. by rewrite !bool_decide_eq_true_2. }
    pose proof (lookup_insert_eq t id r) as Hr.
    split; [done|]. split; [done|]. split; [done|]. split; [done|].
    split; [by apply (has_key_row type cid id r)|]. split; [by right|].
    by apply (enqueue_idempotent_only type cid id r).
  - rewrite (enqueue_idempotent_found t r l type cid now id retry_id payload Hrows).
    assert (r ∈ rows_where (has_key type cid) t) as (k & Hk & Hp)%elem_of_job_rows
      by (rewrite Hrows; left).
    rewrite (proj1 Hok k r Hk). exists k, r.
    split; [done|]. split; [done|]. split; [done|]. split; [done|].
    split; [by apply (has_key_row type cid k r)|]. split; [by left|].
    by apply (enqueue_idempotent_only type cid k r).
Qed.
End properties.

(** ** Interference *)

Definition race_job : JobRow unit := new_job_row 0 1 (lit "parse_gpx") tt 0 (Some 7%N).
Definition race_table : gmap N (JobRow unit) := {[ 1%N := race_job ]}.

(** The job that was in the way ends, and another request for the same key
    enqueues its own. *)
Definition race_ends (t : gmap N (JobRow unit)) : gmap N (JobRow unit) := snd (complete 5 1%N t).
Definition race_enqueues (t : gmap N (JobRow unit)) : gmap N (JobRow unit) :=
  snd (enqueue_with_correlation 6 2%N (lit "parse_gpx") tt 7%N t).

(** The second INSERT meets a conflict too, inserts nothing, and the id that the
    call returns is of no job. *)
Lemma enqueue_idempotent_phantom :
  let '(res, t') :=
    enqueue_idempotent race_ends race_enqueues 5 3%N 4%N (lit "parse_gpx") tt 7%N race_table in
  res = Ok 4%N /\ t' !! 4%N = None.
Proof. by vm_compute. Qed.

(** A handler that outlives its timeout reports its failure for a job that has
    been handed out again meanwhile: the job becomes pending while it runs. *)
Definition second_run : gmap N (JobRow unit) :=
  snd (poll (seconds 402) (snd (timeout_stale_jobs (fun x => x) (seconds 401)
    (snd (poll 0 race_table))))).

Lemma late_failure_reopens_running_job :
  (exists r, second_run !! 1%N = Some r /\ jr_status r = Running /\ jr_retry_count r = 1) /\
  exists r, snd (fail (fun x => x) (seconds 403) 1%N (lit "late") second_run) !! 1%N = Some r /\
    jr_status r = Pending /\ jr_retry_count r = 2.
Proof. split; eexists; vm_compute; done. Qed.

(** A job cancelled while it runs is scheduled again when its handler fails. *)
Lemma cancelled_job_runs_again :
  let t := snd (cancel 5 1%N (snd (poll 0 race_table))) in
  (exists r, t !! 1%N = Some r /\ jr_status r = Cancelled) /\
  exists r, snd (fail (fun x => x) 6 1%N (lit "interrupted") t) !! 1%N = Some r /\
    jr_status r = Pending.
Proof. split; eexists; vm_compute; done. Qed.

(** ** Two jobs in the queue *)

Definition two_jobs : gmap N (JobRow unit) :=
  {[ 1%N := race_job; 2%N := new_job_row 0 2 (lit "generate_gpx") tt 4 (Some 8%N) ]}.

Lemma two_jobs_ok : table_ok two_jobs.
Proof. by split; apply (bool_decide_unpack _); vm_compute. Qed.

Lemma poll_hands_out_first_witness :
  exists j, fst (poll 5 two_jobs) = Ok (Some j) /\
    forall now' j' t'', poll now' (snd (poll 5 two_jobs)) = (Ok (Some j'), t'') -> job_id j' <> job_id j.
Proof.
  pose proof (poll_hands_out_first 5 two_jobs two_jobs_ok) as Hp.
  assert (exists j, fst (poll 5 two_jobs) = Ok (Some j)) as [j Hj] by (eexists; vm_compute; reflexivity).
  exists j. split; [exact Hj|]. destruct (poll 5 two_jobs) as [res t']. simpl in *. subst res.
  by destruct Hp as (_ & r & _ & _ & _ & _ & _ & _ & _ & _ & _ & Hlater).
Defined.

Lemma enqueue_idempotent_once_witness :
  let t' := snd (enqueue_idempotent (fun x => x) (fun x => x) 5 3 4 (lit "parse_gpx") tt 9 two_jobs) in
  enqueue_idempotent (fun x => x) (fun x => x) 6 13 14 (lit "parse_gpx") tt 9 t' = (Ok 3%N, t').
Proof.
  pose proof (enqueue_idempotent_once 5 3 4 (lit "parse_gpx") tt 9 two_jobs two_jobs_ok) as Hp.
  destruct (enqueue_idempotent _ _ _ _ _ _ _ _ two_jobs) as [res t'] eqn:He.
  apply (f_equal fst) in He as Hres. vm_compute in Hres. subst res.
  destruct Hp as (j & r & [= <-] & _ & _ & _ & _ & _ & Hrep); [by vm_compute|apply Hrep].
Defined.
