(* ===== verification/WorkerRuntime.v ===== *)
(** The worker of crates/infrastructure/src/worker_runtime.rs: it polls the job
    queue while it has a free slot, runs the handler registered for a job under a
    timeout, and reports the outcome to the queue.

    Tasks run concurrently; each event below is one atomic step of the process, or
    of another client of the queue, and a history is any sequence of them.  What a
    handler does is up to the environment, so an event carries its outcome. *)
From S2P Require Import Prelude Float64 RustString JobQueue.

#[local] Open Scope Z_scope.

Record ResourceBudgetConfig := mkBudget { default_job_timeout_seconds : Z }.

Definition default_budget : ResourceBudgetConfig := mkBudget 300.

Record WorkerConfig := mkWorkerConfig {
  poll_interval_ms : Z;
  max_concurrent_jobs : nat;
  shutdown_timeout_seconds : Z;
  resource_budget : ResourceBudgetConfig }.

Definition default_config : WorkerConfig := mkWorkerConfig 1000 5 30 default_budget.

(** In nanoseconds. *)
Definition effective_timeout {Payload} (job : Job Payload) (config : ResourceBudgetConfig) : Z :=
  if 0 <? job_timeout_seconds job then seconds (job_timeout_seconds job)
  else seconds (default_job_timeout_seconds config).

(** How the call of a handler under its timeout ends. *)
Inductive Outcome : Type := HandlerOk | HandlerErr (message : rstr) | TimedOut.

#[export] Instance Outcome_eq_dec : EqDecision Outcome.
Proof. solve_decision. Defined.

Definition time_limit_exceeded : rstr := lit "execution time limit exceeded".
Definition no_handler (type : rstr) : rstr := lit "no handler registered for job type: " ++ type.

Section worker.
Context {Payload : Type} (config : WorkerConfig).
(** The job types of the registered handlers, in order. *)
Context (handlers : list rstr).

(** A spawned task: the job it runs and when it was started. *)
Record Task := mkTask { task_job : Job Payload; task_started : datetime }.

(** The database's table, and the tasks that hold a permit of the semaphore. *)
Record Worker := mkWorker { wk_jobs : gmap N (JobRow Payload); wk_in_flight : list Task }.

Definition find_handler (type : rstr) : option rstr :=
  List.find (fun h => bool_decide (h = type)) handlers.

(** The body of the task, from the outcome on; errors of the queue are logged. *)
Definition report (now : datetime) (job : Job Payload) (outcome : Outcome)
    : eff (gmap N (JobRow Payload)) QueueError unit :=
  match find_handler (job_type job) with
  | Some _ =>
      match outcome with
      | HandlerOk => complete now (job_id job)
      | HandlerErr e => fail (fun t => t) now (job_id job) e
      | TimedOut => fail (fun t => t) now (job_id job) time_limit_exceeded
      end
  | None => fail (fun t => t) now (job_id job) (no_handler (job_type job))
  end.

(** The steps of the system: a tick of the polling loop, the end of the k-th task
    (by its outcome, or by a panic that leaves the job as it is), the
    maintenance loop of the worker's main, and the calls of other clients. *)
Inductive Event : Type :=
| Tick (now : datetime)
| Finished (now : datetime) (k : nat) (outcome : Outcome)
| Aborted (k : nat)
| Maintained (now : datetime)
| CancelRequested (now : datetime) (id : uuid)
| Enqueued (now : datetime) (id : uuid) (type : rstr) (payload : Payload)
| EnqueuedWith (now : datetime) (id : uuid) (type : rstr) (payload : Payload) (cid : uuid)
| EnqueuedOnce (now : datetime) (id retry_id : uuid) (type : rstr) (payload : Payload) (cid : uuid)
| EnqueuedAt (now : datetime) (id : uuid) (type : rstr) (payload : Payload) (at_ : datetime).

(** The job a tick hands out. *)
Definition polled (e : Event) (w : Worker) : option (Job Payload) :=
  match e with
  | Tick now =>
      if (length (wk_in_flight w) <? max_concurrent_jobs config)%nat then
        match fst (poll now (wk_jobs w)) with Ok (Some j) => Some j | _ => None end
      else None
  | _ => None
  end.

Definition with_jobs {E A} (w : Worker) (m : eff (gmap N (JobRow Payload)) E A) : Worker :=
  mkWorker (snd (m (wk_jobs w))) (wk_in_flight w).

Definition step (w : Worker) (e : Event) : Worker :=
  match e with
  | Tick now =>
      if (length (wk_in_flight w) <? max_concurrent_jobs config)%nat then
        match poll now (wk_jobs w) with
        | (Ok (Some j), t) => mkWorker t (wk_in_flight w ++ [mkTask j now])
        | (_, t) => mkWorker t (wk_in_flight w)
        end
      else w
  | Finished now k outcome =>
      match wk_in_flight w !! k with
      | None => w
      | Some task =>
          if bool_decide (outcome = TimedOut) &&
             (now <? task_started task + effective_timeout (task_job task) (resource_budget config))
          then w (* not yet *)
          else mkWorker (snd (report now (task_job task) outcome (wk_jobs w)))
                 (delete k (wk_in_flight w))
      end
  | Aborted k => mkWorker (wk_jobs w) (delete k (wk_in_flight w))
  | Maintained now => with_jobs w (timeout_stale_jobs (fun t => t) now)
  | CancelRequested now id => with_jobs w (cancel now id)
  | Enqueued now id type payload => with_jobs w (enqueue now id type payload)
  | EnqueuedWith now id type payload cid =>
      with_jobs w (enqueue_with_correlation now id type payload cid)
  | EnqueuedOnce now id retry_id type payload cid =>
      with_jobs w (enqueue_idempotent (fun t => t) (fun t => t) now id retry_id type payload cid)
  | EnqueuedAt now id type payload at_ => with_jobs w (enqueue_scheduled now id type payload at_)
  end.

Definition initial : Worker := mkWorker ∅ [].

Definition run_events (w : Worker) (es : list Event) : Worker := fold_left step es w.

(** How often a history hands out a job. *)
Fixpoint times_run (id : uuid) (w : Worker) (es : list Event) : nat :=
  match es with
  | [] => 0
  | e :: es' =>
      (match polled e w with Some j => if decide (job_id j = id) then 1 else 0 | None => 0 end +
       times_run id (step w e) es')%nat
  end.

(** An endless history. *)
Fixpoint run_schedule (sched : nat -> Event) (w : Worker) (n : nat) : Worker :=
  match n with
  | O => w
  | S n' => step (run_schedule sched w n') (sched n')
  end.

Definition settled (w : Worker) : Prop :=
  map_Forall (fun _ r => active (jr_status r) = false) (wk_jobs w).

Definition enqueues (e : Event) : bool :=
  match e with
  | Enqueued _ _ _ _ | EnqueuedWith _ _ _ _ _ | EnqueuedOnce _ _ _ _ _ _ | EnqueuedAt _ _ _ _ _ => true
  | _ => false
  end.
End worker.
Arguments Task : clear implicits.
Arguments Worker : clear implicits.
Arguments Event : clear implicits.
