(* ===== verification/WorkerTheory.v ===== *)
(** The worker and its queue: what every history keeps, how often a job runs, and
    that every job ends. *)
From S2P Require Import Prelude Float64 RustString JobQueue JobQueueTheory WorkerRuntime.

#[local] Open Scope Z_scope.

(** ** What a step does to one row *)

Section rows.
Context {Payload : Type}.
Implicit Types (r : JobRow Payload).

(** [moves d r r']: the row may become [r'] in a step that changes the number of
    tasks in flight for it by at most [d]. *)
Inductive moves (d : Z) r : JobRow Payload -> Prop :=
| move_none : d <= 0 -> moves d r r
| move_run now : jr_status r = Pending -> d <= 1 -> moves d r (set_running now r)
| move_complete now : d <= 0 -> moves d r (set_completed now r)
| move_cancel now : active (jr_status r) = true -> d <= 0 -> moves d r (set_cancelled now r)
| move_retry now m at_ :
    jr_retry_count r + 1 < jr_max_retries r -> (jr_status r = Running /\ d <= 0) \/ d <= -1 ->
    moves d r (set_retry now (jr_retry_count r + 1) m at_ r)
| move_fail now m :
    jr_max_retries r <= jr_retry_count r + 1 -> (jr_status r = Running /\ d <= 0) \/ d <= -1 ->
    moves d r (set_failed now (jr_retry_count r + 1) m r).

(** What is left of its retries. *)
Definition retries_left r : Z := Z.max 0 (jr_max_retries r - jr_retry_count r).

Definition phase r : Z :=
  match jr_status r with Pending => 2 | Running => 1 | _ => 0 end.

(** Every attempt that is under way or to come has its place here. *)
Definition budget (tasks : Z) r : Z := jr_retry_count r + tasks + phase r + 2 * retries_left r.

(** A row as the queue makes them, with [tasks] tasks in flight for it. *)
Definition row_ok (tasks : Z) r : Prop :=
  jr_max_retries r = 3 /\ jr_priority r = 0 /\ jr_timeout_seconds r = 300 /\
  0 <= jr_retry_count r /\ budget tasks r <= 8 /\
  (jr_status r = Running -> is_Some (jr_started_at r)).

Lemma row_ok_small tasks r : row_ok tasks r -> 0 <= tasks -> jr_retry_count r <= 8.
Proof. intros (Hm & _ & _ & H0 & Hb & _) Ht. unfold budget, phase, retries_left in Hb. destruct (jr_status r); lia. Qed.

Lemma new_row_ok now id type (payload : Payload) at_ cid :
  row_ok 0 (new_job_row now id type payload at_ cid).
Proof. unfold row_ok, budget, phase, retries_left. simpl. split_and!; try done; lia. Qed.

Lemma moves_ok tasks d r r' : moves d r r' -> row_ok tasks r -> row_ok (tasks + d) r'.
Proof.
  intros Hm (H1 & H2 & H3 & H4 & H5 & H6). unfold row_ok, budget, phase, retries_left in *.
  destruct Hm as [|now Hs|now|now Ha|now m at_ Hlt Hd|now m Hge Hd]; simpl;
    repeat match goal with |- _ /\ _ => split end; try done; try lia;
    try (destruct (jr_status r) eqn:Hst; try done; try lia; destruct Hd as [[]|]; try done; lia).
Qed.

(** The runs that a row can still have. *)
Definition runs_left r : Z :=
  (if decide (jr_status r = Pending) then 1 else 0) + Z.max 0 (jr_max_retries r - jr_retry_count r - 1).

Lemma moves_runs_left d r r' : moves d r r' -> runs_left r' <= runs_left r.
Proof.
  intros Hm. unfold runs_left. destruct Hm; simpl; repeat case_decide; try done; lia.
Qed.

(** A measure of how far a row is from its end. *)
Definition rank r : nat := Z.to_nat (3 * retries_left r + phase r).

Definition unchanged r r' : Prop :=
  r' = r \/ (active (jr_status r) = false /\ active (jr_status r') = false).

Lemma moves_rank d r r' :
  moves d r r' -> (rank r' < rank r)%nat \/ (rank r' = rank r /\ unchanged r r').
Proof.
  intros Hm. unfold rank, retries_left, phase, unchanged.
  destruct Hm as [|now Hs|now|now Ha|now m at_ Hlt Hd|now m Hge Hd]; simpl.
  - right. auto.
  - left. rewrite Hs. lia.
  - destruct (jr_status r); simpl; auto; left; lia.
  - left. destruct (jr_status r); try done; lia.
  - left. destruct (jr_status r); lia.
  - destruct (decide (jr_max_retries r <= jr_retry_count r)).
    + destruct (jr_status r); simpl; [left; lia|left; lia|..]; right; (split; [lia|auto]).
    + left. destruct (jr_status r); lia.
Qed.

Lemma moves_id d r r' : moves d r r' -> jr_id r' = jr_id r.
Proof. by destruct 1. Qed.
End rows.

(** ** What a step does to the system *)

Section steps.
Context {Payload : Type} (config : WorkerConfig) (handlers : list rstr).
Abbreviation Task := (Task Payload).
Abbreviation Worker := (Worker Payload).
Implicit Types (w : Worker) (r : JobRow Payload) (t : gmap N (JobRow Payload)).

(** The tasks in flight for a job. *)
Definition tasks_for (id : N) (l : list Task) : Z :=
  Z.of_nat (length (List.filter (fun x => bool_decide (job_id (task_job x) = id)) l)).

Definition worker_ok w : Prop :=
  table_ok (wk_jobs w) /\
  (length (wk_in_flight w) <= max_concurrent_jobs config)%nat /\
  (forall id r, wk_jobs w !! id = Some r -> row_ok (tasks_for id (wk_in_flight w)) r) /\
  (forall id, wk_jobs w !! id = None -> tasks_for id (wk_in_flight w) = 0).

(** A step that keeps the set of jobs, row by row. *)
Definition steps_rows w w' : Prop :=
  (length (wk_in_flight w') <= max_concurrent_jobs config)%nat /\
  (forall id, wk_jobs w !! id = None -> tasks_for id (wk_in_flight w') <= tasks_for id (wk_in_flight w)) /\
  exists g, wk_jobs w' = g <$> wk_jobs w /\
    forall id r, wk_jobs w !! id = Some r ->
      moves (tasks_for id (wk_in_flight w') - tasks_for id (wk_in_flight w)) r (g r).

(** A step that adds a job. *)
Definition adds_row w w' : Prop :=
  wk_in_flight w' = wk_in_flight w /\
  exists now id type payload at_ cid,
    wk_jobs w !! id = None /\ wk_jobs w' = <[id := new_job_row now id type payload at_ cid]> (wk_jobs w).

Lemma tasks_for_app id l x :
  tasks_for id (l ++ [x]) = tasks_for id l + (if decide (job_id (task_job x) = id) then 1 else 0).
Proof.
  unfold tasks_for. rewrite List.filter_app, length_app. simpl.
  destruct (decide _); [rewrite bool_decide_eq_true_2 by done|rewrite bool_decide_eq_false_2 by done]; simpl; lia.
Qed.

Lemma tasks_for_delete id k l x :
  l !! k = Some x ->
  tasks_for id (delete k l) = tasks_for id l - (if decide (job_id (task_job x) = id) then 1 else 0).
Proof.
  intros Hx. rewrite <- (take_drop_middle l k x Hx) at 2. rewrite delete_take_drop.
  unfold tasks_for. rewrite !List.filter_app, !length_app. simpl.
  destruct (decide _); [rewrite bool_decide_eq_true_2 by done|rewrite bool_decide_eq_false_2 by done]; simpl; lia.
Qed.

Lemma delete_nothing k (l : list Task) : l !! k = None -> delete k l = l.
Proof.
  intros Hk%lookup_ge_None. by rewrite delete_take_drop, take_ge, drop_ge, app_nil_r by lia.
Qed.

Lemma tasks_for_delete_le id k l : tasks_for id (delete k l) <= tasks_for id l.
Proof.
  destruct (l !! k) as [x|] eqn:Hx.
  - rewrite (tasks_for_delete id k l x Hx). destruct (decide _); lia.
  - by rewrite delete_nothing.
Qed.

Lemma length_delete_le k (l : list Task) : (length (delete k l) <= length l)%nat.
Proof.
  destruct (l !! k) as [x|] eqn:Hx.
  - rewrite (length_delete l k) by eauto. lia.
  - by rewrite delete_nothing.
Qed.

Lemma tasks_for_nonneg id l : 0 <= tasks_for id l.
Proof. unfold tasks_for. lia. Qed.

(** The shape of every step on the table alone. *)
Lemma steps_rows_same w w' :
  worker_ok w -> wk_jobs w' = wk_jobs w ->
  (length (wk_in_flight w') <= length (wk_in_flight w))%nat ->
  (forall id, tasks_for id (wk_in_flight w') <= tasks_for id (wk_in_flight w)) -> steps_rows w w'.
Proof.
  intros (_ & Hl & _) Hj Hlen Ht. split; [lia|]. split; [auto|]. exists (fun r => r).
  split. { rewrite Hj. symmetry. apply map_fmap_id. }
  intros id r _. constructor. specialize (Ht id). lia.
Qed.

Lemma steps_rows_table w t (g : JobRow Payload -> JobRow Payload) :
  worker_ok w -> t = g <$> wk_jobs w ->
  (forall id r, wk_jobs w !! id = Some r -> moves 0 r (g r)) ->
  steps_rows w (mkWorker t (wk_in_flight w)).
Proof.
  intros (_ & Hl & _) -> Hg. split; [done|]. split; [done|]. exists g. split; [done|].
  intros id r Hr. simpl. rewrite Z.sub_diag. eauto.
Qed.

Lemma retry_counts_small w id r :
  worker_ok w -> wk_jobs w !! id = Some r -> 0 <= jr_retry_count r <= 8.
Proof.
  intros (_ & _ & Hrows & _) Hr. specialize (Hrows id r Hr). split; [apply Hrows|].
  eapply row_ok_small; [done|apply tasks_for_nonneg].
Qed.

Lemma tick_rows now w :
  worker_ok w -> steps_rows w (step config handlers w (Tick now)).
Proof.
  intros Hok. pose proof Hok as (Ht & Hl & Hrows & Hnone). simpl.
  destruct (Nat.ltb_spec (length (wk_in_flight w)) (max_concurrent_jobs config)) as [Hfree|_];
    [|by apply steps_rows_same].
  destruct (poll_cases now (wk_jobs w) Ht) as [[-> _] | (id & r & Hr & Hd & _ & ->)];
    [by apply steps_rows_same|].
  assert (jr_id r = id) as Hid by (by apply Ht). unfold steps_rows. simpl.
  split; [rewrite length_app; simpl; lia|]. split.
  { intros id' Hid'. rewrite tasks_for_app. simpl. case_decide; [congruence|lia]. }
  exists (fun x => if with_id id x then set_running now x else x).
  split; [by rewrite (update_with_id _ _ _ _ (proj1 Ht) Hr)|].
  intros id' r' Hr'. rewrite tasks_for_app. simpl. unfold with_id.
  rewrite (proj1 Ht id' r' Hr'), Hid. case_bool_decide as He.
  - subst id'. simplify_eq. constructor; [|case_decide; lia].
    unfold due in Hd. apply andb_true_iff in Hd as [Hd _]. by apply bool_decide_eq_true in Hd.
  - constructor. case_decide; [congruence|lia].
Qed.

(** The report of a task about one of the rows. *)
Lemma report_rows now job outcome w :
  worker_ok w ->
  exists g, snd (report handlers now job outcome (wk_jobs w)) = g <$> wk_jobs w /\
    forall id r, wk_jobs w !! id = Some r ->
      moves (if decide (job_id job = id) then -1 else 0) r (g r).
Proof.
  intros Hok. pose proof Hok as (Ht & _).
  assert (Hf : forall e, exists g,
    snd (fail (fun t => t) now (job_id job) e (wk_jobs w)) = g <$> wk_jobs w /\
    forall id r, wk_jobs w !! id = Some r ->
      moves (if decide (job_id job = id) then -1 else 0) r (g r)).
  { intros e. destruct (fail_cases now (job_id job) e (wk_jobs w) Ht) as [[-> _] | [? ->]].
    - eexists. split; [done|]. intros id r Hr. simpl. unfold with_id.
      rewrite (proj1 Ht id r Hr). case_bool_decide; case_decide; try congruence; [|by constructor].
      pose proof (retry_counts_small w id r Hok Hr).
      unfold fail_row. rewrite i32_of_small by lia.
      destruct (Z.ltb_spec (jr_retry_count r + 1) (jr_max_retries r)); constructor; auto; lia.
    - exists (fun r => r). split; [by rewrite map_fmap_id|]. intros. constructor. case_decide; lia. }
  unfold report. destruct (find_handler _ _); [destruct outcome|]; try apply Hf.
  rewrite complete_effect by done. eexists. split; [done|]. intros id r Hr. unfold with_id.
  rewrite (proj1 Ht id r Hr). case_bool_decide; constructor; case_decide; lia.
Qed.

Lemma finished_rows now k outcome w :
  worker_ok w -> steps_rows w (step config handlers w (Finished now k outcome)).
Proof.
  intros Hok. simpl. destruct (wk_in_flight w !! k) as [task|] eqn:Hk; [|by apply steps_rows_same].
  destruct (_ && _); [by apply steps_rows_same|].
  destruct (report_rows now (task_job task) outcome w Hok) as (g & Hg & Hm).
  destruct Hok as (_ & Hl & _). unfold steps_rows. simpl.
  split; [pose proof (length_delete_le k (wk_in_flight w)); lia|].
  split; [intros; apply tasks_for_delete_le|]. exists g. split; [done|]. intros id r Hr.
  rewrite (tasks_for_delete id k _ _ Hk). specialize (Hm id r Hr).
  destruct (decide _); [by replace (_ - 1 - _) with (-1) by lia|by replace (_ - 0 - _) with 0 by lia].
Qed.

Lemma maintained_rows now w :
  worker_ok w -> steps_rows w (step config handlers w (Maintained now)).
Proof.
  intros Hok. pose proof Hok as (Ht & _). simpl. unfold with_jobs.
  destruct (timeout_stale_jobs_effect now (wk_jobs w) Ht) as [n ->].
  { intros id r Hr. pose proof (retry_counts_small w id r Hok Hr). unfold i32_max. lia. }
  simpl. eapply steps_rows_table; [done..|]. intros id r Hr. unfold time_out.
  destruct (stale now r) eqn:Hs; [|by constructor].
  assert ((jr_status r = Running /\ 0 <= 0) \/ 0 <= -1) as Hrun by (left; eauto using stale_running with lia).
  by destruct (Z.ltb_spec (jr_retry_count r + 1) (jr_max_retries r)); constructor.
Qed.

Lemma cancel_rows now id w :
  worker_ok w -> steps_rows w (step config handlers w (CancelRequested now id)).
Proof.
  intros Hok. pose proof Hok as (Ht & _). simpl. unfold with_jobs. rewrite cancel_effect by done.
  simpl. eapply steps_rows_table; [done..|]. intros id' r Hr. simpl.
  destruct (with_id id r); [|by constructor]. simpl.
  destruct (jr_status r) eqn:Hs; simpl; try (by constructor); constructor; rewrite ?Hs; done.
Qed.

Lemma insert_adds now id type payload at_ cid w :
  worker_ok w ->
  snd (insert_job (new_job_row now id type payload at_ cid) (wk_jobs w)) = wk_jobs w \/
  adds_row w (mkWorker (snd (insert_job (new_job_row now id type payload at_ cid) (wk_jobs w)))
                (wk_in_flight w)).
Proof.
  intros Hok. destruct (insert_job_cases (new_job_row now id type payload at_ cid) (wk_jobs w))
    as [(-> & Hn & Hu) | ->]; [right|by left].
  split; [done|]. simpl in *. by exists now, id, type, payload, at_, cid.
Qed.
Lemma enqueue_adds e w :
  worker_ok w -> enqueues e = true ->
  wk_jobs (step config handlers w e) = wk_jobs w /\
    wk_in_flight (step config handlers w e) = wk_in_flight w \/
  adds_row w (step config handlers w e).
Proof.
  intros Hok He.
  assert (Hi : forall {A} (x : A) now id type payload at_ cid,
    wk_jobs (with_jobs w (_ ← insert_job (new_job_row now id type payload at_ cid); mret x)) = wk_jobs w \/
    adds_row w (with_jobs w (_ ← insert_job (new_job_row now id type payload at_ cid); mret x))).
  { intros. destruct (insert_adds now id type payload at_ cid w Hok) as [H | H].
    - left. unfold with_jobs. simpl. rewrite <- H at 2. unfold mbind, eff_bind.
      by destruct (insert_job _ _) as [[]].
    - right. unfold with_jobs. unfold mbind, eff_bind.
      by destruct (insert_job _ _) as [[]]. }
  destruct e; try done; simpl.
  - unfold enqueue. edestruct Hi as [H | H]; [left; split; [exact H|done]|by right].
  - unfold enqueue_with_correlation. edestruct Hi as [H | H]; [left; split; [exact H|done]|by right].
  - unfold with_jobs, enqueue_idempotent, insert_job_or_nothing. run.
    destruct (rows_where _ (wk_jobs w)) eqn:Hrows; simpl.
    + destruct (insert_adds now id type payload now (Some cid) w Hok) as [H | H];
        destruct (insert_job _ _) as [[]]; simpl in *; auto.
    + change (jr_job_type (new_job_row now id type payload now (Some cid))) with type in Hrows.
      left. by rewrite Hrows.
  - unfold enqueue_scheduled. edestruct Hi as [H | H]; [left; split; [exact H|done]|by right].
Qed.

(** A step moves the rows it has, or adds one. *)
Lemma step_cases e w :
  worker_ok w ->
  steps_rows w (step config handlers w e) \/
  (enqueues e = true /\ adds_row w (step config handlers w e)).
Proof.
  intros Hok. destruct (enqueues e) eqn:He.
  - destruct (enqueue_adds e w Hok He) as [[H1 H2] | H]; [left|by right].
    apply steps_rows_same; rewrite ?H2; done.
  - left. destruct e; try done.
    + by apply tick_rows.
    + by apply finished_rows.
    + apply steps_rows_same; simpl; auto using length_delete_le, tasks_for_delete_le.
    + by apply maintained_rows.
    + by apply cancel_rows.
Qed.

Lemma step_unique e w :
  active_unique (wk_jobs w) -> active_unique (wk_jobs (step config handlers w e)).
Proof.
  intros Hu. destruct e; simpl.
  - destruct (_ <? _)%nat; [|done]. pose proof (poll_keeps now (wk_jobs w) Hu).
    by destruct (poll now (wk_jobs w)) as [[[]| |]].
  - destruct (wk_in_flight w !! k); [|done]. destruct (_ && _); [done|]. unfold report. simpl.
    destruct (find_handler _ _); [destruct outcome|]; by first [apply fail_keeps|apply complete_keeps].
  - done.
  - by apply timeout_keeps.
  - by apply cancel_keeps.
  - apply (keeps_bind (insert_job _)); [apply keeps_insert|by intros ? ?|done].
  - apply (keeps_bind (insert_job _)); [apply keeps_insert|by intros ? ?|done].
  - revert Hu. apply enqueue_idempotent_keeps.
  - apply (keeps_bind (insert_job _)); [apply keeps_insert|by intros ? ?|done].
Qed.

Lemma step_ok e w : worker_ok w -> worker_ok (step config handlers w e).
Proof.
  intros Hok. pose proof Hok as (Ht & Hl & Hrows & Hnone).
  pose proof (step_unique e w (proj2 Ht)) as Hu.
  destruct (step_cases e w Hok) as [(Hl' & Hn' & g & Hg & Hm) | (_ & Hfl & now & id & ty & pl & at_ & cid & Hid & Hj)].
  - split; [split; [|done]|split; [done|split]].
    + rewrite Hg. apply keyed_fmap; [apply Ht|]. intros k r Hr. by apply (moves_id _ _ _ (Hm k r Hr)).
    + intros id r. rewrite Hg, lookup_fmap, fmap_Some. intros (r0 & Hr0 & ->).
      replace (tasks_for id (wk_in_flight (step config handlers w e))) with
        (tasks_for id (wk_in_flight w) + (tasks_for id (wk_in_flight (step config handlers w e)) -
                                           tasks_for id (wk_in_flight w))) by lia.
      eapply moves_ok; eauto.
    + intros id. rewrite Hg, lookup_fmap, fmap_None. intros Hid. specialize (Hn' id Hid).
      specialize (Hnone id Hid). pose proof (tasks_for_nonneg id (wk_in_flight (step config handlers w e))). lia.
  - split; [split; [|done]|split; [by rewrite Hfl|split]].
    + rewrite Hj. apply (keyed_insert (new_job_row now id ty pl at_ cid)), Ht.
    + intros id' r. rewrite Hj, Hfl. intros [[<- <-] | [Hne Hr]]%lookup_insert_Some; [|by apply Hrows].
      rewrite Hnone by done. apply new_row_ok.
    + intros id'. rewrite Hj, Hfl. intros [Hn _]%lookup_insert_None. by apply Hnone.
Qed.

Lemma initial_ok : worker_ok initial.
Proof.
  assert (He : forall k, wk_jobs (initial (Payload := Payload)) !! k = None) by (intros; apply lookup_empty).
  split; [split; intros k r Hr; by rewrite He in Hr|]. split; [simpl; lia|].
  split; [intros id r Hr; by rewrite He in Hr|done].
Qed.

Lemma run_events_ok es w : worker_ok w -> worker_ok (run_events config handlers w es).
Proof. revert w. induction es as [|e es IH]; intros w Hw; simpl; [done|]. by apply IH, step_ok. Qed.

(** The runs a job can still have, 3 for one that has not been enqueued. *)
Definition runs_left_for (id : N) w : Z :=
  match wk_jobs w !! id with Some r => runs_left r | None => 3 end.

Lemma times_run_bound id es w :
  worker_ok w -> Z.of_nat (times_run config handlers id w es) <= runs_left_for id w.
Proof.
  revert w. induction es as [|e es IH]; intros w Hok; cbn [times_run].
  { unfold runs_left_for, runs_left. destruct (wk_jobs w !! id); [case_decide|]; lia. }
  specialize (IH _ (step_ok e w Hok)). rewrite Nat2Z.inj_add.
  enough (runs_left_for id (step config handlers w e) +
    Z.of_nat (match polled config e w with Some j => if decide (job_id j = id) then 1 else 0 | None => 0 end)
    <= runs_left_for id w) by lia.
  clear IH.
  assert (runs_left_for id (step config handlers w e) <= runs_left_for id w) as Hle.
  { unfold runs_left_for.
    destruct (step_cases e w Hok) as [(_ & _ & g & Hg & Hm) | (_ & Hfl & now & id' & ty & pl & at_ & cid & Hid & Hj)].
    - rewrite Hg, lookup_fmap. destruct (wk_jobs w !! id) as [r|] eqn:Hr; simpl; [|done].
      eapply moves_runs_left, Hm; eauto.
    - rewrite Hj. destruct (decide (id = id')) as [->|Hne].
      + rewrite lookup_insert_eq, Hid. unfold runs_left. simpl. lia.
      + by rewrite lookup_insert_ne. }
  destruct (polled config e w) as [j|] eqn:Hp; [|lia]. destruct (decide (job_id j = id)) as [Hj|]; [|lia].
  destruct e; try done. simpl in Hp |- *. destruct (_ <? _)%nat; [|done].
  destruct Hok as (Ht & _).
  destruct (poll_cases now (wk_jobs w) Ht) as [[Hn _] | (id' & r & Hr & Hd & _ & He)].
  - by rewrite Hn in Hp.
  - rewrite He in Hp |- *. simpl in *. simplify_eq. unfold runs_left_for. simpl.
    rewrite (proj1 Ht id' r Hr), lookup_insert_eq, Hr. unfold runs_left. simpl.
    unfold due in Hd. apply andb_true_iff in Hd as [Hd%bool_decide_eq_true _].
    rewrite Hd. simpl. lia.
Qed.
End steps.

(** ** Progress *)

Section progress.
Context {Payload : Type} (config : WorkerConfig) (handlers : list rstr).
Implicit Types (w : Worker Payload) (r : JobRow Payload) (t : gmap N (JobRow Payload)).

Definition total (l : list (N * JobRow Payload)) : nat := list_sum (map (fun kr => rank (snd kr)) l).
Definition total_rank t : nat := total (map_to_list t).

Lemma total_cons k r l : total ((k, r) :: l) = (rank r + total l)%nat.
Proof. done. Qed.

Lemma total_moves (g : JobRow Payload -> JobRow Payload) l :
  (forall k r, (k, r) ∈ l -> exists d, moves d r (g r)) ->
  (total (prod_map id g <$> l) < total l)%nat \/
  (total (prod_map id g <$> l) = total l /\ forall k r, (k, r) ∈ l -> unchanged r (g r)).
Proof.
  induction l as [|[k r] l IH]; intros Hm; [right; split; [done|by intros ?? ?%elem_of_nil]|].
  destruct IH as [IH | [IH Hun]]; [intros; eapply Hm; by right| |];
    (destruct (Hm k r) as [d Hd]; [left|]); destruct (moves_rank d _ _ Hd) as [Hr | [Hr Hu]];
    change (prod_map id g <$> (k, r) :: l) with ((k, g r) :: (prod_map id g <$> l));
    rewrite !total_cons; [left; lia..|].
  right. split; [lia|]. intros k' r' [[= -> ->] | Hin]%elem_of_cons; eauto.
Qed.

Lemma rank_step e w :
  worker_ok config w -> enqueues e = false ->
  (total_rank (wk_jobs (step config handlers w e)) < total_rank (wk_jobs w))%nat \/
  (total_rank (wk_jobs (step config handlers w e)) = total_rank (wk_jobs w) /\
   forall id r, wk_jobs w !! id = Some r ->
     exists r', wk_jobs (step config handlers w e) !! id = Some r' /\ unchanged r r').
Proof.
  intros Hok He.
  destruct (step_cases config handlers e w Hok) as [(_ & _ & g & Hg & Hm) | [Ht _]]; [|congruence].
  unfold total_rank. rewrite Hg, map_to_list_fmap.
  destruct (total_moves g (map_to_list (wk_jobs w))) as [H | [H Hu]]; [|by left|right].
  - intros k r Hr%elem_of_map_to_list. eauto.
  - split; [done|]. intros id r Hr. exists (g r). rewrite lookup_fmap, Hr. split; [done|].
    by apply (Hu id r), elem_of_map_to_list.
Qed.

(** A tick with a free slot hands out a job when one is due; the maintenance ends
    the run of a stale one. *)
Lemma tick_progress now w id r :
  worker_ok config w -> (length (wk_in_flight w) < max_concurrent_jobs config)%nat ->
  wk_jobs w !! id = Some r -> jr_status r = Pending -> jr_scheduled_at r <= now ->
  exists id' r' r'', wk_jobs w !! id' = Some r' /\
    wk_jobs (step config handlers w (Tick now)) !! id' = Some r'' /\ ~ unchanged r' r''.
Proof.
  intros (Ht & _) Hfree Hr Hs Ha. simpl. destruct (Nat.ltb_spec (length (wk_in_flight w)) (max_concurrent_jobs config)); [|lia].
  destruct (poll_cases now (wk_jobs w) Ht) as [[_ Hno] | (id' & r' & Hr' & Hd & _ & ->)].
  - specialize (Hno id r Hr). unfold due in Hno. rewrite bool_decide_eq_true_2 in Hno by done.
    simpl in Hno. lia.
  - exists id', r', (set_running now r'). simpl. rewrite lookup_insert_eq. split; [done|]. split; [done|].
    unfold due in Hd. apply andb_true_iff in Hd as [Hd%bool_decide_eq_true _].
    intros [He | [He _]]; [|by rewrite Hd in He]. apply (f_equal jr_status) in He. simpl in He. congruence.
Qed.

Lemma maintenance_progress now w id r s :
  worker_ok config w -> wk_jobs w !! id = Some r -> jr_status r = Running ->
  jr_started_at r = Some s -> s + seconds 300 < now ->
  exists r', wk_jobs (step config handlers w (Maintained now)) !! id = Some r' /\ ~ unchanged r r'.
Proof.
  intros Hok Hr Hs Hst Hlt. pose proof Hok as (Ht & _ & Hrows & _). simpl. unfold with_jobs.
  destruct (timeout_stale_jobs_effect now (wk_jobs w) Ht) as [n ->].
  { intros k x Hx. pose proof (retry_counts_small config w k x Hok Hx). unfold i32_max. lia. }
  simpl. exists (time_out now r). rewrite lookup_fmap, Hr. split; [done|].
  destruct (Hrows id r Hr) as (_ & _ & Htm & _).
  unfold time_out, stale. rewrite bool_decide_eq_true_2, Hst, Htm by done. simpl.
  destruct (Z.ltb_spec (s + seconds 300) now); [|lia].
  intros [He | [He _]]; [|by rewrite Hs in He]. apply (f_equal jr_status) in He. revert He.
  destruct (_ <? _); simpl; congruence.
Qed.

Variables (sched : nat -> Event Payload) (w0 : Worker Payload).
Hypothesis Hok0 : worker_ok config w0.
Hypothesis Hclosed : forall n, enqueues (sched n) = false.

Abbreviation at_step n := (run_schedule config handlers sched w0 n).

Lemma schedule_ok n : worker_ok config (at_step n).
Proof using Hok0. induction n as [|n IH]; simpl; [done|]. by apply step_ok. Qed.

(** Over a stretch of a schedule the rank goes down or nothing changes. *)
Lemma rank_stretch n k :
  (total_rank (wk_jobs (at_step (n + k))) < total_rank (wk_jobs (at_step n)))%nat \/
  (total_rank (wk_jobs (at_step (n + k))) = total_rank (wk_jobs (at_step n)) /\
   forall id r, wk_jobs (at_step n) !! id = Some r ->
     exists r', wk_jobs (at_step (n + k)) !! id = Some r' /\ unchanged r r').
Proof using Hok0 Hclosed.
  induction k as [|k IH]; [rewrite Nat.add_0_r; right; split; [done|]; intros id r Hr; exists r; split; [done|by left]|].
  rewrite Nat.add_succ_r. simpl.
  destruct (rank_step (sched (n + k)) (at_step (n + k)) (schedule_ok _) (Hclosed _)) as [Hs | [Hs Hu]].
  - left. destruct IH as [IH | [IH _]]; lia.
  - destruct IH as [IH | [IH Hu']]; [left; lia|right]. split; [lia|]. intros id r Hr.
    destruct (Hu' id r Hr) as (r' & Hr' & H'), (Hu id r' Hr') as (r'' & Hr'' & H'').
    exists r''. split; [done|]. destruct H' as [-> | [? ?]]; [done|]. right. split; [done|].
    destruct H'' as [-> | [? ?]]; done.
Qed.

(** If the next step changes a row, the rank is lower after it. *)
Lemma rank_drops n k :
  (exists id r r', wk_jobs (at_step (n + k)) !! id = Some r /\
     wk_jobs (at_step (S (n + k))) !! id = Some r' /\ ~ unchanged r r') ->
  (total_rank (wk_jobs (at_step (S (n + k)))) < total_rank (wk_jobs (at_step n)))%nat.
Proof using Hok0 Hclosed.
  intros (id & r & r' & Hr & Hr' & Hnu).
  destruct (rank_step (sched (n + k)) (at_step (n + k)) (schedule_ok _) (Hclosed _)) as [Hs | [_ Hu]].
  - simpl. destruct (rank_stretch n k) as [H | [H _]]; lia.
  - destruct (Hu id r Hr) as (x & Hx & Hux). simpl in Hr'. rewrite Hr' in Hx. injection Hx as <-. done.
Qed.

Hypothesis Hticks : forall n T, exists k now, sched (n + k)%nat = Tick now /\ T <= now /\
  (length (wk_in_flight (at_step (n + k))) < max_concurrent_jobs config)%nat.
Hypothesis Hmaintained : forall n T, exists k now, sched (n + k)%nat = Maintained now /\ T <= now.

Lemma active_job_progress n id r :
  wk_jobs (at_step n) !! id = Some r -> active (jr_status r) = true ->
  exists m, (n <= m)%nat /\
    (total_rank (wk_jobs (at_step m)) < total_rank (wk_jobs (at_step n)))%nat.
Proof using All.
  intros Hr Ha.
  assert (Hkept : forall k, (total_rank (wk_jobs (at_step (n + k))) < total_rank (wk_jobs (at_step n)))%nat \/
    wk_jobs (at_step (n + k)) !! id = Some r).
  { intros k. destruct (rank_stretch n k) as [H | [_ Hu]]; [by left|right].
    destruct (Hu id r Hr) as (r' & Hr' & [-> | [He _]]); [done|congruence]. }
  destruct (jr_status r) eqn:Hs; try done.
  - destruct (Hticks n (jr_scheduled_at r)) as (k & now & He & HT & Hfree).
    destruct (Hkept k) as [H | Hk]; [exists (n + k)%nat; split; [lia|done]|].
    exists (S (n + k)). split; [lia|]. apply rank_drops. simpl. rewrite He.
    by apply (tick_progress now _ id r (schedule_ok _)).
  - destruct (schedule_ok n) as (_ & _ & Hrows & _).
    destruct (Hrows id r Hr) as (_ & _ & _ & _ & _ & Hst). destruct (Hst Hs) as [s Hsa].
    destruct (Hmaintained n (s + seconds 300 + 1)) as (k & now & He & HT).
    destruct (Hkept k) as [H | Hk]; [exists (n + k)%nat; split; [lia|done]|].
    exists (S (n + k)). split; [lia|]. apply rank_drops. exists id, r. simpl. rewrite He.
    destruct (maintenance_progress now _ id r s (schedule_ok _) Hk Hs Hsa) as (r' & Hr' & Hnu); [lia|].
    by exists r'.
Qed.

Lemma eventually_settled n : exists m, (n <= m)%nat /\ settled (at_step m).
Proof using All.
  remember (total_rank (wk_jobs (at_step n))) as k eqn:Hk. revert n Hk.
  induction k as [k IH] using lt_wf_ind. intros n ->.
  destruct (decide (settled (at_step n))) as [Hset|Hset]; [by exists n|].
  apply map_not_Forall in Hset as (id & r & Hr & Ha); [|apply _].
  destruct (active_job_progress n id r Hr) as (m & Hnm & Hlt); [by destruct (active _)|].
  destruct (IH _ Hlt m eq_refl) as (m' & Hm' & Hset'). exists m'. split; [lia|done].
Qed.
End progress.

(** ** Properties *)

(** C25: in every reachable state of the worker and its queue, whatever handlers
    do and in whatever order the steps come, the jobs are keyed by their ids, no
    two active jobs share a type and correlation id, no more than the configured
    number of tasks run, every task runs a job of the table, a running job has a
    start time, and every retry count is between 0 and 8: the INTEGER arithmetic
    of the statements and of [fail] never leaves 32 bits, and the backoff is at
    most 2^8 seconds. *)
Theorem reachable_worker_ok {Payload} config handlers (es : list (Event Payload)) :
  let w := run_events config handlers initial es in
  table_ok (wk_jobs w) /\
  (length (wk_in_flight w) <= max_concurrent_jobs config)%nat /\
  Forall (fun task => is_Some (wk_jobs w !! job_id (task_job task))) (wk_in_flight w) /\
  forall id r, wk_jobs w !! id = Some r ->
    jr_max_retries r = 3 /\ 0 <= jr_retry_count r <= 8 /\
    i32_of (jr_retry_count r + 1) = jr_retry_count r + 1 /\
    (jr_status r = Running -> is_Some (jr_started_at r)).
Proof.
  intros w. pose proof (run_events_ok config handlers es initial (initial_ok config)) as Hok.
  fold w in Hok. pose proof Hok as (Ht & Hl & Hrows & Hnone). split; [done|]. split; [done|]. split.
  - apply Forall_forall. intros task Hin. destruct (wk_jobs w !! _) eqn:Hj; [done|].
    specialize (Hnone _ Hj). unfold tasks_for in Hnone.
    destruct (List.filter _ (wk_in_flight w)) eqn:Hf; [|done].
    assert (task ∈ List.filter (fun x => bool_decide (job_id (task_job x) = job_id (task_job task)))
      (wk_in_flight w)) as Hx.
    { rewrite list_elem_of_In, List.filter_In, <- list_elem_of_In. split; [done|]. by apply bool_decide_eq_true. }
    rewrite Hf in Hx. by apply elem_of_nil in Hx.
  - intros id r Hr. pose proof (retry_counts_small config w id r Hok Hr).
    destruct (Hrows id r Hr) as (? & _ & _ & _ & _ & ?). rewrite i32_of_small by lia. done.
Qed.

(** C23: no job runs more than three times.  Along any history that starts with an
    empty queue, with any handlers, outcomes, panics, timeouts, cancellations and
    enqueueings in any order, a job is handed out to a worker at most three
    times.  (Each method of the queue is one step here; see
    [late_failure_reopens_running_job] for what a late report does.) *)
Theorem job_runs_at_most_three_times {Payload} config handlers (es : list (Event Payload)) id :
  (times_run config handlers id initial es <= 3)%nat.
Proof.
  pose proof (times_run_bound config handlers id es initial (initial_ok config)) as H.
  unfold runs_left_for in H. change (wk_jobs initial !! id) with (@None (JobRow Payload)) in H. lia.
Qed.

(** C24: every job ends.  Take any reachable state and any endless schedule in
    which no more jobs are enqueued, time goes on without bound, and again and
    again the polling loop finds a free slot and the maintenance runs.  Then,
    whatever the handlers do, even if they hang, panic or never report, after
    every moment comes one at which every job is completed, cancelled or
    failed. *)
Theorem every_job_ends {Payload} config handlers (es : list (Event Payload)) sched :
  let w0 := run_events config handlers initial es in
  (forall n, enqueues (sched n) = false) ->
  (forall n T, exists k now, sched (n + k)%nat = Tick now /\ T <= now /\
     (length (wk_in_flight (run_schedule config handlers sched w0 (n + k)))
        < max_concurrent_jobs config)%nat) ->
  (forall n T, exists k now, sched (n + k)%nat = Maintained now /\ T <= now) ->
  forall n, exists m, (n <= m)%nat /\ settled (run_schedule config handlers sched w0 m).
Proof.
  intros w0 Hclosed Hticks Hmaint. apply eventually_settled; try done.
  apply run_events_ok, initial_ok.
Qed.

(** A schedule of a worker whose handlers all panic. *)
Definition crashing_schedule (n : nat) : Event unit :=
  match (n mod 3)%nat with
  | 0%nat => Tick (seconds (Z.of_nat n * 400))
  | 1%nat => Aborted 0
  | _ => Maintained (seconds (Z.of_nat n * 400))
  end.

Definition crashing_start : Worker unit :=
  run_events default_config [lit "parse_gpx"] initial [EnqueuedWith 0 1%N (lit "parse_gpx") tt 7%N].

Lemma crashing_in_flight n :
  (length (wk_in_flight (run_schedule default_config [lit "parse_gpx"] crashing_schedule crashing_start n))
    <= (if (n mod 3 =? 1)%nat then 1 else 0))%nat.
Proof.
  induction n as [|n IH]; [by vm_compute|]. cbn [run_schedule].
  set (w := run_schedule _ _ _ _ n) in *. clearbody w.
  assert (Hn : (n mod 3 < 3)%nat) by (apply Nat.mod_upper_bound; lia).
  assert (HS : (S n mod 3 = if n mod 3 =? 2 then 0 else S (n mod 3))%nat).
  { rewrite <- Nat.add_1_r, Nat.Div0.add_mod.
    by destruct (n mod 3)%nat as [|[|[|]]]; [| | |lia]. }
  rewrite HS. unfold crashing_schedule.
  destruct (n mod 3)%nat as [|[|[|]]]; [| | |lia]; simpl in *.
  - destruct (_ <? _)%nat; [|lia]. destruct (poll _ _) as [[[]| |]]; simpl; rewrite ?length_app; simpl; lia.
  - destruct (wk_in_flight w) as [|? []]; simpl in *; lia.
  - lia.
Qed.

Lemma every_job_ends_witness :
  (exists r, wk_jobs crashing_start !! 1%N = Some r /\ jr_status r = Pending) /\
  exists m, (0 <= m)%nat /\
    settled (run_schedule default_config [lit "parse_gpx"] crashing_schedule crashing_start m).
Proof.
  assert (Hmod : forall n c, (c < 3)%nat -> ((3 * n + c) mod 3 = c)%nat).
  { intros n c Hc. rewrite (Nat.mul_comm 3 n), Nat.add_comm, Nat.Div0.mod_add. by apply Nat.mod_small. }
  split; [eexists; split; [reflexivity|reflexivity]|].
  apply (every_job_ends default_config [lit "parse_gpx"]
    [EnqueuedWith 0 1%N (lit "parse_gpx") tt 7%N] crashing_schedule).
  - intros n. unfold crashing_schedule. by destruct (n mod 3)%nat as [|[|]].
  - intros n T. set (m := (3 * (n + Z.to_nat T))%nat). exists (m - n)%nat, (seconds (Z.of_nat m * 400)).
    replace (n + (m - n))%nat with m by lia. split; [|split].
    + unfold crashing_schedule.
      assert (m mod 3 = 0)%nat as -> by (unfold m; rewrite <- (Nat.add_0_r (3 * _)); apply Hmod; lia). done.
    + unfold seconds, m. lia.
    + pose proof (crashing_in_flight m) as H. fold crashing_start.
      assert (m mod 3 = 0)%nat as Hm by (unfold m; rewrite <- (Nat.add_0_r (3 * _)); apply Hmod; lia).
      rewrite Hm in H. simpl in *. lia.
  - intros n T. set (m := (3 * (n + Z.to_nat T) + 2)%nat). exists (m - n)%nat, (seconds (Z.of_nat m * 400)).
    replace (n + (m - n))%nat with m by lia. split.
    + unfold crashing_schedule, m. by rewrite Hmod by lia.
    + unfold seconds, m. lia.
Defined.
