(* ===== verification/Database.v ===== *)
(** The database shared by the transactions: the tables of migrations/ that more
    than one context writes, single statements over them with their constraints,
    and transactions.

    A statement fails with a [DbError], as sqlx reports it, and then changes
    nothing; a transaction that does not end in [Ok] leaves the database as it
    was.  [AuditLog::append_in_tx] and [Outbox::publish] are here because every
    transaction uses them (crates/infrastructure/src/audit.rs, outbox.rs). *)
From S2P Require Import Prelude Float64 RustString RecordedActivity RouteVersioning ActivityCatalog.
From S2P Require Import Imports ImportTheory ImportPersistence.

(** ** Errors *)

Inductive DbError : Type :=
| UniqueViolation (relation : rstr)
| ForeignKeyViolation (relation : rstr)
| UndefinedTable (relation : rstr)
| RowNotFound
| NegativeLimit.

#[export] Instance DbError_eq_dec : EqDecision DbError.
Proof. solve_decision. Defined.

(** The [Display] of [sqlx::Error]. *)
Class SqlxDisplay := sqlx_display : DbError -> rstr.

(** ** Rows *)

Record SourceArtifactRow := mkArtifactRow {
  sar_id : uuid; sar_import_id : uuid; sar_owner_id : uuid; sar_object_storage_key : rstr;
  sar_content_type : rstr; sar_size_bytes : Z; sar_checksum : rstr; sar_created_at : datetime }.

Record SourceRevisionRow := mkRevisionRow {
  srr_id : uuid; srr_activity_id : uuid; srr_source_artifact_id : uuid; srr_revision_number : Z;
  srr_provider : rstr; srr_parser_version : rstr; srr_imported_at : datetime }.

Record RecordedTrackRow := mkTrackRow {
  rtr_id : uuid; rtr_source_revision_id : uuid; rtr_geometry_json : Json;
  rtr_bounding_box_json : Json; rtr_started_at : option datetime; rtr_ended_at : option datetime;
  rtr_distance_meters : f64; rtr_elevation_gain_meters : option f64;
  rtr_elevation_loss_meters : option f64; rtr_point_count : Z; rtr_segment_count : Z;
  rtr_calculation_version : rstr; rtr_created_at : datetime }.

Record RouteVersionRow := mkVersionRow {
  rvr_id : uuid; rvr_activity_id : uuid; rvr_parent_version_id : option uuid;
  rvr_version_number : Z; rvr_geometry_json : Json; rvr_bounding_box_json : Json;
  rvr_corrected_statistics_json : Json; rvr_calculation_version : rstr;
  rvr_edit_summary : option rstr; rvr_created_by : uuid; rvr_created_at : datetime }.

(** What publication reads of a draft. *)
Record LockedDraftRow := mkLockedDraft {
  ldr_id : uuid; ldr_owner_id : uuid; ldr_activity_id : uuid; ldr_state : rstr;
  ldr_revision : Z; ldr_geometry_json : Json; ldr_updated_at : datetime }.

Record AuditRow := mkAuditRow {
  aur_id : uuid; aur_actor_id : uuid; aur_action : rstr; aur_resource_type : rstr;
  aur_resource_id : rstr; aur_metadata : option Json; aur_created_at : datetime }.

Record OutboxRow := mkOutboxRow {
  obr_id : uuid; obr_aggregate_type : rstr; obr_aggregate_id : rstr; obr_event_type : rstr;
  obr_payload : Json; obr_created_at : datetime; obr_processed_at : option datetime;
  obr_failed_at : option datetime; obr_error_message : option rstr; obr_retry_count : Z;
  obr_correlation_id : option uuid }.

(** ** Tables *)

(** [db_route_drafts] is the relation route_editing.route_drafts, if it exists;
    no migration creates it. *)
Record Database := mkDb {
  db_users : gset N;
  db_imports : gmap N ImportRow;
  db_artifacts : gmap N SourceArtifactRow;
  db_revisions : gmap N SourceRevisionRow;
  db_tracks : gmap N RecordedTrackRow;
  db_activities : gmap N ActivityRow;
  db_versions : gmap N RouteVersionRow;
  db_route_drafts : option (gmap N LockedDraftRow);
  db_audit_log : gmap N AuditRow;
  db_outbox : gmap N OutboxRow }.

Definition set_imports (t : gmap N ImportRow) (d : Database) : Database :=
  mkDb (db_users d) t (db_artifacts d) (db_revisions d) (db_tracks d) (db_activities d)
    (db_versions d) (db_route_drafts d) (db_audit_log d) (db_outbox d).
Definition set_artifacts (t : gmap N SourceArtifactRow) (d : Database) : Database :=
  mkDb (db_users d) (db_imports d) t (db_revisions d) (db_tracks d) (db_activities d)
    (db_versions d) (db_route_drafts d) (db_audit_log d) (db_outbox d).
Definition set_revisions (t : gmap N SourceRevisionRow) (d : Database) : Database :=
  mkDb (db_users d) (db_imports d) (db_artifacts d) t (db_tracks d) (db_activities d)
    (db_versions d) (db_route_drafts d) (db_audit_log d) (db_outbox d).
Definition set_tracks (t : gmap N RecordedTrackRow) (d : Database) : Database :=
  mkDb (db_users d) (db_imports d) (db_artifacts d) (db_revisions d) t (db_activities d)
    (db_versions d) (db_route_drafts d) (db_audit_log d) (db_outbox d).
Definition set_activities (t : gmap N ActivityRow) (d : Database) : Database :=
  mkDb (db_users d) (db_imports d) (db_artifacts d) (db_revisions d) (db_tracks d) t
    (db_versions d) (db_route_drafts d) (db_audit_log d) (db_outbox d).
Definition set_versions (t : gmap N RouteVersionRow) (d : Database) : Database :=
  mkDb (db_users d) (db_imports d) (db_artifacts d) (db_revisions d) (db_tracks d)
    (db_activities d) t (db_route_drafts d) (db_audit_log d) (db_outbox d).
Definition set_route_drafts (t : option (gmap N LockedDraftRow)) (d : Database) : Database :=
  mkDb (db_users d) (db_imports d) (db_artifacts d) (db_revisions d) (db_tracks d)
    (db_activities d) (db_versions d) t (db_audit_log d) (db_outbox d).
Definition set_audit_log (t : gmap N AuditRow) (d : Database) : Database :=
  mkDb (db_users d) (db_imports d) (db_artifacts d) (db_revisions d) (db_tracks d)
    (db_activities d) (db_versions d) (db_route_drafts d) t (db_outbox d).
Definition set_outbox (t : gmap N OutboxRow) (d : Database) : Database :=
  mkDb (db_users d) (db_imports d) (db_artifacts d) (db_revisions d) (db_tracks d)
    (db_activities d) (db_versions d) (db_route_drafts d) (db_audit_log d) t.

(** ** Statements *)

Abbreviation stmt := (eff Database DbError) (only parsing).

(** A constraint that the state after the statement must meet. *)
Definition require (ok : bool) (e : DbError) : stmt unit := if ok then mret tt else throw e.

(** [INSERT] into a table with a primary key. *)
Definition insert_pk {A} (relation : rstr) (table : Database -> gmap N A)
    (set_table : gmap N A -> Database -> Database) (id : N) (row : A) : stmt unit :=
  d ← get;
  require (bool_decide (table d !! id = None)) (UniqueViolation relation);;
  put (set_table (<[id := row]> (table d)) d).

(** [REFERENCES table(id)]. *)
Definition references {A} (relation : rstr) (table : Database -> gmap N A) (id : N) : stmt unit :=
  d ← get; require (bool_decide (is_Some (table d !! id))) (ForeignKeyViolation relation).

(** A unique constraint on some columns: no row of the table satisfies [same]. *)
Definition unique_among {A} (relation : rstr) (table : Database -> gmap N A) (same : A -> bool)
    : stmt unit :=
  d ← get;
  require (bool_decide (map_Forall (fun _ r => same r = false) (table d))) (UniqueViolation relation).

(** ** Transactions *)

(** [begin .. commit]: all statements or none. *)
Definition transaction {E A} (body : eff Database E A) : eff Database E A :=
  fun d => match body d with (Ok a, d') => (Ok a, d') | (r, _) => (r, d) end.

(** [AuditLog::append_in_tx] and [AuditLog::append]; the database makes the id. *)
Definition append_in_tx (now : datetime) (new_id : uuid) (actor_id : uuid)
    (action resource_type resource_id : rstr) (metadata : option Json) : stmt uuid :=
  insert_pk (lit "platform.audit_log") db_audit_log set_audit_log new_id
    (mkAuditRow new_id actor_id action resource_type resource_id metadata now);;
  mret new_id.

(** [Outbox::publish]. *)
Definition outbox_publish (now : datetime) (new_id : uuid)
    (aggregate_type aggregate_id event_type : rstr) (payload : Json)
    (correlation_id : option uuid) : stmt uuid :=
  insert_pk (lit "platform.outbox") db_outbox set_outbox new_id
    (mkOutboxRow new_id aggregate_type aggregate_id event_type payload now None None None 0
       correlation_id);;
  mret new_id.

(** ** Lemmas *)

Lemma transaction_cases {E A} (body : eff Database E A) d :
  (exists a d', body d = (Ok a, d') /\ transaction body d = (Ok a, d')) \/
  (exists r, is_ok r = false /\ transaction body d = (r, d)).
Proof.
  unfold transaction. destruct (body d) as [[a|e|] d']; [left; eauto|right; eexists; split; [|reflexivity]; done..].
Qed.

(** What a statement of a transaction that went through did. *)
Lemma require_ok ok e d u d' : require ok e d = (Ok u, d') -> ok = true /\ d' = d.
Proof. unfold require. destruct ok; run; naive_solver. Qed.

Lemma insert_pk_ok {A} rel (table : Database -> gmap N A) set_table id row d u d' :
  insert_pk rel table set_table id row d = (Ok u, d') ->
  table d !! id = None /\ d' = set_table (<[id := row]> (table d)) d.
Proof.
  unfold insert_pk. intros (d0 & d1 & [= <- <-] & (? & d2 & Hr & Hp)%eff_bind_inv)%eff_bind_inv.
  apply require_ok in Hr as [Hr ->]. apply bool_decide_eq_true in Hr. by injection Hp as <-.
Qed.

Lemma references_ok {A} rel (table : Database -> gmap N A) id d u d' :
  references rel table id d = (Ok u, d') -> is_Some (table d !! id) /\ d' = d.
Proof.
  unfold references. intros (d0 & d1 & [= <- <-] & Hr)%eff_bind_inv.
  apply require_ok in Hr as [Hr ->]. by apply bool_decide_eq_true in Hr.
Qed.

Lemma unique_among_ok {A} rel (table : Database -> gmap N A) same d u d' :
  unique_among rel table same d = (Ok u, d') ->
  (forall k r, table d !! k = Some r -> same r = false) /\ d' = d.
Proof.
  unfold unique_among. intros (d0 & d1 & [= <- <-] & Hr)%eff_bind_inv.
  apply require_ok in Hr as [Hr ->]. by apply bool_decide_eq_true in Hr.
Qed.

Lemma eff_map_err_ok {S E F A} (f : E -> F) (m : eff S E A) s a s' :
  eff_map_err f m s = (Ok a, s') -> m s = (Ok a, s').
Proof. unfold eff_map_err. destruct (m s) as [[]]; simpl; congruence. Qed.
