(* ===== verification/ImportCommit.v ===== *)
(** The transaction that commits a processed import
    (crates/infrastructure/src/import_commit.rs), and the repository and duplicate
    check of the import worker over the whole database. *)
From S2P Require Import Prelude Float64 RustString RustVec RecordedActivity RouteVersioning.
From S2P Require Import ActivityCatalog Imports ImportTheory ImportHandlers ImportPersistence.
From S2P Require Import Database.

(** [serde_json::to_value] of the parts of the commit data: a value or an error
    text. *)
Class CommitJson := {
  segments_to_value : list TrackSegment -> rstr + Json;
  bounding_box_to_value : BoundingBox -> rstr + Json;
  coordinates_to_value : list Coordinate -> rstr + Json;
  recorded_statistics_to_value : RecordedStatistics -> rstr + Json }.

(** [.map_err(|e| StorageError { message: format!("..: {e}") })]. *)
Definition storage_error `{SqlxDisplay} (what : rstr) (e : DbError) : ImportError :=
  StorageError (what ++ lit ": " ++ sqlx_display e).
Definition serialized (what : rstr) (v : rstr + Json) : eff Database ImportError Json :=
  match v with inr j => mret j | inl e => throw (StorageError (what ++ lit ": " ++ e)) end.

Section commit.
Context `{SqlxDisplay} `{CommitJson} `{StatisticsToJson} `{UuidDisplay}.

(** ** The rows of a commit *)

Definition artifact_row (now : datetime) (data : ImportCommitData) : SourceArtifactRow :=
  mkArtifactRow (icd_source_artifact_id data) (icd_import_id data) (icd_owner_id data)
    (icd_object_storage_key data) (icd_content_type data) (icd_file_size_bytes data)
    (icd_checksum data) now.

Definition revision_row (now : datetime) (data : ImportCommitData) : SourceRevisionRow :=
  mkRevisionRow (icd_source_revision_id data) (icd_activity_id data) (icd_source_artifact_id data)
    (icd_revision_number data) (lit "gpx_import") (icd_parser_version data) now.

Definition track_row (now : datetime) (data : ImportCommitData) (geometry bbox : Json)
    : RecordedTrackRow :=
  let s := icd_statistics data in
  mkTrackRow (icd_recorded_track_id data) (icd_source_revision_id data) geometry bbox
    (icd_started_at data) (icd_ended_at data) (distance_meters s) (elevation_gain_meters s)
    (elevation_loss_meters s) (i32_of (Z.of_N (point_count s))) (i32_of (Z.of_N (segment_count s)))
    (icd_parser_version data) now.

Definition new_activity_row (now : datetime) (data : ImportCommitData) : ActivityRow :=
  mkActivityRow (icd_activity_id data) (icd_owner_id data) (icd_activity_title data)
    (type_display (icd_activity_type data)) (lit "active") (icd_started_at data)
    (icd_ended_at data) None None None now now.

Definition initial_version_row (now : datetime) (data : ImportCommitData)
    (geometry bbox corrected : Json) : RouteVersionRow :=
  mkVersionRow (icd_route_version_id data) (icd_activity_id data) None 1 geometry bbox corrected
    (icd_parser_version data) (Some (lit "Initial import")) (icd_owner_id data) now.

(** The UPDATE of the activity of step 6. *)
Definition with_initial_version (now : datetime) (data : ImportCommitData)
    (statistics corrected : Json) (r : ActivityRow) : ActivityRow :=
  mkActivityRow (ar_id r) (ar_owner_id r) (ar_title r) (ar_activity_type r) (ar_lifecycle_state r)
    (ar_started_at r) (ar_ended_at r) (Some statistics) (Some corrected)
    (Some (icd_route_version_id data)) (ar_created_at r) now.

(** The UPDATE of the import of step 7. *)
Definition completed_import_row (now : datetime) (activity_id : uuid) (r : ImportRow) : ImportRow :=
  mkImportRow (ir_id r) (ir_owner_id r) (ir_source_artifact_id r) (ir_format r) (lit "completed")
    (ir_checksum r) (ir_failure_reason r) (ir_failure_code r) (ir_idempotency_key r)
    (ir_payload_hash r) (Some activity_id) (ir_created_at r) now.

Definition import_audit_metadata (data : ImportCommitData) : Json :=
  JObject [(lit "import_id", JString (uuid_display (icd_import_id data)));
           (lit "activity_id", JString (uuid_display (icd_activity_id data)));
           (lit "format", JString (lit "gpx"))].

Definition import_event_payload (data : ImportCommitData) : Json :=
  let s := icd_statistics data in
  JObject [(lit "import_id", JString (uuid_display (icd_import_id data)));
           (lit "activity_id", JString (uuid_display (icd_activity_id data)));
           (lit "owner_id", JString (uuid_display (icd_owner_id data)));
           (lit "route_version_id", JString (uuid_display (icd_route_version_id data)));
           (lit "distance_meters", json_f64 (distance_meters s));
           (lit "duration_seconds", json_option_f64 (duration_seconds s));
           (lit "elevation_gain_meters", json_option_f64 (elevation_gain_meters s))].

(** ** The statements *)

(** Steps 1 to 3: the recorded activity. *)
Definition insert_artifact (now : datetime) (data : ImportCommitData) : stmt unit :=
  insert_pk (lit "source_artifacts") db_artifacts set_artifacts (icd_source_artifact_id data)
    (artifact_row now data).

Definition insert_revision (now : datetime) (data : ImportCommitData) : stmt unit :=
  unique_among (lit "source_revisions") db_revisions (fun r =>
    bool_decide (srr_activity_id r = icd_activity_id data) &&
    bool_decide (srr_revision_number r = icd_revision_number data));;
  references (lit "source_revisions") db_artifacts (icd_source_artifact_id data);;
  insert_pk (lit "source_revisions") db_revisions set_revisions (icd_source_revision_id data)
    (revision_row now data).

Definition insert_track (now : datetime) (data : ImportCommitData) (geometry bbox : Json)
    : stmt unit :=
  references (lit "recorded_tracks") db_revisions (icd_source_revision_id data);;
  insert_pk (lit "recorded_tracks") db_tracks set_tracks (icd_recorded_track_id data)
    (track_row now data geometry bbox).

(** Steps 4 to 6: the activity and its first version. *)
Definition insert_activity (now : datetime) (data : ImportCommitData) : stmt unit :=
  d ← get;
  require (bool_decide (icd_owner_id data ∈ db_users d)) (ForeignKeyViolation (lit "activities"));;
  insert_pk (lit "activities") db_activities set_activities (icd_activity_id data)
    (new_activity_row now data).

Definition insert_initial_version (now : datetime) (data : ImportCommitData)
    (geometry bbox corrected : Json) : stmt unit :=
  unique_among (lit "route_versions") db_versions (fun r =>
    bool_decide (rvr_activity_id r = icd_activity_id data) && (rvr_version_number r =? 1)%Z);;
  references (lit "route_versions") db_activities (icd_activity_id data);;
  insert_pk (lit "route_versions") db_versions set_versions (icd_route_version_id data)
    (initial_version_row now data geometry bbox corrected).

Definition update_new_activity (now : datetime) (data : ImportCommitData)
    (statistics corrected : Json) : stmt unit :=
  references (lit "activities") db_versions (icd_route_version_id data);;
  modify (fun d => set_activities
    (alter (with_initial_version now data statistics corrected) (icd_activity_id data)
       (db_activities d)) d).

(** Step 7: the import, under the constraints of its table. *)
Definition complete_import_row (now : datetime) (data : ImportCommitData) : stmt unit :=
  d ← get;
  let t := alter (completed_import_row now (icd_activity_id data)) (icd_import_id data)
             (db_imports d) in
  require (bool_decide (constraints_ok t)) (UniqueViolation (lit "imports"));;
  put (set_imports t d).

Definition commit_statements (now : datetime) (audit_id outbox_id : uuid) (data : ImportCommitData)
    : eff Database ImportError uuid :=
  eff_map_err (storage_error (lit "failed to insert source_artifact")) (insert_artifact now data);;
  eff_map_err (storage_error (lit "failed to insert source_revision")) (insert_revision now data);;
  geometry ← serialized (lit "failed to serialize segments")
               (segments_to_value (icd_segments data));
  bbox ← serialized (lit "failed to serialize bounding_box")
           (bounding_box_to_value (icd_bounding_box data));
  eff_map_err (storage_error (lit "failed to insert recorded_track"))
    (insert_track now data geometry bbox);;
  eff_map_err (storage_error (lit "failed to insert activity")) (insert_activity now data);;
  route_geometry ← serialized (lit "failed to serialize route version geometry")
                     (coordinates_to_value (icd_preview_geometry data));
  route_bbox ← serialized (lit "failed to serialize route version bounding_box")
                 (bounding_box_to_value (icd_bounding_box data));
  statistics ← serialized (lit "failed to serialize statistics")
                 (recorded_statistics_to_value (icd_statistics data));
  corrected ← serialized (lit "failed to serialize corrected statistics")
                (statistics_to_value (icd_corrected_statistics data));
  eff_map_err (storage_error (lit "failed to insert route_version"))
    (insert_initial_version now data route_geometry route_bbox corrected);;
  eff_map_err (storage_error (lit "failed to update activity with route version"))
    (update_new_activity now data statistics corrected);;
  eff_map_err (storage_error (lit "failed to update import status"))
    (complete_import_row now data);;
  eff_map_err (storage_error (lit "failed to write audit event"))
    (append_in_tx now audit_id (icd_owner_id data) (lit "import.completed") (lit "activity")
       (uuid_display (icd_activity_id data)) (Some (import_audit_metadata data)));;
  eff_map_err (storage_error (lit "failed to write outbox event"))
    (outbox_publish now outbox_id (lit "import") (uuid_display (icd_import_id data))
       (lit "ImportedActivityCommitted") (import_event_payload data)
       (Some (icd_correlation_id data)));;
  mret (icd_activity_id data).

Definition pg_commit_import (now : datetime) (audit_id outbox_id : uuid) (data : ImportCommitData)
    : eff Database ImportError uuid :=
  transaction (commit_statements now audit_id outbox_id data).

#[export] Instance PgImportCommitter (now : datetime) (audit_id outbox_id : uuid)
    : CommitImport Database := pg_commit_import now audit_id outbox_id.
End commit.

(** ** The import repository within the database *)

Definition on_imports {A} (m : eff (gmap N ImportRow) ImportError A) : eff Database ImportError A :=
  zoom db_imports set_imports m.

Section repository.
Context `{UnicodeLower} (violation : rstr) (now : datetime).

#[export] Instance DbImportRepository : ImportRepository Database := {|
  save i := on_imports (pg_save violation i);
  find_by_id id := on_imports (pg_find_by_id id);
  find_by_idempotency_key o k := on_imports (pg_find_by_idempotency_key o k);
  find_completed_by_checksum o c := on_imports (pg_find_completed_by_checksum o c);
  update i := on_imports (pg_update violation i);
  find_abandoned t := on_imports (pg_find_abandoned now t) |}.

(** [DuplicateCheckerAdapter] of import_worker.rs. *)
#[export] Instance DuplicateCheckerAdapter : CheckDuplicate Database := fun owner_id checksum =>
  found ← find_completed_by_checksum owner_id checksum;
  mret match found with
       | Some (existing_import_id, existing_activity_id) =>
           ExactDuplicate existing_import_id existing_activity_id
       | None => NotDuplicate
       end.

(** The laws of the repository carry over from its table. *)
#[export] Instance DbImportRepositoryLaws : ImportRepositoryLaws Database.
Proof.
  refine (ZoomImportRepositoryLaws db_imports set_imports _ _
            (laws := PgImportRepositoryLaws violation now)); [done|by intros []].
Defined.
End repository.
