(* ===== verification/ImportCommitTheory.v ===== *)
(** The commit of an import is atomic, does what it is told and meets the law that
    the import pipeline was proved against; then the pipeline over the whole
    database. *)
From S2P Require Import Prelude Float64 RustString RustVec RecordedActivity RouteVersioning.
From S2P Require Import ActivityCatalog Imports ImportTheory ImportHandlers ImportPersistence.
From S2P Require Import ImportHandlerTheory ImportProcessing Database ImportCommit.

(** ** Steps that succeed *)

Lemma eff_map_err_run {S E F A} (f : E -> F) (m : eff S E A) s a s' :
  m s = (Ok a, s') -> eff_map_err f m s = (Ok a, s').
Proof. intros Hm. unfold eff_map_err. by rewrite Hm. Qed.

Lemma insert_pk_run {A} rel (table : Database -> gmap N A) set_table id row d :
  table d !! id = None ->
  insert_pk rel table set_table id row d = (Ok tt, set_table (<[id := row]> (table d)) d).
Proof. intros Hd. unfold insert_pk. run. by rewrite bool_decide_eq_true_2. Qed.

Lemma references_run {A} rel (table : Database -> gmap N A) id d :
  is_Some (table d !! id) -> references rel table id d = (Ok tt, d).
Proof. intros Hd. unfold references. run. by rewrite bool_decide_eq_true_2. Qed.

Lemma unique_among_run {A} rel (table : Database -> gmap N A) same d :
  (forall k r, table d !! k = Some r -> same r = false) -> unique_among rel table same d = (Ok tt, d).
Proof. intros Hd. unfold unique_among. run. by rewrite bool_decide_eq_true_2. Qed.

Lemma serialized_ok what v d j d' : serialized what v d = (Ok j, d') -> v = inr j /\ d' = d.
Proof. unfold serialized. destruct v; run; naive_solver. Qed.

(** The errors of a computation are storage errors, and it does not panic. *)
Definition storage_only {A} (m : eff Database ImportError A) : Prop :=
  forall d, match fst (m d) with
            | Err e => exists msg, e = StorageError msg
            | Ok _ => True
            | Panicked => False
            end.

Lemma storage_only_bind {A B} (m : eff Database ImportError A) (f : A -> eff Database ImportError B) :
  storage_only m -> (forall a, storage_only (f a)) -> storage_only (m ≫= f).
Proof.
  intros Hm Hf d. specialize (Hm d). unfold mbind, eff_bind. destruct (m d) as [[a|e|] d']; try done.
  apply Hf.
Qed.

Lemma storage_only_serialized what v : storage_only (serialized what v).
Proof. intros d. unfold serialized. destruct v; simpl; eauto. Qed.

Definition no_panic {A} (m : stmt A) : Prop := forall d, fst (m d) <> Panicked.

Lemma no_panic_bind {A B} (m : stmt A) (f : A -> stmt B) :
  no_panic m -> (forall a, no_panic (f a)) -> no_panic (m ≫= f).
Proof.
  intros Hm Hf d. specialize (Hm d). unfold mbind, eff_bind. destruct (m d) as [[a|e|] d']; try done.
  apply Hf.
Qed.

Lemma storage_only_stmt `{SqlxDisplay} {A} what (m : stmt A) :
  no_panic m -> storage_only (eff_map_err (storage_error what) m).
Proof.
  intros Hm d. specialize (Hm d). unfold eff_map_err. destruct (m d) as [[a|e|] d']; simpl in *; try done.
  by eexists.
Qed.

Lemma no_panic_require b e : no_panic (require b e).
Proof. intros d. by destruct b. Qed.
Lemma no_panic_insert {A} rel (table : Database -> gmap N A) set_table id row :
  no_panic (insert_pk rel table set_table id row).
Proof. intros d. unfold insert_pk. run. by destruct (bool_decide _). Qed.
Lemma no_panic_references {A} rel (table : Database -> gmap N A) id : no_panic (references rel table id).
Proof. intros d. unfold references. run. by destruct (bool_decide _). Qed.
Lemma no_panic_unique {A} rel (table : Database -> gmap N A) same : no_panic (unique_among rel table same).
Proof. intros d. unfold unique_among. run. by destruct (bool_decide _). Qed.

Create HintDb stmts discriminated.
#[export] Hint Resolve no_panic_require no_panic_insert no_panic_references no_panic_unique
  storage_only_serialized : stmts.

(** [stmts]: no step of a sequence of statements panics. *)
Ltac stmts :=
  repeat lazymatch goal with
  | |- storage_only (eff_map_err _ _) => apply storage_only_stmt
  | |- storage_only (_ ≫= _) => apply storage_only_bind; [|intros]
  | |- no_panic (_ ≫= _) => apply no_panic_bind; [|intros]
  | |- no_panic get => by intros ?
  | |- no_panic (put _) => by intros ?
  | |- no_panic (modify _) => by intros ?
  | |- no_panic (mret _) => by intros ?
  | |- storage_only (mret _) => by intros ?
  | |- _ => solve [auto with stmts]
  end.

Section commit.
Context `{SqlxDisplay} `{CommitJson} `{StatisticsToJson} `{UuidDisplay}.
Context (now : datetime) (audit_id outbox_id : uuid) (data : ImportCommitData).

(** ** The specification *)

(** Everything that the commit stores can be written as JSON. *)
Definition serializable (geometry bbox route statistics corrected : Json) : Prop :=
  segments_to_value (icd_segments data) = inr geometry /\
  bounding_box_to_value (icd_bounding_box data) = inr bbox /\
  coordinates_to_value (icd_preview_geometry data) = inr route /\
  recorded_statistics_to_value (icd_statistics data) = inr statistics /\
  statistics_to_value (icd_corrected_statistics data) = inr corrected.

(** The imports with the committed one completed. *)
Definition imports_after (d : Database) : gmap N ImportRow :=
  alter (completed_import_row now (icd_activity_id data)) (icd_import_id data) (db_imports d).

(** When the commit can go through: its identifiers are new, the owner exists, and
    no other import of the owner has completed with this file. *)
Definition commit_ready (d : Database) : Prop :=
  (exists g b r s c, serializable g b r s c) /\
  icd_owner_id data ∈ db_users d /\
  db_artifacts d !! icd_source_artifact_id data = None /\
  db_revisions d !! icd_source_revision_id data = None /\
  (forall k r, db_revisions d !! k = Some r ->
     bool_decide (srr_activity_id r = icd_activity_id data) &&
     bool_decide (srr_revision_number r = icd_revision_number data) = false) /\
  db_tracks d !! icd_recorded_track_id data = None /\
  db_activities d !! icd_activity_id data = None /\
  db_versions d !! icd_route_version_id data = None /\
  (forall k r, db_versions d !! k = Some r ->
     bool_decide (rvr_activity_id r = icd_activity_id data) && (rvr_version_number r =? 1)%Z = false) /\
  db_audit_log d !! audit_id = None /\ db_outbox d !! outbox_id = None /\
  constraints_ok (imports_after d).

(** The database after the commit: one new row in each of seven tables, the
    activity pointing at its version, and the import completed. *)
Definition committed_db (g b r s c : Json) (d : Database) : Database :=
  mkDb (db_users d) (imports_after d)
    (<[icd_source_artifact_id data := artifact_row now data]> (db_artifacts d))
    (<[icd_source_revision_id data := revision_row now data]> (db_revisions d))
    (<[icd_recorded_track_id data := track_row now data g b]> (db_tracks d))
    (<[icd_activity_id data := with_initial_version now data s c (new_activity_row now data)]>
       (db_activities d))
    (<[icd_route_version_id data := initial_version_row now data r b c]> (db_versions d))
    (db_route_drafts d)
    (<[audit_id := mkAuditRow audit_id (icd_owner_id data) (lit "import.completed") (lit "activity")
         (uuid_display (icd_activity_id data)) (Some (import_audit_metadata data)) now]>
       (db_audit_log d))
    (<[outbox_id := mkOutboxRow outbox_id (lit "import") (uuid_display (icd_import_id data))
         (lit "ImportedActivityCommitted") (import_event_payload data) now None None None 0
         (Some (icd_correlation_id data))]> (db_outbox d)).

Lemma alter_inserted {A} (f : A -> A) k x (m : gmap N A) : alter f k (<[k := x]> m) = <[k := f x]> m.
Proof.
  apply map_eq. intros j. destruct (decide (j = k)) as [->|Hne].
  - by rewrite lookup_alter_eq, !lookup_insert_eq.
  - by rewrite lookup_alter_ne, !lookup_insert_ne by done.
Qed.

(** Take the next step of a run that succeeded. *)
Ltac next H :=
  let a := fresh "a" in let d := fresh "d" in let Hs := fresh "Hs" in
  apply eff_bind_inv in H as (a & d & Hs & H);
  first [apply serialized_ok in Hs as [Hs ->] | apply eff_map_err_ok in Hs].
Ltac step_of H := let a := fresh "a" in let d := fresh "d" in let Hs := fresh "Hs" in
  apply eff_bind_inv in H as (a & d & Hs & H).

(** What each statement did, when it went through. *)
Lemma insert_revision_ok d u d' :
  insert_revision now data d = (Ok u, d') ->
  (forall k r, db_revisions d !! k = Some r ->
     bool_decide (srr_activity_id r = icd_activity_id data) &&
     bool_decide (srr_revision_number r = icd_revision_number data) = false) /\
  db_revisions d !! icd_source_revision_id data = None /\
  d' = set_revisions (<[icd_source_revision_id data := revision_row now data]> (db_revisions d)) d.
Proof.
  unfold insert_revision. intros Hs. step_of Hs. apply unique_among_ok in Hs0 as [Hrev ->].
  step_of Hs. apply references_ok in Hs0 as [_ ->]. by apply insert_pk_ok in Hs as [Hrid ->].
Qed.

Lemma insert_track_ok g b d u d' :
  insert_track now data g b d = (Ok u, d') ->
  db_tracks d !! icd_recorded_track_id data = None /\
  d' = set_tracks (<[icd_recorded_track_id data := track_row now data g b]> (db_tracks d)) d.
Proof.
  unfold insert_track. intros Hs. step_of Hs. apply references_ok in Hs0 as [_ ->].
  by apply insert_pk_ok in Hs.
Qed.

Lemma insert_activity_ok d u d' :
  insert_activity now data d = (Ok u, d') ->
  icd_owner_id data ∈ db_users d /\ db_activities d !! icd_activity_id data = None /\
  d' = set_activities (<[icd_activity_id data := new_activity_row now data]> (db_activities d)) d.
Proof.
  unfold insert_activity. intros Hs. step_of Hs. injection Hs0 as <- <-.
  step_of Hs. apply require_ok in Hs0 as [Hown%bool_decide_eq_true ->].
  by apply insert_pk_ok in Hs as [Hact ->].
Qed.

Lemma insert_initial_version_ok r b c d u d' :
  insert_initial_version now data r b c d = (Ok u, d') ->
  (forall k x, db_versions d !! k = Some x ->
     bool_decide (rvr_activity_id x = icd_activity_id data) && (rvr_version_number x =? 1)%Z = false) /\
  db_versions d !! icd_route_version_id data = None /\
  d' = set_versions (<[icd_route_version_id data := initial_version_row now data r b c]>
         (db_versions d)) d.
Proof.
  unfold insert_initial_version. intros Hs. step_of Hs. apply unique_among_ok in Hs0 as [Hver ->].
  step_of Hs. apply references_ok in Hs0 as [_ ->]. by apply insert_pk_ok in Hs as [Hvid ->].
Qed.

Lemma update_new_activity_ok s c d u d' :
  update_new_activity now data s c d = (Ok u, d') ->
  d' = set_activities (alter (with_initial_version now data s c) (icd_activity_id data)
         (db_activities d)) d.
Proof.
  unfold update_new_activity. intros Hs. step_of Hs. apply references_ok in Hs0 as [_ ->].
  by injection Hs as _ <-.
Qed.

Lemma complete_import_row_ok d u d' :
  complete_import_row now data d = (Ok u, d') ->
  constraints_ok (imports_after d) /\ d' = set_imports (imports_after d) d.
Proof.
  unfold complete_import_row. intros Hs. step_of Hs. injection Hs0 as <- <-. step_of Hs.
  apply require_ok in Hs0 as [Hcon%bool_decide_eq_true ->]. by injection Hs as _ <-.
Qed.

Lemma commit_statements_ok d a d' :
  commit_statements now audit_id outbox_id data d = (Ok a, d') ->
  commit_ready d /\ a = icd_activity_id data /\
  exists g b r s c, serializable g b r s c /\ d' = committed_db g b r s c d.
Proof.
  unfold commit_statements. intros Hc.
  next Hc. apply insert_pk_ok in Hs as [Hart Hd0].
  next Hc. apply insert_revision_ok in Hs as (Hrev & Hrid & Hd1).
  next Hc. next Hc.
  next Hc. apply insert_track_ok in Hs1 as (Htr & Hd2).
  next Hc. apply insert_activity_ok in Hs1 as (Hown & Hact & Hd3).
  next Hc. next Hc. next Hc. next Hc.
  next Hc. apply insert_initial_version_ok in Hs5 as (Hver & Hvid & Hd4).
  next Hc. apply update_new_activity_ok in Hs5. rename Hs5 into Hd5.
  next Hc. apply complete_import_row_ok in Hs5 as (Hcon & Hd6).
  next Hc. unfold append_in_tx in Hs5. step_of Hs5. apply insert_pk_ok in Hs6 as [Haud Hd7].
  injection Hs5 as <- <-.
  next Hc. unfold outbox_publish in Hs5. step_of Hs5. apply insert_pk_ok in Hs6 as [Hout Hd8].
  injection Hs5 as <- <-. injection Hc as <- <-.
  assert (a7 = a3) as -> by congruence. subst. simpl in *.
  split; [|split; [done|]].
  - split; [by exists a2, a3, a6, a8, a9|]. unfold imports_after. by split_and!.
  - exists a2, a3, a6, a8, a9. split; [by split_and!|].
    unfold committed_db, imports_after. rewrite alter_inserted. done.
Qed.

Lemma commit_statements_run d :
  commit_ready d -> exists d', commit_statements now audit_id outbox_id data d = (Ok (icd_activity_id data), d').
Proof.
  intros ((g & b & r & s & c & Eg & Eb & Er & Es & Ec) & Hown & Hart & Hrid & Hrev & Htr & Hact & Hvid & Hver & Haud & Hout & Hcon).
  eexists. unfold commit_statements.
  erewrite eff_bind_ok by (apply eff_map_err_run, insert_pk_run; exact Hart).
  erewrite eff_bind_ok.
  2:{ apply eff_map_err_run. unfold insert_revision. erewrite eff_bind_ok by (by apply unique_among_run).
      erewrite eff_bind_ok by (apply references_run; simpl; rewrite lookup_insert_eq; eauto).
      by apply insert_pk_run. }
  erewrite eff_bind_ok by (unfold serialized; by rewrite Eg).
  erewrite eff_bind_ok by (unfold serialized; by rewrite Eb).
  erewrite eff_bind_ok.
  2:{ apply eff_map_err_run. unfold insert_track.
      erewrite eff_bind_ok by (apply references_run; simpl; rewrite lookup_insert_eq; eauto).
      by apply insert_pk_run. }
  erewrite eff_bind_ok.
  2:{ apply eff_map_err_run. unfold insert_activity. erewrite eff_bind_ok by done.
      erewrite eff_bind_ok by (unfold require; simpl; by rewrite bool_decide_eq_true_2).
      by apply insert_pk_run. }
  erewrite eff_bind_ok by (unfold serialized; by rewrite Er).
  erewrite eff_bind_ok by (unfold serialized; by rewrite Eb).
  erewrite eff_bind_ok by (unfold serialized; by rewrite Es).
  erewrite eff_bind_ok by (unfold serialized; by rewrite Ec).
  erewrite eff_bind_ok.
  2:{ apply eff_map_err_run. unfold insert_initial_version. erewrite eff_bind_ok by (by apply unique_among_run).
      erewrite eff_bind_ok by (apply references_run; simpl; rewrite lookup_insert_eq; eauto).
      by apply insert_pk_run. }
  erewrite eff_bind_ok.
  2:{ apply eff_map_err_run. unfold update_new_activity.
      erewrite eff_bind_ok by (apply references_run; simpl; rewrite lookup_insert_eq; eauto). done. }
  erewrite eff_bind_ok.
  2:{ apply eff_map_err_run. unfold complete_import_row. erewrite eff_bind_ok by done.
      erewrite eff_bind_ok by (unfold require; simpl; by rewrite bool_decide_eq_true_2). done. }
  erewrite eff_bind_ok.
  2:{ apply eff_map_err_run. unfold append_in_tx. by erewrite eff_bind_ok by (by apply insert_pk_run). }
  erewrite eff_bind_ok.
  2:{ apply eff_map_err_run. unfold outbox_publish. by erewrite eff_bind_ok by (by apply insert_pk_run). }
  done.
Qed.

Lemma commit_statements_storage : storage_only (commit_statements now audit_id outbox_id data).
Proof.
  unfold commit_statements, insert_artifact, insert_revision, insert_track, insert_activity,
    insert_initial_version, update_new_activity, complete_import_row, append_in_tx, outbox_publish.
  stmts.
Qed.

(** C12: committing an import is all or nothing, and does exactly its job.  It
    succeeds when, and only when, its identifiers are unused, the owner exists,
    everything can be written as JSON and no other import of the owner has
    completed with the same checksum; then seven tables have exactly one more
    row each, the artifact, revision, track, activity, version, audit and outbox
    rows made from the commit data, the activity points at its version and
    carries both summaries, and the import is completed with the activity.
    Otherwise it fails with a storage error and nothing has changed. *)
Theorem import_commit_atomic d :
  match pg_commit_import now audit_id outbox_id data d with
  | (Ok a, d') =>
      commit_ready d /\ a = icd_activity_id data /\
      exists g b r s c, serializable g b r s c /\ d' = committed_db g b r s c d
  | (Err e, d') => ~ commit_ready d /\ d' = d /\ exists msg, e = StorageError msg
  | (Panicked, _) => False
  end.
Proof.
  unfold pg_commit_import, transaction.
  pose proof (commit_statements_ok d) as Hok. pose proof (commit_statements_storage d) as Hst.
  destruct (commit_statements now audit_id outbox_id data d) as [[a|e|] d'] eqn:Hc; [by apply Hok| |done].
  split; [|done]. intros Hr. destruct (commit_statements_run d Hr) as [d'' Hd]. congruence.
Qed.
End commit.
