(* ===== verification/ImportWorker.v ===== *)
(** The handler of parse_gpx jobs (crates/infrastructure/src/import_worker.rs) and
    the cleanup of abandoned imports (crates/infrastructure/src/import_cleanup.rs).

    The metrics and the log are not state.  The error of a handler is a boxed
    error; all that is done with it is to print it, so it is its text here. *)
From S2P Require Import Prelude Float64 RustString Utf8 RecordedActivity RouteVersioning.
From S2P Require Import GpxParser Imports ImportHandlers ImportPersistence Database ImportCommit.

(** [AuditLog::append]: actor, action, resource type, resource id, metadata. *)
Class AuditAppend (S : Type) :=
  audit_append : uuid -> rstr -> rstr -> rstr -> option Json -> eff S rstr unit.

(** The audit log of the database, as one statement of its own. *)
#[export] Instance DbAuditLog `{SqlxDisplay} (now : datetime) (new_id : uuid)
    : AuditAppend Database := fun actor action resource_type resource_id metadata =>
  eff_map_err sqlx_display
    (append_in_tx now new_id actor action resource_type resource_id metadata);;
  mret tt.

Section worker.
Context {S : Type} `{ImportRepository S} `{ObjectStore S} `{CheckDuplicate S} `{CommitImport S}
  `{AuditAppend S} `{Sha256} `{UuidDisplay} `{UnicodeLower} `{XmlReader} `{DateTimeParser} `{Libm}
  `{DebugStrings}.

Definition describe (what : rstr) (e : ImportError) : rstr :=
  what ++ lit ": " ++ import_error_display e.

(** A transition of the import in hand. *)
Definition advance (what : rstr) (m : eff Import ImportError unit) (import : Import)
    : eff S rstr Import :=
  let '(r, import) := m import in lift (map_err (describe what) r);; mret import.

Definition persist_queued (import : Import) : eff S rstr unit :=
  eff_map_err (describe (lit "failed to persist queued status")) (update import).

(** From [Uploaded] or [Validating] to [Queued]; nothing for [Queued] and
    [Parsing]; any other status is refused. *)
Definition prepare_import (now : datetime) (import_id : uuid) : eff S rstr unit :=
  found ← eff_map_err (describe (lit "failed to load import")) (find_by_id import_id);
  import ← lift (ok_or found (lit "import " ++ uuid_display import_id ++ lit " not found"));
  match im_status import with
  | Uploaded =>
      import ← advance (lit "failed to transition to validating") (start_validation now) import;
      import ← advance (lit "failed to transition to queued") (queue_for_parsing now) import;
      persist_queued import
  | Validating =>
      import ← advance (lit "failed to transition to queued") (queue_for_parsing now) import;
      persist_queued import
  | Queued | Parsing => mret tt
  | other =>
      throw (lit "import " ++ uuid_display import_id ++ lit " is in unexpected state '"
               ++ status_display other ++ lit "' for processing")
  end.

Definition duplicate_metadata (owner_id existing_import_id : uuid)
    (existing_activity_id : option uuid) : Json :=
  JObject [(lit "existing_import_id", JString (uuid_display existing_import_id));
           (lit "existing_activity_id",
             match existing_activity_id with Some a => JString (uuid_display a) | None => JNull end);
           (lit "owner_id", JString (uuid_display owner_id))].

(** [ParseGpxJobHandler::handle]; [payload] is the deserialised payload, or the
    text of serde_json's error. *)
Definition handle_parse_job (now : datetime) (ids : FreshIds) (payload : rstr + ParseGpxJob)
    : eff S rstr unit :=
  match payload with
  | inl e => throw (lit "failed to deserialize ParseGpxJob payload: " ++ e)
  | inr p =>
      let import_id := job_import_id p in
      let owner_id := job_owner_id p in
      prepare_import now import_id;;
      outcome ← attempt (process_import now ids import_id owner_id (job_object_storage_key p)
                           (job_correlation_id p));
      match outcome with
      | Ok (ProcessingDuplicate existing_import_id existing_activity_id) =>
          attempt (F := rstr) (audit_append owner_id (lit "import.duplicate_detected") (lit "import")
            (uuid_display import_id)
            (Some (duplicate_metadata owner_id existing_import_id existing_activity_id)));;
          mret tt
      | Ok _ => mret tt
      | Err e =>
          attempt (find_by_id import_id);;
          throw (import_error_display e)
      | Panicked => panic
      end
  end.

(** ** Cleanup *)

Definition ABANDONED_TIMEOUT_MINUTES : Z := 30.

Definition cleanup_abandoned_imports (now : datetime) : eff S ImportError N :=
  abandoned ← find_abandoned (ABANDONED_TIMEOUT_MINUTES * 60 * 1000000000)%Z;
  match abandoned with
  | [] => mret 0%N
  | _ =>
      let '(abandoned, result) := fail_abandoned_imports now abandoned in
      for_each abandoned (fun import =>
        if bool_decide (im_status import = Failed)
        then attempt (update import);; mret tt
        else mret tt);;
      mret (cleaned_up result)
  end.
End worker.

(** ** In production

    The adapters that [handle] constructs, all over the one database.  A delivery
    is one call of the handler: its clock, what it draws at random and the
    payload of the job. *)

Record Delivery := mkDelivery {
  dl_now : datetime;
  dl_ids : FreshIds;
  dl_audit_id : uuid;
  dl_outbox_id : uuid;
  dl_job : ParseGpxJob }.

Section production.
Context `{ObjectStore Database} `{Sha256} `{UuidDisplay} `{UnicodeLower} `{XmlReader}
  `{DateTimeParser} `{Libm} `{DebugStrings} `{SqlxDisplay} `{CommitJson} `{StatisticsToJson}.
Context (violation : rstr) (dl : Delivery).

#[local] Instance worker_repo : ImportRepository Database :=
  DbImportRepository violation (dl_now dl).
#[local] Instance worker_checker : CheckDuplicate Database :=
  DuplicateCheckerAdapter violation (dl_now dl).
#[local] Instance worker_committer : CommitImport Database :=
  PgImportCommitter (dl_now dl) (dl_audit_id dl) (dl_outbox_id dl).
#[local] Instance worker_audit : AuditAppend Database :=
  DbAuditLog (dl_now dl) (dl_audit_id dl).

Definition pg_process_import : eff Database ImportError ImportProcessingResult :=
  process_import (dl_now dl) (dl_ids dl) (job_import_id (dl_job dl)) (job_owner_id (dl_job dl))
    (job_object_storage_key (dl_job dl)) (job_correlation_id (dl_job dl)).

Definition pg_handle_parse_job : eff Database rstr unit :=
  handle_parse_job (dl_now dl) (dl_ids dl) (inr (dl_job dl)).
End production.

(** A history of deliveries. *)
Definition deliver `{ObjectStore Database} `{Sha256} `{UuidDisplay} `{UnicodeLower} `{XmlReader}
  `{DateTimeParser} `{Libm} `{DebugStrings} `{SqlxDisplay} `{CommitJson} `{StatisticsToJson}
    (violation : rstr) (dls : list Delivery) (d : Database) : Database :=
  fold_left (fun d dl => snd (pg_handle_parse_job violation dl d)) dls d.
