(* ===== verification/ImportWorkerTheory.v ===== *)
(** The import pipeline over the whole database: whatever the queue delivers, an
    import becomes at most one activity; and a file that is already there can
    never be recognised as a duplicate. *)
From S2P Require Import Prelude Float64 RustString RustVec Utf8 RecordedActivity RouteVersioning.
From S2P Require Import ActivityCatalog GpxParser GpxParserTheory Imports ImportTheory ImportHandlers ImportPersistence.
From S2P Require Import ImportHandlerTheory ImportProcessing Database ImportCommit ImportCommitTheory.
From S2P Require Import ImportWorker.

#[local] Set Default Proof Using "All".

Section pipeline.
Context `{Sha256} `{UuidDisplay} `{UnicodeLower} `{XmlReader} `{DateTimeParser} `{Libm}
  `{DebugStrings} `{SqlxDisplay} `{CommitJson} `{StatisticsToJson} `{ObjectStore Database}.
Context (violation : rstr) (dl : Delivery).
(** Object storage is not the database. *)
Context (Hdownload : forall key d, snd (download key d) = d).

#[local] Instance the_repo : ImportRepository Database := worker_repo violation dl.
#[local] Instance the_checker : CheckDuplicate Database := worker_checker violation dl.
#[local] Instance the_committer : CommitImport Database := worker_committer dl.
#[local] Instance the_audit : AuditAppend Database := worker_audit dl.
#[local] Instance worker_laws : ImportRepositoryLaws Database :=
  DbImportRepositoryLaws violation (dl_now dl).

Lemma attempt_bind {S E F A B} (m : eff S E A) (f : result E A -> eff S F B) s r s' :
  m s = (r, s') ->
  (attempt m ≫= f) s = match r with Panicked => (Panicked, s') | _ => f r s' end.
Proof using Type. intros Hm. unfold attempt, mbind, eff_bind. rewrite Hm. by destruct r. Qed.

(** ** The parts of a run that do not touch the activities *)

Definition frames {E A} (m : eff Database E A) : Prop :=
  forall d, db_activities (snd (m d)) = db_activities d.

Lemma frames_bind {E A B} (m : eff Database E A) (f : A -> eff Database E B) :
  frames m -> (forall a, frames (f a)) -> frames (m ≫= f).
Proof using Type.
  intros Hm Hf d. specialize (Hm d). unfold mbind, eff_bind.
  destruct (m d) as [[a|e|] d']; try done. simpl in Hm. by rewrite Hf.
Qed.

Lemma frames_on_imports {A} (m : eff (gmap N ImportRow) ImportError A) : frames (on_imports m).
Proof using Type. intros d. unfold on_imports, zoom. by destruct (m _). Qed.

Lemma frames_same {E A} (f : Database -> result E A) : frames (fun d => (f d, d)).
Proof using Type. by intros d. Qed.

Lemma frames_attempt {E F A} (m : eff Database E A) : frames m -> frames (attempt (F := F) m).
Proof using Type. intros Hm d. specialize (Hm d). unfold attempt. by destruct (m d) as [[]]. Qed.

Lemma frames_map_err {E F A} (f : E -> F) (m : eff Database E A) : frames m -> frames (eff_map_err f m).
Proof using Type. intros Hm d. specialize (Hm d). unfold eff_map_err. by destruct (m d). Qed.

Lemma frames_download key : frames (download key).
Proof using Hdownload. intros d. by rewrite Hdownload. Qed.

(** A computation that adds one activity at most, and says so. *)
Definition adds_one {A} (ok : A -> uuid -> Prop) (m : eff Database ImportError A) : Prop :=
  forall d, db_activities (snd (m d)) = db_activities d \/
    exists x a row, fst (m d) = Ok x /\ ok x a /\ db_activities d !! a = None /\
      db_activities (snd (m d)) = <[a := row]> (db_activities d).

Lemma adds_one_frames {A} ok (m : eff Database ImportError A) : frames m -> adds_one ok m.
Proof using Type. intros Hm d. left. apply Hm. Qed.

Lemma adds_one_bind {A B} ok (m : eff Database ImportError A) (f : A -> eff Database ImportError B) :
  frames m -> (forall a, adds_one ok (f a)) -> adds_one ok (m ≫= f).
Proof using Type.
  intros Hm Hf d. specialize (Hm d). unfold mbind, eff_bind.
  destruct (m d) as [[a|e|] d']; simpl in *; [|by left..]. rewrite <- Hm. apply Hf.
Qed.

Ltac frames :=
  repeat lazymatch goal with
  | |- frames (_ ≫= _) => apply frames_bind; [|intros]
  | |- frames (match _ with _ => _ end) => case_match
  | |- frames (attempt _) => apply frames_attempt
  | |- frames (eff_map_err _ _) => apply frames_map_err
  | |- frames (update _) => apply frames_on_imports
  | |- frames (find_by_id _) => apply frames_on_imports
  | |- frames (find_completed_by_checksum _ _) => apply frames_on_imports
  | |- frames (download _) => apply frames_download
  | |- frames (lift _) => by intros ?
  | |- frames (mret _) => by intros ?
  | |- frames (throw _) => by intros ?
  | |- frames panic => by intros ?
  | |- frames (check _ _) => unfold check, the_checker, worker_checker, DuplicateCheckerAdapter
  | |- frames (fail_import _ _ _ _ _) => unfold fail_import
  | |- frames (advance _ _ _) => unfold advance
  | |- frames (persist_queued _) => unfold persist_queued
  | |- frames (append_in_tx _ _ _ _ _ _ _) => unfold append_in_tx
  end.

Definition completes (x : ImportProcessingResult) (a : uuid) : Prop :=
  exists size points, x = ProcessingCompleted a size points.

Lemma commit_import_adds ids i owner id key corr b h n :
  adds_one completes (commit_import (dl_now dl) ids i owner id key corr b h n).
Proof using Type.
  unfold commit_import. destruct (start_committing _ i) as [r i'].
  apply adds_one_bind; [frames|intros _]. apply adds_one_bind; [frames|intros _].
  apply adds_one_bind; [frames|intros v]. intros d.
  set (data := build_commit_data _ _ _ _ _ _ _ _ _ _ _). set (rest := fun outcome => _).
  assert ((attempt (commit data) ≫= rest) d =
    match pg_commit_import (dl_now dl) (dl_audit_id dl) (dl_outbox_id dl) data d with
    | (Panicked, d') => (Panicked, d')
    | (r, d') => rest r d'
    end) as ->.
  { unfold attempt, commit, the_committer, worker_committer, PgImportCommitter. run.
    by destruct (pg_commit_import _ _ _ data d) as [[]]. }
  pose proof (import_commit_atomic (dl_now dl) (dl_audit_id dl) (dl_outbox_id dl) data d) as Hc.
  destruct (pg_commit_import _ _ _ data d) as [[a|e|] d']; [|left|by left].
  - destruct Hc as (Hr & _ & g & bb & r' & s & c & _ & ->). right. simpl.
    exists (ProcessingCompleted (fresh_activity ids) (u64_wrap (len b)) (point_count (rt_statistics (nt_recorded_track n)))),
      (icd_activity_id data). eexists. split; [done|]. split; [by eexists _, _|]. split; [apply Hr|reflexivity].
  - destruct Hc as (_ & -> & _). unfold rest. case_match.
    apply (frames_bind (attempt (update _))); [frames|by intros ? ?].
Qed.

Lemma process_import_adds : adds_one completes (pg_process_import violation dl).
Proof using Hdownload.
  unfold pg_process_import.
  unfold process_import, begin_parsing, fetch_verified, parse_file, normalize_file, finish_duplicate.
  apply adds_one_bind; [frames|intros i].
  apply adds_one_bind; [frames|intros [b h]].
  apply adds_one_bind; [frames|intros pr]. apply adds_one_bind; [frames|intros c].
  apply adds_one_bind; [frames|intros [|ex act]].
  - apply adds_one_bind; [frames|intros n]. apply commit_import_adds.
  - apply adds_one_frames. frames.
Qed.
(** ** The import's own row *)

Lemma shown_alter (f : ImportRow -> ImportRow) k t r :
  t !! k = Some r -> shown (alter f k t) = <[k := row_to_import (f r)]> (shown t).
Proof using Type.
  intros Hr. apply map_eq. intros j. unfold shown. rewrite lookup_fmap.
  destruct (decide (j = k)) as [->|Hj].
  - by rewrite lookup_alter_eq, lookup_insert_eq, Hr.
  - by rewrite lookup_alter_ne, lookup_insert_ne, lookup_fmap by done.
Qed.

(** The transaction meets the law the pipeline relies on. *)
Lemma pg_commit_law : commit_law.
Proof using Type.
  intros data d i Hi. change (shown (db_imports d) !! icd_import_id data = Some i) in Hi.
  unfold shown in Hi. rewrite lookup_fmap in Hi. apply fmap_Some in Hi as (r & Hr & ->).
  pose proof (import_commit_atomic (dl_now dl) (dl_audit_id dl) (dl_outbox_id dl) data d) as Hc.
  change (commit data d) with (pg_commit_import (dl_now dl) (dl_audit_id dl) (dl_outbox_id dl) data d).
  destruct (pg_commit_import _ _ _ data d) as [[a|e|] d'].
  - destruct Hc as (_ & _ & g & b & r' & s & c & _ & ->).
    exists (row_to_import (completed_import_row (dl_now dl) (icd_activity_id data) r)). split; [done|].
    by apply shown_alter.
  - by destruct Hc as (_ & -> & _).
  - done.
Qed.

Lemma download_silent key : silent (download key).
Proof. intros d. by rewrite Hdownload. Qed.

Lemma check_silent owner c : silent (check owner c).
Proof using Type. intros d. by destruct d. Qed.

Abbreviation id := (job_import_id (dl_job dl)).

Definition stored (d : Database) (i : Import) : Prop :=
  imports d !! id = Some i /\ im_id i = id /\ checksum_ok i.

(** The worker has had its one run on the import. *)
Definition spent (d : Database) : Prop :=
  exists i, imports d !! id = Some i /\ im_status i ∉ [Uploaded; Validating; Queued].

Lemma find_by_id_run d : find_by_id id d = (Ok (imports d !! id), d).
Proof using Type.
  change (on_imports (pg_find_by_id id) d = (Ok (shown (db_imports d) !! id), d)).
  unfold on_imports, zoom, pg_find_by_id, shown. run. rewrite lookup_fmap. by destruct d.
Qed.

Lemma prepare_spent d i :
  imports d !! id = Some i -> im_status i ∉ [Uploaded; Validating] ->
  snd (prepare_import (dl_now dl) id d) = d.
Proof.
  intros Hi Hs. unfold prepare_import, eff_map_err. run. rewrite find_by_id_run, Hi. simpl.
  destruct (im_status i); try done; set_solver.
Qed.

Lemma prepare_cases d i :
  stored d i ->
  let d' := snd (prepare_import (dl_now dl) id d) in
  db_activities d' = db_activities d /\ exists i', stored d' i'.
Proof.
  intros (Hi & Hid & Hc) d'. split.
  - unfold d', prepare_import. apply frames_bind; [frames|intros o]. frames.
  - unfold d', prepare_import, eff_map_err. run. rewrite find_by_id_run, Hi. simpl.
    assert (Hpersist : forall i', same_identity i i' -> checksum_ok i' ->
      exists i'', stored (snd (persist_queued i' d)) i'').
    { intros i' Hsame Hc'. unfold persist_queued, eff_map_err. assert (im_id i' = id) as Hid'.
      { destruct Hsame as [<- _]. done. }
      destruct (update_law i' i d) as [[m ->] | (s' & -> & Hs')]; simpl; try done.
      - by rewrite Hid'.
      - by exists i.
      - exists i'. split_and!; try done. change (imports s' !! id = Some i').
        by rewrite Hs', Hid', lookup_insert_eq. }
    destruct (im_status i) eqn:Hst; try (by exists i); unfold advance, start_validation, queue_for_parsing,
      move_to; run; rewrite Hst; simpl.
    all: apply Hpersist; [by repeat split|exact Hc].
Qed.

(** A delivery after the run changes nothing. *)
Lemma handle_spent d : spent d -> snd (pg_handle_parse_job violation dl d) = d.
Proof.
  intros (i & Hi & Hs). unfold pg_handle_parse_job, handle_parse_job.
  pose proof (prepare_spent d i Hi ltac:(set_solver)) as Hp. unfold mbind at 1, eff_bind at 1.
  change (prepare_import (dl_now dl) id d) with (prepare_import (H := the_repo) (dl_now dl) id d).
  destruct (prepare_import _ id d) as [[[]|e|] d'] eqn:Hprep; simpl in *; [|done..]. rewrite Hp.
  destruct (process_import_refuses (Laws := worker_laws) (dl_now dl) (dl_ids dl) id (job_owner_id (dl_job dl))
    (job_object_storage_key (dl_job dl)) (job_correlation_id (dl_job dl)) d i Hi) as [e He].
  { set_solver. }
  erewrite attempt_bind by exact He. cbn beta iota.
  erewrite attempt_bind by exact (find_by_id_run d). done.
Qed.
Definition activity_added (d d' : Database) : Prop :=
  exists a row i, db_activities d !! a = None /\
    db_activities d' = <[a := row]> (db_activities d) /\
    imports d' !! id = Some i /\ im_status i = Completed.

(** The run itself. *)
Lemma process_step d i :
  stored d i ->
  let '(r, d') := pg_process_import violation dl d in
  (d' = d /\ exists e, r = Err e) \/
  (spent d' /\ (db_activities d' = db_activities d \/ activity_added d d')).
Proof.
  intros (Hi & Hid & Hc).
  pose proof (process_import_adds d) as Hadd.
  destruct (process_import_run (Laws := worker_laws) (dl_now dl) (dl_ids dl) id (job_owner_id (dl_job dl))
    (job_object_storage_key (dl_job dl)) (job_correlation_id (dl_job dl)) d)
    as [[e He] | (i0 & s1 & Hi0 & _ & _ & Hst & Hs1 & He)].
  { intros i' Hi'. rewrite Hi in Hi'. by injection Hi' as <-. }
  - assert (pg_process_import violation dl d = (Err e, d)) as -> by exact He.
    left. split; [done|by exists e].
  - assert (i0 = i) as -> by congruence.
    pose proof (process_parsing_ends (Laws := worker_laws) download_silent check_silent pg_commit_law
      (dl_now dl) id (parsing (dl_now dl) i) (imports s1) Hid) as Hends.
    rewrite Hs1, lookup_insert_eq in Hends.
    specialize (Hends eq_refl eq_refl Hc (dl_ids dl) (job_owner_id (dl_job dl))
      (job_object_storage_key (dl_job dl)) (job_correlation_id (dl_job dl)) s1 Hs1).
    match type of He with _ = ?X => assert (pg_process_import violation dl d = X) as E by exact He end.
    rewrite <- E in Hends. destruct Hends as (i' & Hs' & Hst'). rewrite insert_insert_eq in Hs'.
    destruct (pg_process_import violation dl d) as [r d']. cbn [fst snd] in *. right.
    assert (imports d' !! id = Some i') as Hi' by (by rewrite Hs', lookup_insert_eq). split.
    + exists i'. split; [done|]. destruct r; cbn in Hst'; rewrite !elem_of_cons, elem_of_nil in *; intuition congruence.
    + destruct Hadd as [Hadd | (x & a & row & -> & _ & Hn & Hadd)]; [by left|right].
      by exists a, row, i'.
Qed.
(** The audit event of a duplicate. *)
Definition audit_duplicate (ex : uuid) (act : option uuid) (d : Database) : Database :=
  snd (audit_append (job_owner_id (dl_job dl)) (lit "import.duplicate_detected") (lit "import")
    (uuid_display id) (Some (duplicate_metadata (job_owner_id (dl_job dl)) ex act)) d).

Lemma audit_duplicate_frames ex act d :
  imports (audit_duplicate ex act d) = imports d /\
  db_activities (audit_duplicate ex act d) = db_activities d.
Proof using Type.
  unfold audit_duplicate, audit_append, the_audit, worker_audit, DbAuditLog, eff_map_err, append_in_tx, insert_pk.
  run. by destruct (bool_decide _).
Qed.

(** The handler, in terms of its two parts. *)
Lemma handle_run d :
  snd (pg_handle_parse_job violation dl d) =
  match prepare_import (dl_now dl) id d with
  | (Ok _, d1) =>
      match pg_process_import violation dl d1 with
      | (Ok (ProcessingDuplicate ex act), d2) => audit_duplicate ex act d2
      | (_, d2) => d2
      end
  | (_, d1) => d1
  end.
Proof using Type.
  unfold pg_handle_parse_job, handle_parse_job.
  assert (Hb : forall {B} (f : unit -> eff Database rstr B),
    snd ((prepare_import (dl_now dl) id ≫= f) d) =
    match prepare_import (dl_now dl) id d with
    | (Ok u, d1) => snd (f u d1) | (_, d1) => d1 end).
  { intros. unfold mbind, eff_bind. by destruct (prepare_import _ _ d) as [[]]. }
  etransitivity; [apply Hb|]. clear Hb.
  destruct (prepare_import (dl_now dl) id d) as [[u|e|] d1]; [|done..].
  destruct (pg_process_import violation dl d1) as [r d2] eqn:Hr.
  erewrite attempt_bind by exact Hr. destruct r as [[a size points|ex act]|e|]; [done| | |done].
  - erewrite attempt_bind by apply surjective_pairing.
    unfold audit_duplicate, audit_append, the_audit, worker_audit, DbAuditLog, eff_map_err, append_in_tx, insert_pk.
    run. by destruct (bool_decide _).
  - by erewrite attempt_bind by exact (find_by_id_run d2).
Qed.

(** A delivery: nothing yet, or the one run. *)
Lemma handle_step d i :
  stored d i ->
  let d' := snd (pg_handle_parse_job violation dl d) in
  (db_activities d' = db_activities d /\ exists i', stored d' i') \/
  (spent d' /\ (db_activities d' = db_activities d \/ activity_added d d')).
Proof.
  intros Hi d'. unfold d'. rewrite handle_run. clear d'.
  destruct (prepare_cases d i Hi) as [Ha [i1 Hi1]].
  destruct (prepare_import (dl_now dl) id d) as [[[]|e|] d1]; cbn [fst snd] in *; [|left; eauto..].
  pose proof (process_step d1 i1 Hi1) as Hp.
  destruct (pg_process_import violation dl d1) as [r d2]. unfold activity_added in *. rewrite Ha in Hp.
  destruct r as [[a size points|ex act]|e|].
  2: { pose proof (audit_duplicate_frames ex act d2) as [E1 E2]. unfold spent, stored in *. rewrite E1, E2.
       destruct Hp as [[-> _] | Hp]; [left; split; [done|]; by exists i1|by right]. }
  all: destruct Hp as [[-> _] | Hp]; [left; split; [done|]; by exists i1|by right].
Qed.
(** ** A duplicate *)

Lemma constraints_alter (f : ImportRow -> ImportRow) k t :
  constraints_ok t ->
  (forall r, t !! k = Some r -> ir_owner_id (f r) = ir_owner_id r /\
     ir_idempotency_key (f r) = ir_idempotency_key r /\ ir_status (f r) <> lit "completed") ->
  constraints_ok (alter f k t).
Proof using Type.
  intros [Hkeys Hcom] Hf.
  assert (Hl : forall j r, alter f k t !! j = Some r ->
    exists r0, t !! j = Some r0 /\ (r = r0 \/ (ir_owner_id r = ir_owner_id r0 /\
      ir_idempotency_key r = ir_idempotency_key r0 /\ ir_status r <> lit "completed"))).
  { intros j r. destruct (decide (j = k)) as [->|Hne].
    - rewrite lookup_alter_eq, fmap_Some. intros (r0 & Hr0 & ->). exists r0. split; [done|]. right. auto.
    - rewrite lookup_alter_ne by done. eauto. }
  split; intros a r Ha c r' Hc; apply Hl in Ha as (r0 & Hr0 & E), Hc as (r0' & Hr0' & E').
  - intros [E1 E2]. apply (Hkeys a r0 Hr0 c r0' Hr0').
    destruct E as [-> | (Eo & Ek & _)], E' as [-> | (Eo' & Ek' & _)]; split; congruence.
  - intros (E1 & E2 & E3 & E4 & E5). apply (Hcom a r0 Hr0 c r0' Hr0').
    destruct E as [-> | (_ & _ & En)]; [|done]. destruct E' as [-> | (_ & _ & En)]; [|done]. done.
Qed.

Lemma db_update_run (i : Import) d :
  constraints_ok (alter (updated_row i) (im_id i) (db_imports d)) ->
  update i d = (Ok tt, set_imports (alter (updated_row i) (im_id i) (db_imports d)) d).
Proof using Type.
  intros Hc. change (on_imports (pg_update violation i) d =
    (Ok tt, set_imports (alter (updated_row i) (im_id i) (db_imports d)) d)).
  unfold on_imports, zoom, pg_update, commit_table. run. by rewrite decide_True.
Qed.

Lemma update_refused (i : Import) d :
  ~ constraints_ok (alter (updated_row i) (im_id i) (db_imports d)) ->
  update i d = (Err (StorageError violation), d).
Proof using Type.
  intros Hc. change (on_imports (pg_update violation i) d = (Err (StorageError violation), d)).
  unfold on_imports, zoom, pg_update, commit_table. run. rewrite decide_False by done. by destruct d.
Qed.

(** The checker finds the other import. *)
Lemma check_finds owner k d j rj :
  db_imports d !! j = Some rj -> ir_status rj = lit "completed" -> ir_owner_id rj = owner ->
  ir_checksum rj = Some (checksum_str k) ->
  exists r' j', db_imports d !! j' = Some r' /\ ir_status r' = lit "completed" /\
    ir_owner_id r' = owner /\ ir_checksum r' = Some (checksum_str k) /\
    check owner k d = (Ok (ExactDuplicate (ir_id r') (ir_activity_id r')), d).
Proof using Type.
  intros Hj Hs Ho Hc.
  set (q := fun r : ImportRow => bool_decide (ir_owner_id r = owner) &&
    bool_decide (ir_checksum r = Some (checksum_str k)) && bool_decide (ir_status r = lit "completed")).
  assert (check owner k d = (Ok (match (fun r => (ir_id r, ir_activity_id r)) <$> head (rows_where q (db_imports d)) with
    | Some (a, b) => ExactDuplicate a b | None => NotDuplicate end), d)) as Hcheck.
  { change (check owner k d) with ((found ← on_imports (pg_find_completed_by_checksum owner k);
      mret match found with Some (a, b) => ExactDuplicate a b | None => NotDuplicate end) d).
    unfold on_imports, zoom, pg_find_completed_by_checksum. run. by destruct d. }
  destruct (head (rows_where q (db_imports d))) as [r'|] eqn:Hh.
  - assert (r' ∈ rows_where q (db_imports d)) as [Hq [j' Hj']]%elem_of_rows_where
      by (by apply head_Some_elem_of).
    unfold q in Hq. to_prop. exists r', j'. by rewrite Hcheck.
  - apply head_None in Hh. assert (rj ∈ rows_where q (db_imports d)) as Hin.
    { apply elem_of_rows_where. split; [|eauto]. unfold q. by rewrite !bool_decide_eq_true_2. }
    rewrite Hh in Hin. by apply elem_of_nil in Hin.
Qed.
End pipeline.

Lemma finish_duplicate_refused {S} `{ImportRepository S} now p ex act e (s : S) :
  im_status p = Parsing -> update (duplicate_of now act p) s = (Err e, s) ->
  finish_duplicate now p ex act s = (Err e, s).
Proof.
  intros Hp Hu. unfold finish_duplicate. rewrite start_committing_live by done.
  assert (Imports.complete now (committing now (set_activity act p)) = (Ok tt, duplicate_of now act p))
    as -> by done.
  erewrite eff_bind_ok by done. erewrite eff_bind_ok by done. by apply eff_bind_err.
Qed.

Lemma duplicate_run `{Sha256} `{UuidDisplay} `{UnicodeLower} `{XmlReader} `{DateTimeParser} `{Libm}
  `{DebugStrings} `{SqlxDisplay} `{CommitJson} `{StatisticsToJson} `{ObjectStore Database}
    violation dl d i k b pr j rj :
  let id := job_import_id (dl_job dl) in
  (forall key d, download key d = (Ok b, d)) ->
  constraints_ok (db_imports d) ->
  shown (db_imports d) !! id = Some i -> im_id i = id -> checksum_ok i -> im_status i = Queued ->
  job_owner_id (dl_job dl) = im_owner_id i ->
  im_checksum i = Some k -> sha256_hex b = checksum_str k -> parse_gpx b = Ok pr ->
  db_imports d !! j = Some rj -> ir_status rj = lit "completed" ->
  ir_owner_id rj = im_owner_id i -> ir_checksum rj = Some (checksum_str k) ->
  let d' := set_imports (alter (updated_row (parsing (dl_now dl) i)) id (db_imports d)) d in
  pg_process_import violation dl d = (Err (StorageError violation), d') /\
  shown (db_imports d') = <[id := parsing (dl_now dl) i]> (shown (db_imports d)) /\
  db_activities d' = db_activities d.
Proof.
  intros id Hdl Hcon Hi Hid Hc Hst Howner Hk Hsha Hpr Hj Hjs Hjo Hjc d'.
  set (now := dl_now dl) in *. set (p := parsing now i) in *.
  pose proof Hi as Hi'. unfold shown in Hi'. rewrite lookup_fmap in Hi'.
  apply fmap_Some in Hi' as (r & Hr & Hri).
  assert (Hcon' : constraints_ok (db_imports d')).
  { apply constraints_alter; [done|]. intros r0 Hr0. by split_and!. }
  assert (Hd' : db_imports d' !! id = Some (updated_row p r)).
  { unfold d'. simpl. by rewrite lookup_alter_eq, Hr. }
  split; [|split; [|done]].
  - assert (Hne : j <> id).
    { intros ->. rewrite Hr in Hj. injection Hj as <-. rewrite Hri in Hst. simpl in Hst.
      by rewrite Hjs in Hst. }
    assert (Hj' : db_imports d' !! j = Some rj) by (unfold d'; simpl; by rewrite lookup_alter_ne).
    destruct (check_finds violation dl (im_owner_id i) k d' j rj Hj' Hjs Hjo Hjc)
      as (r' & j' & Hj2 & Hs2 & Ho2 & Hc2 & Hcheck).
    unfold pg_process_import, process_import. rewrite Howner.
    assert (Hbegin : begin_parsing (H := worker_repo violation dl) now id d = (Ok p, d')).
    { unfold begin_parsing. erewrite eff_bind_ok by exact (find_by_id_run violation dl d).
      change (imports d !! job_import_id (dl_job dl)) with (shown (db_imports d) !! id). rewrite Hi. simpl.
      erewrite eff_bind_ok by done. rewrite Hst. erewrite eff_bind_ok by done.
      rewrite start_parsing_live by done. erewrite eff_bind_ok by done. fold p.
      erewrite eff_bind_ok; [done|].
      replace d' with (set_imports (alter (updated_row p) (im_id p) (db_imports d)) d)
        by (unfold d'; simpl; by rewrite Hid).
      apply (db_update_run violation dl). simpl. rewrite Hid. exact Hcon'. }
    erewrite eff_bind_ok by exact Hbegin.
    erewrite eff_bind_ok.
    2:{ unfold fetch_verified. erewrite attempt_bind by apply Hdl. cbn beta iota.
        erewrite eff_bind_ok by done. change (im_checksum p) with (im_checksum i). rewrite Hk.
        erewrite eff_bind_ok by done. by rewrite bool_decide_eq_true_2 by done. }
    cbn beta iota.
    erewrite eff_bind_ok by (unfold parse_file; rewrite Hpr; reflexivity).
    erewrite eff_bind_ok by (rewrite Hsha, (Hc k Hk); reflexivity).
    erewrite eff_bind_ok by exact Hcheck. cbn beta iota.
    set (q := duplicate_of now (ir_activity_id r') p).
    assert (im_id q = id) as Hqid by exact Hid.
    apply finish_duplicate_refused; [done|].
    apply (update_refused violation dl q d'). rewrite Hqid. intros [_ Hcu].
    enough (id = j') as E.
    { subst j'. rewrite Hd' in Hj2. injection Hj2 as <-. done. }
    refine (Hcu id (updated_row q (updated_row p r)) _ j' r' _ _).
    + by rewrite lookup_alter_eq, Hd'.
    + rewrite lookup_alter_ne; [done|]. intros <-. rewrite Hd' in Hj2. injection Hj2 as <-. done.
    + split_and!; [|done|done|..].
      * rewrite Ho2, Hri. done.
      * rewrite Hc2. simpl. change (im_checksum q) with (im_checksum i). by rewrite Hk.
      * simpl. change (im_checksum q) with (im_checksum i). by rewrite Hk.
  - assert (row_to_import (updated_row p r) = p) as Hp.
    { apply row_import_update; [intros c Hcc; apply Hc; exact Hcc|]. rewrite <- Hri. by repeat split. }
    unfold d'. simpl. by rewrite (shown_alter _ _ _ r Hr), Hp.
Qed.

(** ** Properties *)

Section deliveries.
Context `{Sha256} `{UuidDisplay} `{UnicodeLower} `{XmlReader} `{DateTimeParser} `{Libm}
  `{DebugStrings} `{SqlxDisplay} `{CommitJson} `{StatisticsToJson} `{ObjectStore Database}.

Lemma deliver_spent violation dls id d :
  (forall key d, snd (download key d) = d) ->
  (forall dl, dl ∈ dls -> job_import_id (dl_job dl) = id) ->
  (exists i, shown (db_imports d) !! id = Some i /\ im_status i ∉ [Uploaded; Validating; Queued]) ->
  deliver violation dls d = d.
Proof.
  intros Hdl Hids Hs. induction dls as [|dl dls IH]; [done|]. unfold deliver in *. simpl.
  rewrite (handle_spent violation dl); [|done|].
  - apply IH. intros; apply Hids; by right.
  - unfold spent. rewrite (Hids dl ltac:(left)). exact Hs.
Qed.

(** C10: an import becomes at most one activity.  Take any sequence of deliveries
    of jobs for one import to the worker, at any times, with any payloads, random
    identifiers and results of the object storage, starting from any database
    that stores the import.  In the end the activities are what they were, or
    there is exactly one more, and then the import is completed.  (Deliveries for
    one import do not overlap in time here.) *)
Theorem import_becomes_one_activity violation dls id i d :
  (forall key d, snd (download key d) = d) ->
  (forall dl, dl ∈ dls -> job_import_id (dl_job dl) = id) ->
  shown (db_imports d) !! id = Some i -> im_id i = id -> checksum_ok i ->
  let d' := deliver violation dls d in
  db_activities d' = db_activities d \/
  exists a row i', db_activities d !! a = None /\
    db_activities d' = <[a := row]> (db_activities d) /\
    shown (db_imports d') !! id = Some i' /\ im_status i' = Completed.
Proof.
  intros Hdl Hids Hi Hid Hc. revert i d Hids Hi Hid Hc.
  induction dls as [|dl dls IH]; intros i d Hids Hi Hid Hc; [by left|].
  assert (job_import_id (dl_job dl) = id) as Hdlid by (apply Hids; left).
  destruct (handle_step violation dl Hdl d i) as [[Ha (i' & Hi' & Hid' & Hc')] | [Hs Ha]].
  { unfold stored. by rewrite Hdlid. }
  - rewrite Hdlid in *. unfold deliver in *. simpl. rewrite <- Ha. apply (IH i'); try done.
    intros; apply Hids; by right.
  - unfold spent, activity_added in *. rewrite Hdlid in *.
    assert (deliver violation (dl :: dls) d = snd (pg_handle_parse_job violation dl d)) as ->.
    { apply (deliver_spent violation dls id (snd (pg_handle_parse_job violation dl d))).
      - done.
      - intros; apply Hids; by right.
      - exact Hs. }
    destruct Ha as [Ha | (a & row & i' & Ha)]; [by left|right]. by exists a, row, i'.
Qed.

(** A duplicate can never complete.  Let an import be queued, its file be
    there, match the stored checksum and be GPX, and let another import of the
    owner have completed with that checksum.  The run that finds the duplicate
    then stores a second completed import with the same owner and checksum, which
    the partial unique index refuses: the job fails with a storage error, the
    import stays [Parsing], and no further delivery changes anything. *)
Theorem duplicate_never_completes violation dl d i k b pr j rj :
  let id := job_import_id (dl_job dl) in
  (forall key d, download key d = (Ok b, d)) ->
  constraints_ok (db_imports d) ->
  shown (db_imports d) !! id = Some i -> im_id i = id -> checksum_ok i -> im_status i = Queued ->
  job_owner_id (dl_job dl) = im_owner_id i ->
  im_checksum i = Some k -> sha256_hex b = checksum_str k -> parse_gpx b = Ok pr ->
  db_imports d !! j = Some rj -> ir_status rj = lit "completed" ->
  ir_owner_id rj = im_owner_id i -> ir_checksum rj = Some (checksum_str k) ->
  exists d', pg_process_import violation dl d = (Err (StorageError violation), d') /\
    shown (db_imports d') = <[id := parsing (dl_now dl) i]> (shown (db_imports d)) /\
    db_activities d' = db_activities d /\
    forall dls, (forall dl', dl' ∈ dls -> job_import_id (dl_job dl') = id) ->
      deliver violation dls d' = d'.
Proof.
  intros id Hdl Hcon Hi Hid Hc Hst Howner Hk Hsha Hpr Hj Hjs Hjo Hjc.
  pose proof (duplicate_run violation dl d i k b pr j rj Hdl Hcon Hi Hid Hc Hst Howner Hk Hsha Hpr
    Hj Hjs Hjo Hjc) as (Hrun & Hshown & Hact).
  eexists. split; [exact Hrun|]. split; [exact Hshown|]. split; [exact Hact|].
  intros dls Hdls. apply (deliver_spent violation dls id); [intros; by rewrite Hdl|done|].
  exists (parsing (dl_now dl) i). rewrite Hshown, lookup_insert_eq. split; [done|].
  simpl. rewrite !elem_of_cons, elem_of_nil. intuition congruence.
Qed.
End deliveries.

(** ** Witnesses *)

#[local] Instance sample_lower : UnicodeLower := map ascii_lower.
#[local] Instance sample_sha : Sha256 := fun _ => replicate 64 97%N.
#[local] Instance sample_uuid : UuidDisplay := display_N.
#[local] Instance sample_reader : XmlReader := fun _ => sample_events.
#[local] Instance sample_dates : DateTimeParser := fun _ => None.
#[local] Instance sample_libm : Libm := {| f64_sin := fun x => x; f64_cos := fun x => x; f64_asin := fun x => x |}.
#[local] Instance sample_store : ObjectStore Database := fun _ => mret (bs "<gpx/>").
#[local] Instance sample_strings : DebugStrings := fun l => concat l.
#[local] Instance sample_sqlx : SqlxDisplay := fun _ => lit "violation".
#[local] Instance sample_json : CommitJson := {|
  segments_to_value := fun _ => inr JNull; bounding_box_to_value := fun _ => inr JNull;
  coordinates_to_value := fun _ => inr JNull; recorded_statistics_to_value := fun _ => inr JNull |}.
#[local] Instance sample_statistics : StatisticsToJson := fun _ => inr JNull.

Definition import_in (id : uuid) (key status : rstr) : ImportRow :=
  mkImportRow id 5 (Some 7%N) (lit "gpx") status (Some (replicate 64 97%N)) None None key None None 0 0.

(** Two imports of the same file. *)
Definition upload_db : Database :=
  mkDb {[ 5%N ]} {[ 1%N := import_in 1 (lit "k1") (lit "uploaded");
                    2%N := import_in 2 (lit "k2") (lit "queued") ]} ∅ ∅ ∅ ∅ ∅ None ∅ ∅.

Definition delivery_of (id now base : N) : Delivery :=
  mkDelivery (Z.of_N now) (mkFreshIds base (base + 1) (base + 2) (base + 3) (base + 4) (base + 5))
    base base (mkParseGpxJob id 5 (lit "key") 9).

Lemma upload_row_ok id i :
  shown (db_imports upload_db) !! id = Some i -> (id = 1 \/ id = 2)%N -> im_id i = id /\ checksum_ok i.
Proof.
  intros Hi [-> | ->]; vm_compute in Hi; injection Hi as <-; (split; [done|]); intros c Hc;
    vm_compute in Hc; injection Hc as <-; by vm_compute.
Qed.

Lemma import_becomes_one_activity_witness :
  exists a row, db_activities (deliver (lit "conflict") [delivery_of 1 3 11; delivery_of 1 4 31] upload_db)
    = <[a := row]> (db_activities upload_db).
Proof.
  destruct (import_becomes_one_activity (lit "conflict") [delivery_of 1 3 11; delivery_of 1 4 31] 1
    (row_to_import (import_in 1 (lit "k1") (lit "uploaded"))) upload_db) as [Hno | (a & row & i' & _ & Ha & _)].
  - done.
  - by intros dl [-> | [-> | []%elem_of_nil]%elem_of_cons]%elem_of_cons.
  - done.
  - done.
  - by apply (upload_row_ok 1); [|left].
  - apply (f_equal (fun t => bool_decide (is_Some (t !! 11%N)))) in Hno. vm_compute in Hno. discriminate.
  - by exists a, row.
Defined.

(** After the first import has completed, the second one cannot. *)
Definition completed_db : Database :=
  set_imports (<[1%N := import_in 1 (lit "k1") (lit "completed")]> (db_imports upload_db)) upload_db.

Lemma duplicate_never_completes_witness :
  exists d', pg_process_import (lit "conflict") (delivery_of 2 5 51) completed_db
      = (Err (StorageError (lit "conflict")), d') /\
    exists i, shown (db_imports d') !! 2%N = Some i /\ im_status i = Parsing.
Proof.
  assert (Hpr : exists pr, parse_gpx (bs "<gpx/>") = Ok pr) by (eexists; vm_compute; reflexivity).
  destruct Hpr as [pr Hpr].
  destruct (duplicate_never_completes (lit "conflict") (delivery_of 2 5 51) completed_db
    (row_to_import (import_in 2 (lit "k2") (lit "queued"))) (mkChecksum (replicate 64 97%N)) (bs "<gpx/>") pr
    1 (import_in 1 (lit "k1") (lit "completed"))) as (d' & Hrun & Hshown & _); try done.
  - apply (bool_decide_unpack _). by vm_compute.
  - by apply (upload_row_ok 2); [|right].
  - exists d'. split; [exact Hrun|]. eexists. rewrite Hshown. split; [apply lookup_insert_eq|done].
Defined.
