(* ===== verification/ImportSuccess.v ===== *)
(** The other half of the import pipeline: a good upload is imported.  The theorems
    of ImportProcessing and ImportWorkerTheory say what a run that reports success
    has done; here a delivery of the job of an uploaded import, whose file is
    there and sound, is shown to succeed. *)
From S2P Require Import Prelude Float64 RustString RustVec Utf8 RecordedActivity RecordedActivityTheory RouteVersioning.
From S2P Require Import ActivityCatalog GpxParser GpxParserTheory Imports ImportTheory ImportHandlers ImportPersistence.
From S2P Require Import ImportHandlerTheory ImportProcessing Database ImportCommit ImportCommitTheory.
From S2P Require Import ImportWorker ImportWorkerTheory.

Section success.
Context `{Sha256} `{UuidDisplay} `{UnicodeLower} `{XmlReader} `{DateTimeParser} `{Libm}
  `{DebugStrings} `{SqlxDisplay} `{CommitJson} `{StatisticsToJson} `{ObjectStore Database}.
Context (violation : rstr) (dl : Delivery).

Abbreviation id := (job_import_id (dl_job dl)).
Abbreviation ids := (dl_ids dl).
Abbreviation now := (dl_now dl).

(** What the worker finds of the import and of its file. *)
Record good_upload (d : Database) (i : Import) (b : bytes) (n : NormalizedTrack) : Prop := {
  gu_row : shown (db_imports d) !! id = Some i;
  gu_id : im_id i = id;
  gu_checksum_ok : checksum_ok i;
  gu_owner : job_owner_id (dl_job dl) = im_owner_id i;
  gu_known_owner : im_owner_id i ∈ db_users d;
  gu_file : forall d', download (job_object_storage_key (dl_job dl)) d' = (Ok b, d');
  gu_verified : exists k, im_checksum i = Some k /\ sha256_hex b = checksum_str k;
  gu_parsed : exists r, parse_gpx b = Ok r /\ normalize_gpx (fresh_recorded_track ids) r = Ok n;
  gu_constraints : constraints_ok (db_imports d);
  gu_new : forall j r, db_imports d !! j = Some r -> ir_owner_id r = im_owner_id i ->
    ir_checksum r = Some (sha256_hex b) -> ir_status r <> lit "completed" }.

(** The identifiers drawn for the delivery are not in use. *)
Record unused_ids (d : Database) (i : Import) : Prop := {
  un_artifact : db_artifacts d !! default (fresh_artifact ids) (im_source_artifact_id i) = None;
  un_revision : db_revisions d !! fresh_revision ids = None;
  un_track : db_tracks d !! fresh_track ids = None;
  un_activity : db_activities d !! fresh_activity ids = None;
  un_version : db_versions d !! fresh_version ids = None;
  un_audit : db_audit_log d !! dl_audit_id dl = None;
  un_outbox : db_outbox d !! dl_outbox_id dl = None;
  un_revisions : forall k r, db_revisions d !! k = Some r -> srr_activity_id r <> fresh_activity ids;
  un_versions : forall k r, db_versions d !! k = Some r -> rvr_activity_id r <> fresh_activity ids }.

(** A later state of the same upload: the import in another status. *)
Definition moved (i i' : Import) : Prop :=
  same_identity i i' /\ im_checksum i' = im_checksum i /\ im_source_artifact_id i' = im_source_artifact_id i.

(** Storing such an import keeps the upload good. *)
Lemma store_moved (i i' : Import) d b n :
  good_upload d i b n -> unused_ids d i -> moved i i' -> im_status i' <> Completed ->
  exists t, update (ImportRepository := worker_repo violation dl) i' d = (Ok tt, set_imports t d) /\
    good_upload (set_imports t d) i' b n /\ unused_ids (set_imports t d) i' /\
    (forall j, j <> id -> t !! j = db_imports d !! j) /\
    (exists r, t !! id = Some r /\ ir_checksum r = Some (sha256_hex b)).
Proof.
  intros [Hi Hid Hc Ho Hu Hf Hv Hp Hcon Hnew] [U1 U2 U3 U4 U5 U6 U7 U8 U9] (Hsame & Hk & Hart) Hst.
  assert (im_id i' = id) as Hid' by (by destruct Hsame as [<- _]).
  assert (im_owner_id i' = im_owner_id i) as Howner by (by destruct Hsame as (_ & <- & _)).
  assert (checksum_ok i') as Hc' by (intros k Hk'; apply Hc; congruence).
  pose proof Hi as Hrow. unfold shown in Hrow. rewrite lookup_fmap in Hrow.
  apply fmap_Some in Hrow as (r & Hr & Hri).
  set (t := alter (updated_row i') id (db_imports d)).
  assert (status_display (im_status i') <> lit "completed") as Hdisp by (by destruct (im_status i')).
  assert (constraints_ok t) as Hcon'.
  { apply constraints_alter; [done|]. intros r0 _. by split_and!. }
  exists t. split; [pose proof (db_update_run violation dl i' d) as Hrun; rewrite Hid' in Hrun; by apply Hrun|].
  split; [|split; [|split]].
  - split; try done.
    + cbn [db_imports set_imports]. unfold t.
      rewrite (shown_alter _ _ _ r Hr), lookup_insert_eq, row_import_update; [done..|]. by rewrite <- Hri.
    + by rewrite Howner.
    + by rewrite Howner.
    + by rewrite Hk.
    + rewrite Howner. cbn [db_imports set_imports]. intros j rj Hj. unfold t in Hj.
      destruct (decide (j = id)) as [->|Hne].
      * rewrite lookup_alter_eq, Hr in Hj. injection Hj as <-. intros _ _. exact Hdisp.
      * rewrite lookup_alter_ne in Hj by done. by apply Hnew with j.
  - split; try done. by rewrite Hart.
  - intros j Hj. unfold t. by rewrite lookup_alter_ne.
  - exists (updated_row i' r). unfold t. rewrite lookup_alter_eq, Hr. split; [done|].
    destruct Hv as (k & Hik & ->). simpl. by rewrite Hk, Hik.
Qed.

(** The import as it waits for the run. *)
Definition queued (i : Import) : Import := touch_import now (set_status Queued i).

Lemma moved_status i st : moved i (touch_import now (set_status st i)).
Proof. by destruct i. Qed.

Lemma prepare_good d i b n :
  good_upload d i b n -> unused_ids d i -> im_status i ∈ [Uploaded; Validating; Queued] ->
  exists t i1, prepare_import (H := worker_repo violation dl) now id d = (Ok tt, set_imports t d) /\
    good_upload (set_imports t d) i1 b n /\ unused_ids (set_imports t d) i1 /\ im_status i1 = Queued /\
    im_owner_id i1 = im_owner_id i /\ (forall j, j <> id -> t !! j = db_imports d !! j).
Proof.
  intros Hg Hu Hst.
  assert (forall i', moved i i' -> im_status i' = Queued ->
    exists t, persist_queued (H := worker_repo violation dl) i' d = (Ok tt, set_imports t d) /\
      good_upload (set_imports t d) i' b n /\ unused_ids (set_imports t d) i' /\ im_status i' = Queued /\
      im_owner_id i' = im_owner_id i /\ (forall j, j <> id -> t !! j = db_imports d !! j)) as Hpersist.
  { intros i' Hm Hq. destruct (store_moved i i' d b n Hg Hu Hm ltac:(by rewrite Hq)) as (t & Ht & H1' & H2' & H3' & _).
    exists t. split_and!; try done; [|by destruct Hm as [(_ & <- & _) _]].
    unfold persist_queued, eff_map_err. by rewrite Ht. }
  unfold prepare_import.
  assert (forall B (f : option Import -> eff Database rstr B),
    (eff_map_err (describe (lit "failed to load import")) (find_by_id (ImportRepository := worker_repo violation dl) id) ≫= f) d
    = f (Some i) d) as Hfind.
  { intros B f. unfold eff_map_err, mbind, eff_bind.
    rewrite (find_by_id_run violation dl d). cbn. by rewrite <- (gu_row _ _ _ _ Hg). }
  rewrite Hfind. cbn [ok_or]. erewrite eff_bind_ok by done.
  rewrite !elem_of_cons, elem_of_nil in Hst. destruct Hst as [Hst|[Hst|[Hst|[]]]]; rewrite Hst.
  - set (v := touch_import now (set_status Validating i)).
    assert (Imports.start_validation now i = (Ok tt, v)) as Hv
      by (unfold start_validation, move_to; run; by rewrite Hst).
    assert (Imports.queue_for_parsing now v = (Ok tt, queued v)) as Hq by done.
    unfold advance. rewrite Hv. erewrite eff_bind_ok by done. rewrite Hq. erewrite eff_bind_ok by done.
    destruct (Hpersist (queued v)) as (t & Ht & Hrest); [by destruct i|done|]. by exists t, (queued v).
  - assert (Imports.queue_for_parsing now i = (Ok tt, queued i)) as Hq
      by (unfold queue_for_parsing, move_to; run; by rewrite Hst).
    unfold advance. rewrite Hq. erewrite eff_bind_ok by done.
    destruct (Hpersist (queued i)) as (t & Ht & Hrest); [apply moved_status|done|]. by exists t, (queued i).
  - exists (db_imports d), i. assert (set_imports (db_imports d) d = d) as -> by (by destruct d). by split_and!.
Qed.

(** ** The run *)

(** serde_json can write whatever a commit stores. *)
Definition json_total : Prop := forall data, exists g b r s c, serializable data g b r s c.

Lemma check_new d i b n k :
  good_upload d i b n -> sha256_hex b = checksum_str k ->
  check (CheckDuplicate := worker_checker violation dl) (im_owner_id i) k d = (Ok NotDuplicate, d).
Proof.
  intros Hg Hk.
  set (q := fun r : ImportRow => bool_decide (ir_owner_id r = im_owner_id i) &&
    bool_decide (ir_checksum r = Some (checksum_str k)) && bool_decide (ir_status r = lit "completed")).
  assert (rows_where q (db_imports d) = []) as Hnone.
  { destruct (rows_where q (db_imports d)) as [|r rest] eqn:Hrows; [done|].
    assert (r ∈ rows_where q (db_imports d)) as [Hq [j Hj]]%elem_of_rows_where by (rewrite Hrows; left).
    unfold q in Hq. rewrite !andb_true_iff in Hq. destruct Hq as [[Ho Hc] Hs]. to_prop.
    exfalso. apply (gu_new _ _ _ _ Hg j r Hj); [done|by rewrite Hk|done]. }
  change (check (CheckDuplicate := worker_checker violation dl) (im_owner_id i) k d) with
    ((found ← on_imports (pg_find_completed_by_checksum (im_owner_id i) k);
      mret match found with Some (a, b) => ExactDuplicate a b | None => NotDuplicate end) d).
  unfold on_imports, zoom, pg_find_completed_by_checksum. run. fold q. rewrite Hnone. by destruct d.
Qed.

Lemma begin_good d i b n :
  good_upload d i b n -> unused_ids d i -> im_status i = Queued ->
  exists t, begin_parsing (H := worker_repo violation dl) now id d = (Ok (parsing now i), set_imports t d) /\
    good_upload (set_imports t d) (parsing now i) b n /\ unused_ids (set_imports t d) (parsing now i) /\
    (forall j, j <> id -> t !! j = db_imports d !! j).
Proof.
  intros Hg Hu Hst.
  destruct (store_moved i (parsing now i) d b n Hg Hu (moved_status i Parsing) ltac:(done))
    as (t & Ht & H1' & H2' & H3' & _).
  exists t. split_and!; try done. unfold begin_parsing.
  erewrite eff_bind_ok by exact (find_by_id_run violation dl d).
  change (imports d !! id) with (shown (db_imports d) !! id). rewrite (gu_row _ _ _ _ Hg).
  erewrite eff_bind_ok by done. rewrite Hst. erewrite eff_bind_ok by done.
  rewrite start_parsing_live by done. erewrite eff_bind_ok by done.
  by erewrite eff_bind_ok by exact Ht.
Qed.

Lemma fetch_good d i b n :
  good_upload d i b n ->
  fetch_verified (H := worker_repo violation dl) now i (job_object_storage_key (dl_job dl)) d =
    (Ok (b, sha256_hex b), d).
Proof.
  intros Hg. destruct (gu_verified _ _ _ _ Hg) as (k & Hk & Hsha). unfold fetch_verified.
  erewrite attempt_bind by exact (gu_file _ _ _ _ Hg d). cbn beta iota.
  erewrite eff_bind_ok by done. rewrite Hk. erewrite eff_bind_ok by done.
  by rewrite bool_decide_eq_true_2 by done.
Qed.

(** The commit of a good upload can go through. *)
Lemma good_commit_ready d i b n data :
  json_total -> good_upload d i b n -> unused_ids d i ->
  (exists r, db_imports d !! id = Some r /\ ir_checksum r = Some (sha256_hex b)) ->
  (exists i0 v st, data = build_commit_data ids i0 (im_owner_id i) id (job_object_storage_key (dl_job dl))
     (job_correlation_id (dl_job dl)) b (sha256_hex b) n v st /\ rv_id v = fresh_version ids /\
     im_source_artifact_id i0 = im_source_artifact_id i) ->
  commit_ready now (dl_audit_id dl) (dl_outbox_id dl) data d.
Proof.
  intros Hj [Hi Hid Hc Ho Hu Hf (k & Hk & Hsha) Hp Hcon Hnew] [U1 U2 U3 U4 U5 U6 U7 U8 U9]
    (r & Hr & Hrk) (i0 & v & st & -> & Hv & Hart).
  unfold commit_ready, build_commit_data. simpl. rewrite Hv, Hart.
  split_and!; try done.
  - intros j x Hx. rewrite bool_decide_eq_false_2; [done|]. by eapply U8.
  - intros j x Hx. rewrite bool_decide_eq_false_2; [done|]. by eapply U9.
  - unfold imports_after. simpl. unfold shown in Hi. rewrite lookup_fmap, Hr in Hi. injection Hi as Hri.
    assert (ir_owner_id r = im_owner_id i) as Hro by (by rewrite <- Hri).
    destruct Hcon as [Hkeys Hcom].
    assert (forall a x, alter (completed_import_row now (fresh_activity ids)) id (db_imports d) !! a = Some x ->
      exists x0, db_imports d !! a = Some x0 /\ ((a <> id /\ x = x0) \/
        (a = id /\ x = completed_import_row now (fresh_activity ids) x0))) as Hl.
    { intros a x Ha. destruct (decide (a = id)) as [->|Hne].
      - rewrite lookup_alter_eq, fmap_Some in Ha. destruct Ha as (x0 & Hx & ->). eauto.
      - rewrite lookup_alter_ne in Ha by done. eauto. }
    split; intros a x Ha c' x' Hc'; apply Hl in Ha as (x0 & Hx0 & E), Hc' as (x0' & Hx0' & E').
    + intros [E1 E2]. apply (Hkeys a x0 Hx0 c' x0' Hx0').
      destruct E as [[_ ->]|[_ ->]], E' as [[_ ->]|[_ ->]]; by split.
    + intros (E1 & E2 & E3 & E4 & E5).
      destruct E as [[Hne ->]|[-> ->]], E' as [[Hne' ->]|[-> ->]].
      * by apply (Hcom a x0 Hx0 c' x0' Hx0').
      * simpl in *. simplify_eq. exfalso. apply (Hnew a x0 Hx0); [congruence|congruence|done].
      * simpl in *. simplify_eq. exfalso. apply (Hnew c' x0' Hx0'); [congruence|congruence|done].
      * done.
Qed.

(** The preview of a file that normalises has two points. *)
Lemma preview_two b r n :
  parse_gpx b = Ok r -> normalize_gpx (fresh_recorded_track ids) r = Ok n ->
  (2 <= len (nt_preview_geometry n))%N.
Proof.
  intros (_ & p & Hinv & _ & Ht & Hm & Hp & _)%parse_gpx_inv Hn.
  assert (gpx_result_wf r) as Hr by by eapply result_wf_of_inv.
  destruct (normalize_gpx_spec (fresh_recorded_track ids) r Hr) as [[_ He]|(Hne & n' & He & Hf)]; [congruence|].
  assert (n' = n) as -> by congruence. destruct Hf as (_ & _ & _ & _ & _ & _ & _ & -> & _).
  unfold usable in *. destruct (filter _ (result_segments r)) as [|g l] eqn:Hl; [done|].
  assert (g ∈ filter (fun s => 2 <= length (gs_points s)) (result_segments r)) as [Hg _]%list_elem_of_filter
    by (rewrite Hl; left).
  unfold len, MAX_PREVIEW_POINTS. rewrite length_map. simpl. rewrite length_app. lia.
Qed.

(** The activity that the import has become. *)
Record imported (d d' : Database) (i : Import) (b : bytes) (n : NormalizedTrack) : Prop := {
  ip_activity : exists row, db_activities d' = <[fresh_activity ids := row]> (db_activities d) /\
    ar_owner_id row = im_owner_id i /\ ar_lifecycle_state row = lit "active" /\
    ar_title row = default (lit "Imported Activity") (nt_suggested_title n) /\
    ar_current_route_version_id row = Some (fresh_version ids);
  ip_import : exists i', shown (db_imports d') !! id = Some i' /\ im_status i' = Completed /\
    im_activity_id i' = Some (fresh_activity ids);
  ip_others : forall j, j <> id -> db_imports d' !! j = db_imports d !! j;
  ip_users : db_users d' = db_users d }.

Lemma commit_good d i b n :
  json_total -> good_upload d i b n -> unused_ids d i -> im_status i = Parsing ->
  exists d', commit_import (H := worker_repo violation dl) (H2 := worker_committer dl) now ids i (im_owner_id i) id
      (job_object_storage_key (dl_job dl)) (job_correlation_id (dl_job dl)) b (sha256_hex b) n d
    = (Ok (ProcessingCompleted (fresh_activity ids) (u64_wrap (len b))
         (point_count (rt_statistics (nt_recorded_track n)))), d') /\
    imported d d' i b n.
Proof.
  intros Hj Hg Hu Hst.
  destruct (store_moved i (committing now i) d b n Hg Hu (moved_status i Committing) ltac:(done))
    as (t & Ht & Hg' & Hu' & Hothers & Hrow).
  destruct (gu_parsed _ _ _ _ Hg) as (r & Hparse & Hnorm).
  pose proof (preview_two b r n Hparse Hnorm) as Htwo.
  unfold commit_import. rewrite start_committing_live by done. erewrite eff_bind_ok by done.
  erewrite eff_bind_ok by exact Ht.
  set (st := calculate_from_geometry _). unfold new_initial.
  destruct (N.ltb_spec (len (nt_preview_geometry n)) 2) as [Hlt|_]; [lia|]. cbn [map_err].
  erewrite eff_bind_ok by done.
  set (data := build_commit_data _ _ _ _ _ _ _ _ _ _ _).
  destruct (commit_statements_run now (dl_audit_id dl) (dl_outbox_id dl) data (set_imports t d)) as [d' Hc].
  { eapply good_commit_ready; [done|exact Hg'|exact Hu'|done|].
    eexists (committing now i), _, st. split; [reflexivity|]. by split. }
  exists d'. split.
  - erewrite attempt_bind.
    2:{ unfold commit, worker_committer, PgImportCommitter, pg_commit_import, transaction. by rewrite Hc. }
    done.
  - destruct (commit_statements_ok now (dl_audit_id dl) (dl_outbox_id dl) data _ _ _ Hc)
      as (_ & _ & g & bb & rv & s & c & _ & ->).
    destruct Hrow as (row & Hrow & _). split.
    + eexists. by split_and!.
    + unfold committed_db, imports_after. cbn [db_imports set_imports].
      exists (row_to_import (completed_import_row now (fresh_activity ids) row)).
      split; [|done]. change (icd_import_id data) with id.
      by rewrite (shown_alter _ _ _ row Hrow), lookup_insert_eq.
    + intros j Hne. unfold committed_db, imports_after. cbn [db_imports set_imports].
      change (icd_import_id data) with id. rewrite lookup_alter_ne by done. by apply Hothers.
    + done.
Qed.

(** What a stage that only stores the import leaves to the next. *)
Lemma imported_after t d d' i i0 b n :
  (forall j, j <> id -> t !! j = db_imports d !! j) -> im_owner_id i0 = im_owner_id i ->
  imported (set_imports t d) d' i0 b n -> imported d d' i b n.
Proof.
  intros Ht Ho [(row & Ha & Hrow) Hi Hothers Husers]. split; try done.
  - exists row. by rewrite <- Ho.
  - intros j Hj. by rewrite Hothers, <- Ht.
Qed.

Lemma process_good d i b n :
  json_total -> good_upload d i b n -> unused_ids d i -> im_status i = Queued ->
  exists r d', pg_process_import violation dl d = (Ok r, d') /\
    r = ProcessingCompleted (fresh_activity ids) (u64_wrap (len b))
          (point_count (rt_statistics (nt_recorded_track n))) /\
    imported d d' i b n.
Proof.
  intros Hj Hg Hu Hst.
  destruct (begin_good d i b n Hg Hu Hst) as (t & Hb & Hg1 & Hu1 & Ht).
  destruct (gu_verified _ _ _ _ Hg1) as (k & Hk & Hsha).
  destruct (gu_parsed _ _ _ _ Hg) as (r & Hparse & Hnorm).
  destruct (commit_good _ _ _ _ Hj Hg1 Hu1 eq_refl) as (d' & Hc & Himp).
  eexists _, d'. split; [|split; [reflexivity|by apply (imported_after t d d' i (parsing now i))]].
  unfold pg_process_import, process_import. erewrite eff_bind_ok by exact Hb.
  erewrite eff_bind_ok by exact (fetch_good _ _ _ _ Hg1). cbn beta iota.
  erewrite eff_bind_ok by (unfold parse_file; rewrite Hparse; reflexivity).
  erewrite eff_bind_ok by (rewrite Hsha, (gu_checksum_ok _ _ _ _ Hg1 k Hk); reflexivity).
  rewrite (gu_owner _ _ _ _ Hg1).
  erewrite eff_bind_ok by exact (check_new _ _ _ _ k Hg1 Hsha). cbn beta iota.
  erewrite eff_bind_ok by (unfold normalize_file; rewrite Hnorm; reflexivity).
  exact Hc.
Qed.

Lemma handle_good d i b n :
  json_total -> good_upload d i b n -> unused_ids d i -> im_status i ∈ [Uploaded; Validating; Queued] ->
  exists d', pg_handle_parse_job violation dl d = (Ok tt, d') /\ imported d d' i b n.
Proof.
  intros Hj Hg Hu Hst.
  destruct (prepare_good d i b n Hg Hu Hst) as (t & i1 & Hp & Hg1 & Hu1 & Hq & Ho & Ht).
  destruct (process_good _ _ _ _ Hj Hg1 Hu1 Hq) as (r & d' & Hr & -> & Himp).
  exists d'. split; [|by apply (imported_after t d d' i i1)].
  unfold pg_handle_parse_job, handle_parse_job. erewrite eff_bind_ok by exact Hp.
  unfold pg_process_import in Hr. by erewrite attempt_bind by exact Hr.
Qed.

(** C11: a good upload is imported.  Take an import that has been uploaded, validated
    or queued, whose file is in the object storage, has the stored checksum, is GPX
    that normalises, and is not one that the user has imported before.  If the
    identifiers drawn for the run are new, one delivery of its job succeeds: the
    user has one new activity, under the title of the file, with its first route
    version; the import is completed and refers to it; and no other import has
    changed. *)
Theorem good_upload_is_imported d i b n :
  json_total -> good_upload d i b n -> unused_ids d i -> im_status i ∈ [Uploaded; Validating; Queued] ->
  exists d', pg_handle_parse_job violation dl d = (Ok tt, d') /\ imported d d' i b n.
Proof. apply handle_good. Qed.
End success.

(** ** Witness *)

#[local] Instance sample_lower : UnicodeLower := map ascii_lower.
#[local] Instance sample_sha : Sha256 := fun _ => replicate 64 97%N.
#[local] Instance sample_uuid : UuidDisplay := display_N.
#[local] Instance sample_reader : XmlReader := fun _ => sample_events.
#[local] Instance sample_dates : DateTimeParser := fun _ => None.
#[local] Instance sample_libm : Libm := {| f64_sin := fun x => x; f64_cos := fun x => x; f64_asin := fun x => x |}.
#[local] Instance sample_store : ObjectStore Database := fun _ => mret (bs "<gpx/>").
#[local] Instance sample_strings : DebugStrings := fun l => concat l.
#[local] Instance sample_sqlx : SqlxDisplay := fun _ => lit "violation".
#[local] Instance sample_json : CommitJson := {|
  segments_to_value := fun _ => inr JNull; bounding_box_to_value := fun _ => inr JNull;
  coordinates_to_value := fun _ => inr JNull; recorded_statistics_to_value := fun _ => inr JNull |}.
#[local] Instance sample_statistics : StatisticsToJson := fun _ => inr JNull.

Lemma sample_json_total : json_total.
Proof. intros data. by exists JNull, JNull, JNull, JNull, JNull. Qed.

Lemma sample_upload_good i :
  shown (db_imports upload_db) !! 1%N = Some i ->
  exists n, good_upload (delivery_of 1 3 11) upload_db i (bs "<gpx/>") n /\
    unused_ids (delivery_of 1 3 11) upload_db i /\ im_status i = Uploaded.
Proof.
  intros Hi. destruct (upload_row_ok 1 i Hi (or_introl eq_refl)) as [Hid Hc].
  assert (exists r, parse_gpx (bs "<gpx/>") = Ok r) as [r Hr] by (eexists; vm_compute; reflexivity).
  assert (exists n, normalize_gpx 16 r = Ok n) as [n Hn].
  { vm_compute in Hr. injection Hr as <-. eexists. vm_compute. reflexivity. }
  assert (im_owner_id i = 5%N /\ im_status i = Uploaded /\ im_source_artifact_id i = Some 7%N /\
    im_checksum i = Some (mkChecksum (replicate 64 97%N))) as (Ho & Hst & Hart & Hk).
  { vm_compute in Hi. injection Hi as <-. by split_and!. }
  exists n. split; [split|split; [split|done]]; try done.
  - rewrite Ho. by apply (bool_decide_unpack _).
  - by eexists.
  - by exists r.
  - apply (bool_decide_unpack _). by vm_compute.
  - intros j x Hx _ _.
    assert (map_Forall (fun _ x => ir_status x <> lit "completed") (db_imports upload_db)) as Hall
      by (apply (bool_decide_unpack _); by vm_compute).
    exact (Hall j x Hx).
Qed.

Lemma good_upload_is_imported_witness :
  exists d' row, pg_handle_parse_job (lit "conflict") (delivery_of 1 3 11) upload_db = (Ok tt, d') /\
    db_activities d' = {[ 11%N := row ]} /\ ar_owner_id row = 5%N.
Proof.
  assert (exists i, shown (db_imports upload_db) !! 1%N = Some i) as [i Hi] by (eexists; vm_compute; reflexivity).
  destruct (sample_upload_good i Hi) as (n & Hg & Hu & Hst).
  destruct (good_upload_is_imported (lit "conflict") (delivery_of 1 3 11) upload_db i (bs "<gpx/>") n
    sample_json_total Hg Hu) as (d' & Hrun & [(row & Ha & Ho & _) _ _ _]).
  { rewrite Hst. apply list_elem_of_In. by left. }
  exists d', row. split; [done|]. split; [done|]. rewrite Ho. vm_compute in Hi. by injection Hi as <-.
Defined.
