(* ===== verification/ImportCleanup.v ===== *)
(** The cleanup of abandoned imports, run by the worker's maintenance loop
    (cleanup_abandoned_imports of ImportWorker.v), over the table of imports: a
    SELECT, a loop in memory and one UPDATE per import amount to one change of
    every abandoned row. *)
From S2P Require Import Prelude Float64 RustString RecordedActivity RouteVersioning.
From S2P Require Import Imports ImportTheory ImportHandlers ImportPersistence Database ImportCommit.
From S2P Require Import ImportWorker ImportWorkerTheory.

#[local] Open Scope Z_scope.

Section cleanup.
Context `{UnicodeLower} (violation : rstr) (now : datetime).
Implicit Types (t : gmap N ImportRow).
#[local] Instance table_repo : ImportRepository (gmap N ImportRow) := PgImportRepository violation now.

(** In processing, and not touched for half an hour. *)
Definition abandoned (i : Import) : bool :=
  bool_decide (im_status i ∈ [Validating; Queued; Parsing; Committing]) &&
  (im_updated_at i <? now - ABANDONED_TIMEOUT_MINUTES * 60 * 1000000000).

Definition abandoned_row (r : ImportRow) : bool :=
  bool_decide (ir_status r ∈ [lit "validating"; lit "queued"; lit "parsing"; lit "committing"]) &&
  (ir_updated_at r <? now - ABANDONED_TIMEOUT_MINUTES * 60 * 1000000000).

(** The two ways to say it agree: every status text means one status. *)
Lemma abandoned_row_shown r : abandoned_row r = abandoned (row_to_import r).
Proof.
  unfold abandoned_row, abandoned. change (im_updated_at (row_to_import r)) with (ir_updated_at r).
  f_equal. apply bool_decide_ext. change (im_status (row_to_import r)) with (parse_status (ir_status r)).
  rewrite !elem_of_cons, !elem_of_nil. unfold parse_status. split.
  - intros [-> | [-> | [-> | [-> | []]]]]; vm_compute; auto.
  - intros Hs. repeat case_decide; naive_solver.
Qed.

Lemma abandoned_live i : abandoned i = true -> is_terminal (im_status i) = false.
Proof.
  unfold abandoned. intros [Hs%bool_decide_eq_true _]%andb_true_iff.
  rewrite !elem_of_cons, elem_of_nil in Hs. by destruct Hs as [-> | [-> | [-> | [-> | []]]]].
Qed.

Lemma timed_out_failed i : abandoned i = true -> im_status (timed_out now i) = Failed.
Proof. intros Ha%abandoned_live. unfold timed_out. by rewrite Ha. Qed.

(** ** The loop *)

Definition write_all (l : list Import) t : gmap N ImportRow :=
  fold_left (fun t i => alter (updated_row i) (im_id i) t) l t.

Lemma write_all_lookup l t k :
  NoDup (im_id <$> l) ->
  write_all l t !! k =
    match List.find (fun i => bool_decide (im_id i = k)) l with
    | Some i => updated_row i <$> t !! k
    | None => t !! k
    end.
Proof.
  revert t. induction l as [|i l IH]; intros t Hnd; [done|]. rewrite fmap_cons, NoDup_cons in Hnd.
  destruct Hnd as [Hni Hnd]. unfold write_all in *. simpl. rewrite (IH _ Hnd).
  case_bool_decide as Hk.
  - subst k. rewrite lookup_alter_eq.
    destruct (List.find _ l) as [j|] eqn:Hf; [|done].
    apply List.find_some in Hf as [Hin Hj%bool_decide_eq_true]. destruct Hni.
    rewrite <- Hj. apply list_elem_of_fmap_2. by apply list_elem_of_In.
  - by rewrite lookup_alter_ne.
Qed.

(** A failed import violates nothing. *)
Lemma write_failed_ok i t :
  constraints_ok t -> im_status i = Failed -> constraints_ok (alter (updated_row i) (im_id i) t).
Proof.
  intros Hc Hf. apply constraints_alter; [done|]. intros r Hr. split_and!; [done..|]. simpl. by rewrite Hf.
Qed.

Lemma loop_run l t :
  constraints_ok t -> Forall (fun i => im_status i = Failed) l ->
  for_each l (fun import =>
    if bool_decide (im_status import = Failed) then attempt (update import);; mret tt else mret tt) t =
    (Ok (E := ImportError) tt, write_all l t).
Proof.
  revert t. induction l as [|i l IH]; intros t Hc Hf; [done|]. apply Forall_cons in Hf as [Hi Hl].
  cbn [for_each]. rewrite bool_decide_eq_true_2 by done.
  assert (update i t = (Ok tt, alter (updated_row i) (im_id i) t)) as Hu.
  { change (pg_update violation i t = (Ok tt, alter (updated_row i) (im_id i) t)).
    unfold pg_update, commit_table. run. by rewrite decide_True by (by apply write_failed_ok). }
  unfold mbind, eff_bind, attempt. rewrite Hu. apply IH; [by apply write_failed_ok|done].
Qed.

(** ** The rows selected *)

Lemma NoDup_selected (p : ImportRow -> bool) t :
  map_Forall (fun k r => ir_id r = k) t -> NoDup (im_id <$> map row_to_import (rows_where p t)).
Proof.
  intros Hk. unfold rows_where.
  assert (Hids : NoDup (map ir_id (map snd (map_to_list t)))).
  { assert (map ir_id (map snd (map_to_list t)) = map fst (map_to_list t)) as ->.
    { rewrite map_map. apply map_ext_in. intros [k r] Hin. apply list_elem_of_In, elem_of_map_to_list in Hin.
      by apply Hk. }
    apply NoDup_fst_map_to_list. }
  assert (forall l, NoDup (map ir_id l) -> NoDup (im_id <$> map row_to_import (List.filter p l))) as Hf.
  { clear. induction l as [|r l IH]; simpl; [constructor|]. intros [Hr Hl]%NoDup_cons.
    destruct (p r); simpl; [|by apply IH]. constructor; [|by apply IH].
    intros (i & Hi & Hin)%list_elem_of_fmap. apply Hr. apply list_elem_of_In in Hin.
    apply in_map_iff in Hin as (r' & <- & [Hin _]%filter_In). simpl in Hi. rewrite Hi.
    apply list_elem_of_In. by apply in_map. }
  by apply Hf.
Qed.

Lemma filter_all {A} (P : A -> Prop) `{!forall x, Decision (P x)} (l : list A) :
  Forall P l -> filter P l = l.
Proof. induction 1 as [|x l Hx _ IH]; [done|]. by rewrite filter_cons_True, IH. Qed.

(** C37: the cleanup frees every abandoned import.  On a table that meets its
    constraints and holds canonical checksums it always succeeds; afterwards each
    import that was being processed and had not been touched for thirty minutes
    is failed, with the timeout reason and code and the current time, every other
    import is as it was, and the result is how many there were. *)
Theorem cleanup_frees_abandoned t :
  constraints_ok t -> map_Forall (fun k r => ir_id r = k) t ->
  (forall k i, shown t !! k = Some i -> checksum_ok i) ->
  exists t', cleanup_abandoned_imports now t = (Ok (len (rows_where abandoned_row t)), t') /\
    shown t' = (fun i => if abandoned i then timed_out now i else i) <$> shown t.
Proof.
  intros Hc Hk Hsum. set (l := map row_to_import (rows_where abandoned_row t)).
  assert (Hl : Forall (fun i => abandoned i = true) l).
  { apply Forall_forall. intros i Hi. apply list_elem_of_In, in_map_iff in Hi as (r & <- & Hin).
    apply list_elem_of_In, elem_of_rows_where in Hin as [Hr _]. by rewrite <- abandoned_row_shown. }
  assert (Hrun : cleanup_abandoned_imports now t =
    (Ok (len (rows_where abandoned_row t)), write_all (map (timed_out now) l) t)).
  { unfold cleanup_abandoned_imports. erewrite eff_bind_ok by (unfold find_abandoned; reflexivity).
    change (map row_to_import (rows_where _ t)) with l. rewrite fail_abandoned_spec.
    assert (Hloop := loop_run (map (timed_out now) l) t Hc). destruct l as [|i0 l0] eqn:El.
    { unfold l in El. apply map_eq_nil in El. by rewrite El. }
    rewrite <- El in *. erewrite eff_bind_ok.
    2:{ apply Hloop. apply Forall_map. eapply Forall_impl; [exact Hl|]. simpl. apply timed_out_failed. }
    unfold mret, eff_ret. simpl. do 2 f_equal. unfold len.
    rewrite filter_all.
    - unfold l. by rewrite length_map.
    - eapply Forall_impl; [exact Hl|]. intros i Hi. by apply abandoned_live. }
  eexists. split; [exact Hrun|]. apply map_eq. intros k. unfold shown at 1. rewrite lookup_fmap.
  assert (Hnd : NoDup (im_id <$> map (timed_out now) l)).
  { assert (im_id <$> map (timed_out now) l = im_id <$> l) as ->; [|by apply NoDup_selected].
    clear. induction l as [|i l IH]; [done|]. simpl. f_equal; [|exact IH].
    unfold timed_out. by destruct (is_terminal _). }
  rewrite write_all_lookup by done. rewrite lookup_fmap. unfold shown. rewrite lookup_fmap.
  destruct (t !! k) as [r|] eqn:Hr; simpl; [|by destruct (List.find _ _)].
  assert (checksum_ok (row_to_import r)) as Hcr by (apply (Hsum k); unfold shown; by rewrite lookup_fmap, Hr).
  destruct (List.find _ _) as [i|] eqn:Hf; simpl.
  - apply find_some in Hf as [Hin Hid%bool_decide_eq_true].
    apply in_map_iff in Hin as (i0 & <- & Hin0). pose proof Hin0 as Hin1.
    apply in_map_iff in Hin1 as (r0 & <- & [Ha [k0 Hk0]]%list_elem_of_In%elem_of_rows_where).
    assert (im_id (timed_out now (row_to_import r0)) = ir_id r0) as E
      by (unfold timed_out; by destruct (is_terminal _)).
    rewrite E in Hid. rewrite (Hk k0 r0 Hk0) in Hid. subst k0. assert (r0 = r) as -> by congruence.
    rewrite <- abandoned_row_shown, Ha. f_equal. apply row_import_update.
    + intros c. unfold timed_out. destruct (is_terminal _); [apply Hcr|]. apply Hcr.
    + unfold timed_out. destruct (is_terminal _); by repeat split.
  - destruct (abandoned (row_to_import r)) eqn:Ha; [|done].
    exfalso. assert (In (timed_out now (row_to_import r)) (map (timed_out now) l)) as Hin.
    { apply in_map, in_map, list_elem_of_In, elem_of_rows_where. rewrite abandoned_row_shown. eauto. }
    eapply find_none in Hf; [|exact Hin]. apply bool_decide_eq_false in Hf. apply Hf.
    unfold timed_out. rewrite (abandoned_live _ Ha). simpl. by apply Hk.
Qed.
End cleanup.

(** An import left in [Parsing] by a crashed worker, seen an hour later. *)
Definition stuck_table : gmap N ImportRow :=
  {[ 1%N := mkImportRow 1 5 (Some 7%N) (lit "gpx") (lit "parsing") None None None (lit "k1") None None 0 0 ]}.

#[local] Instance sample_lower : UnicodeLower := map ascii_lower.

Lemma cleanup_frees_abandoned_witness :
  exists t', cleanup_abandoned_imports (H := PgImportRepository (lit "conflict") 3600000000000)
      3600000000000 stuck_table = (Ok 1%N, t') /\
    im_status <$> shown t' !! 1%N = Some Failed.
Proof.
  destruct (cleanup_frees_abandoned (lit "conflict") 3600000000000 stuck_table) as (t' & Hrun & Hshown).
  - apply (bool_decide_unpack _). by vm_compute.
  - apply map_Forall_singleton. done.
  - intros k i Hi c Hc. unfold shown, stuck_table in Hi. rewrite map_fmap_singleton in Hi.
    apply lookup_singleton_Some in Hi as [_ <-]. done.
  - exists t'. split; [exact Hrun|]. rewrite Hshown. by vm_compute.
Defined.
