(* ===== verification/PublicationCommit.v ===== *)
(** The transaction that publishes a draft
    (crates/infrastructure/src/publication_commit.rs), over the tables of
    Database.v.

    The hasher of the standard library, whose algorithm is unspecified, the
    parsing of UUIDs and the deserialisation of the stored geometry are
    parameters. *)
From S2P Require Import Prelude Float64 RustString Utf8 RecordedActivity RouteVersioning.
From S2P Require Import ActivityCatalog DraftPersistence Database ImportCommit.

(** [DefaultHasher] over the draft id, the revision and the summary. *)
Class PayloadHasher := hash_payload : uuid -> N -> option rstr -> N.

(** A point of the stored geometry. *)
Record GeometryPoint := mkGeometryPoint {
  gp_latitude : f64; gp_longitude : f64; gp_elevation : option f64 }.

(** [serde_json::from_value] of the geometry. *)
Class GeometryJson := geometry_from_value : Json -> rstr + list (list GeometryPoint).

(** [{:016x}]. *)
Definition hex_digit (n : N) : N := if (n <? 10)%N then (48 + n)%N else (87 + n)%N.
Fixpoint hex_digits (count : nat) (n : N) : rstr :=
  match count with
  | O => []
  | S count => hex_digits count (n / 16) ++ [hex_digit (n mod 16)]
  end.

Definition compute_payload_fingerprint `{PayloadHasher} (data : PublicationCommitData) : rstr :=
  hex_digits 16 (u64_wrap (hash_payload (pcd_draft_id data) (pcd_expected_revision data)
                             (pcd_edit_summary data))).

(** [hash\[i % 16\] ^= *b], and [Uuid::from_bytes]. *)
Definition fold_bytes (l : bytes) : list N :=
  fold_left (fun acc ib => alter (N.lxor ib.2) (ib.1 mod 16) acc) (imap pair l) (replicate 16 0%N).
Definition uuid_from_bytes (l : list N) : uuid := fold_left (fun acc b => acc * 256 + b)%N l 0%N.

Definition correlation_of_key `{UuidParser} (key : rstr) : uuid :=
  match uuid_parse key with inr u => u | inl _ => uuid_from_bytes (fold_bytes (as_bytes key)) end.

(** ** Statistics of the flattened points *)

Section distance.
Context `{Libm}.

Definition point_haversine (lat1 lon1 lat2 lon2 : f64) : f64 :=
  let r := f64_of_Z 6371000 in
  let lat1_rad := to_radians lat1 in
  let lat2_rad := to_radians lat2 in
  let dlat := to_radians (f64_sub lat2 lat1) in
  let dlon := to_radians (f64_sub lon2 lon1) in
  let h := f64_add (powi2 (f64_sin (f64_div dlat f64_two)))
             (f64_mul (f64_mul (f64_cos lat1_rad) (f64_cos lat2_rad))
                      (powi2 (f64_sin (f64_div dlon f64_two)))) in
  f64_mul (f64_mul f64_two r) (f64_asin (f64_sqrt h)).

Definition points_distance (coords : list (f64 * f64)) : f64 :=
  if (len coords <? 2)%N then f64_zero
  else fold_left (fun total w => f64_add total (point_haversine w.1.1 w.1.2 w.2.1 w.2.2))
         (windows2 coords) f64_zero.
End distance.

Section commit.
Context `{SqlxDisplay} `{UuidDisplay} `{UuidParser} `{PayloadHasher} `{GeometryJson} `{Libm}.

Definition persistence_error (what : rstr) (e : DbError) : RouteVersioningError :=
  VPersistenceError (what ++ lit ": " ++ sqlx_display e).

Definition flat_coords (segments : list (list GeometryPoint)) : list (f64 * f64) :=
  map (fun p => (gp_latitude p, gp_longitude p)) (concat segments).

Definition bounding_box_value (coords : list (f64 * f64)) : Json :=
  let min_lat := fold_left f64_min (map fst coords) f64_MAX in
  let max_lat := fold_left f64_max (map fst coords) f64_MIN in
  let min_lon := fold_left f64_min (map snd coords) f64_MAX in
  let max_lon := fold_left f64_max (map snd coords) f64_MIN in
  let corner lat lon := JObject [(lit "latitude", json_f64 lat); (lit "longitude", json_f64 lon)] in
  JObject [(lit "south_west", corner min_lat min_lon); (lit "north_east", corner max_lat max_lon)].

Definition corrected_value (coords : list (f64 * f64)) : Json :=
  JObject [(lit "distance_meters", json_f64 (points_distance coords));
           (lit "point_count", JInt (Z.of_N (len coords)));
           (lit "calculation_version", JString (lit "v1.0"))].

(** ** Step 1: idempotency *)

Definition find_publication_event (correlation_id : uuid) (d : Database) : option OutboxRow :=
  head (List.filter (fun r => bool_decide (obr_aggregate_type r = lit "route_version") &&
                              bool_decide (obr_correlation_id r = Some correlation_id))
          (map snd (map_to_list (db_outbox d)))).

Definition replay (data : PublicationCommitData) (fingerprint : rstr) (correlation_id : uuid)
    : eff Database RouteVersioningError (option PublicationResult) :=
  d ← get;
  match find_publication_event correlation_id d with
  | None => mret None
  | Some event =>
      lift (guard_err
        match json_get (lit "_fingerprint") (obr_payload event) ≫= json_as_str with
        | Some stored => negb (bool_decide (stored = fingerprint))
        | None => false
        end IdempotencyConflict);;
      version_id ← lift match uuid_parse (obr_aggregate_id event) with
                        | inr u => Ok u
                        | inl e => Err (VPersistenceError (lit "invalid aggregate_id in outbox: " ++ e))
                        end;
      mret ((fun r => mkPublicationResult version_id (rvr_version_number r) (pcd_draft_id data)
                        (rvr_corrected_statistics_json r)) <$> db_versions d !! version_id)
  end.

(** ** Steps 2 and 3: the locked draft *)

Definition load_locked_draft (draft_id : uuid) : stmt (option LockedDraftRow) :=
  d ← get;
  match db_route_drafts d with
  | None => throw (UndefinedTable (lit "route_editing.route_drafts"))
  | Some t => mret (t !! draft_id)
  end.

Definition checked_draft (data : PublicationCommitData)
    : eff Database RouteVersioningError LockedDraftRow :=
  found ← eff_map_err (persistence_error (lit "failed to load draft"))
            (load_locked_draft (pcd_draft_id data));
  draft ← lift (ok_or found VDraftNotFound);
  lift (guard_err (negb (bool_decide (ldr_owner_id draft = pcd_actor_id data))) NotAuthorized);;
  lift (guard_err (negb (bool_decide (ldr_state draft = lit "active"))) VDraftNotActive);;
  lift (guard_err (negb (u64_of_i64 (ldr_revision draft) =? pcd_expected_revision data)%N)
          (VRevisionConflict (pcd_expected_revision data) (u64_of_i64 (ldr_revision draft))));;
  mret draft.

(** ** Step 5: the latest version *)

(** [ORDER BY version_number DESC LIMIT 1]. *)
Definition newer (best : option RouteVersionRow) (r : RouteVersionRow) : option RouteVersionRow :=
  match best with
  | Some b => if (rvr_version_number b <? rvr_version_number r)%Z then Some r else Some b
  | None => Some r
  end.

Definition latest_version (activity_id : uuid) (d : Database) : option RouteVersionRow :=
  fold_left newer
    (List.filter (fun r => bool_decide (rvr_activity_id r = activity_id))
       (map snd (map_to_list (db_versions d)))) None.

(** ** Steps 6 to 10: the writes *)

Definition published_row (now : datetime) (new_id : uuid) (data : PublicationCommitData)
    (draft : LockedDraftRow) (latest : RouteVersionRow) (coords : list (f64 * f64))
    : RouteVersionRow :=
  mkVersionRow new_id (ldr_activity_id draft) (Some (rvr_id latest))
    (i32_of (rvr_version_number latest + 1)) (ldr_geometry_json draft) (bounding_box_value coords)
    (corrected_value coords) (lit "v1.0") (pcd_edit_summary data) (pcd_actor_id data) now.

Definition insert_version (r : RouteVersionRow) (parent : uuid) : stmt unit :=
  unique_among (lit "route_versions") db_versions (fun x =>
    bool_decide (rvr_activity_id x = rvr_activity_id r) &&
    (rvr_version_number x =? rvr_version_number r)%Z);;
  references (lit "route_versions") db_versions parent;;
  references (lit "route_versions") db_activities (rvr_activity_id r);;
  insert_pk (lit "route_versions") db_versions set_versions (rvr_id r) r.

Definition with_current_version (now : datetime) (version_id : uuid) (corrected : Json)
    (r : ActivityRow) : ActivityRow :=
  mkActivityRow (ar_id r) (ar_owner_id r) (ar_title r) (ar_activity_type r) (ar_lifecycle_state r)
    (ar_started_at r) (ar_ended_at r) (ar_recorded_summary r) (Some corrected) (Some version_id)
    (ar_created_at r) now.

Definition update_current_version (now : datetime) (activity_id version_id : uuid)
    (corrected : Json) : stmt unit :=
  references (lit "activities") db_versions version_id;;
  modify (fun d => set_activities
    (alter (with_current_version now version_id corrected) activity_id (db_activities d)) d).

Definition set_published (now : datetime) (r : LockedDraftRow) : LockedDraftRow :=
  mkLockedDraft (ldr_id r) (ldr_owner_id r) (ldr_activity_id r) (lit "published") (ldr_revision r)
    (ldr_geometry_json r) now.

Definition close_draft (now : datetime) (draft_id : uuid) : stmt unit :=
  d ← get;
  match db_route_drafts d with
  | None => throw (UndefinedTable (lit "route_editing.route_drafts"))
  | Some t => put (set_route_drafts (Some (alter (set_published now) draft_id t)) d)
  end.

Definition publication_metadata (data : PublicationCommitData) (r : RouteVersionRow) : Json :=
  JObject [(lit "draft_id", JString (uuid_display (pcd_draft_id data)));
           (lit "activity_id", JString (uuid_display (rvr_activity_id r)));
           (lit "version_number", JInt (rvr_version_number r))].

Definition publication_payload (data : PublicationCommitData) (r : RouteVersionRow)
    (fingerprint : rstr) : Json :=
  JObject [(lit "route_version_id", JString (uuid_display (rvr_id r)));
           (lit "activity_id", JString (uuid_display (rvr_activity_id r)));
           (lit "draft_id", JString (uuid_display (pcd_draft_id data)));
           (lit "version_number", JInt (rvr_version_number r));
           (lit "actor_id", JString (uuid_display (pcd_actor_id data)));
           (lit "_fingerprint", JString fingerprint)].

Definition store_version (now : datetime) (audit_id outbox_id : uuid) (data : PublicationCommitData)
    (fingerprint : rstr) (correlation_id : uuid) (parent : uuid) (r : RouteVersionRow)
    : eff Database RouteVersioningError unit :=
  eff_map_err (persistence_error (lit "failed to insert route version")) (insert_version r parent);;
  eff_map_err (persistence_error (lit "failed to update activity current version"))
    (update_current_version now (rvr_activity_id r) (rvr_id r) (rvr_corrected_statistics_json r));;
  eff_map_err (persistence_error (lit "failed to update draft state"))
    (close_draft now (pcd_draft_id data));;
  eff_map_err (persistence_error (lit "failed to write audit event"))
    (append_in_tx now audit_id (pcd_actor_id data) (lit "route_version.published")
       (lit "route_version") (uuid_display (rvr_id r)) (Some (publication_metadata data r)));;
  eff_map_err (persistence_error (lit "failed to write outbox event"))
    (outbox_publish now outbox_id (lit "route_version") (uuid_display (rvr_id r))
       (lit "RouteVersionPublished") (publication_payload data r fingerprint)
       (Some correlation_id));;
  mret tt.

Definition publication_statements (now : datetime) (new_version_id audit_id outbox_id : uuid)
    (data : PublicationCommitData) : eff Database RouteVersioningError PublicationResult :=
  let correlation_id := correlation_of_key (pcd_idempotency_key data) in
  let fingerprint := compute_payload_fingerprint data in
  replayed ← replay data fingerprint correlation_id;
  match replayed with
  | Some r => mret r
  | None =>
      draft ← checked_draft data;
      segments ← lift match geometry_from_value (ldr_geometry_json draft) with
                      | inr s => Ok s
                      | inl e => Err (VValidationFailed [lit "failed to parse draft geometry: " ++ e])
                      end;
      let coords := flat_coords segments in
      lift (guard_err (len coords <? 2)%N
              (VValidationFailed [lit "geometry must have at least 2 points"]));;
      d ← get;
      latest ← lift (ok_or (latest_version (ldr_activity_id draft) d) VActivityNotFound);
      let r := published_row now new_version_id data draft latest coords in
      store_version now audit_id outbox_id data fingerprint correlation_id (rvr_id latest) r;;
      mret (mkPublicationResult new_version_id (rvr_version_number r) (pcd_draft_id data)
              (corrected_value coords))
  end.

(** An early [return Ok(..)] drops the transaction, which has only read then. *)
Definition pg_commit_publication (now : datetime) (new_version_id audit_id outbox_id : uuid)
    (data : PublicationCommitData) : eff Database RouteVersioningError PublicationResult :=
  transaction (publication_statements now new_version_id audit_id outbox_id data).
End commit.
