(* ===== verification/PublicationCommitTheory.v ===== *)
(** The publication transaction: a new version exactly when the draft may be
    published, all or nothing; retries with the same key; and what it does on the
    schema of the migrations. *)
From S2P Require Import Prelude Float64 RustString Utf8 RecordedActivity RouteVersioning.
From S2P Require Import ActivityCatalog DraftPersistence Database ImportCommit ImportCommitTheory.
From S2P Require Import PublicationCommit.

Section publication.
Context `{SqlxDisplay} `{UuidDisplay} `{UuidParser} `{PayloadHasher} `{GeometryJson} `{Libm}.

(** The committer's own statistics are those of the domain
    (CorrectedStatistics::calculate_from_geometry). *)
Lemma points_distance_domain coords :
  points_distance coords =
    compute_total_distance (map (fun p => mkCoordinate (fst p) (snd p)) coords).
Proof.
  unfold points_distance, compute_total_distance, len. rewrite length_map.
  destruct (_ <? _)%N; [done|].
  assert (forall l, windows2 (map (fun p => mkCoordinate (fst p) (snd p)) l) =
    map (fun w => (mkCoordinate w.1.1 w.1.2, mkCoordinate w.2.1 w.2.2)) (windows2 l)) as ->.
  { induction l as [|x [|y l] IH]; [done..|].
    change (windows2 (x :: y :: l)) with ((x, y) :: windows2 (y :: l)).
    change (windows2 (map _ (x :: y :: l))) with
      ((mkCoordinate x.1 x.2, mkCoordinate y.1 y.2) ::
        windows2 (map (fun p => mkCoordinate (fst p) (snd p)) (y :: l))).
    by rewrite IH. }
  generalize f64_zero. induction (windows2 coords) as [|w l IH]; intros acc; [done|]. simpl. by rewrite IH.
Qed.

(** ** The specification *)

(** The draft may be published by this request. *)
Definition publishable_now (data : PublicationCommitData) (d : Database) (draft : LockedDraftRow)
    (coords : list (f64 * f64)) (latest : RouteVersionRow) : Prop :=
  (exists drafts, db_route_drafts d = Some drafts /\ drafts !! pcd_draft_id data = Some draft) /\
  ldr_owner_id draft = pcd_actor_id data /\ ldr_state draft = lit "active" /\
  u64_of_i64 (ldr_revision draft) = pcd_expected_revision data /\
  (exists segments, geometry_from_value (ldr_geometry_json draft) = inr segments /\
     coords = flat_coords segments) /\
  (2 <= len coords)%N /\ latest_version (ldr_activity_id draft) d = Some latest.

(** Its rows can be inserted. *)
Definition insertable (vid aid oid : uuid) (d : Database) (r : RouteVersionRow) : Prop :=
  db_versions d !! vid = None /\ db_audit_log d !! aid = None /\ db_outbox d !! oid = None /\
  is_Some (db_activities d !! rvr_activity_id r) /\
  (forall k x, db_versions d !! k = Some x ->
     bool_decide (rvr_activity_id x = rvr_activity_id r) &&
     (rvr_version_number x =? rvr_version_number r)%Z = false).

(** The database after the publication. *)
Definition published_db (now : datetime) (aid oid : uuid) (data : PublicationCommitData)
    (r : RouteVersionRow) (d : Database) : Database :=
  mkDb (db_users d) (db_imports d) (db_artifacts d) (db_revisions d) (db_tracks d)
    (alter (with_current_version now (rvr_id r) (rvr_corrected_statistics_json r))
       (rvr_activity_id r) (db_activities d))
    (<[rvr_id r := r]> (db_versions d))
    (alter (set_published now) (pcd_draft_id data) <$> db_route_drafts d)
    (<[aid := mkAuditRow aid (pcd_actor_id data) (lit "route_version.published")
         (lit "route_version") (uuid_display (rvr_id r)) (Some (publication_metadata data r)) now]>
       (db_audit_log d))
    (<[oid := mkOutboxRow oid (lit "route_version") (uuid_display (rvr_id r))
         (lit "RouteVersionPublished")
         (publication_payload data r (compute_payload_fingerprint data)) now None None None 0
         (Some (correlation_of_key (pcd_idempotency_key data)))]> (db_outbox d)).

(** ** The latest version *)

Lemma latest_fold l best :
  match fold_left newer l best with
  | Some b => (b ∈ l \/ best = Some b) /\
      (forall x, x ∈ l \/ best = Some x -> (rvr_version_number x <= rvr_version_number b)%Z)
  | None => l = [] /\ best = None
  end.
Proof.
  revert best. induction l as [|r l IH]; intros best; simpl.
  - destruct best as [b|]; [|done]. split; [by right|]. intros x [[]%elem_of_nil | [= ->]]. lia.
  - assert (exists y, newer best r = Some y /\ (y = r \/ best = Some y) /\
      (rvr_version_number r <= rvr_version_number y)%Z /\
      forall x, best = Some x -> (rvr_version_number x <= rvr_version_number y)%Z) as (y & Hy & Hy' & Hry & Hby).
    { destruct best as [b0|]; simpl; [|eexists; split_and!; eauto; [lia|done]].
      destruct (Z.ltb_spec (rvr_version_number b0) (rvr_version_number r)); eexists; split_and!; eauto; try lia;
        intros x [= ->]; lia. }
    specialize (IH (newer best r)). rewrite Hy in *.
    destruct (fold_left newer l (Some y)) as [b|]; [|by destruct IH].
    destruct IH as [Hb Hall]. split.
    + destruct Hb as [Hb | [= ->]]; [left; by right|]. destruct Hy' as [-> | Hy']; [left; left|by right].
    + intros x [[-> | Hx]%elem_of_cons | Hx].
      * specialize (Hall y ltac:(by right)). lia.
      * apply Hall. by left.
      * specialize (Hall y ltac:(by right)). specialize (Hby x Hx). lia.
Qed.

Lemma elem_of_activity_versions a d r :
  r ∈ List.filter (fun r => bool_decide (rvr_activity_id r = a)) (map snd (map_to_list (db_versions d))) <->
  (exists k, db_versions d !! k = Some r) /\ rvr_activity_id r = a.
Proof.
  rewrite list_elem_of_In, List.filter_In, bool_decide_eq_true, <- list_elem_of_In, list_elem_of_fmap.
  split.
  - intros [([k x] & -> & Hx%elem_of_map_to_list) Ha]. eauto.
  - intros [[k Hk] Ha]. split; [|done]. exists (k, r). by rewrite elem_of_map_to_list.
Qed.

Lemma latest_version_spec a d r :
  latest_version a d = Some r ->
  (exists k, db_versions d !! k = Some r) /\ rvr_activity_id r = a /\
  forall k x, db_versions d !! k = Some x -> rvr_activity_id x = a ->
    (rvr_version_number x <= rvr_version_number r)%Z.
Proof.
  unfold latest_version. intros Hl.
  pose proof (latest_fold (List.filter (fun r => bool_decide (rvr_activity_id r = a))
    (map snd (map_to_list (db_versions d)))) None) as Hf.
  simpl in Hf. rewrite Hl in Hf. destruct Hf as [[Hr | Hr] Hall]; [|done].
  apply elem_of_activity_versions in Hr as [Hk Ha]. split; [done|]. split; [done|].
  intros k x Hx Hxa. apply Hall. left. apply elem_of_activity_versions. eauto.
Qed.

(** ** The run *)

Context (now : datetime) (vid aid oid : uuid) (data : PublicationCommitData).

Ltac next H :=
  let a := fresh "a" in let d := fresh "d" in let Hs := fresh "Hs" in
  apply eff_bind_inv in H as (a & d & Hs & H).

Lemma store_version_ok fp cid parent r d u d' :
  store_version now aid oid data fp cid parent r d = (Ok u, d') ->
  insertable (rvr_id r) aid oid d r /\ fp = fp /\
  d' = mkDb (db_users d) (db_imports d) (db_artifacts d) (db_revisions d) (db_tracks d)
    (alter (with_current_version now (rvr_id r) (rvr_corrected_statistics_json r))
       (rvr_activity_id r) (db_activities d))
    (<[rvr_id r := r]> (db_versions d))
    (alter (set_published now) (pcd_draft_id data) <$> db_route_drafts d)
    (<[aid := mkAuditRow aid (pcd_actor_id data) (lit "route_version.published")
         (lit "route_version") (uuid_display (rvr_id r)) (Some (publication_metadata data r)) now]>
       (db_audit_log d))
    (<[oid := mkOutboxRow oid (lit "route_version") (uuid_display (rvr_id r))
         (lit "RouteVersionPublished") (publication_payload data r fp) now None None None 0 (Some cid)]>
       (db_outbox d)).
Proof.
  unfold store_version. intros Hc.
  next Hc. apply eff_map_err_ok in Hs. unfold insert_version in Hs.
  next Hs. apply unique_among_ok in Hs0 as [Hun ->]. next Hs. apply references_ok in Hs0 as [_ ->].
  next Hs. apply references_ok in Hs0 as [Hact ->]. apply insert_pk_ok in Hs as [Hvid ->].
  next Hc. apply eff_map_err_ok in Hs. unfold update_current_version in Hs.
  next Hs. apply references_ok in Hs0 as [_ ->]. injection Hs as <- <-.
  next Hc. apply eff_map_err_ok in Hs. unfold close_draft in Hs. next Hs. injection Hs0 as <- <-.
  simpl in Hs. destruct (db_route_drafts d) as [t|]; [|done]. injection Hs as <- <-.
  next Hc. apply eff_map_err_ok in Hs. unfold append_in_tx in Hs. next Hs.
  apply insert_pk_ok in Hs0 as [Haud ->]. injection Hs as <- <-.
  next Hc. apply eff_map_err_ok in Hs. unfold outbox_publish in Hs. next Hs.
  apply insert_pk_ok in Hs0 as [Hout ->]. injection Hs as <- <-. injection Hc as <- <-. simpl in *.
  split; [by split_and!|done].
Qed.

Lemma checked_draft_ok d draft d' :
  checked_draft data d = (Ok draft, d') ->
  d' = d /\ (exists drafts, db_route_drafts d = Some drafts /\ drafts !! pcd_draft_id data = Some draft) /\
  ldr_owner_id draft = pcd_actor_id data /\ ldr_state draft = lit "active" /\
  u64_of_i64 (ldr_revision draft) = pcd_expected_revision data.
Proof.
  unfold checked_draft, load_locked_draft, eff_map_err. run.
  destruct (db_route_drafts d) as [t|]; [|done]. destruct (t !! pcd_draft_id data) as [x|] eqn:Hx; [|done].
  simpl. unfold guard_err. repeat case_bool_decide; simpl; try done.
  destruct (N.eqb_spec (u64_of_i64 (ldr_revision x)) (pcd_expected_revision data)); simpl; [|done].
  intros [= -> ->]. split_and!; eauto.
Qed.

Lemma checked_draft_run d draft drafts :
  db_route_drafts d = Some drafts -> drafts !! pcd_draft_id data = Some draft ->
  ldr_owner_id draft = pcd_actor_id data -> ldr_state draft = lit "active" ->
  u64_of_i64 (ldr_revision draft) = pcd_expected_revision data ->
  checked_draft data d = (Ok draft, d).
Proof.
  intros Ht Hd Ho Hs Hr. unfold checked_draft, load_locked_draft, eff_map_err. run. rewrite Ht, Hd. simpl.
  unfold guard_err. rewrite !bool_decide_eq_true_2, Hr, N.eqb_refl by done. done.
Qed.

Lemma store_version_run fp cid parent r d drafts :
  insertable (rvr_id r) aid oid d r -> is_Some (db_versions d !! parent) ->
  db_route_drafts d = Some drafts ->
  exists d', store_version now aid oid data fp cid parent r d = (Ok tt, d').
Proof.
  intros (Hvid & Haud & Hout & Hact & Hun) Hp Hd. eexists. unfold store_version.
  erewrite eff_bind_ok.
  2:{ apply eff_map_err_run. unfold insert_version. erewrite eff_bind_ok by (by apply unique_among_run).
      erewrite eff_bind_ok by (by apply references_run). erewrite eff_bind_ok by (by apply references_run).
      by apply insert_pk_run. }
  erewrite eff_bind_ok.
  2:{ apply eff_map_err_run. unfold update_current_version.
      erewrite eff_bind_ok by (apply references_run; simpl; rewrite lookup_insert_eq; eauto). done. }
  erewrite eff_bind_ok.
  2:{ apply eff_map_err_run. unfold close_draft. erewrite eff_bind_ok by done. simpl. by rewrite Hd. }
  erewrite eff_bind_ok.
  2:{ apply eff_map_err_run. unfold append_in_tx. by erewrite eff_bind_ok by (by apply insert_pk_run). }
  erewrite eff_bind_ok.
  2:{ apply eff_map_err_run. unfold outbox_publish. by erewrite eff_bind_ok by (by apply insert_pk_run). }
  done.
Qed.

Abbreviation cid := (correlation_of_key (pcd_idempotency_key data)).

Lemma replay_new d fp : find_publication_event cid d = None -> replay data fp cid d = (Ok None, d).
Proof. intros Hn. unfold replay. run. by rewrite Hn. Qed.

Lemma publication_ok d res d' :
  find_publication_event cid d = None ->
  publication_statements now vid aid oid data d = (Ok res, d') ->
  exists draft coords latest, let r := published_row now vid data draft latest coords in
    publishable_now data d draft coords latest /\ insertable vid aid oid d r /\
    d' = published_db now aid oid data r d /\
    res = mkPublicationResult vid (rvr_version_number r) (pcd_draft_id data) (corrected_value coords).
Proof.
  intros Hnew. unfold publication_statements. erewrite eff_bind_ok by (by apply replay_new). intros Hc.
  next Hc. rename a into draft. apply checked_draft_ok in Hs as (-> & Hdr & Hown & Hst & Hrev).
  next Hc. rename a into segments.
  destruct (geometry_from_value (ldr_geometry_json draft)) as [e|s] eqn:Hg; [done|]. injection Hs as <- <-.
  next Hc. unfold guard_err in Hs. destruct (N.ltb_spec (len (flat_coords s)) 2) as [|Hlen]; [done|].
  injection Hs as <- <-. next Hc. injection Hs as <- <-.
  next Hc. rename a into latest. injection Hs as Hs ->. apply ok_or_inv in Hs.
  next Hc. injection Hc as <- <-.
  apply store_version_ok in Hs0 as (Hins & _ & ->).
  exists draft, (flat_coords s), latest. split; [|split; [exact Hins|done]].
  unfold publishable_now. split_and!; eauto.
Qed.

Lemma publication_run d draft coords latest :
  map_Forall (fun k r => rvr_id r = k) (db_versions d) ->
  find_publication_event cid d = None -> publishable_now data d draft coords latest ->
  insertable vid aid oid d (published_row now vid data draft latest coords) ->
  exists res d', publication_statements now vid aid oid data d = (Ok res, d').
Proof.
  intros Hkeyed Hnew ((drafts & Hdrafts & Hdraft) & Hown & Hst & Hrev & (s & Hg & ->) & Hlen & Hlat) Hins.
  destruct (latest_version_spec _ _ _ Hlat) as ([k Hk] & _).
  destruct (store_version_run (compute_payload_fingerprint data) cid (rvr_id latest)
    (published_row now vid data draft latest (flat_coords s)) d drafts) as [d' Hd'];
    [exact Hins|exists latest; by rewrite (Hkeyed k latest Hk)|done|].
  eexists _, d'. unfold publication_statements. erewrite eff_bind_ok by (by apply replay_new). cbn beta iota.
  erewrite eff_bind_ok by (by eapply checked_draft_run). rewrite Hg.
  erewrite eff_bind_ok by done. cbn beta iota zeta. unfold guard_err.
  destruct (N.ltb_spec (len (flat_coords s)) 2); [lia|].
  erewrite eff_bind_ok by done. erewrite eff_bind_ok by done. rewrite Hlat. erewrite eff_bind_ok by done.
  erewrite eff_bind_ok by exact Hd'. done.
Qed.

Lemma filter_perm {A} (f : A -> bool) (l k : list A) :
  l ≡ₚ k -> List.filter f l ≡ₚ List.filter f k.
Proof.
  induction 1 as [|x l k _ IH|x y l|l k m _ IH1 _ IH2]; simpl.
  - done.
  - destruct (f x); [by constructor|done].
  - destruct (f x), (f y); try done. by constructor.
  - by rewrite IH1.
Qed.

(** The event of a publication is found under its key. *)
Lemma find_event_insert c d r d' :
  find_publication_event c d = None -> db_outbox d !! oid = None ->
  obr_aggregate_type r = lit "route_version" -> obr_correlation_id r = Some c ->
  db_outbox d' = <[oid := r]> (db_outbox d) -> find_publication_event c d' = Some r.
Proof.
  unfold find_publication_event. intros Hn Ho Ht Hc ->. apply head_None in Hn.
  set (f := fun r : OutboxRow => _) in *.
  assert (map snd (map_to_list (<[oid := r]> (db_outbox d))) ≡ₚ r :: map snd (map_to_list (db_outbox d))) as Hp.
  { exact (fmap_Permutation snd _ _ (map_to_list_insert (db_outbox d) oid r Ho)). }
  apply (filter_perm f) in Hp. cbn [List.filter] in Hp. rewrite Hn in Hp.
  assert (f r = true) as Hf by (unfold f; by rewrite Ht, Hc, !bool_decide_eq_true_2).
  rewrite Hf in Hp. apply Permutation_singleton_r in Hp. by rewrite Hp.
Qed.

(** C13: publishing makes the next version, all or nothing.  On a request whose
    key has not been used, the transaction succeeds exactly when the draft is
    there, active, owned by the actor, at the expected revision, readable and of
    at least two points, the activity has a version, and the new rows violate no
    constraint.  Then there is one new version row, numbered one above the latest
    of its activity (which no version of it exceeds), with the latest as its
    parent and the draft's stored geometry; the activity points at it and shows
    its statistics, the draft is published, one audit and one outbox row record
    it, and nothing else has changed.  Otherwise nothing has changed at all. *)
Theorem publication_commit_correct d :
  map_Forall (fun k r => rvr_id r = k) (db_versions d) ->
  find_publication_event cid d = None ->
  match pg_commit_publication now vid aid oid data d with
  | (Ok res, d') =>
      exists draft coords latest, let r := published_row now vid data draft latest coords in
        publishable_now data d draft coords latest /\ insertable vid aid oid d r /\
        (forall k x, db_versions d !! k = Some x -> rvr_activity_id x = ldr_activity_id draft ->
           (rvr_version_number x <= rvr_version_number latest)%Z) /\
        d' = published_db now aid oid data r d /\
        res = mkPublicationResult vid (rvr_version_number r) (pcd_draft_id data) (corrected_value coords)
  | (_, d') =>
      d' = d /\ forall draft coords latest, publishable_now data d draft coords latest ->
        ~ insertable vid aid oid d (published_row now vid data draft latest coords)
  end.
Proof.
  intros Hkeyed Hnew. unfold pg_commit_publication, transaction.
  destruct (publication_statements now vid aid oid data d) as [[res|e|] d'] eqn:Hc.
  - destruct (publication_ok d res d' Hnew Hc) as (draft & coords & latest & Hp & Hi & Hd & Hr).
    exists draft, coords, latest. split; [done|]. split; [done|]. split; [|done].
    destruct Hp as (_ & _ & _ & _ & _ & _ & Hlat). by destruct (latest_version_spec _ _ _ Hlat) as (_ & _ & ?).
  - split; [done|]. intros draft coords latest Hp Hi.
    destruct (publication_run d draft coords latest Hkeyed Hnew Hp Hi) as (res & d'' & He). congruence.
  - split; [done|]. intros draft coords latest Hp Hi.
    destruct (publication_run d draft coords latest Hkeyed Hnew Hp Hi) as (res & d'' & He). congruence.
Qed.

(** On the schema of the migrations nothing can be published.  The drafts are
    in route_editing.drafts; the transaction reads route_editing.route_drafts,
    which no migration creates.  As long as that relation does not exist, no
    request ever succeeds: each fails with a persistence error and changes
    nothing, so no publication event ever comes to be either. *)
Theorem nothing_can_be_published d :
  db_route_drafts d = None -> find_publication_event cid d = None ->
  pg_commit_publication now vid aid oid data d =
    (Err (VPersistenceError (lit "failed to load draft: " ++
            sqlx_display (UndefinedTable (lit "route_editing.route_drafts")))), d).
Proof.
  intros Hd Hnew. unfold pg_commit_publication, transaction, publication_statements.
  erewrite eff_bind_ok by (by apply replay_new). cbn beta iota.
  unfold checked_draft, load_locked_draft, eff_map_err. run. by rewrite Hd.
Qed.

#[local] Opaque compute_payload_fingerprint.

(** What the search for an earlier event answers once the version is there. *)
Lemma replay_published data1 data' event r d1 :
  find_publication_event (correlation_of_key (pcd_idempotency_key data')) d1 = Some event ->
  obr_aggregate_id event = uuid_display (rvr_id r) ->
  obr_payload event = publication_payload data1 r (compute_payload_fingerprint data1) ->
  uuid_parse (uuid_display (rvr_id r)) = inr (rvr_id r) -> db_versions d1 !! rvr_id r = Some r ->
  replay data' (compute_payload_fingerprint data') (correlation_of_key (pcd_idempotency_key data')) d1 =
    if decide (compute_payload_fingerprint data' = compute_payload_fingerprint data1)
    then (Ok (Some (mkPublicationResult (rvr_id r) (rvr_version_number r) (pcd_draft_id data')
                      (rvr_corrected_statistics_json r))), d1)
    else (Err IdempotencyConflict, d1).
Proof.
  intros He Ha Hp Hu Hv. unfold replay. run. rewrite He, Ha, Hp.
  change (json_get (lit "_fingerprint") (publication_payload data1 r (compute_payload_fingerprint data1)))
    with (Some (JString (compute_payload_fingerprint data1))).
  simpl. unfold guard_err. destruct (decide _) as [Hf|Hf].
  - rewrite Hf, bool_decide_eq_true_2 by done. simpl. rewrite Hu. simpl. by rewrite Hv.
  - by rewrite bool_decide_eq_false_2 by congruence.
Qed.

(** A publication can be repeated safely.  Once a request with a fresh key
    has published a version, sending it again gives the same answer, whatever the
    clock and the random identifiers, and changes nothing; a request with the same
    key but another fingerprint is a conflict; and the same actor publishing the
    same draft under a key that is still unused is told that the draft is not
    active.  None of them changes anything. *)
Theorem publication_repeats_safely d res d' :
  (forall u, uuid_parse (uuid_display u) = inr u) ->
  find_publication_event cid d = None ->
  pg_commit_publication now vid aid oid data d = (Ok res, d') ->
  (forall now' vid' aid' oid', pg_commit_publication now' vid' aid' oid' data d' = (Ok res, d')) /\
  (forall now' vid' aid' oid' data',
     pcd_idempotency_key data' = pcd_idempotency_key data ->
     compute_payload_fingerprint data' <> compute_payload_fingerprint data ->
     pg_commit_publication now' vid' aid' oid' data' d' = (Err IdempotencyConflict, d')) /\
  (forall now' vid' aid' oid' data',
     pcd_draft_id data' = pcd_draft_id data -> pcd_actor_id data' = pcd_actor_id data ->
     find_publication_event (correlation_of_key (pcd_idempotency_key data')) d' = None ->
     pg_commit_publication now' vid' aid' oid' data' d' = (Err VDraftNotActive, d')).
Proof.
  intros Huuid Hnew Hrun. unfold pg_commit_publication, transaction in Hrun.
  destruct (publication_statements now vid aid oid data d) as [[res0|e|] d0] eqn:Hc; [|done..].
  injection Hrun as <- <-.
  destruct (publication_ok d res0 d0 Hnew Hc) as (draft & coords & latest & Hp & Hi & Hd & Hr).
  set (r := published_row now vid data draft latest coords) in *.
  assert (Hev : find_publication_event cid d0 = Some (mkOutboxRow oid (lit "route_version")
    (uuid_display vid) (lit "RouteVersionPublished")
    (publication_payload data r (compute_payload_fingerprint data)) now None None None 0 (Some cid))).
  { eapply find_event_insert; [exact Hnew|apply Hi|done|done|]. by rewrite Hd. }
  assert (Hv : db_versions d0 !! vid = Some r) by (rewrite Hd; apply lookup_insert_eq).
  assert (Hreplay : forall data', pcd_idempotency_key data' = pcd_idempotency_key data ->
    replay data' (compute_payload_fingerprint data') (correlation_of_key (pcd_idempotency_key data')) d0 =
    if decide (compute_payload_fingerprint data' = compute_payload_fingerprint data)
    then (Ok (Some (mkPublicationResult vid (rvr_version_number r) (pcd_draft_id data')
                      (corrected_value coords))), d0)
    else (Err IdempotencyConflict, d0)).
  { intros data' Hk. refine (replay_published data data' _ r d0 _ _ _ (Huuid vid) Hv);
      [by rewrite Hk|done|done]. }
  unfold pg_commit_publication, transaction, publication_statements. split_and!.
  - intros. erewrite eff_bind_ok.
    2:{ rewrite (Hreplay data eq_refl). by rewrite decide_True. }
    simpl. rewrite Hr. done.
  - intros now' vid' aid' oid' data' Hk Hne. erewrite eff_bind_err; [done|].
    rewrite (Hreplay data' Hk). by rewrite decide_False.
  - intros now' vid' aid' oid' data' Hdr Hac Hfree.
    erewrite eff_bind_ok by (unfold replay; run; by rewrite Hfree). cbn beta iota.
    destruct Hp as ((drafts & Hdrafts & Hdraft) & Hown & _).
    erewrite eff_bind_err; [done|]. unfold checked_draft, load_locked_draft, eff_map_err. run.
    assert (db_route_drafts d0 = Some (alter (set_published now) (pcd_draft_id data) drafts)) as ->
      by (rewrite Hd; simpl; by rewrite Hdrafts).
    rewrite Hdr, lookup_alter_eq, Hdraft. simpl.
    unfold guard_err. rewrite bool_decide_eq_true_2 by (by rewrite Hac). simpl. done.
Qed.
End publication.

(** ** A draft that is published *)

#[local] Instance sample_uuid : UuidDisplay := fun u => [u].
#[local] Instance sample_parser : UuidParser := fun s =>
  match s with [u] => inr u | _ => inl (lit "invalid length") end.
#[local] Instance sample_libm : Libm :=
  {| f64_sin := fun x => x; f64_cos := fun x => x; f64_asin := fun x => x |}.
#[local] Instance sample_sqlx : SqlxDisplay := fun _ => lit "violation".
#[local] Instance sample_hasher : PayloadHasher := fun id revision _ => (id * 1000 + revision)%N.
#[local] Instance sample_geometry : GeometryJson := fun _ =>
  inr [[mkGeometryPoint f64_zero f64_zero None]; [mkGeometryPoint f64_zero f64_two None]].

(** Draft 3 of activity 4, whose version 6 is the first. *)
Definition draft_db : Database :=
  mkDb {[ 5%N ]} ∅ ∅ ∅ ∅
    {[ 4%N := mkActivityRow 4 5 (lit "Walk") (lit "hike") (lit "active") None None None None (Some 6%N) 0 0 ]}
    {[ 6%N := mkVersionRow 6 4 None 1 JNull JNull JNull (lit "v1.0") None 5 0 ]}
    (Some {[ 3%N := mkLockedDraft 3 5 4 (lit "active") 2 JNull 0 ]}) ∅ ∅.
Definition draft_request : PublicationCommitData := mkCommitData 3 2 5 (lit "key") None.

Lemma publication_commit_correct_witness :
  exists res d', pg_commit_publication 9 11 12 13 draft_request draft_db = (Ok res, d') /\
    pr_version_number res = 2%Z.
Proof.
  assert (Hkeyed : map_Forall (fun k r => rvr_id r = k) (db_versions draft_db)).
  { by apply map_Forall_singleton. }
  assert (Hfree : find_publication_event (correlation_of_key (lit "key")) draft_db = None) by done.
  assert (Hrun : is_ok (fst (pg_commit_publication 9 11 12 13 draft_request draft_db)) = true) by (vm_compute; reflexivity).
  pose proof (publication_commit_correct 9 11 12 13 draft_request draft_db Hkeyed Hfree) as Hc.
  destruct (pg_commit_publication _ _ _ _ _ _) as [[res|e|] d']; [|done..].
  destruct Hc as (draft & coords & latest & Hp & _ & _ & _ & ->). eexists _, d'. split; [reflexivity|].
  destruct Hp as ((drafts & Hd & Hdraft) & _ & _ & _ & _ & _ & Hlat).
  injection Hd as <-. injection Hdraft as <-. vm_compute in Hlat. by injection Hlat as <-.
Defined.

Lemma nothing_can_be_published_witness :
  snd (pg_commit_publication 9 11 12 13 draft_request (set_route_drafts None draft_db)) =
    set_route_drafts None draft_db.
Proof. by rewrite nothing_can_be_published. Defined.

Lemma publication_repeats_safely_witness :
  let '(res, d') := pg_commit_publication 9 11 12 13 draft_request draft_db in
  pg_commit_publication 10 21 22 23 draft_request d' = (res, d').
Proof.
  assert (Hrun : is_ok (fst (pg_commit_publication 9 11 12 13 draft_request draft_db)) = true) by (vm_compute; reflexivity).
  destruct (pg_commit_publication 9 11 12 13 draft_request draft_db) as [[res|e|] d'] eqn:He; [|done..].
  apply (publication_repeats_safely 9 11 12 13 draft_request draft_db res d'); done.
Defined.
