(* ===== verification/Outbox.v ===== *)
(** The outbox and its dispatcher (crates/infrastructure/src/outbox.rs), over the
    table platform.outbox.

    The source registers no handler, so handlers are parameters: functions on a
    state of their own.  [clock id] is the time at which the dispatcher marks the
    event with that id. *)
From S2P Require Import Prelude Float64 RustString RouteVersioning Sorting Database.

Record OutboxEvent := mkOutboxEvent {
  oe_id : uuid; oe_aggregate_type : rstr; oe_aggregate_id : rstr; oe_event_type : rstr;
  oe_payload : Json; oe_created_at : datetime; oe_retry_count : Z;
  oe_correlation_id : option uuid }.

Abbreviation outbox_table := (gmap N OutboxRow) (only parsing).

(** ** The table *)

(** [processed_at IS NULL AND failed_at IS NULL]. *)
Definition unprocessed (r : OutboxRow) : bool :=
  bool_decide (obr_processed_at r = None) && bool_decide (obr_failed_at r = None).

(** [ORDER BY created_at ASC]. *)
Definition created_before (r r' : OutboxRow) : bool := (obr_created_at r <? obr_created_at r')%Z.

Definition row_to_event (r : OutboxRow) : OutboxEvent :=
  mkOutboxEvent (obr_id r) (obr_aggregate_type r) (obr_aggregate_id r) (obr_event_type r)
    (obr_payload r) (obr_created_at r) (obr_retry_count r) (obr_correlation_id r).

(** The oldest rows; the outer query selects the same rows by id in the same order. *)
Definition poll_unprocessed (batch_size : Z) : eff outbox_table DbError (list OutboxEvent) :=
  t ← get;
  if (batch_size <? 0)%Z then throw NegativeLimit
  else mret (map row_to_event
    (firstn (Z.to_nat batch_size)
       (sort_by created_before (List.filter unprocessed (map snd (map_to_list t)))))).

Definition set_processed (now : datetime) (r : OutboxRow) : OutboxRow :=
  mkOutboxRow (obr_id r) (obr_aggregate_type r) (obr_aggregate_id r) (obr_event_type r)
    (obr_payload r) (obr_created_at r) (Some now) (obr_failed_at r) (obr_error_message r)
    (obr_retry_count r) (obr_correlation_id r).

Definition mark_processed (now : datetime) (event_id : uuid) : eff outbox_table DbError unit :=
  modify (alter (set_processed now) event_id).

Definition is_processed (event_id : uuid) : eff outbox_table DbError bool :=
  t ← get;
  mret (from_option (fun r => bool_decide (is_Some (obr_processed_at r))) false (t !! event_id)).

(** [failed] is the time of failure, if the row fails for good. *)
Definition set_retried (failed : option datetime) (count : Z) (message : rstr) (r : OutboxRow)
    : OutboxRow :=
  mkOutboxRow (obr_id r) (obr_aggregate_type r) (obr_aggregate_id r) (obr_event_type r)
    (obr_payload r) (obr_created_at r) (obr_processed_at r)
    (match failed with Some now => Some now | None => obr_failed_at r end) (Some message)
    count (obr_correlation_id r).

Definition mark_failed (now : datetime) (event_id : uuid) (error_message : rstr) (max_retries : Z)
    : eff outbox_table DbError unit :=
  t ← get;
  row ← lift (ok_or (t !! event_id) RowNotFound);
  let new_retry_count := i32_of (obr_retry_count row + 1) in
  if (max_retries <=? new_retry_count)%Z
  then modify (alter (set_retried (Some now) new_retry_count error_message) event_id)
  else modify (alter (set_retried None new_retry_count error_message) event_id).

(** ** The dispatcher *)

Record EventHandler (S : Type) := mkEventHandler {
  eh_event_type : rstr;
  eh_handle : OutboxEvent -> eff S rstr unit }.
Arguments mkEventHandler {S} _ _.
Arguments eh_event_type {S} _.
Arguments eh_handle {S} _ _.

Section dispatcher.
Context {S : Type} (handlers : list (EventHandler S)) (max_retries : Z) (clock : uuid -> datetime).

(** The table, and the state of the handlers. *)
Definition on_outbox {A} (m : eff outbox_table DbError A) : eff (outbox_table * S) DbError A :=
  fun ts => let '(r, t) := m ts.1 in (r, (t, ts.2)).
Definition on_handlers {E A} (m : eff S E A) : eff (outbox_table * S) E A :=
  fun ts => let '(r, s) := m ts.2 in (r, (ts.1, s)).

Definition find_event_handler (type : rstr) : option (EventHandler S) :=
  List.find (fun h => bool_decide (eh_event_type h = type)) handlers.

Definition no_event_handler (type : rstr) : rstr :=
  lit "no handler registered for event type: " ++ type.

(** [match handler]: what it adds to [processed]. *)
Definition handle_and_mark (event : OutboxEvent) : eff (outbox_table * S) DbError N :=
  match find_event_handler (oe_event_type event) with
  | Some h =>
      res ← attempt (on_handlers (eh_handle h event));
      match res with
      | Ok _ => on_outbox (mark_processed (clock (oe_id event)) (oe_id event));; mret 1%N
      | Err e => on_outbox (mark_failed (clock (oe_id event)) (oe_id event) e max_retries);; mret 0%N
      | Panicked => panic
      end
  | None =>
      on_outbox (mark_failed (clock (oe_id event)) (oe_id event)
                   (no_event_handler (oe_event_type event)) max_retries);;
      mret 0%N
  end.

(** The body of the inner loop. *)
Definition process_event (event : OutboxEvent) : eff (outbox_table * S) DbError N :=
  done ← on_outbox (is_processed (oe_id event));
  if done : bool then mret 0%N else handle_and_mark event.

(** A loop that adds to [processed]. *)
Fixpoint sum_loop {A} (l : list A) (body : A -> eff (outbox_table * S) DbError N) (processed : N)
    : eff (outbox_table * S) DbError N :=
  match l with
  | [] => mret processed
  | x :: l' => n ← body x; sum_loop l' body (processed + n)
  end.

Fixpoint push_group (event : OutboxEvent) (groups : list (rstr * list OutboxEvent))
    : list (rstr * list OutboxEvent) :=
  match groups with
  | [] => [(oe_aggregate_id event, [event])]
  | group :: groups' =>
      if decide (fst group = oe_aggregate_id event) then (fst group, snd group ++ [event]) :: groups'
      else group :: push_group event groups'
  end.

Definition aggregate_groups (events : list OutboxEvent) : list (rstr * list OutboxEvent) :=
  fold_left (fun groups e => push_group e groups) events [].

Definition event_before (e e' : OutboxEvent) : bool := (oe_created_at e <? oe_created_at e')%Z.

Definition process_batch (batch_size : Z) : eff (outbox_table * S) DbError N :=
  events ← on_outbox (poll_unprocessed batch_size);
  let groups := map (fun g => (fst g, sort_by event_before (snd g))) (aggregate_groups events) in
  sum_loop groups (fun g => sum_loop (snd g) process_event 0) 0.
End dispatcher.
