(* ===== verification/OutboxTheory.v ===== *)
(** The dispatcher of the outbox: what a batch does, in which order, that every
    event is settled, and what two dispatchers can do to each other. *)
From stdpp Require Import sorting.
From S2P Require Import Prelude Float64 RustString RouteVersioning Sorting Database Outbox.

#[local] Open Scope Z_scope.

(** ** Grouping *)

Definition of_aggregate (a : rstr) (e : OutboxEvent) : bool := bool_decide (oe_aggregate_id e = a).

(** The groups of [events], one for each of [keys]. *)
Definition groups_of (keys : list rstr) (events : list OutboxEvent) : list (rstr * list OutboxEvent) :=
  map (fun a => (a, List.filter (of_aggregate a) events)) keys.

Lemma filter_none {A} (f : A -> bool) l : (forall x, x ∈ l -> f x = false) -> List.filter f l = [].
Proof.
  induction l as [|x l IH]; intros Hf; [done|]. simpl. rewrite Hf by left.
  apply IH. intros y Hy. apply Hf. by right.
Qed.

Lemma filter_snoc_same e l : List.filter (of_aggregate (oe_aggregate_id e)) (l ++ [e]) =
  List.filter (of_aggregate (oe_aggregate_id e)) l ++ [e].
Proof. rewrite List.filter_app. simpl. unfold of_aggregate at 2. by rewrite bool_decide_eq_true_2. Qed.

Lemma filter_snoc_other a e l : oe_aggregate_id e <> a ->
  List.filter (of_aggregate a) (l ++ [e]) = List.filter (of_aggregate a) l.
Proof.
  intros Ha. rewrite List.filter_app. simpl. unfold of_aggregate at 2.
  by rewrite bool_decide_eq_false_2, app_nil_r.
Qed.

Lemma groups_snoc_other keys events e :
  oe_aggregate_id e ∉ keys -> groups_of keys (events ++ [e]) = groups_of keys events.
Proof.
  intros He. apply map_ext_in. intros a Ha%list_elem_of_In.
  rewrite filter_snoc_other; [done|]. intros <-. done.
Qed.

Lemma push_group_old keys events e :
  NoDup keys -> oe_aggregate_id e ∈ keys ->
  push_group e (groups_of keys events) = groups_of keys (events ++ [e]).
Proof.
  induction 1 as [|a keys Ha Hnd IH]; intros Hin; [by apply elem_of_nil in Hin|].
  simpl. case_decide as He.
  - subst a. by rewrite filter_snoc_same, groups_snoc_other.
  - rewrite filter_snoc_other by done. f_equal. apply IH.
    apply elem_of_cons in Hin as [Hin|]; [congruence|done].
Qed.

Lemma push_group_new keys events e :
  oe_aggregate_id e ∉ keys -> (forall x, x ∈ events -> oe_aggregate_id x ∈ keys) ->
  push_group e (groups_of keys events) = groups_of (keys ++ [oe_aggregate_id e]) (events ++ [e]).
Proof.
  intros Hn Hall. unfold groups_of at 2. rewrite map_app. simpl. fold (groups_of keys (events ++ [e])).
  rewrite filter_snoc_same, groups_snoc_other by done.
  rewrite (filter_none _ events).
  2:{ intros x Hx. apply bool_decide_eq_false_2. intros He. apply Hn. rewrite <- He. by apply Hall. }
  clear Hall. induction keys as [|a keys IH]; [done|]. rewrite not_elem_of_cons in Hn.
  destruct Hn as [Ha Hn]. simpl. rewrite decide_False by congruence. simpl. f_equal. by apply IH.
Qed.

(** The dispatcher's grouping. *)
Lemma aggregate_groups_spec events :
  exists keys, NoDup keys /\ (forall x, x ∈ events -> oe_aggregate_id x ∈ keys) /\
    aggregate_groups events = groups_of keys events.
Proof.
  unfold aggregate_groups. induction events as [|e events IH] using rev_ind.
  - exists []. split_and!; [constructor| |done]. by intros x Hx%elem_of_nil.
  - destruct IH as (keys & Hnd & Hall & IH). rewrite fold_left_app, IH. simpl.
    destruct (decide (oe_aggregate_id e ∈ keys)) as [He|He].
    + exists keys. rewrite push_group_old by done. split_and!; [done| |done].
      intros x [Hx|Hx%list_elem_of_singleton]%elem_of_app; [by apply Hall|by subst x].
    + exists (keys ++ [oe_aggregate_id e]). rewrite push_group_new by done. split_and!; [| |done].
      * apply NoDup_app. split_and!; [done| |apply NoDup_singleton].
        by intros a Ha ->%list_elem_of_singleton.
      * intros x [Hx|Hx%list_elem_of_singleton]%elem_of_app; apply elem_of_app; [left; by apply Hall|right].
        subst x. by apply list_elem_of_singleton.
Qed.

(** What the groups hold together, in order. *)
Definition dispatch_order (groups : list (rstr * list OutboxEvent)) : list OutboxEvent :=
  concat (map snd groups).

Lemma order_of_aggregate a keys events :
  NoDup keys -> (forall x, x ∈ events -> oe_aggregate_id x ∈ keys) ->
  List.filter (of_aggregate a) (dispatch_order (groups_of keys events)) =
    List.filter (of_aggregate a) events.
Proof.
  intros Hnd Hall. unfold dispatch_order, groups_of. rewrite map_map. simpl.
  assert (forall b l, List.filter (of_aggregate a) (List.filter (of_aggregate b) l) =
    if decide (a = b) then List.filter (of_aggregate a) l else []) as Hff.
  { intros b l. induction l as [|x l IH]; simpl; [by case_decide|].
    destruct (of_aggregate b x) eqn:Hb; simpl; [|].
    - rewrite IH. unfold of_aggregate in *. apply bool_decide_eq_true in Hb. rewrite Hb.
      case_decide as Ha; [by rewrite bool_decide_eq_true_2|by rewrite bool_decide_eq_false_2].
    - rewrite IH. unfold of_aggregate in *. apply bool_decide_eq_false in Hb.
      case_decide as Ha; [|done]. subst b. by rewrite bool_decide_eq_false_2. }
  destruct (decide (a ∈ keys)) as [Ha|Ha].
  - clear Hall. induction Hnd as [|b keys Hb Hnd IH]; [by apply elem_of_nil in Ha|].
    simpl. rewrite List.filter_app, Hff. case_decide as Hab.
    + subst b. rewrite (filter_none _ (concat _)); [by rewrite app_nil_r|]. intros x Hx.
      apply list_elem_of_In, in_concat in Hx as (l & (b & <- & Hb')%in_map_iff & Hx).
      apply List.filter_In in Hx as [_ Hx]. unfold of_aggregate in *. apply bool_decide_eq_true in Hx.
      apply bool_decide_eq_false_2. intros <-. apply Hb. subst b. by apply list_elem_of_In.
    + simpl. apply IH. by apply elem_of_cons in Ha as [|].
  - rewrite (filter_none _ events).
    2:{ intros x Hx. apply bool_decide_eq_false_2. intros He. apply Ha. rewrite <- He. by apply Hall. }
    apply filter_none. intros x Hx.
    apply list_elem_of_In, in_concat in Hx as (l & (b & <- & Hb')%in_map_iff & Hx).
    apply List.filter_In in Hx as [Hx _]. apply bool_decide_eq_false_2. intros He. apply Ha.
    rewrite <- He. apply Hall. by apply list_elem_of_In.
Qed.

Lemma order_perm keys events :
  NoDup keys -> (forall x, x ∈ events -> oe_aggregate_id x ∈ keys) ->
  dispatch_order (groups_of keys events) ≡ₚ events.
Proof.
  intros Hnd. unfold dispatch_order, groups_of. rewrite map_map. simpl. revert events.
  induction Hnd as [|a keys Ha Hnd IH]; intros events Hall; simpl.
  - destruct events as [|x l]; [done|]. specialize (Hall x ltac:(left)). by apply elem_of_nil in Hall.
  - set (others := List.filter (fun e => negb (of_aggregate a e)) events).
    assert (events ≡ₚ List.filter (of_aggregate a) events ++ others) as Hp.
    { unfold others. clear. induction events as [|x l IH]; [done|]. simpl.
      destruct (of_aggregate a x); simpl; [by rewrite <- IH|].
      rewrite <- Permutation_middle. by rewrite <- IH. }
    rewrite Hp at 2. apply Permutation_app_head. rewrite <- (IH others).
    + apply Permutation_refl'. f_equal. apply map_ext_in. intros b Hb%list_elem_of_In.
      assert (a <> b) as Hab by (intros ->; done). unfold others. clear -Hab.
      induction events as [|x l IH]; [done|]. simpl. unfold of_aggregate in *.
      destruct (decide (oe_aggregate_id x = a)) as [He|He].
      * rewrite (bool_decide_eq_true_2 _ He). simpl. rewrite bool_decide_eq_false_2 by congruence. done.
      * rewrite (bool_decide_eq_false_2 _ He). simpl. by rewrite IH.
    + intros x Hx%list_elem_of_In. apply List.filter_In in Hx as [Hx Hn]. apply list_elem_of_In in Hx.
      specialize (Hall x Hx). apply elem_of_cons in Hall as [He|]; [|done].
      unfold of_aggregate in Hn. by rewrite bool_decide_eq_true_2 in Hn.
Qed.

(** ** Polling *)

Definition events_keyed (t : outbox_table) : Prop := map_Forall (fun k r => obr_id r = k) t.

(** The pending rows, oldest first. *)
Definition pending (t : outbox_table) : list OutboxRow :=
  sort_by created_before (List.filter unprocessed (map snd (map_to_list t))).

Definition created_le (r r' : OutboxRow) : Prop := obr_created_at r <= obr_created_at r'.

Lemma pending_sorted t : StronglySorted created_le (pending t).
Proof.
  apply sort_by_sorted; unfold created_before, created_le; intros *;
    rewrite ?Z.ltb_lt, ?Z.ltb_ge; lia.
Qed.

Lemma pending_perm t : pending t ≡ₚ List.filter unprocessed (map snd (map_to_list t)).
Proof.
  apply (sort_by_perm _ created_le); unfold created_before, created_le; intros *;
    rewrite ?Z.ltb_lt, ?Z.ltb_ge; lia.
Qed.

Lemma elem_of_pending t r : r ∈ pending t <-> unprocessed r = true /\ exists k, t !! k = Some r.
Proof.
  rewrite pending_perm, list_elem_of_In, List.filter_In, <- list_elem_of_In, list_elem_of_fmap.
  split.
  - intros (([k x] & -> & Hk%elem_of_map_to_list) & Hu). eauto.
  - intros (Hu & k & Hk). split; [|done]. exists (k, r). split; [done|]. by apply elem_of_map_to_list.
Qed.

Lemma poll_unprocessed_run n t :
  0 <= n -> poll_unprocessed n t = (Ok (map row_to_event (firstn (Z.to_nat n) (pending t))), t).
Proof. intros Hn. unfold poll_unprocessed. run. destruct (Z.ltb_spec n 0); [lia|done]. Qed.

Lemma StronglySorted_app_l {A} (R : A -> A -> Prop) l k :
  StronglySorted R (l ++ k) -> StronglySorted R l.
Proof.
  induction l as [|x l IH]; intros Hs; [constructor|]. apply StronglySorted_inv in Hs as [Hs HF].
  rewrite Forall_app in HF. constructor; [by apply IH|apply HF].
Qed.

Lemma StronglySorted_filter {A} (R : A -> A -> Prop) f l :
  StronglySorted R l -> StronglySorted R (List.filter f l).
Proof.
  induction 1 as [|x l Hl IH HF]; simpl; [constructor|]. destruct (f x); [|done].
  constructor; [done|]. rewrite Forall_forall in *. intros y Hy%list_elem_of_In.
  apply List.filter_In in Hy as [Hy _]. apply HF. by apply list_elem_of_In.
Qed.

Definition event_le (e e' : OutboxEvent) : Prop := oe_created_at e <= oe_created_at e'.

(** A batch: the oldest pending events, in the order of creation. *)
Lemma batch_sorted n t :
  StronglySorted event_le (map row_to_event (firstn n (pending t))).
Proof.
  assert (StronglySorted created_le (firstn n (pending t))) as Hs.
  { apply (StronglySorted_app_l _ _ (skipn n (pending t))). rewrite take_drop. apply pending_sorted. }
  induction Hs as [|r l Hl IH HF]; simpl; constructor; [done|]. by apply Forall_map.
Qed.

Lemma batch_unprocessed n t e :
  events_keyed t -> e ∈ map row_to_event (firstn n (pending t)) ->
  exists r, t !! oe_id e = Some r /\ e = row_to_event r /\ unprocessed r = true.
Proof.
  intros Hk (r & -> & Hr)%list_elem_of_fmap.
  assert (r ∈ pending t) as [Hu [k Hr']]%elem_of_pending.
  { rewrite <- (take_drop n). apply elem_of_app. by left. }
  exists r. split_and!; [|done|done]. simpl. by rewrite (Hk k r Hr').
Qed.

Lemma pending_ids t : events_keyed t -> NoDup (map obr_id (pending t)).
Proof.
  intros Hk. assert (NoDup (pending t)) as Hnd.
  { rewrite pending_perm. apply NoDup_List_filter. by apply (NoDup_snd_map_to_list obr_id). }
  apply (NoDup_fmap_2_strong obr_id); [|done].
  intros r r' [_ [k Hr]]%elem_of_pending [_ [k' Hr']]%elem_of_pending He.
  rewrite (Hk k r Hr), (Hk k' r' Hr') in He. congruence.
Qed.

Lemma batch_ids n t :
  events_keyed t -> NoDup (map oe_id (map row_to_event (firstn n (pending t)))).
Proof.
  intros Hk. rewrite map_map. simpl. rewrite <- firstn_map.
  pose proof (pending_ids t Hk) as Hnd. rewrite <- (take_drop n (map obr_id (pending t))) in Hnd.
  by apply NoDup_app in Hnd as [? _].
Qed.

(** ** One event *)

Section dispatcher.
Context {S : Type} (handlers : list (EventHandler S)) (max_retries : Z).

(** A handler returns, possibly an error. *)
Definition handlers_return : Prop :=
  forall h e s, h ∈ handlers -> fst (eh_handle h e s) <> Panicked.

(** What handling an event comes to: nothing, or a message. *)
Definition outcome (e : OutboxEvent) (s : S) : option rstr * S :=
  match find_event_handler handlers (oe_event_type e) with
  | Some h =>
      match eh_handle h e s with
      | (Ok _, s') => (None, s')
      | (Err m, s') => (Some m, s')
      | (Panicked, s') => (Some [], s')
      end
  | None => (Some (no_event_handler (oe_event_type e)), s)
  end.

(** The row of an event after an attempt. *)
Definition attempted (now : datetime) (o : option rstr) (r : OutboxRow) : OutboxRow :=
  match o with
  | None => set_processed now r
  | Some m =>
      let count := i32_of (obr_retry_count r + 1) in
      set_retried (if max_retries <=? count then Some now else None) count m r
  end.

(** The attempts at a list of events, one after the other. *)
Fixpoint attempts (l : list OutboxEvent) (s : S) : list (OutboxEvent * option rstr) * S :=
  match l with
  | [] => ([], s)
  | e :: l' =>
      let '(o, s1) := outcome e s in
      let '(os, s2) := attempts l' s1 in ((e, o) :: os, s2)
  end.

Definition succeeded (os : list (OutboxEvent * option rstr)) : N :=
  len (List.filter (fun eo => bool_decide (snd eo = None)) os).

Definition mark (clock : uuid -> datetime) (t : outbox_table) (eo : OutboxEvent * option rstr)
    : outbox_table :=
  alter (attempted (clock (oe_id (fst eo))) (snd eo)) (oe_id (fst eo)) t.

Lemma attempts_app l k s :
  attempts (l ++ k) s =
    (fst (attempts l s) ++ fst (attempts k (snd (attempts l s))), snd (attempts k (snd (attempts l s)))).
Proof.
  revert s. induction l as [|e l IH]; intros s; simpl; [by destruct (attempts k s)|].
  destruct (outcome e s) as [o s1]. rewrite IH. by destruct (attempts l s1) as [os s2].
Qed.

Lemma attempts_events l s : map fst (fst (attempts l s)) = l.
Proof.
  revert s. induction l as [|e l IH]; intros s; simpl; [done|].
  destruct (outcome e s) as [o s1]. specialize (IH s1). destruct (attempts l s1) as [os s2].
  simpl in *. by rewrite IH.
Qed.

Context (clock : uuid -> datetime) (Hreturn : handlers_return).

Lemma handle_and_mark_run e t s r :
  t !! oe_id e = Some r ->
  handle_and_mark handlers max_retries clock e (t, s) =
    (Ok (if decide (fst (outcome e s) = None) then 1%N else 0%N),
     (mark clock t (e, fst (outcome e s)), snd (outcome e s))).
Proof using All.
  intros Hr. unfold handle_and_mark, outcome, mark.
  assert (Hfail : forall m (s' : S),
    (on_outbox (mark_failed (clock (oe_id e)) (oe_id e) m max_retries);; mret 0%N) (t, s') =
      (@Ok DbError _ 0%N, (alter (attempted (clock (oe_id e)) (Some m)) (oe_id e) t, s'))).
  { intros m s'. unfold on_outbox, mark_failed, ok_or. run. cbn [fst snd]. rewrite Hr.
    unfold modify. replace (alter (attempted _ _) _ _) with (alter (set_retried
        (if max_retries <=? i32_of (obr_retry_count r + 1) then Some (clock (oe_id e)) else None)
        (i32_of (obr_retry_count r + 1)) m) (oe_id e) t); [by destruct (_ <=? _)|].
    apply map_eq. intros k. destruct (decide (k = oe_id e)) as [->|Hk].
    - by rewrite !lookup_alter_eq, Hr.
    - by rewrite !lookup_alter_ne by done. }
  destruct (find_event_handler handlers (oe_event_type e)) as [h|] eqn:Hh.
  - assert (h ∈ handlers) as Hin.
    { apply find_some in Hh as [Hh _]. by apply list_elem_of_In. }
    specialize (Hreturn h e s Hin). destruct (eh_handle h e s) as [[[]|m|] s'] eqn:He; [| |done].
    + unfold on_handlers. run. cbn [fst snd]. rewrite He. done.
    + erewrite eff_bind_ok by (unfold on_handlers, attempt; cbn [fst snd]; by rewrite He).
      apply Hfail.
  - apply Hfail.
Qed.

Lemma process_event_run e t s r :
  t !! oe_id e = Some r -> obr_processed_at r = None ->
  process_event handlers max_retries clock e (t, s) =
    (Ok (if decide (fst (outcome e s) = None) then 1%N else 0%N),
     (mark clock t (e, fst (outcome e s)), snd (outcome e s))).
Proof using All.
  intros Hr Hp. unfold process_event. erewrite eff_bind_ok.
  2:{ unfold on_outbox, is_processed. run. cbn [fst snd]. rewrite Hr. simpl. rewrite Hp.
      rewrite bool_decide_eq_false_2; [reflexivity|]. by intros [? ?]. }
  cbn beta iota. by apply (handle_and_mark_run e t s r).
Qed.

Lemma mark_lookup_ne t eo k : k <> oe_id (fst eo) -> mark clock t eo !! k = t !! k.
Proof. intros Hk. unfold mark. by rewrite lookup_alter_ne. Qed.

(** ** One group, and all of them *)

Definition still_open (t : outbox_table) (e : OutboxEvent) : Prop :=
  exists r, t !! oe_id e = Some r /\ obr_processed_at r = None.

Lemma sum_loop_events l t s n :
  NoDup (map oe_id l) -> Forall (still_open t) l ->
  sum_loop l (process_event handlers max_retries clock) n (t, s) =
    (Ok (n + succeeded (fst (attempts l s)))%N,
     (fold_left (mark clock) (fst (attempts l s)) t, snd (attempts l s))).
Proof using All.
  revert t s n. induction l as [|e l IH]; intros t s n Hnd Hopen; simpl.
  - run. unfold succeeded. simpl. by rewrite N.add_0_r.
  - apply NoDup_cons in Hnd as [He Hnd]. apply Forall_cons in Hopen as [(r & Hr & Hp) Hopen].
    erewrite eff_bind_ok by (by apply (process_event_run e t s r)).
    destruct (outcome e s) as [o s1]. cbn [fst snd]. rewrite IH; [|done|].
    + destruct (attempts l s1) as [os s2]. cbn [fst snd]. f_equal. f_equal.
      unfold succeeded. simpl. case_decide as Ho; [rewrite bool_decide_eq_true_2 by done|
        rewrite bool_decide_eq_false_2 by done]; rewrite ?len_cons; lia.
    + apply Forall_forall. intros x Hx. rewrite Forall_forall in Hopen.
      destruct (Hopen x Hx) as (r' & Hr' & Hp'). exists r'. split; [|done].
      rewrite mark_lookup_ne; [done|]. simpl. intros Heq. apply He. rewrite <- Heq.
      by apply list_elem_of_fmap_2.
Qed.

Lemma marks_other os t k : k ∉ map oe_id (map fst os) -> fold_left (mark clock) os t !! k = t !! k.
Proof.
  revert t. induction os as [|eo os IH]; intros t Hk; simpl in *; [done|].
  apply not_elem_of_cons in Hk as [H1 H2]. rewrite IH by done. by apply mark_lookup_ne.
Qed.

Lemma succeeded_app os os' : succeeded (os ++ os') = (succeeded os + succeeded os')%N.
Proof. unfold succeeded. by rewrite List.filter_app, len_app. Qed.

Lemma sum_loop_groups groups t s n :
  NoDup (map oe_id (dispatch_order groups)) -> Forall (still_open t) (dispatch_order groups) ->
  let '(os, s') := attempts (dispatch_order groups) s in
  sum_loop groups (fun g => sum_loop (snd g) (process_event handlers max_retries clock) 0) n (t, s) =
    (Ok (n + succeeded os)%N, (fold_left (mark clock) os t, s')).
Proof using All.
  unfold dispatch_order. revert t s n. induction groups as [|g groups IH]; intros t s n Hnd Hopen; simpl in *.
  - run. unfold succeeded. simpl. by rewrite N.add_0_r.
  - rewrite map_app in Hnd. apply NoDup_app in Hnd as (Hnd1 & Hdisj & Hnd2).
    apply Forall_app in Hopen as [Ho1 Ho2]. rewrite attempts_app.
    erewrite eff_bind_ok by (by apply sum_loop_events).
    specialize (IH (fold_left (mark clock) (fst (attempts (snd g) s)) t) (snd (attempts (snd g) s))
      (n + (0 + succeeded (fst (attempts (snd g) s))))%N Hnd2).
    destruct (attempts (concat (map snd groups)) (snd (attempts (snd g) s))) as [os s'].
    rewrite IH; cbn [fst snd].
    + rewrite fold_left_app, succeeded_app. f_equal. f_equal. lia.
    + rewrite Forall_forall in *. intros x Hx. destruct (Ho2 x Hx) as (r & Hr & Hp).
      exists r. split; [|done]. rewrite marks_other; [done|]. rewrite attempts_events.
      intros Hin. apply (Hdisj _ Hin). by apply list_elem_of_fmap_2.
Qed.

(** ** A batch *)

Lemma fold_marks os t eo :
  NoDup (map oe_id (map fst os)) -> eo ∈ os ->
  fold_left (mark clock) os t !! oe_id (fst eo) =
    attempted (clock (oe_id (fst eo))) (snd eo) <$> t !! oe_id (fst eo).
Proof.
  revert t. induction os as [|x os IH]; intros t Hnd Hin; [by apply elem_of_nil in Hin|].
  simpl in *. apply NoDup_cons in Hnd as [Hx Hnd]. apply elem_of_cons in Hin as [-> | Hin].
  - rewrite marks_other by done. unfold mark. by rewrite lookup_alter_eq.
  - rewrite IH by done. rewrite mark_lookup_ne; [done|]. intros Heq. apply Hx. rewrite <- Heq.
    apply list_elem_of_fmap_2. by apply list_elem_of_fmap_2.
Qed.

(** The events of a batch in the order in which they are attempted. *)
Definition batch_of (batch_size : Z) (t : outbox_table) : list OutboxEvent :=
  map row_to_event (firstn (Z.to_nat batch_size) (pending t)).
Definition batch_order (batch_size : Z) (t : outbox_table) : list OutboxEvent :=
  dispatch_order (aggregate_groups (batch_of batch_size t)).

Lemma batch_order_perm n t : batch_order n t ≡ₚ batch_of n t.
Proof.
  unfold batch_order. destruct (aggregate_groups_spec (batch_of n t)) as (keys & Hnd & Hall & ->).
  by apply order_perm.
Qed.

(** Sorting the groups changes nothing, as the comment in the code expects. *)
Lemma sorted_groups n t :
  map (fun g => (fst g, sort_by event_before (snd g))) (aggregate_groups (batch_of n t)) =
    aggregate_groups (batch_of n t).
Proof.
  destruct (aggregate_groups_spec (batch_of n t)) as (keys & Hnd & Hall & ->).
  unfold groups_of. rewrite map_map. apply map_ext. intros a. simpl. f_equal.
  apply (sort_by_id _ event_le).
  - unfold event_le, event_before. intros x y Hxy. apply Z.ltb_ge. lia.
  - apply StronglySorted_filter, batch_sorted.
Qed.

Lemma process_batch_run n t s :
  events_keyed t -> 0 <= n ->
  process_batch handlers max_retries clock n (t, s) =
    let '(os, s') := attempts (batch_order n t) s in
    (Ok (succeeded os), (fold_left (mark clock) os t, s')).
Proof using All.
  intros Hk Hn. unfold process_batch.
  erewrite eff_bind_ok by (unfold on_outbox; cbn [fst snd]; by rewrite poll_unprocessed_run).
  fold (batch_of n t). cbn zeta. rewrite sorted_groups. unfold batch_order.
  pose proof (sum_loop_groups (aggregate_groups (batch_of n t)) t s 0) as Hrun.
  destruct (attempts _ s) as [os s']. rewrite Hrun; [by rewrite N.add_0_l| |];
    fold (batch_order n t).
  - pose proof (batch_order_perm n t) as Hp. apply (Permutation_map oe_id) in Hp.
    rewrite Hp. by apply batch_ids.
  - apply Forall_forall. intros e He. rewrite batch_order_perm in He.
    destruct (batch_unprocessed _ t e Hk He) as (r & Hr & _ & Hu). exists r. split; [done|].
    unfold unprocessed in Hu. apply andb_true_iff in Hu as [Hu _]. by apply bool_decide_eq_true in Hu.
Qed.

Lemma batch_oldest n t r k e :
  t !! k = Some r -> unprocessed r = true -> e ∈ batch_of n t ->
  row_to_event r ∉ batch_of n t -> oe_created_at e <= obr_created_at r.
Proof.
  intros Hr Hu He Hn. unfold batch_of in *. set (m := Z.to_nat n) in *.
  assert (r ∈ pending t) as Hp by (apply elem_of_pending; eauto).
  pose proof (pending_sorted t) as Hs. rewrite <- (take_drop m (pending t)) in Hp, Hs.
  apply elem_of_app in Hp as [Hp|Hp]; [destruct Hn; by apply list_elem_of_fmap_2|].
  apply list_elem_of_fmap in He as (x & -> & Hx). simpl.
  clear -Hs Hx Hp. induction (take m (pending t)) as [|y l IH]; [by apply elem_of_nil in Hx|].
  simpl in Hs. apply StronglySorted_inv in Hs as [Hs HF].
  apply elem_of_cons in Hx as [-> | Hx]; [|by apply IH].
  rewrite Forall_forall in HF. apply HF, elem_of_app. by right.
Qed.

(** C26: a batch of the outbox, in full.  It never fails.  It takes the oldest
    pending events, as many as it may, and gives each of them exactly once to the
    first handler of its type, the events of one aggregate in the order of their
    creation; an event without a handler fails with a message that says so.  It
    returns how many succeeded.  The row of an event that succeeded is marked as
    processed; the row of one that failed has one retry more and the message, and
    fails for good exactly when it has had its retries; no other row changes. *)
Theorem process_batch_correct n t s :
  events_keyed t -> 0 <= n ->
  exists order os s' t',
    process_batch handlers max_retries clock n (t, s) = (Ok (succeeded os), (t', s')) /\
    attempts order s = (os, s') /\
    NoDup (map oe_id order) /\ length order = min (Z.to_nat n) (length (pending t)) /\
    (forall a, StronglySorted event_le (List.filter (of_aggregate a) order)) /\
    (forall e k r, e ∈ order -> t !! k = Some r -> unprocessed r = true ->
       row_to_event r ∉ order -> oe_created_at e <= obr_created_at r) /\
    (forall e o, (e, o) ∈ os -> exists r, t !! oe_id e = Some r /\ e = row_to_event r /\
       unprocessed r = true /\ t' !! oe_id e = Some (attempted (clock (oe_id e)) o r)) /\
    (forall k, k ∉ map oe_id order -> t' !! k = t !! k).
Proof using All.
  intros Hk Hn. pose proof (process_batch_run n t s Hk Hn) as Hrun.
  destruct (attempts (batch_order n t) s) as [os s'] eqn:Ha.
  pose proof (attempts_events (batch_order n t) s) as Hev. rewrite Ha in Hev. simpl in Hev.
  pose proof (batch_order_perm n t) as Hp.
  assert (NoDup (map oe_id (batch_order n t))) as Hnd.
  { apply (Permutation_map oe_id) in Hp as Hpi. rewrite Hpi. by apply batch_ids. }
  eexists (batch_order n t), os, s', _. split_and!; [exact Hrun|exact Ha|exact Hnd| | | | |].
  - rewrite Hp. unfold batch_of. by rewrite length_map, length_firstn.
  - intros a. unfold batch_order.
    destruct (aggregate_groups_spec (batch_of n t)) as (keys & Hk1 & Hk2 & ->).
    rewrite order_of_aggregate by done. apply StronglySorted_filter, batch_sorted.
  - intros e k r He Hr Hu Hno. rewrite Hp in He, Hno. by apply (batch_oldest n t r k e).
  - intros e o Hin. assert (e ∈ batch_of n t) as He.
    { rewrite <- Hp, <- Hev. by apply (list_elem_of_fmap_2 fst os (e, o)). }
    destruct (batch_unprocessed _ t e Hk He) as (r & Hr & Her & Hu). exists r. split_and!; try done.
    rewrite <- Hev in Hnd. pose proof (fold_marks os t (e, o) Hnd Hin) as Hm. simpl in Hm.
    by rewrite Hm, Hr.
  - intros k Hno. apply marks_other. by rewrite Hev.
Qed.

End dispatcher.

(** ** Every event is settled *)

Section settled.
Context (max_retries : Z).

(** The attempts that an event has left. *)
Definition retries_left (r : OutboxRow) : nat :=
  if unprocessed r then Z.to_nat (Z.max 1 (max_retries - obr_retry_count r)) else 0%nat.
Definition total_left (t : outbox_table) : nat :=
  list_sum (map (fun kr => retries_left (snd kr)) (map_to_list t)).

(** Retry counts of pending events, as their column can hold them. *)
Definition counts_ok (t : outbox_table) : Prop :=
  map_Forall (fun _ r => unprocessed r = true -> 0 <= obr_retry_count r < 2 ^ 31 - 1) t.

Lemma total_left_delete t k r :
  t !! k = Some r -> total_left t = (retries_left r + total_left (delete k t))%nat.
Proof.
  intros Hr. unfold total_left. rewrite <- (insert_delete_id t k r Hr) at 1.
  pose proof (map_to_list_insert (delete k t) k r (lookup_delete_eq _ _)) as Hp.
  apply (Permutation_map (fun kr => retries_left (snd kr))) in Hp. rewrite Hp. done.
Qed.

Lemma total_left_alter f t k r :
  t !! k = Some r ->
  (total_left (alter f k t) + retries_left r = total_left t + retries_left (f r))%nat.
Proof.
  intros Hr. rewrite (total_left_delete t k r Hr).
  rewrite (total_left_delete (alter f k t) k (f r)) by (by rewrite lookup_alter_eq, Hr).
  rewrite delete_alter_eq. lia.
Qed.

Context (clock : uuid -> datetime) (Hmax : max_retries < 2 ^ 31).
Local Abbreviation attempted := (attempted max_retries) (only parsing).
Local Abbreviation mark := (mark max_retries) (only parsing).

Lemma attempted_left now o r :
  unprocessed r = true -> 0 <= obr_retry_count r < 2 ^ 31 - 1 ->
  (retries_left (attempted now o r) < retries_left r)%nat /\
  (unprocessed (attempted now o r) = true -> 0 <= obr_retry_count (attempted now o r) < 2 ^ 31 - 1) /\
  obr_id (attempted now o r) = obr_id r.
Proof using All.
  intros Hu Hc. unfold retries_left. rewrite Hu. destruct o as [m|]; simpl.
  - rewrite i32_of_small by lia. unfold unprocessed in Hu. apply andb_true_iff in Hu as [Hp Hf].
    unfold unprocessed, set_retried. destruct (Z.leb_spec max_retries (obr_retry_count r + 1)); simpl.
    + rewrite andb_false_r. split_and!; [lia|done|done].
    + rewrite Hp, Hf. simpl. split_and!; [lia|lia|done].
  - unfold unprocessed. simpl. split_and!; [lia|done|done].
Qed.

Lemma marks_left os t :
  events_keyed t -> counts_ok t -> NoDup (map oe_id (map fst os)) ->
  Forall (fun eo => exists r, t !! oe_id (fst eo) = Some r /\ unprocessed r = true) os ->
  let t' := fold_left (mark clock) os t in
  events_keyed t' /\ counts_ok t' /\ (total_left t' + length os <= total_left t)%nat.
Proof using All.
  revert t. induction os as [|eo os IH]; intros t Hk Hc Hnd Hall; simpl in *; [split_and!; [done..|lia]|].
  apply NoDup_cons in Hnd as [Hx Hnd]. apply Forall_cons in Hall as [(r & Hr & Hu) Hall].
  destruct (attempted_left (clock (oe_id (fst eo))) (snd eo) r Hu (Hc _ r Hr Hu)) as (Hlt & Hc' & Hid).
  pose proof (total_left_alter (attempted (clock (oe_id (fst eo))) (snd eo)) t _ r Hr) as Htot.
  fold (mark clock t eo) in Htot.
  destruct (IH (mark clock t eo)) as (Hk' & Hc'' & Hle); [| |done| |split_and!; [done..|lia]].
  - intros k x. unfold mark. rewrite lookup_alter_Some. intros [(<- & y & Hy & ->)|[_ Hy]]; [|by apply Hk].
    simplify_eq. rewrite Hid. by apply Hk.
  - intros k x. unfold mark. rewrite lookup_alter_Some. intros [(<- & y & Hy & ->)|[_ Hy]]; [|by apply (Hc k)].
    by simplify_eq.
  - rewrite Forall_forall in *. intros y Hy. destruct (Hall y Hy) as (r' & Hr' & Hu').
    exists r'. split; [|done]. rewrite mark_lookup_ne; [done|]. intros Heq. apply Hx. rewrite <- Heq.
    apply list_elem_of_fmap_2. by apply list_elem_of_fmap_2.
Qed.
End settled.

Section batches.
Context {S : Type} (handlers : list (EventHandler S)) (max_retries batch_size : Z).

(** One batch after the other, as the worker's loop runs them, each with its
    clock. *)
Fixpoint run_batches (clocks : list (uuid -> datetime)) (ts : outbox_table * S) : outbox_table * S :=
  match clocks with
  | [] => ts
  | clock :: clocks' =>
      run_batches clocks' (snd (process_batch handlers max_retries clock batch_size ts))
  end.

Lemma pending_nil t : pending t = [] <-> forall k r, t !! k = Some r -> unprocessed r = false.
Proof.
  split.
  - intros Hp k r Hr. destruct (unprocessed r) eqn:Hu; [|done].
    assert (r ∈ pending t) as Hin by (apply elem_of_pending; eauto).
    rewrite Hp in Hin. by apply elem_of_nil in Hin.
  - intros Hall. destruct (pending t) as [|r l] eqn:Hp; [done|].
    assert (r ∈ pending t) as [Hu [k Hr]]%elem_of_pending by (rewrite Hp; left).
    by rewrite (Hall k r Hr) in Hu.
Qed.

Context (Hreturn : handlers_return handlers) (Hmax : max_retries < 2 ^ 31) (Hsize : 0 < batch_size).

Lemma batch_progress clock t s :
  events_keyed t -> counts_ok t ->
  let t' := (snd (process_batch handlers max_retries clock batch_size (t, s))).1 in
  events_keyed t' /\ counts_ok t' /\ (total_left max_retries t' <= total_left max_retries t)%nat /\
  (pending t <> [] -> (total_left max_retries t' < total_left max_retries t)%nat).
Proof using All.
  intros Hk Hc. rewrite (process_batch_run handlers max_retries clock Hreturn) by (done || lia).
  pose proof (attempts_events handlers (batch_order batch_size t) s) as Hev.
  destruct (attempts handlers (batch_order batch_size t) s) as [os s']. cbn [fst snd] in *. subst.
  pose proof (batch_order_perm batch_size t) as Hp.
  destruct (marks_left max_retries clock Hmax os t Hk Hc) as (Hk' & Hc' & Hle).
  - rewrite Hev. apply (Permutation_map oe_id) in Hp. rewrite Hp. by apply batch_ids.
  - apply Forall_forall. intros eo Heo.
    destruct (batch_unprocessed (Z.to_nat batch_size) t (fst eo) Hk) as (r & Hr & _ & Hu); [|by exists r].
    fold (batch_of batch_size t). rewrite <- Hp, <- Hev. by apply list_elem_of_fmap_2.
  - split_and!; [done|done|lia|]. intros Hne.
    assert (0 < length os)%nat; [|lia].
    rewrite <- (length_map fst os), Hev, Hp. unfold batch_of. rewrite length_map, length_firstn.
    destruct (pending t); [done|]. simpl. lia.
Qed.

(** C27: every event of the outbox is settled.  However often handlers fail, after
    as many batches as the pending events have attempts left, none is pending: each
    has been processed or has failed for good. *)
Theorem every_event_is_settled clocks t s :
  events_keyed t -> counts_ok t -> (total_left max_retries t <= length clocks)%nat ->
  forall k r, (run_batches clocks (t, s)).1 !! k = Some r -> unprocessed r = false.
Proof using All.
  revert t s. induction clocks as [|clock clocks IH]; intros t s Hk Hc Hle; simpl in *.
  - apply pending_nil. destruct (pending t) as [|x l] eqn:Hp; [done|].
    destruct (batch_progress (fun _ => 0) t s Hk Hc) as (_ & _ & _ & Hlt).
    rewrite Hp in Hlt. specialize (Hlt ltac:(done)). lia.
  - destruct (batch_progress clock t s Hk Hc) as (Hk' & Hc' & Hle' & Hlt).
    destruct (snd (process_batch handlers max_retries clock batch_size (t, s))) as [t' s'].
    apply IH; [done|done|]. destruct (pending t) as [|x l] eqn:Hp; [|specialize (Hlt ltac:(done)); simpl in *; lia].
    assert (total_left max_retries t = 0%nat) as H0; [|simpl in *; lia].
    unfold total_left. assert (forall kr, kr ∈ map_to_list t -> retries_left max_retries (snd kr) = 0%nat) as Hz.
    { intros [k r] Hr%elem_of_map_to_list. unfold retries_left. simpl.
      by rewrite (proj1 (pending_nil t) Hp k r Hr). }
    clear -Hz. induction (map_to_list t) as [|y l IH]; [done|]. simpl. rewrite Hz by left.
    apply IH. intros z Hz'. apply Hz. by right.
Qed.
End batches.

(** ** The dispatcher as the worker runs it *)

(** main.rs registers no handler: a batch delivers nothing. *)
Lemma no_handler_no_delivery {S} clock n t (s : S) :
  events_keyed t -> 0 <= n ->
  exists t', process_batch [] 5 clock n (t, s) = (Ok 0%N, (t', s)) /\
    forall k, obr_processed_at <$> t' !! k = obr_processed_at <$> t !! k.
Proof.
  intros Hk Hn. assert (Hr : @handlers_return S []) by (by intros h e s' Hh%elem_of_nil).
  destruct (attempts [] (batch_order n t) s) as [os s'] eqn:Ha.
  pose proof (process_batch_run [] 5 clock Hr n t s Hk Hn) as Hrun. rewrite Ha in Hrun.
  assert (s' = s /\ forall eo, eo ∈ os -> snd eo <> None) as [-> Hos].
  { clear Hrun Hr Hk. revert os s' Ha. generalize (batch_order n t). intros l.
    induction l as [|e l IH]; intros os s' Ha; simpl in Ha.
    - injection Ha as <- <-. split; [done|]. by intros eo Heo%elem_of_nil.
    - destruct (attempts [] l s) as [os1 s1] eqn:Hl. injection Ha as <- <-.
      destruct (IH _ _ eq_refl) as [-> Hall]. split; [done|].
      intros eo [-> | Heo]%elem_of_cons; [done|by apply Hall]. }
  rewrite Hrun. clear Hrun Ha Hk. eexists. split.
  - replace (succeeded os) with 0%N; [reflexivity|]. unfold succeeded.
    rewrite filter_none; [done|]. intros eo Heo. by apply bool_decide_eq_false_2, Hos.
  - revert t. induction os as [|eo os IH]; intros t k; [done|]. simpl.
    rewrite IH by (intros x Hx; apply Hos; by right). unfold mark.
    destruct (decide (k = oe_id (fst eo))) as [->|Hne]; [|by rewrite lookup_alter_ne].
    rewrite lookup_alter_eq. specialize (Hos eo ltac:(left)).
    destruct (t !! oe_id eo.1) as [r|]; [|done]. simpl. by destruct (snd eo).
Qed.

(** ** Order and interference on concrete events *)

Definition event_row (id : uuid) (created : datetime) : OutboxRow :=
  mkOutboxRow id (lit "import") (lit "7") (lit "ImportedActivityCommitted") JNull created None None
    None 0 None.
Definition two_events : gmap N OutboxRow := {[ 1%N := event_row 1 10; 2%N := event_row 2 20 ]}.

(** A handler that notes what it has seen; its [fails]-th call fails. *)
Definition noting (fails : nat) : EventHandler (list uuid * nat) :=
  mkEventHandler (lit "ImportedActivityCommitted") (fun e '(seen, calls) =>
    if (calls =? fails)%nat then (Err (lit "unavailable"), (seen, S calls))
    else (Ok tt, (seen ++ [oe_id e], S calls))).

(** An event that fails once is overtaken by the next of its aggregate. *)
Lemma failed_event_is_overtaken :
  fst (snd (run_batches [noting 0] 5 100 [fun _ => 30; fun _ => 40] (two_events, ([], 0%nat)))) =
    [2; 1]%N.
Proof. by vm_compute. Qed.

(** Polling claims nothing: two dispatchers that have both polled and checked an
    event both hand it to the handler. *)
Lemma event_delivered_twice :
  let e := row_to_event (event_row 1 10) in
  let check := fun ts => fst (on_outbox (is_processed (oe_id e)) ts) in
  let run := handle_and_mark [noting 9] 5 (fun _ => 30) e in
  let before := (two_events, ([], 0%nat)) in
  check before = Ok false /\ fst (snd (snd (run (snd (run before))))) = [1; 1]%N.
Proof. by vm_compute. Qed.

Lemma two_events_keyed : events_keyed two_events.
Proof. apply (bool_decide_unpack _). by vm_compute. Qed.

Lemma noting_returns k : handlers_return [noting k].
Proof. intros h e [seen calls] ->%list_elem_of_singleton. simpl. by destruct (_ =? _)%nat. Qed.

Lemma process_batch_correct_witness :
  exists order os, length order = 2%nat /\ NoDup (map oe_id order) /\
    fst (process_batch [noting 1] 5 (fun _ => 30) 100 (two_events, ([], 0%nat))) = Ok (succeeded os) /\
    fst (attempts [noting 1] order ([], 0%nat)) = os /\ succeeded os = 1%N.
Proof.
  destruct (process_batch_correct [noting 1] 5 (fun _ => 30) (noting_returns 1) 100 two_events
    ([], 0%nat) two_events_keyed) as (order & os & s' & t' & Hrun & Ha & Hnd & Hlen & _); [done|].
  exists order, os. rewrite Ha, Hrun. split_and!; [|done..|].
  - rewrite Hlen. by vm_compute.
  - apply (f_equal fst) in Hrun. vm_compute in Hrun. by injection Hrun.
Defined.

Lemma every_event_is_settled_witness :
  map_Forall (fun _ r => unprocessed r = false)
    (run_batches [noting 0] 5 100 (repeat (fun _ => 30) 10) (two_events, ([], 0%nat))).1.
Proof.
  intros k r. apply (every_event_is_settled [noting 0] 5 100 (noting_returns 0));
    [lia|lia|exact two_events_keyed| |].
  - apply (bool_decide_unpack _). by vm_compute.
  - by vm_compute.
Defined.
