(* ===== verification/Http.v ===== *)
(** Requests and responses as the handlers see them: header values, cookies,
    environment variables, and JSON responses. *)
From S2P Require Import Prelude Float64 RustString Utf8 RecordedActivity RouteVersioning.

(** ** Strings *)

(** [str::split] with a character. *)
Fixpoint split_on (sep : rchar) (s : rstr) : list rstr :=
  match s with
  | [] => [[]]
  | c :: s' =>
      if (c =? sep)%N then [] :: split_on sep s'
      else match split_on sep s' with p :: ps => (c :: p) :: ps | [] => [[c]] end
  end.

(** [str::strip_prefix]. *)
Fixpoint strip_prefix (pat s : rstr) : option rstr :=
  match pat, s with
  | [], _ => Some s
  | p :: pat', c :: s' => if (p =? c)%N then strip_prefix pat' s' else None
  | _ :: _, [] => None
  end.

(** [str::parse] of an unsigned integer of at most [max]: digits, after a plus
    sign or not. *)
Definition parse_uint (max : N) (s : rstr) : option N :=
  let digits := match s with 43%N :: s' => s' | _ => s end in
  match digits with
  | [] => None
  | _ =>
      if forallb is_digit digits then
        let n := digits_value (map (fun c => c - 48)%N digits) in
        if (n <=? max)%N then Some n else None
      else None
  end.

(** ** Environment variables *)

Definition Env := (rstr -> option rstr).

Definition parse_env (env : Env) (max : N) (name : rstr) (default_ : N) : N :=
  default default_ (env name ≫= parse_uint max).

(** ** Requests *)

(** [HeaderMap::get] gives the first value of a header. *)
Definition HeaderMap := (gmap rstr bytes).

(** [HeaderValue::to_str]: visible ASCII and tabs. *)
Definition header_to_str (v : bytes) : option rstr :=
  if forallb (fun b => ((32 <=? b) && (b <=? 126)) || (b =? 9))%N v then Some v else None.

Definition get_header (name : rstr) (headers : HeaderMap) : option rstr :=
  headers !! name ≫= header_to_str.

(** [Parts]: what an extractor sees of a request. *)
Record Parts := mkParts { pt_method : rstr; pt_headers : HeaderMap }.

(** ** Responses *)

(** Of the headers, those that the program sets itself. *)
Record Response := mkResponse {
  rs_status : N; rs_body : option Json; rs_set_cookie : option rstr; rs_headers : list (rstr * rstr) }.

Definition json_response (status : N) (body : Json) : Response := mkResponse status (Some body) None [].
Definition status_response (status : N) : Response := mkResponse status None None [].

Definition with_header (name value : rstr) (r : Response) : Response :=
  mkResponse (rs_status r) (rs_body r) (rs_set_cookie r) (rs_headers r ++ [(name, value)]).
Definition with_retry_after (seconds : N) (r : Response) : Response :=
  with_header (lit "retry-after") (display_N seconds) r.

(** A value that [HeaderValue::from_str] takes. *)
Definition header_value_ok (s : rstr) : bool :=
  forallb (fun b => ((32 <=? b) && negb (b =? 127)) || (b =? 9))%N (as_bytes s).

(** The problem documents of the handlers of authentication. *)
Definition problem (status : N) (type title detail : rstr) : Response :=
  json_response status
    (JObject [(lit "type", JString type); (lit "title", JString title);
              (lit "status", JInt (Z.of_N status)); (lit "detail", JString detail)]).
