(* ===== verification/RateLimits.v ===== *)
(** Limits on requests: token buckets per client and route category with the
    middleware that applies them (crates/infrastructure/src/rate_limit.rs), the
    daily quota of imports (upload_quota.rs) and backpressure (backpressure.rs).

    [Instant::now()] is an argument, in nanoseconds; the mutexes make each method
    one step.  [extensions] are those of a request when a layer sees it. *)
From S2P Require Import Prelude Float64 RustString Utf8 Http.

(** ** Configuration *)

Record RateLimitConfig := mkRateLimitConfig {
  auth_rpm : N; imports_rpm : N; mutations_rpm : N; reads_rpm : N; exports_rpm : N }.

(** [parse_env] with the variable and its parser applied. *)
Definition RateLimitConfig_from_env (env : Env) : RateLimitConfig :=
  let u32 := parse_env env (u32_modulus - 1) in
  mkRateLimitConfig (u32 (lit "RATE_LIMIT_AUTH_RPM") 5%N) (u32 (lit "RATE_LIMIT_IMPORTS_RPM") 10%N)
    (u32 (lit "RATE_LIMIT_MUTATIONS_RPM") 30%N) (u32 (lit "RATE_LIMIT_READS_RPM") 120%N)
    (u32 (lit "RATE_LIMIT_EXPORTS_RPM") 10%N).

Definition RateLimitConfig_default : RateLimitConfig := mkRateLimitConfig 5 10 30 120 10.

Inductive RouteCategory : Type := CatAuth | CatImport | CatMutation | CatRead | CatExport.

#[export] Instance RouteCategory_eq_dec : EqDecision RouteCategory.
Proof. solve_decision. Defined.
Definition category_code (c : RouteCategory) : N :=
  match c with CatAuth => 0 | CatImport => 1 | CatMutation => 2 | CatRead => 3 | CatExport => 4 end%N.
Definition category_of_code (n : N) : option RouteCategory :=
  match n with
  | 0 => Some CatAuth | 1 => Some CatImport | 2 => Some CatMutation | 3 => Some CatRead
  | 4 => Some CatExport | _ => None
  end%N.
#[export] Instance RouteCategory_countable : Countable RouteCategory.
Proof. refine (inj_countable category_code category_of_code _). by intros []. Defined.

Definition rpm_for_category (c : RateLimitConfig) (category : RouteCategory) : N :=
  match category with
  | CatAuth => auth_rpm c | CatImport => imports_rpm c | CatMutation => mutations_rpm c
  | CatRead => reads_rpm c | CatExport => exports_rpm c
  end.

(** ** Token buckets *)

Definition NANOS_PER_SEC : Z := 1000000000.

(** [now.duration_since(earlier)] saturates. *)
Definition duration_since (now earlier : Z) : Z := Z.max 0 (now - earlier).

Definition as_secs_f64 (d : Z) : f64 :=
  f64_add (f64_of_Z (d / NANOS_PER_SEC)) (f64_div (f64_of_Z (d mod NANOS_PER_SEC)) (f64_of_Z NANOS_PER_SEC)).

Definition f64_one : f64 := f64_of_Z 1.

Record TokenBucket := mkBucket {
  tb_tokens : f64; tb_max_tokens : f64; tb_refill_rate : f64; tb_last_refill : Z }.

Definition new_bucket (now : Z) (max_tokens : N) (refill_rate : f64) : TokenBucket :=
  mkBucket (f64_of_N max_tokens) (f64_of_N max_tokens) refill_rate now.

Definition refill (now : Z) (b : TokenBucket) : TokenBucket :=
  let elapsed := as_secs_f64 (duration_since now (tb_last_refill b)) in
  if f64_ltb f64_zero elapsed then
    mkBucket (f64_min (f64_add (tb_tokens b) (f64_mul elapsed (tb_refill_rate b))) (tb_max_tokens b))
      (tb_max_tokens b) (tb_refill_rate b) now
  else b.

Definition try_consume (now : Z) (b : TokenBucket) : bool * TokenBucket :=
  let b := refill now b in
  if f64_leb f64_one (tb_tokens b) then
    (true, mkBucket (f64_sub (tb_tokens b) f64_one) (tb_max_tokens b) (tb_refill_rate b) (tb_last_refill b))
  else (false, b).

Definition seconds_until_refill (b : TokenBucket) : N :=
  if f64_leb f64_one (tb_tokens b) then 0
  else ceil_to_u64 (f64_div (f64_sub f64_one (tb_tokens b)) (tb_refill_rate b)).

(** ** The limiter *)

Inductive RateLimitKey : Type := UserId (user_id : uuid) | IpAddr (ip : rstr).

#[export] Instance RateLimitKey_eq_dec : EqDecision RateLimitKey.
Proof. solve_decision. Defined.
#[export] Instance RateLimitKey_countable : Countable RateLimitKey.
Proof.
  refine (inj_countable (fun k => match k with UserId u => inl u | IpAddr ip => inr ip end)
    (fun x => Some match x with inl u => UserId u | inr ip => IpAddr ip end) _). by intros [].
Defined.

Abbreviation bucket_map := (gmap (RateLimitKey * RouteCategory) TokenBucket) (only parsing).

Definition RATE_EVICTION_THRESHOLD : nat := Z.to_nat 10000.
Definition RATE_EVICTION_AGE : Z := 120 * NANOS_PER_SEC.

Definition evict_stale (now : Z) (buckets : bucket_map) : bucket_map :=
  if (RATE_EVICTION_THRESHOLD <? size buckets)%nat
  then filter (fun kb => duration_since now (tb_last_refill kb.2) < RATE_EVICTION_AGE)%Z buckets
  else buckets.

(** [made] is the time at which a missing bucket is made, after [now]. *)
Definition check_rate (config : RateLimitConfig) (now made : Z) (key : RateLimitKey)
    (category : RouteCategory) (buckets : bucket_map) : (N + unit) * bucket_map :=
  let buckets := evict_stale now buckets in
  let rpm := rpm_for_category config category in
  let bucket := default (new_bucket made rpm (f64_div (f64_of_N rpm) (f64_of_Z 60)))
                  (buckets !! (key, category)) in
  let '(allowed, bucket) := try_consume now bucket in
  (if allowed : bool then inr tt else inl (seconds_until_refill bucket),
   <[(key, category) := bucket]> buckets).

(** ** The middleware *)

(** What a layer sees of a request: the extensions that the layers outside it
    have set, and the headers. *)
Record LimitedRequest := mkLimitedRequest {
  rq_has_limiter : bool; rq_category : option RouteCategory; rq_actor : option uuid;
  rq_request_id : option rstr; rq_forwarded_for : option bytes }.

Definition extract_rate_limit_key (request : LimitedRequest) : RateLimitKey :=
  match rq_actor request with
  | Some user_id => UserId user_id
  | None =>
      IpAddr match rq_forwarded_for request ≫= header_to_str with
             | Some s => trim (hd [] (split_on 44 s))
             | None => lit "unknown"
             end
  end.

Record RateLimitProblemDetail := mkProblem {
  problem_type : rstr; problem_title : rstr; problem_status : N; problem_code : rstr;
  problem_detail : rstr; problem_request_id : rstr }.

Record TooManyRequests := mkTooManyRequests {
  tmr_status : N; tmr_body : RateLimitProblemDetail; tmr_retry_after : rstr }.

Definition build_429_response (retry_after_secs : N) (request_id : rstr) : TooManyRequests :=
  mkTooManyRequests 429
    (mkProblem (lit "/problems/rate-limited") (lit "Too Many Requests") 429 (lit "RATE_LIMITED")
       (lit "You have exceeded the rate limit. Please wait before retrying.") request_id)
    (display_N retry_after_secs).

(** [inr tt]: the request goes on to the next layer. *)
Definition rate_limit_middleware (config : RateLimitConfig) (now made : Z) (request : LimitedRequest)
    (buckets : bucket_map) : (TooManyRequests + unit) * bucket_map :=
  if rq_has_limiter request then
    match rq_category request with
    | None => (inr tt, buckets)
    | Some category =>
        let '(res, buckets) :=
          check_rate config now made (extract_rate_limit_key request) category buckets in
        (match res with
         | inr _ => inr tt
         | inl secs => inl (build_429_response secs (default [] (rq_request_id request)))
         end, buckets)
    end
  else (inr tt, buckets).

(** ** Layers

    [Router::layer] wraps what the router has so far: of two layers, the one
    added later sees the request first.  The routers of main.rs set their
    category in a layer of their own, and are then merged into the application,
    whose layers wrap them. *)
Inductive Layer : Type :=
| SetRequestId (id : rstr)
| SetLimiter
| SetCategory (category : RouteCategory)
| RateLimit.

(** The request goes through the layers, outermost first, to the handler. *)
Fixpoint through_layers (config : RateLimitConfig) (now made : Z) (layers : list Layer)
    (request : LimitedRequest) (buckets : bucket_map) : (TooManyRequests + LimitedRequest) * bucket_map :=
  match layers with
  | [] => (inr request, buckets)
  | SetRequestId id :: layers' =>
      through_layers config now made layers' (mkLimitedRequest (rq_has_limiter request)
        (rq_category request) (rq_actor request) (Some id) (rq_forwarded_for request)) buckets
  | SetLimiter :: layers' =>
      through_layers config now made layers' (mkLimitedRequest true (rq_category request)
        (rq_actor request) (rq_request_id request) (rq_forwarded_for request)) buckets
  | SetCategory category :: layers' =>
      through_layers config now made layers' (mkLimitedRequest (rq_has_limiter request)
        (Some category) (rq_actor request) (rq_request_id request) (rq_forwarded_for request)) buckets
  | RateLimit :: layers' =>
      let '(res, buckets) := rate_limit_middleware config now made request buckets in
      match res with
      | inl response => (inl response, buckets)
      | inr _ => through_layers config now made layers' request buckets
      end
  end.

(** The layers around a route of main.rs, and around the route of the tests. *)
Definition app_layers (request_id : rstr) (category : RouteCategory) : list Layer :=
  [SetRequestId request_id; SetLimiter; RateLimit; SetCategory category].
Definition test_layers (category : RouteCategory) : list Layer :=
  [SetLimiter; SetCategory category; RateLimit].

(** ** The quota of uploads *)

Record UploadQuota := mkQuota {
  uq_state : gmap N (N * Z); uq_max_imports : N; uq_window_duration : Z }.

Definition new_quota (max_imports : N) : UploadQuota :=
  mkQuota ∅ max_imports (24 * 60 * 60 * NANOS_PER_SEC).

(** [UploadQuotaConfig::from_env], which holds nothing but the limit. *)
Definition max_imports_per_day (env : Env) : N :=
  parse_env env (u64_modulus - 1) (lit "UPLOAD_QUOTA_MAX_PER_DAY") 100.

Definition QUOTA_EVICTION_THRESHOLD : nat := Z.to_nat 10000.

Definition evict_expired (now window : Z) (state : gmap N (N * Z)) : gmap N (N * Z) :=
  if (QUOTA_EVICTION_THRESHOLD <? size state)%nat
  then filter (fun ke => duration_since now (ke.2.2) < window)%Z state
  else state.

(** [inl seconds_until_reset], or [inr tt]. *)
Definition check_and_increment (now : Z) (user_id : uuid) (q : UploadQuota)
    : (N + unit) * UploadQuota :=
  let window := uq_window_duration q in
  let state := evict_expired now window (uq_state q) in
  let entry := default (0%N, now) (state !! user_id) in
  let elapsed := duration_since now (snd entry) in
  let entry := if (window <=? elapsed)%Z then (0%N, now) else entry in
  if (uq_max_imports q <=? fst entry)%N then
    (inl (N.max (Z.to_N (Z.max 0 (window - elapsed) / NANOS_PER_SEC)) 1),
     mkQuota (<[user_id := entry]> state) (uq_max_imports q) window)
  else
    (inr tt,
     mkQuota (<[user_id := (u64_succ (fst entry), snd entry)]> state) (uq_max_imports q) window).

(** ** Backpressure *)

Record BackpressureConfig := mkBackpressure { max_pending_jobs : N; suggested_retry_seconds : N }.

Definition BackpressureConfig_default : BackpressureConfig := mkBackpressure 1000 60.

Definition BackpressureConfig_from_env (env : Env) : BackpressureConfig :=
  mkBackpressure (parse_env env (u64_modulus - 1) (lit "BACKPRESSURE_MAX_PENDING_JOBS") 1000)
    (parse_env env (u64_modulus - 1) (lit "BACKPRESSURE_RETRY_SECONDS") 60).

(** [inl suggested_retry_seconds], or [inr tt]. *)
Definition backpressure_check (config : BackpressureConfig) (pending_count : N) : N + unit :=
  if (max_pending_jobs config <=? pending_count)%N then inl (suggested_retry_seconds config)
  else inr tt.
