(* ===== verification/RateLimitTheory.v ===== *)
(** The quota of uploads over any history, token buckets on the default
    configuration, and where the rate limit sits in the server. *)
From S2P Require Import Prelude Float64 RustString Utf8 RateLimits.

#[local] Open Scope Z_scope.

(** ** Histories of the quota *)

(** The calls, and the accepted ones among them. *)
Definition quota_step (qa : UploadQuota * list (Z * N)) (call : Z * N) : UploadQuota * list (Z * N) :=
  let '(r, q) := check_and_increment (fst call) (snd call) (fst qa) in
  (q, match r with inr _ => snd qa ++ [call] | inl _ => snd qa end).
Definition run_quota (max : N) (calls : list (Z * N)) : UploadQuota * list (Z * N) :=
  fold_left quota_step calls (new_quota max, []).

(** Times never go back. *)
Fixpoint calls_from (t : Z) (calls : list (Z * N)) : Prop :=
  match calls with [] => True | c :: calls' => t <= fst c /\ calls_from (fst c) calls' end.

(** The calls of a user in a stretch of time. *)
Definition in_stretch (u : N) (lo hi : Z) (call : Z * N) : bool :=
  (snd call =? u)%N && (lo <=? fst call) && (fst call <? hi).
Definition calls_in (u : N) (lo hi : Z) (calls : list (Z * N)) : nat :=
  length (List.filter (in_stretch u lo hi) calls).

Lemma in_stretch_spec u lo hi c : in_stretch u lo hi c = true <-> snd c = u /\ lo <= fst c < hi.
Proof. unfold in_stretch. rewrite !andb_true_iff, N.eqb_eq, Z.leb_le, Z.ltb_lt. tauto. Qed.

Lemma calls_in_le u lo hi lo' hi' l :
  (forall x, (x, u) ∈ l -> lo <= x < hi -> lo' <= x < hi') ->
  (calls_in u lo hi l <= calls_in u lo' hi' l)%nat.
Proof.
  unfold calls_in. induction l as [|[x v] l IH]; intros Hl; simpl; [lia|].
  assert (length (List.filter (in_stretch u lo hi) l) <= length (List.filter (in_stretch u lo' hi') l))%nat
    as Hle by (apply IH; intros y Hy; apply Hl; by right).
  destruct (in_stretch u lo hi (x, v)) eqn:H1; [|destruct (in_stretch u lo' hi' (x, v)); simpl; lia].
  apply in_stretch_spec in H1 as [H1 H1']. simpl in *. subst v.
  rewrite (proj2 (in_stretch_spec u lo' hi' (x, u))); [simpl; lia|].
  split; [done|]. apply (Hl x); [left|done].
Qed.

Lemma calls_in_none u lo hi l :
  (forall x, (x, u) ∈ l -> ~ lo <= x < hi) -> calls_in u lo hi l = 0%nat.
Proof.
  intros Hl. unfold calls_in. induction l as [|[x v] l IH]; simpl; [done|].
  destruct (in_stretch u lo hi (x, v)) eqn:H1.
  - apply in_stretch_spec in H1 as [H1 H1']. simpl in *. subst v. destruct (Hl x); [left|done].
  - apply IH. intros y Hy. apply Hl. by right.
Qed.

Lemma calls_in_split u lo mid hi l :
  lo <= mid <= hi -> calls_in u lo hi l = (calls_in u lo mid l + calls_in u mid hi l)%nat.
Proof.
  intros Hm. unfold calls_in. induction l as [|[x v] l IH]; simpl; [done|].
  assert (forall a b, in_stretch u a b (x, v) = (v =? u)%N && (a <=? x) && (x <? b)) as Hs by done.
  rewrite !Hs.
  destruct (N.eqb_spec v u), (Z.leb_spec lo x), (Z.ltb_spec x hi), (Z.ltb_spec x mid), (Z.leb_spec mid x);
    simpl; lia.
Qed.

Lemma calls_in_snoc u lo hi l x v :
  calls_in u lo hi (l ++ [(x, v)]) =
    (calls_in u lo hi l + if in_stretch u lo hi (x, v) then 1 else 0)%nat.
Proof.
  unfold calls_in. rewrite List.filter_app, length_app. simpl. by destruct (in_stretch _ _ _ _).
Qed.

(** ** One user *)

Section window.
Context (W : Z) (max : N) (HW : 0 < W) (Hmax : (max < u64_modulus)%N).

(** What is known of a user whose window began at [s] with [c] calls accepted
    since: none was accepted after it, at most [max] in a stretch before it, and
    never more than twice [max] in a window's length. *)
Definition window_ok (u : N) (tau : Z) (l : list (Z * N)) (c : N) (s : Z) : Prop :=
  s <= tau /\ (c <= max)%N /\
  (forall x, (x, u) ∈ l -> x <= tau /\ x < s + W) /\
  calls_in u s (s + W) l = N.to_nat c /\
  (forall t, t <= s <= t + W -> (calls_in u t s l <= N.to_nat max)%nat) /\
  (forall t, (calls_in u t (t + W) l <= 2 * N.to_nat max)%nat).

Lemma window_later u tau tau' l c s :
  window_ok u tau l c s -> tau <= tau' -> window_ok u tau' l c s.
Proof using All.
  intros (H1 & H2 & H3 & H4) Ht. split; [lia|]. split; [done|]. split; [|done].
  intros x Hx. specialize (H3 x Hx). lia.
Qed.

(** A new window. *)
Lemma window_reset u tau now l c s :
  window_ok u tau l c s -> tau <= now -> s + W <= now -> window_ok u now l 0 now.
Proof using All.
  intros (H1 & H2 & H3 & H4 & H5 & H6) Ht Hs. split_and!; [lia|lia| | | |done].
  - intros x Hx. specialize (H3 x Hx). lia.
  - apply calls_in_none. intros x Hx. specialize (H3 x Hx). lia.
  - intros t Hst. etransitivity; [apply (calls_in_le u t now s (s + W))|lia].
    intros x Hx. specialize (H3 x Hx). lia.
Qed.

(** A call that is accepted in the window. *)
Lemma window_accept u tau now l c s :
  window_ok u tau l c s -> tau <= now -> now < s + W -> (c < max)%N ->
  window_ok u now (l ++ [(now, u)]) (c + 1) s.
Proof using All.
  intros (H1 & H2 & H3 & H4 & H5 & H6) Ht Hs Hc.
  assert (forall lo hi, calls_in u lo hi (l ++ [(now, u)]) =
    (calls_in u lo hi l + if decide (lo <= now < hi)%Z then 1 else 0)%nat) as Hsnoc.
  { intros lo hi. rewrite calls_in_snoc. f_equal. destruct (in_stretch u lo hi (now, u)) eqn:Hi.
    - apply in_stretch_spec in Hi as [_ Hi]. by rewrite decide_True.
    - case_decide as Hd; [|done]. by rewrite (proj2 (in_stretch_spec u lo hi (now, u)) (conj eq_refl Hd)) in Hi. }
  split_and!; [lia|lia| | | |].
  - intros x [Hx|[= ->]%list_elem_of_singleton]%elem_of_app; [specialize (H3 x Hx)|]; lia.
  - rewrite Hsnoc, H4, decide_True by lia. lia.
  - intros t Hst. rewrite Hsnoc, decide_False by lia. specialize (H5 t Hst). lia.
  - intros t. rewrite Hsnoc. specialize (H6 t). case_decide as Hd; [|lia].
    destruct (Z.le_gt_cases t s) as [Hts|Hts].
    + rewrite (calls_in_split u t s (t + W)) by lia. specialize (H5 t ltac:(lia)).
      assert (calls_in u s (t + W) l <= calls_in u s (s + W) l)%nat; [|lia].
      apply calls_in_le. intros x Hx. specialize (H3 x Hx). lia.
    + assert (calls_in u t (t + W) l <= calls_in u s (s + W) l)%nat; [|lia].
      apply calls_in_le. intros x Hx. specialize (H3 x Hx). lia.
Qed.

(** ** All users *)

(** An entry that has been evicted stands for a window that is over. *)
Definition user_ok (u : N) (tau : Z) (q : UploadQuota) (l : list (Z * N)) : Prop :=
  exists c s, window_ok u tau l c s /\
    (uq_state q !! u = Some (c, s) \/ (uq_state q !! u = None /\ s + W <= tau)).

Definition quota_ok (tau : Z) (q : UploadQuota) (l : list (Z * N)) : Prop :=
  uq_max_imports q = max /\ uq_window_duration q = W /\ forall u, user_ok u tau q l.

Lemma evicted_ok u tau now q l :
  user_ok u tau q l -> tau <= now ->
  exists c s, window_ok u now l c s /\
    (evict_expired now W (uq_state q) !! u = Some (c, s) \/
     (evict_expired now W (uq_state q) !! u = None /\ s + W <= now)).
Proof using All.
  intros (c & s & Hw & Hq) Ht. exists c, s. split; [by apply (window_later u tau)|].
  unfold evict_expired. destruct (_ <? _)%nat; [|destruct Hq as [?|[? ?]]; [by left|right; split; [done|lia]]].
  rewrite map_lookup_filter. destruct Hq as [Hq|[Hq Hs]]; rewrite Hq; simpl.
  - case_guard as Hg; [by left|right]. split; [done|]. simpl in Hg. unfold duration_since in Hg. lia.
  - right. split; [done|lia].
Qed.

(** A call of another user. *)
Lemma window_other u v now l c s :
  u <> v -> window_ok u now l c s -> window_ok u now (l ++ [(now, v)]) c s.
Proof using All.
  intros Hv (H1 & H2 & H3 & H4 & H5 & H6).
  assert (forall lo hi, calls_in u lo hi (l ++ [(now, v)]) = calls_in u lo hi l) as Hsnoc.
  { intros lo hi. rewrite calls_in_snoc. destruct (in_stretch u lo hi (now, v)) eqn:Hi; [|lia].
    apply in_stretch_spec in Hi as [Hi _]. by destruct Hv. }
  split_and!; try done; try (intros; rewrite Hsnoc; eauto).
  - intros x [Hx|[= -> ->]%list_elem_of_singleton]%elem_of_app; [by apply H3|done].
Qed.

(** The entry that a call works on, after the reset. *)
Lemma entry_current u tau now q l :
  user_ok u tau q l -> tau <= now ->
  let entry := default (0%N, now) (evict_expired now W (uq_state q) !! u) in
  let entry := if W <=? duration_since now (snd entry) then (0%N, now) else entry in
  window_ok u now l (fst entry) (snd entry) /\ now < snd entry + W.
Proof using All.
  intros Hu Ht. destruct (evicted_ok u tau now q l Hu Ht) as (c & s & Hw & [He|[He Hs]]); rewrite He; simpl.
  - destruct (Z.leb_spec W (duration_since now s)) as [Hd|Hd]; simpl; unfold duration_since in Hd.
    + split; [|lia]. apply (window_reset u now now l c s); [done|lia|lia].
    + split; [done|]. lia.
  - assert (window_ok u now l 0 now) as Hw' by (apply (window_reset u now now l c s); [done|lia|lia]).
    destruct (Z.leb_spec W (duration_since now now)); simpl; (split; [done|lia]).
Qed.

Lemma quota_step_ok tau q l call :
  quota_ok tau q l -> tau <= fst call -> let '(q', l') := quota_step (q, l) call in
  quota_ok (fst call) q' l' /\
  (l' = l ++ [call] \/
   l' = l /\ (N.to_nat max <= calls_in (snd call) (fst call - W + 1) (fst call + 1) l)%nat).
Proof using All.
  intros (Hm & Hwin & Hall) Ht. destruct call as [now u]. simpl in Ht.
  unfold quota_step, check_and_increment. cbn [fst snd]. rewrite Hm, Hwin.
  pose proof (entry_current u tau now q l (Hall u) Ht) as [Hw Hin].
  set (entry := default (0%N, now) (evict_expired now W (uq_state q) !! u)) in *.
  set (entry' := if W <=? duration_since now (snd entry) then (0%N, now) else entry) in *.
  destruct (N.leb_spec max (fst entry')) as [Hfull|Hfree].
  - split.
    + split_and!; [done|done|]. intros v. destruct (decide (v = u)) as [->|Hv].
      * exists (fst entry'), (snd entry'). split; [done|]. left. simpl. rewrite lookup_insert_eq. by destruct entry'.
      * destruct (evicted_ok v tau now q l (Hall v) Ht) as (c & s & Hwv & Hq).
        exists c, s. split; [done|]. simpl. by rewrite lookup_insert_ne by done.
    + right. split; [done|]. destruct Hw as (H1 & H2 & H3 & H4 & _).
      assert (calls_in u (snd entry') (snd entry' + W) l <= calls_in u (now - W + 1) (now + 1) l)%nat; [|lia].
      apply calls_in_le. intros x Hx. specialize (H3 x Hx). lia.
  - split; [|by left]. split_and!; [done|done|]. intros v. destruct (decide (v = u)) as [->|Hv].
    + exists (fst entry' + 1)%N, (snd entry'). split.
      * by apply (window_accept u now now).
      * left. simpl. rewrite lookup_insert_eq. f_equal. f_equal. apply u64_succ_small. lia.
    + destruct (evicted_ok v tau now q l (Hall v) Ht) as (c & s & Hwv & Hq).
      exists c, s. split; [by apply window_other|]. simpl. by rewrite lookup_insert_ne by done.
Qed.
End window.

(** ** The properties *)

Definition day : Z := 24 * 60 * 60 * NANOS_PER_SEC.

Lemma run_calls_ok max calls t0 q l :
  (max < u64_modulus)%N -> quota_ok day max t0 q l -> calls_from t0 calls ->
  let '(q', l') := fold_left quota_step calls (q, l) in
  exists tau, t0 <= tau /\ quota_ok day max tau q' l' /\
    forall now u, calls_from t0 (calls ++ [(now, u)]) -> tau <= now.
Proof.
  intros Hmax. revert t0 q l. induction calls as [|call calls IH]; intros t0 q l Hq Hc; simpl in *.
  - exists t0. split_and!; [lia|done|]. intros now u [H _]. exact H.
  - destruct Hc as [Ht Hc]. pose proof (quota_step_ok day max ltac:(done) Hmax t0 q l call Hq Ht) as Hs.
    destruct (quota_step (q, l) call) as [q' l'].
    specialize (IH (fst call) q' l' (proj1 Hs) Hc).
    destruct (fold_left quota_step calls (q', l')) as [q'' l'']. destruct IH as (tau & H1 & H2 & H3).
    exists tau. split_and!; [lia|done|]. intros now u [_ Hn]. by apply (H3 now u).
Qed.

Lemma new_quota_ok max t0 : quota_ok day max t0 (new_quota max) [].
Proof.
  split_and!; [done|done|]. intros u. exists 0%N, (t0 - day). split; [|right; split; [done|lia]].
  unfold day, NANOS_PER_SEC. split_and!; try lia; [by intros x Hx%elem_of_nil|done|..];
    intros; unfold calls_in; simpl; lia.
Qed.

(** C33: the quota of uploads, over any history of calls by any users.  No user
    ever has more than twice the limit accepted in any 24 hours; and a user is
    refused only after as many accepted calls as the limit within the last 24
    hours.  Other users and the eviction of old entries make no difference. *)
Theorem upload_quota_bounds max t0 calls :
  (max < u64_modulus)%N -> calls_from t0 calls ->
  let '(q, accepted) := run_quota max calls in
  (forall u t, (calls_in u t (t + day) accepted <= 2 * N.to_nat max)%nat) /\
  (forall now u secs, calls_from t0 (calls ++ [(now, u)]) ->
     fst (check_and_increment now u q) = inl secs ->
     (N.to_nat max <= calls_in u (now - day + 1) (now + 1) accepted)%nat).
Proof.
  intros Hmax Hc. unfold run_quota.
  pose proof (run_calls_ok max calls t0 _ _ Hmax (new_quota_ok max t0) Hc) as Hrun.
  destruct (fold_left quota_step calls _) as [q l]. destruct Hrun as (tau & _ & Hq & Hlast). split.
  - intros u t. destruct Hq as (_ & _ & Hall). destruct (Hall u) as (c & s & Hw & _). apply Hw.
  - intros now u secs Hn He. specialize (Hlast now u Hn).
    pose proof (quota_step_ok day max ltac:(done) Hmax tau q l (now, u) Hq Hlast) as Hs.
    unfold quota_step in Hs. cbn [fst snd] in Hs. destruct (check_and_increment now u q) as [r q'].
    simpl in He. subst r. destruct Hs as [_ [Happ|[_ Hle]]]; [|exact Hle].
    exfalso. apply (f_equal length) in Happ. rewrite length_app in Happ. simpl in Happ. lia.
Qed.

Lemma upload_quota_bounds_witness :
  let '(q, accepted) := run_quota 2 [(0, 7%N); (1, 7%N); (2, 8%N)] in
  exists secs, fst (check_and_increment 3 7 q) = inl secs /\
    (2 <= calls_in 7 (3 - day + 1) 4 accepted)%nat.
Proof.
  pose proof (upload_quota_bounds 2 0 [(0, 7%N); (1, 7%N); (2, 8%N)]) as Hp.
  assert (Hr : exists secs, fst (check_and_increment 3 7 (fst (run_quota 2 [(0, 7%N); (1, 7%N); (2, 8%N)])))
    = inl secs) by (eexists; vm_compute; reflexivity).
  destruct Hr as [secs Hr]. destruct (run_quota 2 _) as [q l]. cbn [fst] in Hr.
  destruct Hp as [_ Hp]; [done|by repeat split|]. exists secs. split; [exact Hr|].
  apply (Hp 3 7%N secs); [by repeat split|exact Hr].
Defined.

(** The window is not a rolling one: it begins with the first call, and calls at
    its end and at the start of the next are all accepted. *)
Lemma quota_window_is_fixed :
  snd (run_quota 2 [(0, 7%N); (day - 1, 7%N); (day, 7%N); (day + 1, 7%N)]) =
    [(0, 7%N); (day - 1, 7%N); (day, 7%N); (day + 1, 7%N)].
Proof. by vm_compute. Qed.

(** ** Token buckets on the default configuration *)

Fixpoint burst (n : nat) (now : Z) (key : RateLimitKey) (category : RouteCategory)
    (buckets : gmap (RateLimitKey * RouteCategory) TokenBucket)
    : list (N + unit) * gmap (RateLimitKey * RouteCategory) TokenBucket :=
  match n with
  | O => ([], buckets)
  | S n =>
      let '(r, buckets) := check_rate RateLimitConfig_default now now key category buckets in
      let '(rs, buckets) := burst n now key category buckets in (r :: rs, buckets)
  end.

(** A new client has exactly its requests per minute at once; then it is refused
    until the seconds have passed that the answer names. *)
Definition burst_ok (category : RouteCategory) : bool :=
  let rpm := rpm_for_category RateLimitConfig_default category in
  let '(rs, buckets) := burst (S (N.to_nat rpm)) 0 (IpAddr (lit "a")) category ∅ in
  match last rs with
  | Some (inl secs) =>
      bool_decide (removelast rs = replicate (N.to_nat rpm) (inr tt)) &&
      bool_decide (secs = (60 / rpm) `max` 1)%N &&
      bool_decide (fst (check_rate RateLimitConfig_default (Z.of_N secs * NANOS_PER_SEC) 0
                          (IpAddr (lit "a")) category buckets) = inr tt)
  | _ => false
  end.

Lemma default_bursts : forallb burst_ok [CatAuth; CatImport; CatMutation; CatRead; CatExport] = true.
Proof. by vm_compute. Qed.

(** ** Where the limit sits *)

(** In the application the limit is applied before the category is set: no request
    is ever limited. *)
Lemma rate_limit_never_applies config now made id category request buckets :
  rq_category request = None ->
  exists request', through_layers config now made (app_layers id category) request buckets
    = (inr request', buckets).
Proof. intros Hc. unfold app_layers, through_layers, rate_limit_middleware. simpl. rewrite Hc. eauto. Qed.

(** In the order of the tests it is. *)
Lemma rate_limit_applies_in_tests config now made category request buckets :
  fst (through_layers config now made (test_layers category) request buckets) =
    match fst (check_rate config now made (extract_rate_limit_key request) category buckets) with
    | inl secs => inl (build_429_response secs (default [] (rq_request_id request)))
    | inr _ => inr (mkLimitedRequest true (Some category) (rq_actor request) (rq_request_id request)
                      (rq_forwarded_for request))
    end.
Proof.
  unfold test_layers, through_layers, rate_limit_middleware. simpl.
  unfold extract_rate_limit_key. simpl. destruct (check_rate _ _ _ _ _ _) as [[secs|[]] b]; done.
Qed.
