(* ===== verification/Sessions.v ===== *)
(** Who makes a request: sessions and users in the database
    (crates/infrastructure/src/session.rs, user_persistence.rs), the extractor
    that authenticates a request (auth_middleware.rs), the older one (api/src/auth.rs)
    and the ownership check (ownership.rs).

    [now] is the time of a call, in nanoseconds; tokens, which are random UUIDs,
    are arguments. *)
From S2P Require Import Prelude Float64 RustString Utf8 RecordedActivity RouteVersioning Http.

(** ** Tables *)

Record UserRow := mkUserRow {
  usr_id : uuid; usr_external_id : rstr; usr_email : option rstr; usr_display_name : option rstr;
  usr_created_at : datetime; usr_updated_at : datetime }.

Record SessionRow := mkSessionRow {
  ses_id : uuid; ses_user_id : uuid; ses_token_hash : rstr; ses_csrf_token : rstr;
  ses_expires_at : datetime; ses_created_at : datetime; ses_revoked_at : option datetime }.

Record IdentityDb := mkIdentityDb {
  id_users : gmap N UserRow; id_sessions : gmap N SessionRow }.

Definition set_users (t : gmap N UserRow) (d : IdentityDb) : IdentityDb := mkIdentityDb t (id_sessions d).
Definition set_sessions (t : gmap N SessionRow) (d : IdentityDb) : IdentityDb := mkIdentityDb (id_users d) t.

Inductive IdentityError : Type := SessionConstraint | UserConstraint.

#[export] Instance IdentityError_eq_dec : EqDecision IdentityError.
Proof. solve_decision. Defined.

(** ** Sessions *)

Record SessionInfo := mkSessionInfo { si_user_id : uuid; si_csrf_token : rstr; si_session_id : uuid }.

Definition seconds_ns (n : Z) : Z := n * 1000000000.

(** [chrono::Duration::seconds] panics beyond what milliseconds can count. *)
Definition chrono_seconds {S E} (n : Z) : eff S E Z :=
  if (Z.abs n <=? (2 ^ 63 - 1) / 1000)%Z then mret (seconds_ns n) else panic.

(** The end of chrono's years; an addition that reaches it panics. *)
Definition chrono_end : Z := seconds_ns 8210266876800.

Definition hash_token `{Sha256} (token : rstr) : rstr := sha256_hex (as_bytes token).

(** The constraints of the insertion: primary key, token_hash unique, user_id
    references users. *)
Definition insertable_session (r : SessionRow) (d : IdentityDb) : bool :=
  bool_decide (id_sessions d !! ses_id r = None) &&
  bool_decide (map_Forall (fun _ x => ses_token_hash x <> ses_token_hash r) (id_sessions d)) &&
  bool_decide (is_Some (id_users d !! ses_user_id r)).

(** [raw_token] and [csrf_token] are the random ones, [new_id] is the database's. *)
Definition create_session `{Sha256} (now : datetime) (new_id : uuid) (raw_token csrf_token : rstr)
    (user_id : uuid) (duration_secs : N) : eff IdentityDb IdentityError (rstr * rstr) :=
  delta ← chrono_seconds (i64_of (Z.of_N duration_secs));
  if (chrono_end <=? now + delta)%Z then panic else
  let r := mkSessionRow new_id user_id (hash_token raw_token) csrf_token (now + delta) now None in
  d ← get;
  if insertable_session r d then
    put (set_sessions (<[new_id := r]> (id_sessions d)) d);;
    mret (raw_token, csrf_token)
  else throw SessionConstraint.

(** [WHERE token_hash = $1 AND expires_at > now() AND revoked_at IS NULL]. *)
Definition valid_row (now : datetime) (token_hash : rstr) (r : SessionRow) : bool :=
  bool_decide (ses_token_hash r = token_hash) && (now <? ses_expires_at r)%Z &&
  bool_decide (ses_revoked_at r = None).

Definition validate_session `{Sha256} (now : datetime) (raw_token : rstr)
    : eff IdentityDb IdentityError (option SessionInfo) :=
  d ← get;
  mret ((fun r => mkSessionInfo (ses_user_id r) (ses_csrf_token r) (ses_id r)) <$>
    head (List.filter (valid_row now (hash_token raw_token)) (map snd (map_to_list (id_sessions d))))).

Definition set_revoked (now : datetime) (r : SessionRow) : SessionRow :=
  mkSessionRow (ses_id r) (ses_user_id r) (ses_token_hash r) (ses_csrf_token r) (ses_expires_at r)
    (ses_created_at r) (Some now).

(** [UPDATE .. SET revoked_at = now() WHERE .. AND revoked_at IS NULL]. *)
Definition revoke_where (now : datetime) (p : SessionRow -> bool) : eff IdentityDb IdentityError unit :=
  modify (fun d => set_sessions
    ((fun r => if p r && bool_decide (ses_revoked_at r = None) then set_revoked now r else r)
       <$> id_sessions d) d).

Definition revoke_session (now : datetime) (session_id : uuid) : eff IdentityDb IdentityError unit :=
  revoke_where now (fun r => bool_decide (ses_id r = session_id)).

Definition revoke_all_user_sessions (now : datetime) (user_id : uuid)
    : eff IdentityDb IdentityError unit :=
  revoke_where now (fun r => bool_decide (ses_user_id r = user_id)).

Definition cleanup_expired (now : datetime) : eff IdentityDb IdentityError N :=
  d ← get;
  let kept := filter (fun kr => now < ses_expires_at kr.2)%Z (id_sessions d) in
  put (set_sessions kept d);;
  mret (N.of_nat (size (id_sessions d) - size kept)).

(** ** Users *)

Definition coalesce {A} (new old : option A) : option A :=
  match new with Some _ => new | None => old end.

Definition update_user (now : datetime) (email name : option rstr) (r : UserRow) : UserRow :=
  mkUserRow (usr_id r) (usr_external_id r) (coalesce email (usr_email r))
    (coalesce name (usr_display_name r)) (usr_created_at r) now.

Definition users_named (external_id : rstr) (d : IdentityDb) : list UserRow :=
  List.filter (fun r => bool_decide (usr_external_id r = external_id))
    (map snd (map_to_list (id_users d))).

(** [INSERT .. ON CONFLICT (external_id) DO UPDATE .. RETURNING id]. *)
Definition find_or_create_by_external_id (now : datetime) (new_id : uuid) (external_id : rstr)
    (email name : option rstr) : eff IdentityDb IdentityError uuid :=
  d ← get;
  match head (users_named external_id d) with
  | Some r =>
      put (set_users (alter (update_user now email name) (usr_id r) (id_users d)) d);;
      mret (usr_id r)
  | None =>
      if decide (id_users d !! new_id = None) then
        put (set_users (<[new_id := mkUserRow new_id external_id email name now now]> (id_users d)) d);;
        mret new_id
      else throw UserConstraint
  end.

(** ** Ownership *)

Inductive PlatformError : Type :=
| Forbidden (message : rstr) | PlatformNotFound (message : rstr) | Internal (message : rstr).

Definition assert_owner (actor_user_id resource_owner_id : uuid) : result PlatformError unit :=
  if decide (actor_user_id = resource_owner_id) then Ok tt
  else Err (Forbidden (lit "you do not have permission to access this resource")).

(** ** The extractor *)

Definition SESSION_COOKIE_NAME : rstr := lit "haiker_sid".
Definition CSRF_HEADER_NAME : rstr := lit "x-csrf-token".

Inductive AuthSessionError : Type := MissingCredentials | InvalidSession | CsrfMismatch.

#[export] Instance AuthSessionError_eq_dec : EqDecision AuthSessionError.
Proof. solve_decision. Defined.

Definition auth_error_response (request_id : rstr) (e : AuthSessionError) : Response :=
  let '(status, code, message, problem_type, title) :=
    match e with
    | MissingCredentials =>
        (401, lit "UNAUTHORIZED", lit "missing session credentials", lit "/problems/unauthorized",
         lit "Unauthorized")
    | InvalidSession =>
        (401, lit "UNAUTHORIZED", lit "invalid or expired session", lit "/problems/unauthorized",
         lit "Unauthorized")
    | CsrfMismatch =>
        (403, lit "CSRF_MISMATCH", lit "CSRF token missing or invalid", lit "/problems/csrf-mismatch",
         lit "CSRF Mismatch")
    end%N in
  json_response status
    (JObject [(lit "type", JString problem_type); (lit "title", JString title);
              (lit "status", JInt (Z.of_N status)); (lit "code", JString code);
              (lit "detail", JString message); (lit "requestId", JString request_id)]).

Definition is_state_changing_method (method : rstr) : bool :=
  bool_decide (method = lit "POST") || bool_decide (method = lit "PUT") ||
  bool_decide (method = lit "PATCH") || bool_decide (method = lit "DELETE").

(** The variable is read once; the model has it as an argument. *)
Definition is_dev_auth_enabled (env : Env) : bool :=
  match env (lit "DEV_AUTH_ENABLED") with
  | Some v => bool_decide (v = lit "true") || bool_decide (v = lit "1")
  | None => false
  end.

Definition bearer_uuid `{UuidParser} (auth_header : rstr) : option uuid :=
  strip_prefix (lit "Bearer ") auth_header ≫= fun token =>
  match uuid_parse token with inr u => Some u | inl _ => None end.

Definition try_dev_bearer_auth `{UuidParser} (parts : Parts) : option uuid :=
  get_header (lit "authorization") (pt_headers parts) ≫= bearer_uuid.

(** The loop over the cookies: the first that is [name=value]. *)
Fixpoint find_cookie (name : rstr) (cookies : list rstr) : option rstr :=
  match cookies with
  | [] => None
  | c :: cookies' =>
      match strip_prefix name (trim c) ≫= strip_prefix (lit "=") with
      | Some value => Some value
      | None => find_cookie name cookies'
      end
  end.

Definition extract_cookie_value (headers : HeaderMap) (name : rstr) : option rstr :=
  get_header (lit "cookie") headers ≫= fun h => find_cookie name (split_on 59 h).

(** [AuthSession::from_request_parts]: the authenticated user. *)
Definition authenticate `{Sha256} `{UuidParser} (dev_auth : bool) (now : datetime) (parts : Parts)
    : eff IdentityDb AuthSessionError uuid :=
  match (if dev_auth then try_dev_bearer_auth parts else None) with
  | Some user_id => mret user_id
  | None =>
      raw_token ← lift (ok_or (extract_cookie_value (pt_headers parts) SESSION_COOKIE_NAME)
                          MissingCredentials);
      found ← eff_map_err (fun _ => InvalidSession) (validate_session now raw_token);
      session_info ← lift (ok_or found InvalidSession);
      lift (if is_state_changing_method (pt_method parts) then
              csrf_header ← ok_or (get_header CSRF_HEADER_NAME (pt_headers parts)) CsrfMismatch;
              guard_err (negb (bool_decide (csrf_header = si_csrf_token session_info))) CsrfMismatch
            else Ok tt);;
      mret (si_user_id session_info)
  end.

(** [AuthenticatedActor], the older extractor. *)
Inductive AuthError : Type := MissingToken | InvalidToken.

Definition authenticated_actor `{UuidParser} (parts : Parts) : result AuthError uuid :=
  auth_header ← ok_or (get_header (lit "authorization") (pt_headers parts)) MissingToken;
  token ← ok_or (strip_prefix (lit "Bearer ") auth_header) InvalidToken;
  match uuid_parse token with inr u => Ok u | inl _ => Err InvalidToken end.

Definition auth_error_detail (e : AuthError) : rstr :=
  match e with
  | MissingToken => lit "missing authorization header"
  | InvalidToken => lit "invalid bearer token"
  end.
