(* ===== verification/Login.v ===== *)
(** The endpoints of a login (crates/api/src/auth_handlers.rs): they compose the
    pending logins, the users and the sessions.

    The OIDC provider is a parameter: what it answers to a request for a login URL
    and to the exchange of a code.  [instant] is the monotonic clock of the
    pending logins, [now] the time of the database. *)
From S2P Require Import Prelude Float64 RustString Utf8 RecordedActivity RouteVersioning Http OidcState.
From S2P Require Import Sessions.

Record OidcClaims := mkClaims {
  cl_subject : rstr; cl_email : option rstr; cl_name : option rstr }.

(** [authorization_url]: the URL, state, nonce and verifier; [exchange_code]. *)
Class OidcProvider := {
  authorization_url : option (rstr * rstr * rstr * rstr);
  exchange_code : rstr -> rstr -> rstr -> option OidcClaims }.

Record AuthState := mkAuthState { as_states : OidcStateStore; as_identity : IdentityDb }.

Record CallbackParams := mkCallbackParams {
  cp_code : option rstr; cp_state : option rstr; cp_error : option rstr;
  cp_error_description : option rstr }.

(** What a request brings that is random or from the clock. *)
Record LoginIds := mkLoginIds {
  li_user : uuid; li_session : uuid; li_raw_token : rstr; li_csrf_token : rstr }.

Definition SESSION_DURATION_SECS : N := 7 * 24 * 3600.

Section handlers.
Context `{Sha256} `{UuidDisplay}.
Context (provider : option OidcProvider) (cookie_secure : bool).

(** A handler: its response, or a panic, and the state it leaves. *)
Abbreviation handler := (eff AuthState Response Response) (only parsing).

(** A [return] inside a handler, and the end of it. *)
Definition respond {A} (r : Response) : eff AuthState Response A := throw r.

Definition on_states {A} (f : OidcStateStore -> A * OidcStateStore) : eff AuthState Response A :=
  fun s => let '(a, t) := f (as_states s) in (Ok a, mkAuthState t (as_identity s)).
Definition on_identity {E A} (m : eff IdentityDb E A) : eff AuthState E A :=
  fun s => let '(r, d) := m (as_identity s) in (r, mkAuthState (as_states s) d).

Definition unconfigured : Response :=
  problem 503 (lit "/problems/service-unavailable") (lit "Service Unavailable")
    (lit "OIDC provider not configured").
Definition unauthorized (detail : rstr) : Response :=
  problem 401 (lit "/problems/unauthorized") (lit "Unauthorized") detail.
Definition internal_error (detail : rstr) : Response :=
  problem 500 (lit "/problems/internal-error") (lit "Internal Server Error") detail.

Definition post_login (instant : Z) : eff AuthState Response Response :=
  match provider with
  | None => mret unconfigured
  | Some p =>
      match @authorization_url p with
      | Some (url, csrf_state, nonce, code_verifier) =>
          on_states (fun s => (tt, store_state instant csrf_state nonce code_verifier s));;
          mret (json_response 200 (JObject [(lit "authorization_url", JString url)]))
      | None => mret (internal_error (lit "Failed to generate authorization URL"))
      end
  end.

Definition secure_flag : rstr := if cookie_secure then lit "; Secure" else [].

Definition session_cookie (raw_token : rstr) : rstr :=
  SESSION_COOKIE_NAME ++ lit "=" ++ raw_token ++ lit "; HttpOnly" ++ secure_flag ++
  lit "; SameSite=Lax; Path=/; Max-Age=" ++ display_N SESSION_DURATION_SECS.

Definition clear_cookie : rstr :=
  SESSION_COOKIE_NAME ++ lit "=; HttpOnly" ++ secure_flag ++ lit "; SameSite=Lax; Path=/; Max-Age=0".

(** [insert(SET_COOKIE, v.parse().expect(..))]. *)
Definition with_cookie (cookie : rstr) (r : Response) : eff AuthState Response Response :=
  if header_value_ok cookie then mret (mkResponse (rs_status r) (rs_body r) (Some cookie) (rs_headers r)) else panic.

(** The guards of the callback, up to the claims. *)
Definition callback_claims (instant : Z) (params : CallbackParams) : eff AuthState Response OidcClaims :=
  match cp_error params with
  | Some _ =>
      respond (unauthorized (lit "Authentication failed: " ++
        default (lit "unknown error") (cp_error_description params)))
  | None =>
      p ← lift (ok_or provider unconfigured);
      code ← lift (ok_or (cp_code params)
               (problem 400 (lit "/problems/bad-request") (lit "Bad Request")
                  (lit "Missing authorization code")));
      callback_state ← lift (ok_or (cp_state params) (unauthorized (lit "Missing state parameter")));
      pair ← on_states (consume_state instant callback_state);
      pair ← lift (ok_or pair (unauthorized (lit "Invalid or expired state parameter")));
      lift (ok_or (@exchange_code p code (fst pair) (snd pair))
        (unauthorized (lit "Failed to exchange authorization code")))
  end.

Definition callback_body (instant now : Z) (ids : LoginIds) (params : CallbackParams)
    : eff AuthState Response Response :=
  claims ← callback_claims instant params;
  user_id ← eff_map_err (fun _ => internal_error (lit "Failed to create user account"))
    (on_identity (find_or_create_by_external_id now (li_user ids) (cl_subject claims)
       (cl_email claims) (cl_name claims)));
  tokens ← eff_map_err (fun _ => internal_error (lit "Failed to create session"))
    (on_identity (create_session now (li_session ids) (li_raw_token ids) (li_csrf_token ids) user_id
       SESSION_DURATION_SECS));
  with_cookie (session_cookie (fst tokens))
    (json_response 200 (JObject [(lit "csrf_token", JString (snd tokens));
                                 (lit "user_id", JString (uuid_display user_id))])).

(** A handler that returned early has returned its response. *)
Definition returning (m : eff AuthState Response Response) : eff AuthState Response Response :=
  fun s => let '(r, s') := m s in
           (match r with Ok x | Err x => Ok x | Panicked => Panicked end, s').

Definition get_callback (instant now : Z) (ids : LoginIds) (params : CallbackParams)
    : eff AuthState Response Response :=
  returning (callback_body instant now ids params).

Definition csrf_mismatch_response : Response :=
  json_response 403
    (JObject [(lit "error", JObject [(lit "code", JString (lit "CSRF_MISMATCH"));
                                     (lit "message", JString (lit "CSRF token missing or invalid"))])]).

Definition post_logout (now : Z) (headers : HeaderMap) : eff AuthState Response Response :=
  returning (
    match extract_cookie_value headers SESSION_COOKIE_NAME with
    | None => mret (status_response 204)
    | Some raw_token =>
        found ← attempt (on_identity (validate_session now raw_token));
        match found with
        | Ok (Some session_info) =>
            if bool_decide (get_header CSRF_HEADER_NAME headers = Some (si_csrf_token session_info)) then
              _ ← attempt (on_identity (revoke_session now (si_session_id session_info)));
              mret tt
            else respond csrf_mismatch_response
        | _ => mret tt
        end;;
        with_cookie clear_cookie (status_response 204)
    end).

Definition me_unauthorized (detail : rstr) : Response :=
  json_response 401
    (JObject [(lit "type", JString (lit "/problems/unauthorized"));
              (lit "title", JString (lit "Unauthorized")); (lit "status", JInt 401);
              (lit "code", JString (lit "UNAUTHORIZED")); (lit "detail", JString detail)]).

Definition get_me (now : Z) (headers : HeaderMap) : eff AuthState Response Response :=
  match extract_cookie_value headers SESSION_COOKIE_NAME with
  | None => mret (me_unauthorized (lit "missing session credentials"))
  | Some raw_token =>
      found ← attempt (on_identity (validate_session now raw_token));
      match found with
      | Ok (Some session_info) =>
          mret (json_response 200
            (JObject [(lit "user_id", JString (uuid_display (si_user_id session_info)));
                      (lit "csrf_token", JString (si_csrf_token session_info))]))
      | _ => mret (me_unauthorized (lit "invalid or expired session"))
      end
  end.
End handlers.
