(* ===== verification/LoginTheory.v ===== *)
(** Sessions as a map from token hashes to live sessions, who is authenticated,
    and what a login does. *)
From S2P Require Import Prelude Float64 RustString Utf8 RecordedActivity RouteVersioning Http OidcState.
From S2P Require Import Sessions Login.

#[local] Open Scope Z_scope.

(** ** The live sessions *)

Definition session_rows (d : IdentityDb) : list SessionRow := map snd (map_to_list (id_sessions d)).

(** The constraints of the table. *)
Definition sessions_ok (d : IdentityDb) : Prop :=
  map_Forall (fun k r => ses_id r = k) (id_sessions d) /\
  forall k r k' r', id_sessions d !! k = Some r -> id_sessions d !! k' = Some r' ->
    ses_token_hash r = ses_token_hash r' -> k = k'.

Definition session_info (r : SessionRow) : SessionInfo :=
  mkSessionInfo (ses_user_id r) (ses_csrf_token r) (ses_id r).
Definition live_entry (r : SessionRow) : rstr * (SessionInfo * Z) :=
  (ses_token_hash r, (session_info r, ses_expires_at r)).
Definition unrevoked (r : SessionRow) : bool := bool_decide (ses_revoked_at r = None).

(** The sessions that have not been revoked, by the hash of their token, with
    their expiry. *)
Definition live (d : IdentityDb) : gmap rstr (SessionInfo * Z) :=
  list_to_map (map live_entry (List.filter unrevoked (session_rows d))).

Lemma elem_of_session_rows d r : r ∈ session_rows d <-> exists k, id_sessions d !! k = Some r.
Proof.
  unfold session_rows. rewrite list_elem_of_fmap. split.
  - intros ([k x] & -> & Hk%elem_of_map_to_list). by exists k.
  - intros (k & Hk). exists (k, r). split; [done|]. by apply elem_of_map_to_list.
Qed.

Lemma live_lookup d h x :
  sessions_ok d ->
  live d !! h = Some x <->
  exists k r, id_sessions d !! k = Some r /\ ses_revoked_at r = None /\ ses_token_hash r = h /\
    x = (session_info r, ses_expires_at r).
Proof.
  intros [Hk Hu]. unfold live. rewrite <- elem_of_list_to_map.
  - rewrite list_elem_of_fmap. split.
    + intros (r & [= -> ->] & Hr). rewrite list_elem_of_In, List.filter_In, <- list_elem_of_In in Hr.
      destruct Hr as [[k Hr]%elem_of_session_rows Hn%bool_decide_eq_true]. eauto 10.
    + intros (k & r & Hr & Hn & <- & ->). exists r. split; [done|].
      rewrite list_elem_of_In, List.filter_In, <- list_elem_of_In. split; [|by apply bool_decide_eq_true_2].
      apply elem_of_session_rows. eauto.
  - rewrite <- list_fmap_compose. apply NoDup_fmap_2_strong.
    + intros r r' Hr Hr' He. rewrite !list_elem_of_In, !List.filter_In, <- !list_elem_of_In in Hr, Hr'.
      destruct Hr as [[k Hr]%elem_of_session_rows _], Hr' as [[k' Hr']%elem_of_session_rows _].
      assert (k = k') as -> by (apply (Hu k r k' r'); done). congruence.
    + apply NoDup_List_filter. by apply (NoDup_snd_map_to_list ses_id).
Qed.

(** A change of rows that keeps their identity. *)
Lemma sessions_ok_fmap (f : SessionRow -> SessionRow) d :
  (forall r, ses_id (f r) = ses_id r /\ ses_token_hash (f r) = ses_token_hash r) ->
  sessions_ok d -> sessions_ok (set_sessions (f <$> id_sessions d) d).
Proof.
  intros Hf [Hk Hu]. split.
  - intros k x. simpl. rewrite lookup_fmap, fmap_Some. intros (r & Hr & ->).
    rewrite (proj1 (Hf r)). by apply Hk.
  - intros k x k' x'. simpl. rewrite !lookup_fmap, !fmap_Some. intros (r & Hr & ->) (r' & Hr' & ->).
    rewrite (proj2 (Hf r)), (proj2 (Hf r')). by apply Hu.
Qed.

(** Revoking removes the live sessions it is about. *)
Lemma revoke_where_live now (p : SessionRow -> bool) (q : SessionInfo -> Prop) `{!forall i, Decision (q i)} d :
  (forall r, p r = bool_decide (q (session_info r))) -> sessions_ok d ->
  let d' := snd (revoke_where now p d) in
  sessions_ok d' /\ live d' = filter (fun hx => ~ q (fst hx.2)) (live d).
Proof.
  intros Hpq Hok. unfold revoke_where, modify. cbn [snd].
  set (f := fun r => if p r && bool_decide (ses_revoked_at r = None) then set_revoked now r else r).
  assert (sessions_ok (set_sessions (f <$> id_sessions d) d)) as Hok'.
  { apply sessions_ok_fmap; [|done]. intros r. unfold f. by destruct (_ && _). }
  assert (forall k y, id_sessions (set_sessions (f <$> id_sessions d) d) !! k = Some y <->
    exists r, id_sessions d !! k = Some r /\ y = f r) as Hl.
  { intros k y. simpl. rewrite lookup_fmap, fmap_Some. done. }
  split; [done|]. apply map_eq. intros h. apply option_eq. intros x.
  rewrite live_lookup by done. rewrite map_lookup_filter_Some, live_lookup by done. simpl.
  setoid_rewrite Hl. split.
  - intros (k & y & (r & Hr & ->) & Hn & Hh & ->). unfold f in *.
    destruct (p r) eqn:Hp, (bool_decide (ses_revoked_at r = None)) eqn:Hv; simpl in *; try done.
    + by rewrite Hn, bool_decide_eq_true_2 in Hv.
    + split; [eauto 10|]. rewrite Hpq in Hp. by apply bool_decide_eq_false in Hp.
    + by rewrite Hn, bool_decide_eq_true_2 in Hv.
  - intros [(k & r & Hr & Hn & Hh & ->) Hq]. exists k, r. split_and!; [|done..]. exists r. split; [done|].
    unfold f. by rewrite Hpq, bool_decide_eq_false_2.
Qed.

Lemma cleanup_live now d :
  sessions_ok d ->
  let d' := snd (cleanup_expired now d) in
  sessions_ok d' /\ live d' = filter (fun hx => now < hx.2.2) (live d).
Proof.
  intros Hok. unfold cleanup_expired. run. cbn [snd].
  set (d' := set_sessions _ d).
  assert (forall k r, id_sessions d' !! k = Some r <-> id_sessions d !! k = Some r /\ now < ses_expires_at r) as Hl.
  { intros k r. unfold d'. simpl. by rewrite map_lookup_filter_Some. }
  assert (sessions_ok d') as Hok'.
  { destruct Hok as [Hk Hu]. split.
    - intros k r [Hr _]%Hl. by apply Hk.
    - intros k r k' r' [Hr _]%Hl [Hr' _]%Hl. by apply Hu. }
  split; [done|]. apply map_eq. intros h. apply option_eq. intros x.
  rewrite live_lookup by done. rewrite map_lookup_filter_Some, live_lookup by done.
  setoid_rewrite Hl. split.
  - intros (k & r & [Hr He] & Hn & Hh & ->). split; [eauto 10|exact He].
  - intros [(k & r & Hr & Hn & Hh & ->) He]. eauto 10.
Qed.

Section sessions.
Context `{Sha256}.

Lemma create_session_live now id raw csrf u secs d res d' :
  sessions_ok d -> create_session now id raw csrf u secs d = (res, d') ->
  match res with
  | Ok tokens =>
      tokens = (raw, csrf) /\ is_Some (id_users d !! u) /\ id_users d' = id_users d /\ sessions_ok d' /\
      live d !! hash_token raw = None /\
      live d' = <[hash_token raw := (mkSessionInfo u csrf id, now + seconds_ns (i64_of (Z.of_N secs)))]> (live d)
  | _ => d' = d
  end.
Proof.
  intros Hok. unfold create_session, chrono_seconds. run. intros Hrun.
  destruct (_ <=? _) eqn:Hd; [|by injection Hrun as <- <-].
  destruct (chrono_end <=? _); [by injection Hrun as <- <-|].
  set (r := mkSessionRow _ _ _ _ _ _ _) in Hrun.
  destruct (insertable_session r d) eqn:Hi; [|by injection Hrun as <- <-].
  injection Hrun as <- <-. unfold insertable_session in Hi. rewrite !andb_true_iff, !bool_decide_eq_true in Hi.
  destruct Hi as [[Hid Hhash] Huser]. change (id_sessions d !! id = None) in Hid.
  assert (sessions_ok (set_sessions (<[id := r]> (id_sessions d)) d)) as Hok'.
  { destruct Hok as [Hk Hu]. split.
    - intros k x. simpl. rewrite lookup_insert_Some. intros [[<- <-]|[_ Hx]]; [done|by apply Hk].
    - intros k x k' x'. simpl. rewrite !lookup_insert_Some.
      intros [[<- <-]|[Hk1 Hx]] [[<- <-]|[Hk2 Hx']] He; [done|..|by apply (Hu k x k' x')].
      + by destruct (Hhash k' x' Hx').
      + by destruct (Hhash k x Hx). }
  assert (live d !! hash_token raw = None) as Hnone.
  { destruct (live d !! hash_token raw) as [x|] eqn:Hx; [|done].
    apply live_lookup in Hx as (k & y & Hy & _ & Hh & _); [|done]. by destruct (Hhash k y Hy). }
  split_and!; try done. apply map_eq. intros h. apply option_eq. intros x.
  rewrite live_lookup by done. rewrite lookup_insert_Some, live_lookup by done. cbn [id_sessions set_sessions].
  setoid_rewrite lookup_insert_Some. split.
  - intros (k & y & [[<- <-]|[Hk Hy]] & Hn & Hh & ->); [by left|right].
    split; [intros Heq; by destruct (Hhash k y Hy); rewrite Hh|]. eauto 10.
  - intros [[<- <-]|[Hh (k & y & Hy & Hn & Hhy & ->)]].
    + exists id, r. split_and!; [by left|done..].
    + exists k, y. split_and!; try done. right. split; [intros <-; congruence|done].
Qed.

Lemma validate_session_live now raw d :
  sessions_ok d ->
  validate_session now raw d =
    (Ok (match live d !! hash_token raw with
         | Some (info, expires) => if now <? expires then Some info else None
         | None => None
         end), d).
Proof.
  intros Hok. unfold validate_session. run. f_equal. f_equal.
  set (rows := List.filter _ _).
  assert (forall r, r ∈ rows <-> (exists k, id_sessions d !! k = Some r) /\
    ses_token_hash r = hash_token raw /\ now < ses_expires_at r /\ ses_revoked_at r = None) as Hrows.
  { intros r. unfold rows. rewrite list_elem_of_In, List.filter_In, <- list_elem_of_In.
    fold (session_rows d). rewrite elem_of_session_rows. unfold valid_row.
    rewrite !andb_true_iff, !bool_decide_eq_true, Z.ltb_lt. tauto. }
  destruct (live d !! hash_token raw) as [[info e]|] eqn:Hl.
  - apply live_lookup in Hl as (k & r & Hr & Hn & Hh & [= -> ->]); [|done].
    destruct rows as [|r' rest]; simpl.
    + destruct (Z.ltb_spec now (ses_expires_at r)); [|done].
      assert (r ∈ @nil SessionRow) as Hin by (apply Hrows; eauto 10). by apply elem_of_nil in Hin.
    + destruct (proj1 (Hrows r') ltac:(left)) as ([k' Hr'] & Hh' & He' & _).
      assert (k' = k) as -> by (apply (proj2 Hok k' r' k r); [done..|congruence]).
      assert (r' = r) as -> by congruence. by rewrite (proj2 (Z.ltb_lt _ _) He').
  - destruct rows as [|r' rest]; [done|].
    destruct (proj1 (Hrows r') ltac:(left)) as ([k' Hr'] & Hh' & _ & Hn').
    assert (live d !! hash_token raw = Some (session_info r', ses_expires_at r')) by
      (apply live_lookup; eauto 10). congruence.
Qed.

(** C31: the session store is a map from token hashes to live sessions.  Creating
    a session adds its entry, for an existing user and under a hash that was free,
    or changes nothing; revoking a session or a user's sessions removes exactly
    their entries; the cleanup removes exactly the expired ones; and a token is
    valid exactly as long as its entry is there and has not expired.  The
    constraints of the table are kept. *)
Theorem session_store_refines d :
  sessions_ok d ->
  (forall now id raw csrf u secs,
     match create_session now id raw csrf u secs d with
     | (Ok tokens, d') =>
         tokens = (raw, csrf) /\ is_Some (id_users d !! u) /\ id_users d' = id_users d /\ sessions_ok d' /\
         live d !! hash_token raw = None /\
         live d' = <[hash_token raw := (mkSessionInfo u csrf id, now + seconds_ns (i64_of (Z.of_N secs)))]> (live d)
     | (_, d') => d' = d
     end) /\
  (forall now sid, let d' := snd (revoke_session now sid d) in
     sessions_ok d' /\ live d' = filter (fun hx => si_session_id (fst hx.2) <> sid) (live d)) /\
  (forall now uid, let d' := snd (revoke_all_user_sessions now uid d) in
     sessions_ok d' /\ live d' = filter (fun hx => si_user_id (fst hx.2) <> uid) (live d)) /\
  (forall now, let d' := snd (cleanup_expired now d) in
     sessions_ok d' /\ live d' = filter (fun hx => now < hx.2.2) (live d)) /\
  (forall now raw, validate_session now raw d =
     (Ok (match live d !! hash_token raw with
          | Some (info, expires) => if now <? expires then Some info else None
          | None => None
          end), d)).
Proof.
  intros Hok. split_and!.
  - intros. destruct (create_session _ _ _ _ _ _ d) as [res d'] eqn:Hc.
    pose proof (create_session_live _ _ _ _ _ _ d res d' Hok Hc) as Hl. by destruct res.
  - intros now sid.
    exact (revoke_where_live now (fun r => bool_decide (ses_id r = sid)) (fun i => si_session_id i = sid) d
      (fun _ => eq_refl) Hok).
  - intros now uid.
    exact (revoke_where_live now (fun r => bool_decide (ses_user_id r = uid)) (fun i => si_user_id i = uid) d
      (fun _ => eq_refl) Hok).
  - intros now. by apply cleanup_live.
  - intros. by apply validate_session_live.
Qed.

(** ** Who is authenticated *)

Context `{UuidParser}.

Lemma state_changing_methods m :
  is_state_changing_method m = true <-> m ∈ [lit "POST"; lit "PUT"; lit "PATCH"; lit "DELETE"].
Proof.
  unfold is_state_changing_method. rewrite !orb_true_iff, !bool_decide_eq_true.
  rewrite !elem_of_cons, elem_of_nil. tauto.
Qed.

(** The live session that a request shows. *)
Definition shown_session (now : Z) (d : IdentityDb) (headers : HeaderMap) (info : SessionInfo) : Prop :=
  exists token expires, extract_cookie_value headers SESSION_COOKIE_NAME = Some token /\
    live d !! hash_token token = Some (info, expires) /\ now < expires.

(** The outcome of [authenticate], by what the request shows. *)
Lemma authenticate_cases now parts d :
  sessions_ok d ->
  let csrf_ok info := pt_method parts ∈ [lit "POST"; lit "PUT"; lit "PATCH"; lit "DELETE"] ->
    get_header CSRF_HEADER_NAME (pt_headers parts) = Some (si_csrf_token info) in
  exists res, authenticate false now parts d = (res, d) /\
  (forall u, res = Ok u <-> exists info, shown_session now d (pt_headers parts) info /\
     csrf_ok info /\ si_user_id info = u) /\
  (res = Err MissingCredentials <-> extract_cookie_value (pt_headers parts) SESSION_COOKIE_NAME = None) /\
  (res = Err CsrfMismatch <-> exists info, shown_session now d (pt_headers parts) info /\ ~ csrf_ok info) /\
  res <> Panicked.
Proof.
  intros Hok csrf_ok. unfold authenticate, shown_session.
  destruct (extract_cookie_value (pt_headers parts) SESSION_COOKIE_NAME) as [token|] eqn:Hc.
  2:{ exists (Err MissingCredentials). run. simpl. split; [done|]. split_and!; [naive_solver..|done]. }
  erewrite eff_bind_ok by done.
  erewrite eff_bind_ok by (unfold eff_map_err; by rewrite validate_session_live).
  destruct (live d !! hash_token token) as [[info e]|] eqn:Hl;
    [destruct (Z.ltb_spec now e) as [Hlt|Hge]|];
    [|exists (Err InvalidSession); split; [done|]; split_and!; naive_solver lia..].
  erewrite eff_bind_ok by done.
  assert (Hcsrf : forall i, csrf_ok i <-> (is_state_changing_method (pt_method parts) = true ->
    get_header CSRF_HEADER_NAME (pt_headers parts) = Some (si_csrf_token i)))
    by (intros i; unfold csrf_ok; by rewrite state_changing_methods).
  clearbody csrf_ok. setoid_rewrite Hcsrf. clear Hcsrf.
  assert (Hshown : forall i, (exists t x, Some token = Some t /\ live d !! hash_token t = Some (i, x) /\ now < x)
    <-> i = info) by naive_solver.
  setoid_rewrite Hshown.
  destruct (is_state_changing_method (pt_method parts)).
  - destruct (get_header CSRF_HEADER_NAME (pt_headers parts)) as [h|]; run; unfold guard_err, ok_or.
    + destruct (decide (h = si_csrf_token info)) as [->|Hne].
      * rewrite bool_decide_eq_true_2 by done. eexists. split; [reflexivity|]. split_and!; naive_solver.
      * rewrite bool_decide_eq_false_2 by done. eexists. split; [reflexivity|]. split_and!; naive_solver.
    + eexists. split; [reflexivity|]. split_and!; naive_solver.
  - eexists. run. split; [reflexivity|]. split_and!; naive_solver.
Qed.

(** C32: who is authenticated.  Without the development mode a request is the
    user's exactly when its cookie is the token of a live, unexpired session of
    that user, and, for the methods that change state, its CSRF header is the one
    of that session.  A request without the cookie lacks credentials, one without
    such a session has an invalid one, one with the wrong header is refused for
    it; and nothing is written in any case. *)
Theorem authenticate_correct now parts d :
  sessions_ok d ->
  let csrf_ok info := pt_method parts ∈ [lit "POST"; lit "PUT"; lit "PATCH"; lit "DELETE"] ->
    get_header CSRF_HEADER_NAME (pt_headers parts) = Some (si_csrf_token info) in
  exists res, authenticate false now parts d = (res, d) /\
  (forall u, res = Ok u <-> exists info, shown_session now d (pt_headers parts) info /\
     csrf_ok info /\ si_user_id info = u) /\
  (res = Err MissingCredentials <-> extract_cookie_value (pt_headers parts) SESSION_COOKIE_NAME = None) /\
  (res = Err CsrfMismatch <-> exists info, shown_session now d (pt_headers parts) info /\ ~ csrf_ok info) /\
  res <> Panicked.
Proof. apply authenticate_cases. Qed.
End sessions.

(** ** A login *)

Definition users_ok (d : IdentityDb) : Prop := map_Forall (fun k r => usr_id r = k) (id_users d).

Lemma live_sessions d d' : id_sessions d' = id_sessions d -> live d' = live d /\ (sessions_ok d -> sessions_ok d').
Proof. unfold live, session_rows, sessions_ok. by intros ->. Qed.

Lemma find_or_create_spec now id ext email name d :
  users_ok d ->
  match find_or_create_by_external_id now id ext email name d with
  | (Ok u, d') => id_sessions d' = id_sessions d /\ users_ok d' /\
      exists row, id_users d' !! u = Some row /\ usr_external_id row = ext
  | (_, d') => d' = d
  end.
Proof.
  intros Hk. unfold find_or_create_by_external_id. run.
  destruct (users_named ext d) as [|r l] eqn:Hr; simpl.
  - case_decide as Hid; [|done]. split_and!; [done| |].
    + intros k x. simpl. rewrite lookup_insert_Some. intros [[<- <-]|[_ Hx]]; [done|by apply Hk].
    + eexists. simpl. by rewrite lookup_insert_eq.
  - assert (r ∈ users_named ext d) as Hin by (rewrite Hr; left). unfold users_named in Hin.
    rewrite list_elem_of_In, List.filter_In, <- list_elem_of_In, list_elem_of_fmap in Hin.
    destruct Hin as [([k x] & -> & Hx%elem_of_map_to_list) He%bool_decide_eq_true]. simpl in *.
    pose proof (Hk k x Hx) as Hkx. split_and!; [done| |].
    + intros j y. simpl. rewrite lookup_alter_Some.
      intros [(<- & z & Hz & ->)|[_ Hy]]; [exact (Hk _ z Hz)|by apply Hk].
    + eexists. simpl. rewrite Hkx, lookup_alter_eq, Hx. by split.
Qed.

Section login.
Context `{Sha256} `{UuidDisplay} (provider : option OidcProvider) (cookie_secure : bool).

(** What a callback must have gone through to get claims. *)
Definition claims_from (instant : Z) (params : CallbackParams) (claims : OidcClaims)
    (s s' : OidcStateStore) : Prop :=
  exists p code state nonce verifier,
    provider = Some p /\ cp_error params = None /\ cp_code params = Some code /\
    cp_state params = Some state /\ consume_state instant state s = (Some (nonce, verifier), s') /\
    exchange_code code nonce verifier = Some claims.

Lemma callback_claims_spec instant params st :
  match callback_claims provider instant params st with
  | (Ok claims, st') => as_identity st' = as_identity st /\
      claims_from instant params claims (as_states st) (as_states st')
  | (Err resp, st') => as_identity st' = as_identity st /\ rs_set_cookie resp = None /\ rs_status resp <> 200%N
  | (Panicked, _) => False
  end.
Proof.
  unfold callback_claims, claims_from, on_states. destruct (cp_error params); [done|].
  run. destruct provider as [p|]; [|done]. simpl.
  destruct (cp_code params) as [code|]; [|done]. simpl.
  destruct (cp_state params) as [state|]; [|done]. simpl.
  destruct (consume_state instant state (as_states st)) as [[[nonce verifier]|] s'] eqn:Hc; simpl; [|done].
  destruct (exchange_code code nonce verifier) as [claims|] eqn:He; simpl; [|done].
  split; [done|]. by exists p, code, state, nonce, verifier.
Qed.

Lemma identity_step {E A B} (f : E -> Response) (m : eff IdentityDb E A) (k : A -> eff AuthState Response B)
    s d r d' :
  m d = (r, d') ->
  (eff_map_err f (on_identity m) ≫= k) (mkAuthState s d) =
    match r with
    | Ok a => k a (mkAuthState s d')
    | Err e => (Err (f e), mkAuthState s d')
    | Panicked => (Panicked, mkAuthState s d')
    end.
Proof. intros Hm. unfold mbind, eff_bind, eff_map_err, on_identity. cbn [as_identity as_states]. rewrite Hm. by destruct r. Qed.

Lemma create_session_no_panic now id raw csrf u d :
  now + seconds_ns (7 * 24 * 3600) < chrono_end ->
  fst (create_session now id raw csrf u SESSION_DURATION_SECS d) <> Panicked.
Proof.
  intros Hend. unfold create_session. erewrite eff_bind_ok by reflexivity.
  change (i64_of (Z.of_N SESSION_DURATION_SECS)) with (7 * 24 * 3600).
  destruct (Z.leb_spec chrono_end (now + seconds_ns (7 * 24 * 3600))); [lia|]. run.
  by destruct (insertable_session _ _).
Qed.

Lemma find_or_create_no_panic now id ext email name d :
  fst (find_or_create_by_external_id now id ext email name d) <> Panicked.
Proof. unfold find_or_create_by_external_id. run. destruct (head _); [done|]. by case_decide. Qed.

(** What a callback comes to. *)
Lemma callback_session instant now ids params st :
  sessions_ok (as_identity st) -> users_ok (as_identity st) ->
  now + seconds_ns (7 * 24 * 3600) < chrono_end ->
  header_value_ok (session_cookie cookie_secure (li_raw_token ids)) = true ->
  exists resp st', get_callback provider cookie_secure instant now ids params st = (Ok resp, st') /\
    sessions_ok (as_identity st') /\ users_ok (as_identity st') /\
    ((rs_set_cookie resp = None /\ rs_status resp <> 200%N /\
      live (as_identity st') = live (as_identity st)) \/
     exists claims u row,
       claims_from instant params claims (as_states st) (as_states st') /\
       id_users (as_identity st') !! u = Some row /\ usr_external_id row = cl_subject claims /\
       rs_status resp = 200%N /\
       rs_set_cookie resp = Some (session_cookie cookie_secure (li_raw_token ids)) /\
       live (as_identity st) !! hash_token (li_raw_token ids) = None /\
       live (as_identity st') =
         <[hash_token (li_raw_token ids) :=
             (mkSessionInfo u (li_csrf_token ids) (li_session ids), now + seconds_ns (7 * 24 * 3600))]>
           (live (as_identity st))).
Proof.
  intros Hs Hu Hend Hcookie. unfold get_callback, returning, callback_body.
  pose proof (callback_claims_spec instant params st) as Hclaims.
  destruct (callback_claims provider instant params st) as [[claims|resp|] [s1 d1]] eqn:Hc; [| |done].
  2:{ erewrite eff_bind_err by exact Hc. destruct Hclaims as (Hid & Hno & H200).
      eexists _, _. split; [reflexivity|]. rewrite Hid. split; [done|]. split; [done|]. by left. }
  erewrite eff_bind_ok by exact Hc. destruct Hclaims as [Hid Hclaims]. simpl in Hid. subst d1.
  set (f1 := find_or_create_by_external_id now (li_user ids) (cl_subject claims) (cl_email claims) (cl_name claims)).
  pose proof (find_or_create_spec now (li_user ids) (cl_subject claims) (cl_email claims) (cl_name claims)
    (as_identity st) Hu) as Hfind.
  pose proof (find_or_create_no_panic now (li_user ids) (cl_subject claims) (cl_email claims) (cl_name claims)
    (as_identity st)) as Hnp. fold f1 in Hfind, Hnp.
  destruct (f1 (as_identity st)) as [fres d2] eqn:Hf.
  erewrite identity_step by exact Hf. destruct fres as [u|e|]; [| |done].
  2:{ subst d2. eexists _, _. split; [reflexivity|]. split; [done|]. split; [done|]. by left. }
  destruct Hfind as (Hsame & Hu2 & row & Hrow & Hext).
  destruct (live_sessions (as_identity st) d2 Hsame) as [Hlive Hs2]. specialize (Hs2 Hs).
  pose proof (create_session_no_panic now (li_session ids) (li_raw_token ids) (li_csrf_token ids) u d2 Hend) as Hnp2.
  destruct (create_session now (li_session ids) (li_raw_token ids) (li_csrf_token ids) u
    SESSION_DURATION_SECS d2) as [cres d3] eqn:Hcr.
  pose proof (create_session_live _ _ _ _ _ _ _ _ _ Hs2 Hcr) as Hl.
  erewrite identity_step by exact Hcr. destruct cres as [tokens|e|]; [| |done].
  - destruct Hl as (-> & _ & Husers & Hs3 & Hnone & Hl3). cbn [fst snd]. unfold with_cookie. rewrite Hcookie.
    eexists _, _. split; [reflexivity|]. cbn [as_identity as_states]. split; [done|].
    split; [unfold users_ok; by rewrite Husers|]. right. exists claims, u, row.
    rewrite Husers, <- Hlive. by split_and!.
  - subst d3. eexists _, _. split; [reflexivity|]. split; [done|]. split; [done|]. by left.
Qed.


(** A session comes from a login, once.  A callback always ends in a
    response.  Either the response sets no cookie and there is no new session; or
    the request carried a pending state, which is used up, the provider gave
    claims for the code under the nonce and verifier stored with that state, and
    there is exactly one new session, of the user with the claims' subject and
    for seven days, whose token is in the cookie. *)
Theorem callback_opens_session instant now ids params st :
  sessions_ok (as_identity st) -> users_ok (as_identity st) ->
  now + seconds_ns (7 * 24 * 3600) < chrono_end ->
  header_value_ok (session_cookie cookie_secure (li_raw_token ids)) = true ->
  exists resp st', get_callback provider cookie_secure instant now ids params st = (Ok resp, st') /\
    sessions_ok (as_identity st') /\ users_ok (as_identity st') /\
    ((rs_set_cookie resp = None /\ rs_status resp <> 200%N /\
      live (as_identity st') = live (as_identity st)) \/
     exists claims u row,
       claims_from instant params claims (as_states st) (as_states st') /\
       id_users (as_identity st') !! u = Some row /\ usr_external_id row = cl_subject claims /\
       rs_status resp = 200%N /\
       rs_set_cookie resp = Some (session_cookie cookie_secure (li_raw_token ids)) /\
       live (as_identity st) !! hash_token (li_raw_token ids) = None /\
       live (as_identity st') =
         <[hash_token (li_raw_token ids) :=
             (mkSessionInfo u (li_csrf_token ids) (li_session ids), now + seconds_ns (7 * 24 * 3600))]>
           (live (as_identity st))).
Proof. apply callback_session. Qed.
End login.

(** ** A login, a request and a logout *)

#[local] Instance sample_sha : Sha256 := fun b => b.
#[local] Instance sample_display : UuidDisplay := display_N.
#[local] Instance sample_uuid : UuidParser := fun s => inl s.
Definition sample_provider : OidcProvider := {|
  authorization_url := Some (lit "https://idp/authorize", lit "state", lit "nonce", lit "verifier");
  exchange_code := fun code nonce verifier =>
    if bool_decide (code = lit "code" /\ nonce = lit "nonce" /\ verifier = lit "verifier")
    then Some (mkClaims (lit "alice") None (Some (lit "Alice"))) else None |}.
Definition no_identity : IdentityDb := mkIdentityDb ∅ ∅.
Definition login_ids : LoginIds := mkLoginIds 5 6 (lit "raw-token") (lit "csrf-token").
Definition login_params : CallbackParams := mkCallbackParams (Some (lit "code")) (Some (lit "state")) None None.

Definition after_login : AuthState :=
  snd (post_login (Some sample_provider) 0 (mkAuthState new_store no_identity)).
Definition signed_in : AuthState :=
  snd (get_callback (Some sample_provider) true 10 20 login_ids login_params after_login).

Definition request (method : rstr) (csrf : list (rstr * bytes)) : Parts :=
  mkParts method (list_to_map ((lit "cookie", lit "theme=dark; haiker_sid=raw-token") :: csrf)).

(** The session answers for its user, with the CSRF token where it is needed. *)
Lemma request_answers :
  fst (authenticate false 30 (request (lit "GET") []) (as_identity signed_in)) = Ok 5%N /\
  fst (authenticate false 30 (request (lit "POST") []) (as_identity signed_in)) = Err CsrfMismatch /\
  fst (authenticate false 30 (request (lit "POST") [(CSRF_HEADER_NAME, lit "csrf-token")])
         (as_identity signed_in)) = Ok 5%N.
Proof. by vm_compute. Qed.

(** A logout needs the CSRF token, and ends the session. *)
Lemma logout_ends_session :
  let headers csrf := pt_headers (request (lit "POST") csrf) in
  let refused := post_logout true 30 (headers []) signed_in in
  let done_ := post_logout true 30 (headers [(CSRF_HEADER_NAME, lit "csrf-token")]) signed_in in
  fst refused = Ok csrf_mismatch_response /\ snd refused = signed_in /\
  fst (authenticate false 31 (request (lit "GET") []) (as_identity (snd done_))) = Err InvalidSession.
Proof. by vm_compute. Qed.

(** The state of a login cannot be used again. *)
Lemma callback_replayed :
  fst (get_callback (Some sample_provider) true 11 21 login_ids login_params signed_in) =
    Ok (unauthorized (lit "Invalid or expired state parameter")).
Proof. by vm_compute. Qed.

Lemma callback_opens_session_witness :
  exists u row, id_users (as_identity signed_in) !! u = Some row /\ usr_external_id row = lit "alice" /\
    is_Some (live (as_identity signed_in) !! hash_token (lit "raw-token")).
Proof.
  destruct (callback_opens_session (Some sample_provider) true 10 20 login_ids login_params after_login)
    as (resp & st' & Hrun & _ & _ & Hcases).
  - split; [by apply map_Forall_empty|]. intros k r k' r' Hr. vm_compute in Hr. discriminate.
  - by apply map_Forall_empty.
  - by vm_compute.
  - by vm_compute.
  - assert (st' = signed_in) as -> by (unfold signed_in; by rewrite Hrun).
    assert (rs_set_cookie resp <> None) as Hcookie.
    { apply (f_equal fst) in Hrun. vm_compute in Hrun. by injection Hrun as <-. }
    destruct Hcases as [(Hno & _)|(claims & u & row & Hclaims & Hrow & Hext & _ & _ & _ & Hlive)]; [done|].
    exists u, row. split; [done|]. split.
    + rewrite Hext. destruct Hclaims as (p & code & state & nonce & verifier & [= <-] & _ & _ & _ & _ & He).
      unfold exchange_code, sample_provider in He. case_bool_decide; [|done]. by injection He as <-.
    + rewrite Hlive, lookup_insert_eq. by eexists.
Defined.

(** One live session, of user 5. *)
Definition alice_db : IdentityDb :=
  mkIdentityDb {[ 5%N := mkUserRow 5 (lit "alice") None None 0 0 ]}
    {[ 6%N := mkSessionRow 6 5 (lit "raw-token") (lit "csrf-token") 1000 0 None ]}.

Lemma alice_db_ok : sessions_ok alice_db.
Proof.
  split; [by apply map_Forall_singleton|].
  intros k r k' r' Hr Hr' _. cbn [alice_db id_sessions] in Hr, Hr'.
  apply lookup_singleton_Some in Hr as [<- _]. by apply lookup_singleton_Some in Hr' as [<- _].
Qed.

Lemma session_store_refines_witness :
  live (snd (revoke_session 30 6 alice_db)) !! lit "raw-token" = None.
Proof.
  destruct (session_store_refines alice_db alice_db_ok) as (_ & Hrevoke & _).
  destruct (Hrevoke 30 6%N) as [_ ->]. apply map_lookup_filter_None. right.
  intros [i e] Hl%live_lookup; [|exact alice_db_ok].
  destruct Hl as (k & r & Hr & _ & _ & [= -> ->]). cbn [alice_db id_sessions] in Hr.
  apply lookup_singleton_Some in Hr as [<- <-]. simpl. tauto.
Defined.

Lemma authenticate_correct_witness :
  exists info, shown_session 30 alice_db (pt_headers (request (lit "GET") [])) info /\
    si_user_id info = 5%N.
Proof.
  destruct (authenticate_correct 30 (request (lit "GET") []) alice_db alice_db_ok)
    as (res & Hrun & Hok & _).
  assert (res = Ok 5%N) as Hres by (apply (f_equal fst) in Hrun; vm_compute in Hrun; by rewrite <- Hrun).
  destruct (proj1 (Hok 5%N) Hres) as (info & Hshown & _ & Hu). by exists info.
Defined.
