(* ===== verification/Api.v ===== *)
(** Errors of the HTTP API (crates/api/src/error.rs), and what its handlers have
    in common.

    A handler takes the authenticated user and the request as axum's extractors
    deliver them, and ends in a response or an [ApiError], which axum turns into a
    problem document.  The status lines of the http crate and the text of a
    timestamp are parameters. *)
From S2P Require Import Prelude Float64 RustString Utf8 Imports RecordedActivity RouteVersioning Http.

(** ** ApiError *)

Record ApiError := mkApiError {
  ae_status : N;
  ae_code : rstr;
  ae_message : rstr;
  ae_problem_type : option rstr;
  ae_title : option rstr;
  ae_request_id : option rstr;
  ae_details : option Json }.

Definition ApiError_new (status : N) (code message problem_type title : rstr) : ApiError :=
  mkApiError status code message (Some problem_type) (Some title) None None.

Definition with_request_id (request_id : option rstr) (e : ApiError) : ApiError :=
  mkApiError (ae_status e) (ae_code e) (ae_message e) (ae_problem_type e) (ae_title e) request_id
    (ae_details e).

Definition unauthorized (message : rstr) : ApiError :=
  ApiError_new 401 (lit "UNAUTHORIZED") message (lit "/problems/unauthorized") (lit "Unauthorized").

(** [StatusCode::canonical_reason]. *)
Class CanonicalReason := canonical_reason : N -> option rstr.

(** [code.to_lowercase().replace('_', "-")]. *)
Definition default_problem_type `{UnicodeLower} (code : rstr) : rstr :=
  lit "/problems/" ++ map (fun c => if (c =? 95)%N then 45%N else c) (unicode_lower code).

Definition default_title `{CanonicalReason} (status : N) : rstr :=
  default (lit "Error") (canonical_reason status).

(** [fresh_id] is the identifier made up for an error without one. *)
Definition into_response `{UnicodeLower} `{CanonicalReason} (fresh_id : rstr) (e : ApiError)
    : Response :=
  let problem_type := default (default_problem_type (ae_code e)) (ae_problem_type e) in
  let title := default (default_title (ae_status e)) (ae_title e) in
  let request_id := default fresh_id (ae_request_id e) in
  json_response (ae_status e)
    (JObject [(lit "type", JString problem_type); (lit "title", JString title);
              (lit "status", JInt (Z.of_N (ae_status e))); (lit "code", JString (ae_code e));
              (lit "detail", JString (ae_message e)); (lit "requestId", JString request_id)]).

(** ** Errors of the domain *)

Inductive DomainError : Type :=
| DomainNotFound (message : rstr)
| DomainUnauthorized (message : rstr)
| DomainForbidden (message : rstr)
| DomainConflict (message : rstr)
| DomainValidationFailed (message : rstr)
| DomainInternal (message : rstr).

Definition not_found_error (message : rstr) : ApiError :=
  ApiError_new 404 (lit "NOT_FOUND") message (lit "/problems/not-found") (lit "Not Found").
Definition validation_error (message : rstr) : ApiError :=
  ApiError_new 422 (lit "VALIDATION_FAILED") message (lit "/problems/validation-failed")
    (lit "Validation Failed").
Definition internal_error (message : rstr) : ApiError :=
  ApiError_new 500 (lit "INTERNAL_ERROR") message (lit "/problems/internal-error")
    (lit "Internal Server Error").
Definition unexpected_error : ApiError := internal_error (lit "an unexpected error occurred").

Definition from_domain_error (e : DomainError) : ApiError :=
  match e with
  | DomainNotFound message => not_found_error message
  | DomainUnauthorized message => unauthorized message
  | DomainForbidden message =>
      ApiError_new 403 (lit "FORBIDDEN") message (lit "/problems/forbidden") (lit "Forbidden")
  | DomainConflict message =>
      ApiError_new 409 (lit "CONFLICT") message (lit "/problems/conflict") (lit "Conflict")
  | DomainValidationFailed message => validation_error message
  | DomainInternal _ => unexpected_error
  end.

(** ** Handlers *)

(** The value of the header Idempotency-Key; each module of handlers has its copy
    of this function. *)
Definition idempotency_key_error (message : rstr) : ApiError :=
  ApiError_new 400 (lit "MISSING_IDEMPOTENCY_KEY") message
    (lit "/problems/missing-idempotency-key") (lit "Missing Idempotency Key").

Definition idempotency_key_of (headers : HeaderMap) : result ApiError rstr :=
  key ← ok_or (get_header (lit "idempotency-key") headers)
          (idempotency_key_error (lit "Idempotency-Key header is required"));
  guard_err (is_empty (trim key))
    (idempotency_key_error (lit "Idempotency-Key header must not be empty"));;
  mret key.

(** chrono's serialisation of a [DateTime<Utc>]. *)
Class DateTimeText := datetime_text : datetime -> rstr.

Definition json_datetime `{DateTimeText} (t : datetime) : Json := JString (datetime_text t).
Definition json_uuid `{UuidDisplay} (id : uuid) : Json := JString (uuid_display id).

(** A field that [skip_serializing_if = "Option::is_none"] leaves out. *)
Definition optional_field {A} (name : rstr) (to_json : A -> Json) (x : option A)
    : list (rstr * Json) :=
  match x with Some a => [(name, to_json a)] | None => [] end.

(** What axum sends for the outcome of a handler; a panic has no response. *)
Definition responded `{UnicodeLower} `{CanonicalReason} (fresh_id : rstr)
    (r : result ApiError Response) : option Response :=
  match r with
  | Ok response => Some response
  | Err e => Some (into_response fresh_id e)
  | Panicked => None
  end.
