(* ===== verification/RouteEditingApi.v ===== *)
(** The endpoints of route drafts: crates/api/src/route_editing.rs, its DTOs
    (route_editing_dto.rs) and the gateways of production
    (crates/infrastructure/src/route_editing_gateways.rs).

    A body arrives as serde has deserialised it; the user is the one that
    [AuthSession] has authenticated (Sessions.v).  The clock and generated
    identifiers are arguments. *)
From S2P Require Import Prelude Float64 RustString Utf8 Imports RecordedActivity RouteEditing.
From S2P Require Import DraftValidation RouteVersioning Http Api.

(** ** Gateways *)

Class ActivityGateway (S : Type) :=
  validate_activity_for_draft : uuid -> uuid -> eff S RouteEditingError unit.

Class RouteVersionGateway (S : Type) := {
  validate_route_version_exists : uuid -> uuid -> eff S RouteEditingError unit;
  get_route_version_geometry : uuid -> uuid -> eff S RouteEditingError geometry }.

Class CommitPublication (S : Type) :=
  commit_publication : PublicationCommitData -> eff S RouteVersioningError PublicationResult.

(** The gateways of production accept everything, and know one geometry. *)
Definition PgActivityGateway {S} : ActivityGateway S := fun _ _ => mret tt.

Definition PgRouteVersionGateway {S} : RouteVersionGateway S := {|
  validate_route_version_exists _ _ := mret tt;
  get_route_version_geometry _ _ := mret [[]] |}.

(** ** DTOs *)

Record RoutePointDto := mkPointDto {
  rpd_latitude : f64; rpd_longitude : f64; rpd_elevation : option f64 }.

Record PositionDto := mkPositionDto { psd_latitude : f64; psd_longitude : f64 }.

Record CreateRouteDraftRequest := mkCreateDraft {
  cdr_geometry : list (list RoutePointDto); cdr_base_route_version_id : option uuid }.

Inductive OperationDto : Type :=
| MovePointDto (segment_index point_index : N) (new_position : PositionDto)
| AddPointDto (segment_index after_point_index : N) (point : RoutePointDto)
| DeletePointDto (segment_index point_index : N)
| DeleteSectionDto (segment_index start_index end_index : N)
| ReplaceSectionDto (segment_index start_index end_index : N) (replacement : list RoutePointDto)
| SplitSegmentDto (segment_index at_point_index : N)
| JoinSegmentsDto (first_segment_index second_segment_index : N).

Record ApplyOperationRequest := mkApplyRequest {
  aor_operation : OperationDto; aor_expected_revision : N }.

Record PublishRouteDraftRequest := mkPublishRequest {
  prr_expected_revision : N; prr_edit_summary : option rstr }.

(** [.iter().map(f).collect::<Result<Vec<_>, _>>()]: the first error. *)
Fixpoint collect {E A B} (f : A -> result E B) (l : list A) : result E (list B) :=
  match l with
  | [] => Ok []
  | x :: l => y ← f x; ys ← collect f l; mret (y :: ys)
  end.

Definition coordinate_of (prefix : rstr) (lat lon : f64) : result rstr Coordinate :=
  map_err (fun e => prefix ++ editing_error_display e) (Coordinate_new lat lon).

Definition point_to_domain (p : RoutePointDto) : result rstr RoutePoint :=
  coordinate ← coordinate_of (lit "invalid coordinate: ") (rpd_latitude p) (rpd_longitude p);
  mret (mkRoutePoint coordinate (rpd_elevation p)).

Definition point_from_domain (p : RoutePoint) : RoutePointDto :=
  mkPointDto (latitude (coordinate p)) (longitude (coordinate p)) (elevation p).

Definition operation_to_domain (op : OperationDto) : result rstr RouteOperation :=
  match op with
  | MovePointDto i j position =>
      coord ← coordinate_of [] (psd_latitude position) (psd_longitude position);
      mret (MovePoint i j coord)
  | AddPointDto i j point => domain_point ← point_to_domain point; mret (AddPoint i j domain_point)
  | DeletePointDto i j => mret (DeletePoint i j)
  | DeleteSectionDto i a b => mret (DeleteSection i a b)
  | ReplaceSectionDto i a b replacement =>
      domain_points ← collect point_to_domain replacement; mret (ReplaceSection i a b domain_points)
  | SplitSegmentDto i j => mret (SplitSegment i j)
  | JoinSegmentsDto i j => mret (JoinSegments i j)
  end.

Definition geometry_to_domain (dto : list (list RoutePointDto)) : result rstr geometry :=
  collect (collect point_to_domain) dto.

Definition geometry_to_dto (g : geometry) : list (list RoutePointDto) := map (map point_from_domain) g.

(** ** Errors *)

Definition route_editing_error_to_api_error (e : RouteEditingError) : ApiError :=
  match e with
  | DraftNotFound => not_found_error (lit "route draft not found")
  | RevisionConflict expected actual =>
      ApiError_new 409 (lit "ROUTE_DRAFT_REVISION_CONFLICT")
        (lit "revision conflict: expected " ++ display_N expected ++ lit ", got " ++ display_N actual)
        (lit "/problems/stale-route-draft") (lit "Route draft revision is stale")
  | DraftNotActive =>
      ApiError_new 409 (lit "DRAFT_NOT_ACTIVE") (lit "draft is not in active state")
        (lit "/problems/draft-not-active") (lit "Draft Not Active")
  | InvalidOperation message =>
      ApiError_new 422 (lit "INVALID_OPERATION") message (lit "/problems/invalid-operation")
        (lit "Invalid Operation")
  | OperationFailed message =>
      ApiError_new 422 (lit "OPERATION_FAILED") message (lit "/problems/operation-failed")
        (lit "Operation Failed")
  | InsufficientPoints minimum actual =>
      ApiError_new 422 (lit "INSUFFICIENT_POINTS")
        (lit "insufficient points: minimum " ++ display_N minimum ++ lit ", got " ++ display_N actual)
        (lit "/problems/insufficient-points") (lit "Insufficient Points")
  | InvalidSegmentIndex index count =>
      ApiError_new 422 (lit "INVALID_SEGMENT_INDEX")
        (lit "invalid segment index: " ++ display_N index ++ lit ", segment count: " ++ display_N count)
        (lit "/problems/invalid-segment-index") (lit "Invalid Segment Index")
  | InvalidPointIndex index count =>
      ApiError_new 422 (lit "INVALID_POINT_INDEX")
        (lit "invalid point index: " ++ display_N index ++ lit ", point count: " ++ display_N count)
        (lit "/problems/invalid-point-index") (lit "Invalid Point Index")
  | NothingToUndo =>
      ApiError_new 422 (lit "NOTHING_TO_UNDO") (lit "nothing to undo") (lit "/problems/nothing-to-undo")
        (lit "Nothing To Undo")
  | NothingToRedo =>
      ApiError_new 422 (lit "NOTHING_TO_REDO") (lit "nothing to redo") (lit "/problems/nothing-to-redo")
        (lit "Nothing To Redo")
  | InvalidCoordinate message =>
      ApiError_new 422 (lit "INVALID_COORDINATE") message (lit "/problems/invalid-coordinate")
        (lit "Invalid Coordinate")
  | ActivityNotFound => not_found_error (lit "activity not found")
  | ActivityDeleted =>
      ApiError_new 422 (lit "ACTIVITY_DELETED") (lit "activity is deleted")
        (lit "/problems/activity-deleted") (lit "Activity Deleted")
  | InvalidBaseRouteVersion =>
      ApiError_new 422 (lit "INVALID_BASE_ROUTE_VERSION") (lit "invalid base route version")
        (lit "/problems/invalid-base-route-version") (lit "Invalid Base Route Version")
  | ReplacementTooLarge maximum actual =>
      ApiError_new 422 (lit "REPLACEMENT_TOO_LARGE")
        (lit "replacement too large: maximum " ++ display_N maximum ++ lit ", actual " ++ display_N actual)
        (lit "/problems/replacement-too-large") (lit "Replacement Too Large")
  | EndpointContinuityViolation position expected actual =>
      ApiError_new 422 (lit "ENDPOINT_CONTINUITY_VIOLATION")
        (lit "endpoint continuity violation at " ++ position ++ lit ": expected ("
           ++ coordinate_display expected ++ lit "), got (" ++ coordinate_display actual ++ lit ")")
        (lit "/problems/endpoint-continuity-violation") (lit "Endpoint Continuity Violation")
  end.

(** [errors.join("; ")]. *)
Fixpoint join (sep : rstr) (l : list rstr) : rstr :=
  match l with
  | [] => []
  | [s] => s
  | s :: l => s ++ sep ++ join sep l
  end.

Definition route_versioning_error_to_api_error (e : RouteVersioningError) : ApiError :=
  match e with
  | VDraftNotFound | NotAuthorized => not_found_error (lit "route draft not found")
  | VRevisionConflict expected actual =>
      ApiError_new 409 (lit "ROUTE_DRAFT_REVISION_CONFLICT")
        (lit "revision conflict: expected " ++ display_N expected ++ lit ", got " ++ display_N actual)
        (lit "/problems/stale-route-draft") (lit "Route draft revision is stale")
  | VDraftNotActive =>
      ApiError_new 409 (lit "DRAFT_NOT_ACTIVE") (lit "draft is not in active state")
        (lit "/problems/draft-not-active") (lit "Draft Not Active")
  | VValidationFailed errors => validation_error (join (lit "; ") errors)
  | IdempotencyConflict =>
      ApiError_new 409 (lit "IDEMPOTENCY_CONFLICT")
        (lit "idempotency key reused with different parameters") (lit "/problems/idempotency-conflict")
        (lit "Idempotency Conflict")
  | VActivityNotFound => not_found_error (lit "activity not found")
  | VPersistenceError message => internal_error (lit "internal error: " ++ message)
  | _ => internal_error (lit "unexpected error")
  end.

Definition invalid_idempotency_key (message : rstr) : ApiError :=
  ApiError_new 400 (lit "INVALID_IDEMPOTENCY_KEY") message (lit "/problems/invalid-idempotency-key")
    (lit "Invalid Idempotency Key").

Definition ownership_not_found_error : ApiError := not_found_error (lit "route draft not found").

Section requests.
Context `{UuidParser}.

Definition extract_idempotency_key (headers : HeaderMap) : result ApiError rstr :=
  idempotency_key_of headers.

Definition extract_uuid_idempotency_key (headers : HeaderMap) : result ApiError rstr :=
  key ← extract_idempotency_key headers;
  match uuid_parse key with
  | inr _ => mret key
  | inl _ => Err (invalid_idempotency_key (lit "Idempotency-Key must be a valid UUID"))
  end.

Definition parse_idempotency_key (key : rstr) : result rstr uuid :=
  match uuid_parse key with
  | inr id => Ok id
  | inl e => Err (lit "invalid idempotency key: " ++ e)
  end.
End requests.

(** ** Responses *)

Section responses.
Context `{UuidDisplay} `{DateTimeText}.

Definition point_json (p : RoutePointDto) : Json :=
  JObject ([(lit "latitude", json_f64 (rpd_latitude p)); (lit "longitude", json_f64 (rpd_longitude p))]
           ++ optional_field (lit "elevation") json_f64 (rpd_elevation p)).

Definition draft_state_text (s : DraftState) : rstr :=
  match s with
  | Active => lit "active"
  | Published => lit "published"
  | Discarded => lit "discarded"
  end.

Definition can_undo (d : RouteDraft) : bool := negb (bool_decide (rd_applied_operations d = [])).
Definition can_redo (d : RouteDraft) : bool := negb (bool_decide (rd_undone_operations d = [])).

Definition draft_to_response (d : RouteDraft) : Json :=
  JObject
    ([(lit "id", json_uuid (rd_id d)); (lit "activityId", json_uuid (rd_activity_id d))]
     ++ optional_field (lit "baseRouteVersionId") json_uuid (rd_base_route_version_id d)
     ++ [(lit "revision", JInt (Z.of_N (rd_revision d)));
         (lit "state", JString (draft_state_text (rd_state d)));
         (lit "geometry", JArray (map (fun s => JArray (map point_json s))
                                    (geometry_to_dto (rd_geometry d))));
         (lit "canUndo", JBool (can_undo d)); (lit "canRedo", JBool (can_redo d));
         (lit "createdAt", json_datetime (rd_created_at d));
         (lit "updatedAt", json_datetime (rd_updated_at d))]).

(** [OperationResultResponse]. *)
Definition operation_result (draft_id : uuid) (revision : N) (undoable redoable : bool) : Response :=
  json_response 200
    (JObject [(lit "draftId", json_uuid draft_id); (lit "revision", JInt (Z.of_N revision));
              (lit "canUndo", JBool undoable); (lit "canRedo", JBool redoable)]).

Definition draft_result (d : RouteDraft) : Response :=
  operation_result (rd_id d) (rd_revision d) (can_undo d) (can_redo d).

(** [ValidationResultResponse]. *)
Definition validation_result (valid : bool) (errors : list (rstr * rstr)) : Response :=
  json_response 200
    (JObject [(lit "valid", JBool valid);
              (lit "errors", JArray (map (fun '(code, detail) =>
                 JObject [(lit "code", JString code); (lit "detail", JString detail)]) errors))]).

Definition publication_response (r : PublicationResult) (stats : CorrectedStatistics) : Response :=
  json_response 201
    (JObject [(lit "routeVersionId", json_uuid (pr_route_version_id r));
              (lit "versionNumber", JInt (pr_version_number r));
              (lit "draftId", json_uuid (pr_draft_id r));
              (lit "correctedStatistics",
                JObject [(lit "distanceMeters", json_f64 (cs_distance_meters stats));
                         (lit "pointCount", JInt (Z.of_N (cs_point_count stats)));
                         (lit "calculationVersion", JString (cs_calculation_version stats))])]).
End responses.

(** ** Endpoints *)

Section endpoints.
Context {S : Type} `{RouteDraftRepository S} `{!ActivityGateway S} `{!RouteVersionGateway S}
  `{!CommitPublication S} `{UuidParser} `{UuidDisplay} `{DateTimeText}.

Abbreviation handler := (eff S ApiError Response) (only parsing).

(** A call of the repository or of a gateway. *)
Definition call {A} (m : eff S RouteEditingError A) : eff S ApiError A :=
  eff_map_err route_editing_error_to_api_error m.

Definition load_draft (draft_id : uuid) : eff S ApiError RouteDraft :=
  found ← call (find_draft draft_id);
  lift (ok_or found (route_editing_error_to_api_error DraftNotFound)).

(** The draft, if it belongs to the caller. *)
Definition load_owned_draft (actor draft_id : uuid) : eff S ApiError RouteDraft :=
  draft ← load_draft draft_id;
  lift (guard_err (negb (rd_owner_id draft =? actor)%N) ownership_not_found_error);;
  mret draft.

(** A method of the aggregate, then [repo.update(&draft)]. *)
Definition change_and_store (change : eff RouteDraft RouteEditingError unit) (draft : RouteDraft)
    : eff S ApiError RouteDraft :=
  let '(r, draft) := change draft in
  lift (map_err route_editing_error_to_api_error r);;
  call (update_draft draft);;
  mret draft.

Definition post_create_draft (new_id : uuid) (now : datetime) (actor activity_id : uuid)
    (headers : HeaderMap) (body : CreateRouteDraftRequest) : handler :=
  lift (extract_idempotency_key headers);;
  g ← lift (map_err validation_error (geometry_to_domain (cdr_geometry body)));
  existing ← call (find_active_by_activity activity_id actor);
  match existing with
  | Some existing_draft =>
      lift (match cdr_base_route_version_id body with
            | Some requested_base =>
                guard_err (negb (bool_decide (Some requested_base = rd_base_route_version_id existing_draft)))
                  (ApiError_new 409 (lit "IDEMPOTENCY_CONFLICT")
                     (lit "existing draft has a different baseRouteVersionId")
                     (lit "/problems/idempotency-conflict") (lit "Idempotency Conflict"))
            | None => Ok tt
            end);;
      mret (json_response 201 (draft_to_response existing_draft))
  | None =>
      call (validate_activity_for_draft activity_id actor);;
      match cdr_base_route_version_id body with
      | Some base_version_id => call (validate_route_version_exists base_version_id activity_id)
      | None => mret tt
      end;;
      draft ← lift (map_err route_editing_error_to_api_error
        (create_from_geometry new_id now actor activity_id (cdr_base_route_version_id body) g));
      call (save_draft draft);;
      mret (json_response 201 (draft_to_response draft))
  end.

Definition get_draft (actor draft_id : uuid) : handler :=
  draft ← load_owned_draft actor draft_id;
  mret (json_response 200 (draft_to_response draft)).

(** The reply to an operation whose id is known already. *)
Definition replay_operation (operation_id : uuid) (op : OperationDto) (draft : RouteDraft)
    : result ApiError Response :=
  match list_find (fun e => oe_id e = operation_id) (rd_applied_operations draft) with
  | Some (entry_index, entry) =>
      incoming_operation ← map_err (fun message =>
        mkApiError 422 (lit "INVALID_OPERATION") message None None None None) (operation_to_domain op);
      guard_err (negb (RouteOperation_eqb (oe_operation entry) incoming_operation))
        (ApiError_new 409 (lit "IDEMPOTENCY_PAYLOAD_MISMATCH")
           (lit "idempotency key reused with a different operation payload")
           (lit "/problems/idempotency-conflict") (lit "Idempotency conflict"));;
      let snapshot_revision := (N.of_nat entry_index + 1)%N in
      mret (operation_result (rd_id draft) snapshot_revision true false)
  | None => mret (draft_result draft)
  end.

Definition post_apply_operation (now : datetime) (actor draft_id : uuid) (headers : HeaderMap)
    (body : ApplyOperationRequest) : handler :=
  idempotency_key ← lift (extract_idempotency_key headers);
  operation_id ← lift (map_err invalid_idempotency_key (parse_idempotency_key idempotency_key));
  existing ← call (find_by_operation_id operation_id);
  match existing with
  | Some existing_draft_id =>
      draft ← load_draft existing_draft_id;
      lift (replay_operation operation_id (aor_operation body) draft)
  | None =>
      draft ← load_owned_draft actor draft_id;
      operation ← lift (map_err (fun message =>
        ApiError_new 422 (lit "INVALID_OPERATION") message (lit "/problems/invalid-operation")
          (lit "Invalid Operation")) (operation_to_domain (aor_operation body)));
      draft ← change_and_store (apply_operation now operation_id operation (aor_expected_revision body))
                draft;
      mret (draft_result draft)
  end.

Definition post_undo (now : datetime) (actor draft_id : uuid) (headers : HeaderMap)
    (expected_revision : N) : handler :=
  lift (extract_idempotency_key headers);;
  draft ← load_owned_draft actor draft_id;
  draft ← change_and_store (undo now expected_revision) draft;
  mret (draft_result draft).

Definition post_redo (now : datetime) (actor draft_id : uuid) (headers : HeaderMap)
    (expected_revision : N) : handler :=
  lift (extract_idempotency_key headers);;
  draft ← load_owned_draft actor draft_id;
  draft ← change_and_store (redo now expected_revision) draft;
  mret (draft_result draft).

Definition post_reset (now : datetime) (actor draft_id : uuid) (headers : HeaderMap)
    (expected_revision : N) : handler :=
  lift (extract_idempotency_key headers);;
  draft ← load_owned_draft actor draft_id;
  base_version_id ← lift (ok_or (rd_base_route_version_id draft)
    (ApiError_new 422 (lit "NO_BASE_ROUTE_VERSION") (lit "draft has no base route version to reset to")
       (lit "/problems/no-base-route-version") (lit "No Base Route Version")));
  base_geometry ← call (get_route_version_geometry base_version_id (rd_activity_id draft));
  draft ← change_and_store (reset now expected_revision base_geometry) draft;
  mret (draft_result draft).

Definition delete_draft (now : datetime) (actor draft_id : uuid) : handler :=
  draft ← load_owned_draft actor draft_id;
  change_and_store (discard now) draft;;
  mret (status_response 204).

(** What a failed check is answered with, if not by a list of errors. *)
Definition precondition_failure (e : PublicationValidationError) : option ApiError :=
  match e with
  | NotOwner => Some ownership_not_found_error
  | PubDraftNotActive => Some (route_editing_error_to_api_error DraftNotActive)
  | RevisionMismatch expected actual =>
      Some (route_editing_error_to_api_error (RevisionConflict expected actual))
  | _ => None
  end.

Definition validation_error_dto (e : PublicationValidationError) : rstr * rstr :=
  match e with
  | NoSegments => (lit "NO_SEGMENTS", lit "geometry must contain at least 1 segment")
  | InsufficientPointsInSegment segment_index minimum actual =>
      (lit "INSUFFICIENT_POINTS_IN_SEGMENT",
       lit "segment " ++ display_N segment_index ++ lit " has " ++ display_N actual
         ++ lit " points, minimum is " ++ display_N minimum)
  | InvalidCoordinateInSegment segment_index point_index message =>
      (lit "INVALID_COORDINATE_IN_SEGMENT",
       lit "segment " ++ display_N segment_index ++ lit ", point " ++ display_N point_index
         ++ lit ": " ++ message)
  | NoBaseVersion => (lit "NO_BASE_VERSION", lit "draft has no base route version")
  | NotOwner | PubDraftNotActive | RevisionMismatch _ _ =>
      (lit "PRECONDITION_FAILED", lit "unexpected precondition error")
  end.

Definition post_validate_draft (actor draft_id : uuid) (expected_revision : N) : handler :=
  draft ← load_draft draft_id;
  lift (match validate_for_publication draft expected_revision actor with
        | Ok _ => Ok (validation_result true [])
        | Err errors =>
            match omap precondition_failure errors with
            | e :: _ => Err e
            | [] => Ok (validation_result false (map validation_error_dto errors))
            end
        | Panicked => Panicked
        end).

(** [serde_json::from_value::<CorrectedStatistics>]. *)
Definition post_publish_draft (statistics_from_value : Json -> option CorrectedStatistics)
    (actor draft_id : uuid) (headers : HeaderMap) (body : PublishRouteDraftRequest) : handler :=
  idempotency_key ← lift (extract_uuid_idempotency_key headers);
  let commit_data := mkCommitData draft_id (prr_expected_revision body) actor idempotency_key
                       (prr_edit_summary body) in
  result ← eff_map_err route_versioning_error_to_api_error (commit_publication commit_data);
  corrected_stats ← lift (ok_or (statistics_from_value (pr_corrected_statistics_json result))
    (internal_error (lit "failed to read corrected statistics from publication result")));
  mret (publication_response result corrected_stats).

(** The routes of main.rs, with the clock and the identifiers of each request; the
    publication has a database of its own. *)
Inductive DraftRequest : Type :=
| PostCreateDraft (new_id : uuid) (now : datetime) (activity_id : uuid) (headers : HeaderMap)
    (body : CreateRouteDraftRequest)
| GetDraft (draft_id : uuid)
| PostApplyOperation (now : datetime) (draft_id : uuid) (headers : HeaderMap)
    (body : ApplyOperationRequest)
| PostUndo (now : datetime) (draft_id : uuid) (headers : HeaderMap) (expected_revision : N)
| PostRedo (now : datetime) (draft_id : uuid) (headers : HeaderMap) (expected_revision : N)
| PostReset (now : datetime) (draft_id : uuid) (headers : HeaderMap) (expected_revision : N)
| DeleteDraft (now : datetime) (draft_id : uuid)
| PostValidateDraft (draft_id : uuid) (expected_revision : N).

Definition serve_draft (actor : uuid) (r : DraftRequest) : handler :=
  match r with
  | PostCreateDraft new_id now activity_id headers body =>
      post_create_draft new_id now actor activity_id headers body
  | GetDraft draft_id => get_draft actor draft_id
  | PostApplyOperation now draft_id headers body => post_apply_operation now actor draft_id headers body
  | PostUndo now draft_id headers revision => post_undo now actor draft_id headers revision
  | PostRedo now draft_id headers revision => post_redo now actor draft_id headers revision
  | PostReset now draft_id headers revision => post_reset now actor draft_id headers revision
  | DeleteDraft now draft_id => delete_draft now actor draft_id
  | PostValidateDraft draft_id revision => post_validate_draft actor draft_id revision
  end.
End endpoints.
