(* ===== verification/RouteEditingApiTheory.v ===== *)
(** The endpoints of route drafts over the database of production
    (RouteEditingApi.v over DraftPersistence.v): what any sequence of requests
    leaves in the tables, who sees what, and what a request does. *)
From S2P Require Import Prelude Float64 RustString Utf8 Imports RecordedActivity RouteEditing.
From S2P Require Import DraftValidation RouteVersioning Http Api RouteEditingSpec RouteDraftTheory.
From S2P Require Import RouteDraftProperties DraftPersistence DraftPersistenceTheory RouteEditingApi.

(** ** Numbers that JSON can carry *)

Definition coordinate_exact (c : Coordinate) : Prop :=
  is_finite (latitude c) = true /\ is_finite (longitude c) = true.
Definition elevation_exact (e : option f64) : Prop :=
  match e with Some x => is_finite x = true | None => True end.
Definition point_exact (p : RoutePoint) : Prop :=
  coordinate_exact (coordinate p) /\ elevation_exact (elevation p).
Definition geometry_exact (g : geometry) : Prop := Forall (Forall point_exact) g.

Definition operation_exact (op : RouteOperation) : Prop :=
  match op with
  | MovePoint _ _ c => coordinate_exact c
  | AddPoint _ _ p => point_exact p
  | ReplaceSection _ _ _ r => Forall point_exact r
  | _ => True
  end.

Lemma splice_points_Forall (P : RoutePoint -> Prop) a b r s :
  Forall P s -> Forall P r -> Forall P (splice_points a b r s).
Proof.
  intros Hs Hr. unfold splice_points. rewrite !Forall_app.
  split_and!; [by apply Forall_take|done|by apply Forall_drop].
Qed.

Lemma edited_exact op g : geometry_exact g -> operation_exact op -> geometry_exact (edited op g).
Proof.
  unfold geometry_exact. intros Hg Hop.
  assert (forall i s, g !! i = Some s -> Forall point_exact s) as Hlook.
  { intros i s Hs. by eapply Forall_lookup in Hg. }
  destruct op as [i j c|i j p|i j|i a b|i a b r|i k|i j]; simpl in Hop |- *.
  1-5: apply Forall_alter; [done|]; intros s Hs Hps; try (by apply splice_points_Forall).
  - apply Forall_alter; [done|]. intros p _ [_ He]. by split.
  - rewrite Forall_app, Forall_cons. split_and!; [by apply Forall_take|done|by apply Forall_drop].
  - rewrite !Forall_app. split_and!; [by apply Forall_take| |by apply Forall_drop].
    destruct (g !! N.to_nat i) as [s|] eqn:Hs; [|constructor]. apply Hlook in Hs.
    repeat constructor; [by apply Forall_take|by apply Forall_drop].
  - rewrite !Forall_app. split_and!; [by apply Forall_take| |by apply Forall_drop].
    destruct (g !! N.to_nat i) as [s1|] eqn:H1; [|constructor].
    destruct (g !! N.to_nat j) as [s2|] eqn:H2; [|constructor].
    apply Hlook in H1, H2. repeat constructor. unfold join_points.
    destruct (_ && _); apply Forall_app; split; try done. by apply Forall_drop.
Qed.

(** *** From the DTOs *)

Lemma latitude_in_range_finite x : latitude_in_range x = true -> is_finite x = true.
Proof. unfold latitude_in_range, range_contains. by destruct x as [| [] | |]. Qed.
Lemma longitude_in_range_finite x : longitude_in_range x = true -> is_finite x = true.
Proof. unfold longitude_in_range, range_contains. by destruct x as [| [] | |]. Qed.

Lemma coordinate_of_exact prefix lat lon c : coordinate_of prefix lat lon = Ok c -> coordinate_exact c.
Proof.
  unfold coordinate_of, Coordinate_new. destruct (latitude_in_range lat) eqn:Hlat; [|done].
  destruct (longitude_in_range lon) eqn:Hlon; [|done]. intros [= <-].
  split; [by apply latitude_in_range_finite|by apply longitude_in_range_finite].
Qed.

(** A body that serde has read holds finite numbers only. *)
Definition point_dto_finite (p : RoutePointDto) : Prop := elevation_exact (rpd_elevation p).
Definition operation_dto_finite (op : OperationDto) : Prop :=
  match op with
  | AddPointDto _ _ p => point_dto_finite p
  | ReplaceSectionDto _ _ _ r => Forall point_dto_finite r
  | _ => True
  end.

Lemma point_to_domain_exact p q : point_dto_finite p -> point_to_domain p = Ok q -> point_exact q.
Proof.
  unfold point_to_domain. intros Hp (c & Hc & [= <-])%result_bind_inv.
  split; [by eapply coordinate_of_exact|done].
Qed.

Lemma collect_Forall {E A B} (P : A -> Prop) (Q : B -> Prop) (f : A -> result E B) l k :
  (forall x y, P x -> f x = Ok y -> Q y) -> Forall P l -> collect f l = Ok k -> Forall Q k.
Proof.
  intros Hf Hl. revert k. induction Hl as [|x l Hx _ IH]; intros k; simpl; [by intros [= <-]|].
  intros (y & Hy & (ys & Hys & [= <-])%result_bind_inv)%result_bind_inv.
  constructor; [by eapply Hf|by apply IH].
Qed.

Lemma operation_to_domain_exact op op' :
  operation_dto_finite op -> operation_to_domain op = Ok op' -> operation_exact op'.
Proof.
  destruct op as [i j p|i j p|i j|i a b|i a b r|i k|i j]; simpl; intros Hf; try (by intros [= <-]).
  - intros (c & Hc & [= <-])%result_bind_inv. by eapply coordinate_of_exact.
  - intros (q & Hq & [= <-])%result_bind_inv. by eapply point_to_domain_exact.
  - intros (ps & Hps & [= <-])%result_bind_inv. eapply collect_Forall; [|exact Hf|exact Hps].
    apply point_to_domain_exact.
Qed.

Lemma geometry_to_domain_exact dto g :
  Forall (Forall point_dto_finite) dto -> geometry_to_domain dto = Ok g -> geometry_exact g.
Proof.
  intros Hf Hg. eapply collect_Forall; [|exact Hf|exact Hg]. intros s s' Hs Hs'.
  eapply collect_Forall; [|exact Hs|exact Hs']. apply point_to_domain_exact.
Qed.

(** The codec of the tables gives back what is exact, and the columns for times keep
    microseconds. *)
Class DraftJsonLaws `{DraftJson} `{TimestamptzColumn} : Prop := {
  column_laws :: TimestamptzLaws;
  geometry_roundtrip g : geometry_exact g -> json_to_geometry (geometry_to_json g) = g;
  operation_roundtrip op : operation_exact op -> json_to_operation (operation_to_json op) = Some op }.

(** ** The tables *)

Section production.
Context `{json : DraftJson} `{column : TimestamptzColumn} {laws : DraftJsonLaws} `{parser : UuidParser} `{display : UuidDisplay}
  `{text : DateTimeText}.
Context (violation : rstr).

#[local] Instance production_repo : RouteDraftRepository DraftDb := PgRouteDraftRepository violation.
#[local] Instance production_activities : ActivityGateway DraftDb := PgActivityGateway.
#[local] Instance production_versions : RouteVersionGateway DraftDb := PgRouteVersionGateway.

Definition entry_exact (e : OperationEntry) : Prop :=
  geometry_exact (oe_geometry_before e) /\ operation_exact (oe_operation e).

(** A draft as the tables may hold it. *)
Definition draft_ok (d : RouteDraft) : Prop :=
  draft_wf d /\ rd_state d = Active /\ geometry_exact (rd_geometry d) /\
  Forall entry_exact (entries d) /\
  (Z.of_nat (length (entries d)) < 2 ^ 31)%Z /\ (rd_revision d < 2 ^ 63)%N.

Record drafts_sound (db : DraftDb) : Prop := {
  sound_ops : ops_wf (db_operations db);
  sound_owned k r : db_operations db !! k = Some r -> is_Some (db_drafts db !! or_draft_id r);
  sound_drafts i row : db_drafts db !! i = Some row ->
    exists d, rd_id d = i /\ row = draft_row d /\ stored db d /\ draft_ok d }.

Lemma stack_ids_entries d : stack_ids d = map oe_id (entries d).
Proof. done. Qed.

Lemma draft_ok_storable d : draft_ok d -> storable d.
Proof using laws.
  intros ((_ & _ & Hnd) & _ & Hg & He & Hlen & Hr). split_and!; try done.
  - by apply geometry_roundtrip.
  - eapply Forall_impl; [exact He|]. intros e [Hge Hop].
    split; [by apply operation_roundtrip|by apply geometry_roundtrip].
  - unfold stack_ids. by rewrite length_map.
Qed.

Lemma sound_find db i :
  drafts_sound db ->
  (db_drafts db !! i = None /\ pg_find_draft i db = (Ok None, db)) \/
  exists d, rd_id d = i /\ stored db d /\ draft_ok d /\ pg_find_draft i db = (Ok (Some d), db).
Proof using laws.
  intros Hs. destruct (db_drafts db !! i) as [row|] eqn:Hrow.
  - right. destruct (sound_drafts db Hs i row Hrow) as (d & <- & _ & Hst & Hok). exists (in_store d).
    split_and!; [done|by apply stored_in_store|done|].
    apply stored_find; [apply (sound_ops _ Hs)|by apply draft_ok_storable|done].
  - left. split; [done|]. unfold pg_find_draft. run. by rewrite Hrow.
Qed.

(** What is loaded has the times of the columns. *)
Lemma found_in_store db i d :
  drafts_sound db -> pg_find_draft i db = (Ok (Some d), db) -> in_store d = d.
Proof using laws.
  intros Hs Hf. destruct (db_drafts db !! i) as [row|] eqn:Hrow.
  - destruct (sound_drafts db Hs i row Hrow) as (d0 & <- & _ & Hst & Hok).
    rewrite (stored_find db d0 (sound_ops _ Hs) (draft_ok_storable _ Hok) Hst) in Hf.
    injection Hf as <-. apply in_store_idemp.
  - revert Hf. unfold pg_find_draft. run. by rewrite Hrow.
Qed.

(** The tables after a draft was written, the rows of the others left alone. *)
Lemma sound_written db db' d :
  drafts_sound db -> ops_wf (db_operations db') -> stored db' d -> draft_ok d ->
  (forall id, id <> rd_id d -> db_drafts db' !! id = db_drafts db !! id) ->
  (forall k r, or_draft_id r <> rd_id d ->
     db_operations db' !! k = Some r <-> db_operations db !! k = Some r) ->
  drafts_sound db'.
Proof.
  intros Hs Hwf Hst Hok Hdrafts Hops. destruct (id Hst) as [Hrow _]. split; [done| |].
  - intros k r Hr. destruct (decide (or_draft_id r = rd_id d)) as [-> | Hne]; [by rewrite Hrow|].
    apply Hops in Hr; [|done]. rewrite Hdrafts by done. by apply (sound_owned _ Hs) in Hr.
  - intros i row Hi. destruct (decide (i = rd_id d)) as [-> | Hne].
    + exists d. split_and!; [done|congruence|done|done].
    + rewrite Hdrafts in Hi by done.
      destruct (sound_drafts _ Hs i row Hi) as (d1 & <- & -> & [Hrow1 Hops1] & Hok1). exists d1.
      split_and!; [done|done| |done]. split; [by rewrite Hdrafts|].
      intros k r Hr. rewrite Hops by congruence. by apply Hops1.
Qed.

(** ** One change *)

(** What the code knows of a call it makes: the operation is new to the tables,
    and everything it carries is exact. *)
Definition call_known (db : DraftDb) (c : DraftCall) : Prop :=
  match c with
  | CallApply _ i op _ => db_operations db !! i = None /\ operation_exact op
  | CallReset _ _ g => geometry_exact g
  | _ => True
  end.

Definition closing (c : DraftCall) : bool :=
  match c with CallPublish _ | CallDiscard _ => true | _ => false end.

(** What a stored draft needs to take one more operation. *)
Definition has_room (d : RouteDraft) : Prop :=
  vec_fits (rd_geometry d) /\ (Z.of_nat (length (entries d)) + 1 < 2 ^ 31)%Z /\
  (rd_revision d + 1 < 2 ^ 63)%N.

Lemma bumped d : has_room d -> u64_succ (rd_revision d) = (rd_revision d + 1)%N.
Proof. intros (_ & _ & Hr). apply u64_succ_small. unfold u64_modulus. lia. Qed.

Lemma closing_refused c db d d' :
  closing c = true -> stored db d -> rd_state d = Active -> run_call c d = (Ok tt, d') ->
  pg_update_draft d' db =
    (Err (RevisionConflict (u64_sub (rd_revision d) 1) (rd_revision d)), db).
Proof.
  intros Hc Hst Ha Hrun. destruct c as [| | | |now|now]; try done; simpl in Hrun.
  - by apply (closing_is_never_stored db d d' now publish); [left|..].
  - by apply (closing_is_never_stored db d d' now discard); [right|..].
Qed.

(** A call that is let through and does not close the draft. *)
Lemma effect_shape c d d' :
  draft_ok d -> effect_of c d d' -> closing c = false ->
  match c with CallApply _ i _ _ => i ∉ stack_ids d | _ => True end ->
  same_draft d d' /\ rd_state d' = Active /\ rd_revision d' = u64_succ (rd_revision d) /\
  length (entries d') <= length (entries d) + 1 /\
  (forall e, e ∈ entries d' -> oe_id e ∈ stack_ids d \/
     exists now i op r, c = CallApply now i op r /\ e = mkEntry i op (rd_geometry d)).
Proof using json laws.
  intros (_ & Ha & _) He Hc Hnew. unfold stack_ids, entries in *.
  destruct c as [now i op r|now r|now r|now r g|now|now]; simpl in He; try done.
  - destruct (was_applied i d) eqn:Hw.
    { exfalso. apply Hnew. apply was_applied_iff in Hw. rewrite map_app. set_solver. }
    destruct He as [_ ->]. simpl. split_and!; [done..| |].
    + rewrite app_nil_r, !length_app. simpl. lia.
    + intros e. rewrite app_nil_r, elem_of_app, list_elem_of_singleton, map_app, elem_of_app.
      intros [Hin| ->]; [left; left; by apply list_elem_of_fmap_2|right; eauto 8].
  - destruct He as (applied & e & Hap & ->). simpl. rewrite Hap. split_and!; [done..| |].
    + rewrite !length_app. simpl. lia.
    + intros x. rewrite !elem_of_app, list_elem_of_singleton, !map_app, !elem_of_app. simpl.
      rewrite list_elem_of_singleton.
      intros [Hx|[Hx| ->]]; left;
        [left; left; by apply list_elem_of_fmap_2|right; by apply list_elem_of_fmap_2|left; by right].
  - destruct He as (undone & e & Hun & ->). simpl. rewrite Hun. split_and!; [done..| |].
    + rewrite !length_app. simpl. lia.
    + intros x. rewrite !elem_of_app, list_elem_of_singleton, !map_app, !elem_of_app. simpl.
      rewrite list_elem_of_singleton.
      intros [[Hx| ->]|Hx]; left;
        [left; by apply list_elem_of_fmap_2|right; by right|right; left; by apply list_elem_of_fmap_2].
  - destruct He as [_ ->]. simpl. split_and!; [done..|lia|]. by intros e ?%elem_of_nil.
Qed.

Lemma effect_exact db c d d' :
  draft_ok d -> effect_of c d d' -> call_known db c -> geometry_exact (rd_geometry d').
Proof.
  intros (_ & _ & Hg & He & _) Heff Hk. unfold entries in He.
  destruct c as [now i op r|now r|now r|now r g|now|now]; simpl in Heff, Hk.
  - destruct (was_applied i d); [by subst|]. destruct Heff as [_ ->]. destruct Hk. by apply edited_exact.
  - destruct Heff as (applied & e & Hap & ->). simpl. rewrite Hap, !Forall_app in He.
    destruct He as [[_ He] _]. by apply Forall_singleton in He as [? _].
  - destruct Heff as (undone & e & Hun & ->). simpl. rewrite Hun, !Forall_app in He.
    destruct He as (_ & _ & He). by apply Forall_singleton in He as [? _].
  - by destruct Heff as [_ ->].
  - by subst.
  - by subst.
Qed.

(** The draft the tables hold afterwards. *)
Lemma as_stored_ok db c d d' :
  draft_ok d -> has_room d -> effect_of c d d' -> closing c = false -> call_known db c ->
  match c with CallApply _ i _ _ => i ∉ stack_ids d | _ => True end ->
  draft_ok (as_stored d d').
Proof using json laws.
  intros Hok Hroom Heff Hc Hk Hnew.
  destruct (effect_shape c d d' Hok Heff Hc Hnew) as (_ & Ha & Hrev & Hlen & Hids).
  pose proof (effect_exact db c d d' Hok Heff Hk) as Hg'.
  destruct Hok as (Hwf & _ & Hg & He & _ & _). destruct (id Hroom) as (_ & Hl & Hr).
  destruct (effect_preserves_wf c d d' Hwf Heff) as (Hg1 & _ & Hnd).
  assert (forall e, e ∈ entries (as_stored d d') ->
    geometry_wf (oe_geometry_before e) /\ entry_exact e) as Hall.
  { intros e [Hin|[Hin Hout]]%elem_of_as_stored.
    - rewrite Forall_forall in He. split; [|by apply He].
      destruct Hwf as (_ & Hs & _). rewrite Forall_forall in Hs. by apply Hs.
    - destruct (Hids e Hin) as [?|(now & i & op & r & -> & ->)]; [done|].
      split; [by apply Hwf|]. split; [done|]. by destruct Hk. }
  unfold draft_ok. split_and!.
  - split_and!; [done| |].
    + apply Forall_forall. intros e Hin. by apply Hall.
    + change (NoDup (stack_ids (as_stored d d'))). by rewrite as_stored_ids.
  - done.
  - done.
  - apply Forall_forall. intros e Hin. by apply Hall.
  - replace (length (entries (as_stored d d'))) with (length (entries d')); [lia|].
    unfold entries, as_stored. simpl. by rewrite !length_app, !length_map.
  - change (rd_revision (as_stored d d')) with (rd_revision d'). rewrite Hrev, bumped by done. lia.
Qed.

(** A change of a stored draft is refused and leaves no trace, or is stored. *)
Lemma change_cases c db d :
  drafts_sound db -> stored db d -> draft_ok d -> has_room d -> call_known db c ->
  (exists e, change_and_store (run_call c) d db = (Err e, db) /\
     (closing c = true \/ is_ok (fst (run_call c d)) = false)) \/
  (exists d' db', closing c = false /\ run_call c d = (Ok tt, d') /\ effect_of c d d' /\
     change_and_store (run_call c) d db = (Ok d', db') /\ drafts_sound db' /\
     stored db' (as_stored d d') /\ draft_ok (as_stored d d') /\ same_draft d d' /\
     (forall i, i <> rd_id d -> db_drafts db' !! i = db_drafts db !! i) /\
     (forall k r, or_draft_id r <> rd_id d ->
        db_operations db' !! k = Some r <-> db_operations db !! k = Some r)).
Proof using json laws.
  intros Hs Hst Hok Hroom Hk. unfold change_and_store, call.
  destruct (run_call_cases c d) as [[e Hrun]|(d' & Hrun & _ & Heff)]; [by apply Hroom| |].
  { left. rewrite Hrun. run. eexists. split; [done|by right]. }
  rewrite Hrun. destruct (closing c) eqn:Hc.
  { left. run. cbn. rewrite (closing_refused c db d d' Hc Hst (proj1 (proj2 Hok)) Hrun).
    eexists. split; [done|by left]. }
  right. assert (match c with CallApply _ i _ _ => i ∉ stack_ids d | _ => True end) as Hnew.
  { destruct c as [now i op r| | | | |]; try done. intros (e & -> & He)%list_elem_of_fmap.
    destruct Hk as [Hk _]. destruct (stored_operation db d e Hst He) as [x Hx]. congruence. }
  destruct (effect_shape c d d' Hok Heff Hc Hnew) as (Hsame & _ & Hrev & _ & Hids).
  rewrite (bumped d Hroom) in Hrev.
  pose proof (as_stored_ok db c d d' Hok Hroom Heff Hc Hk Hnew) as Hok'.
  destruct (update_as_stored db d d') as (db' & Hup & Hst' & Hwf' & Hd & Ho); try done.
  - by apply (sound_ops _ Hs).
  - rewrite <- (as_stored_ids d d'). by destruct Hok' as ((_ & _ & ?) & _).
  - intros e He. destruct (Hids e He) as [?|(now & i & op & r & -> & ->)]; [by left|right].
    by destruct Hk.
  - rewrite Hrev. by apply Hroom.
  - exists d', db'. run. cbn. rewrite Hup.
    assert (drafts_sound db') as Hs' by (by apply (sound_written db db' (as_stored d d'))).
    destruct Hsame as [Hid Hsame]. rewrite Hid in Hd, Ho. by split_and!.
Qed.

(** ** Requests *)

Definition serve (actor : uuid) (r : DraftRequest) : eff DraftDb ApiError Response := serve_draft actor r.

Definition request_finite (r : DraftRequest) : Prop :=
  match r with
  | PostCreateDraft _ _ _ _ body => Forall (Forall point_dto_finite) (cdr_geometry body)
  | PostApplyOperation _ _ _ body => operation_dto_finite (aor_operation body)
  | _ => True
  end.

(** Memory and the columns have room for one more operation on each draft. *)
Definition tables_have_room (db : DraftDb) : Prop :=
  forall i d, pg_find_draft i db = (Ok (Some d), db) -> has_room d.

(** One request, by anyone. *)
Inductive api_step : DraftDb -> DraftDb -> Prop :=
| api_request actor r db :
    tables_have_room db -> request_finite r -> api_step db (snd (serve actor r db)).

Lemma load_draft_cases i db :
  drafts_sound db ->
  (db_drafts db !! i = None /\ load_draft i db = (Err ownership_not_found_error, db)) \/
  exists d, rd_id d = i /\ stored db d /\ draft_ok d /\ load_draft i db = (Ok d, db) /\
    pg_find_draft i db = (Ok (Some d), db).
Proof using json laws.
  intros Hs. unfold load_draft, call. destruct (sound_find db i Hs) as [[Hn Hf]|(d & Hd & Hst & Hok & Hf)].
  - left. split; [done|]. run. cbn [find_draft production_repo PgRouteDraftRepository]. by rewrite Hf.
  - right. exists d. split_and!; try done. run. cbn [find_draft production_repo PgRouteDraftRepository].
    by rewrite Hf.
Qed.

Definition owned_by (db : DraftDb) (actor i : uuid) : Prop :=
  exists row, db_drafts db !! i = Some row /\ dr_owner_id row = actor.

Lemma load_owned_cases actor i db :
  drafts_sound db ->
  (~ owned_by db actor i /\ load_owned_draft actor i db = (Err ownership_not_found_error, db)) \/
  exists d, rd_id d = i /\ rd_owner_id d = actor /\ stored db d /\ draft_ok d /\
    load_owned_draft actor i db = (Ok d, db) /\ pg_find_draft i db = (Ok (Some d), db).
Proof using json laws.
  intros Hs. unfold load_owned_draft.
  destruct (load_draft_cases i db Hs) as [[Hn Hl]|(d & Hd & Hst & Hok & Hl & Hf)].
  - left. split; [intros (row & Hrow & _); congruence|]. by erewrite eff_bind_err by done.
  - erewrite eff_bind_ok by done. destruct (N.eqb_spec (rd_owner_id d) actor) as [Ho|Ho].
    + right. exists d. by run.
    + left. split; [|by run]. intros (row & Hrow & Hor). destruct Hst as [Hst _].
      rewrite Hd, Hrow in Hst. injection Hst as ->. done.
Qed.

(** A handler that changes an owned draft by one call of the aggregate. *)
Lemma change_sound c db d (k : RouteDraft -> eff DraftDb ApiError Response) :
  drafts_sound db -> stored db d -> draft_ok d -> has_room d -> call_known db c ->
  (forall d' s, snd (k d' s) = s) ->
  drafts_sound (snd ((change_and_store (run_call c) d ≫= k) db)).
Proof using json laws.
  intros Hs Hst Hok Hroom Hk Hpure.
  destruct (change_cases c db d Hs Hst Hok Hroom Hk) as [(e & He & _)|(d' & db' & _ & _ & _ & He & Hs' & _)].
  - by erewrite eff_bind_err by done.
  - erewrite eff_bind_ok by done. by rewrite Hpure.
Qed.

Lemma owned_sound actor i db (k : RouteDraft -> eff DraftDb ApiError Response) :
  drafts_sound db -> tables_have_room db ->
  (forall d, stored db d -> draft_ok d -> has_room d -> drafts_sound (snd (k d db))) ->
  drafts_sound (snd ((load_owned_draft actor i ≫= k) db)).
Proof using json laws.
  intros Hs Hroom Hk.
  destruct (load_owned_cases actor i db Hs) as [[_ Hl]|(d & _ & _ & Hst & Hok & Hl & Hf)].
  - by erewrite eff_bind_err by done.
  - erewrite eff_bind_ok by done. apply Hk; [done..|]. by eapply Hroom.
Qed.

Lemma lift_sound {A} (r : result ApiError A) db (k : A -> eff DraftDb ApiError Response) :
  drafts_sound db -> (forall a, r = Ok a -> drafts_sound (snd (k a db))) ->
  drafts_sound (snd ((lift r ≫= k) db)).
Proof. intros Hs Hk. run. destruct r; cbn; auto. Qed.

(** *** Creating a draft *)

Definition created_draft (new_id : uuid) (now : datetime) (owner activity : uuid)
    (base : option uuid) (g : geometry) : RouteDraft :=
  mkDraft new_id activity owner base 0 g [] [] Active now now.

Lemma save_created new_id now owner activity base g db :
  drafts_sound db -> geometry_wf g -> geometry_exact g ->
  drafts_sound (snd (pg_save_draft violation (created_draft new_id now owner activity base g) db)).
Proof.
  intros Hs Hwf Hg. unfold pg_save_draft. run. simpl.
  destruct (db_drafts db !! new_id) as [row|] eqn:Hnew; [done|]. simpl.
  set (d := created_draft new_id now owner activity base g).
  apply (sound_written db _ d Hs); simpl; [apply (sound_ops _ Hs)| | |intros i Hi; by rewrite lookup_insert_ne|done].
  - split; [simpl; by rewrite lookup_insert_eq|]. intros k r Hr. simpl. split.
    + intros Hk. apply (sound_owned _ Hs) in Hk. rewrite Hr in Hk. simpl in Hk. rewrite Hnew in Hk.
      by apply is_Some_None in Hk.
    + by intros [?%elem_of_nil _].
  - split; [split_and!; [done|constructor|constructor]|]. split_and!; [done|done|constructor|done|done].
Qed.

Lemma find_active_pure a o db : exists found, pg_find_active a o db = (Ok found, db).
Proof. unfold pg_find_active. run. eauto. Qed.

Lemma map_err_ok {E F A} (f : E -> F) (r : result E A) a : map_err f r = Ok a -> r = Ok a.
Proof. destruct r; naive_solver. Qed.

Lemma create_sound new_id now actor activity headers body db :
  drafts_sound db -> Forall (Forall point_dto_finite) (cdr_geometry body) ->
  drafts_sound (snd (post_create_draft new_id now actor activity headers body db)).
Proof.
  intros Hs Hfin. unfold post_create_draft.
  apply lift_sound; [done|]. intros _ _. apply lift_sound; [done|].
  intros g Hg%map_err_ok. apply geometry_to_domain_exact in Hg; [|done].
  destruct (find_active_pure activity actor db) as [found Hfound].
  erewrite eff_bind_ok by (unfold call, eff_map_err;
    cbn [find_active_by_activity production_repo PgRouteDraftRepository]; by rewrite Hfound).
  destruct found as [existing|]; [by apply lift_sound|].
  erewrite eff_bind_ok by done. erewrite eff_bind_ok by (by destruct (cdr_base_route_version_id body)).
  apply lift_sound; [done|]. intros d ([] & Hv & [= <-])%map_err_ok%result_bind_inv.
  apply validate_geometry_ok in Hv.
  pose proof (save_created new_id now actor activity (cdr_base_route_version_id body) g db Hs Hv Hg) as Hsave.
  unfold created_draft in Hsave. unfold call, eff_map_err. run.
  cbn [save_draft production_repo PgRouteDraftRepository].
  by destruct (pg_save_draft _ _ _) as [[] ?].
Qed.

Lemma apply_sound now actor i headers body db :
  drafts_sound db -> tables_have_room db -> operation_dto_finite (aor_operation body) ->
  drafts_sound (snd (post_apply_operation now actor i headers body db)).
Proof using json laws.
  intros Hs Hroom Hfin. unfold post_apply_operation.
  apply lift_sound; [done|]. intros key _. apply lift_sound; [done|]. intros op_id _.
  erewrite eff_bind_ok by done.
  destruct (db_operations db !! op_id) as [r|] eqn:Hop; simpl.
  - destruct (load_draft_cases (or_draft_id r) db Hs) as [[_ Hl]|(d & _ & _ & _ & Hl & _)].
    + by erewrite eff_bind_err by done.
    + erewrite eff_bind_ok by done. run. by destruct (replay_operation _ _ _).
  - apply owned_sound; [done..|]. intros d Hst Hok Hrd. apply lift_sound; [done|].
    intros op Hdom%map_err_ok. apply operation_to_domain_exact in Hdom; [|done].
    by apply (change_sound (CallApply now op_id op (aor_expected_revision body))).
Qed.

(** Every request keeps the tables sound. *)
Lemma serve_sound actor r db :
  drafts_sound db -> tables_have_room db -> request_finite r -> drafts_sound (snd (serve actor r db)).
Proof using json laws.
  intros Hs Hroom Hfin. destruct r as [new_id now activity headers body|i|now i headers body|now i headers v
    |now i headers v|now i headers v|now i|i v]; simpl in Hfin |- *.
  - by apply create_sound.
  - by apply owned_sound.
  - by apply apply_sound.
  - apply lift_sound; [done|]. intros _ _. apply owned_sound; [done..|]. intros d Hst Hok Hrd.
    by apply (change_sound (CallUndo now v)).
  - apply lift_sound; [done|]. intros _ _. apply owned_sound; [done..|]. intros d Hst Hok Hrd.
    by apply (change_sound (CallRedo now v)).
  - apply lift_sound; [done|]. intros _ _. apply owned_sound; [done..|]. intros d Hst Hok Hrd.
    apply lift_sound; [done|]. intros b _. erewrite eff_bind_ok by done.
    apply (change_sound (CallReset now v [[]])); try done. repeat constructor.
  - apply owned_sound; [done..|]. intros d Hst Hok Hrd. by apply (change_sound (CallDiscard now)).
  - unfold post_validate_draft.
    destruct (load_draft_cases i db Hs) as [[_ Hl]|(d & _ & _ & _ & Hl & _)].
    + by erewrite eff_bind_err by done.
    + by erewrite eff_bind_ok by done.
Qed.

Lemma empty_sound : drafts_sound (mkDraftDb ∅ ∅).
Proof. split; [apply map_Forall_empty|..]; intros k r Hk; simpl in Hk; by rewrite lookup_empty in Hk. Qed.

Lemma reachable_sound db : reach api_step (mkDraftDb ∅ ∅) db -> drafts_sound db.
Proof using json laws.
  apply (reach_invariant api_step drafts_sound); [|exact empty_sound].
  intros a b Ha Hstep. destruct Hstep. by apply serve_sound.
Qed.

Definition other_drafts_same (i : uuid) (db db' : DraftDb) : Prop :=
  (forall j, j <> i -> db_drafts db' !! j = db_drafts db !! j) /\
  (forall k r, or_draft_id r <> i -> db_operations db' !! k = Some r <-> db_operations db !! k = Some r).

(** A change leaves every other draft as it was. *)
Lemma find_other db db' i j :
  drafts_sound db -> drafts_sound db' -> other_drafts_same i db db' -> j <> i ->
  fst (pg_find_draft j db') = fst (pg_find_draft j db).
Proof using json laws.
  intros Hs Hs' [Hd Ho] Hj. destruct (sound_find db j Hs) as [[Hn ->]|(d & Hid & [Hrow Hops] & Hok & Hf)].
  - unfold pg_find_draft. run. by rewrite Hd, Hn.
  - assert (stored db' d) as Hst.
    { split; [by rewrite Hd by congruence|]. intros k r Hr. rewrite Ho by congruence. by apply Hops. }
    rewrite Hf, <- Hid, (stored_find db' d (sound_ops _ Hs') (draft_ok_storable d Hok) Hst).
    by rewrite (found_in_store db j d Hs Hf).
Qed.

Lemma kept_own d e : NoDup (stack_ids d) -> e ∈ entries d -> kept_entry d e = e.
Proof.
  intros Hnd He. destruct (kept_entry_cases d e) as [Hid [Hin|[-> _]]]; [|done].
  by apply (NoDup_map_inj oe_id (entries d)).
Qed.

Lemma applied_as_stored now i op d :
  NoDup (stack_ids d) -> i ∉ stack_ids d ->
  as_stored d (applied_draft now i op d) = applied_draft now i op d.
Proof using json laws.
  intros Hnd Hi. unfold as_stored. simpl. rewrite map_app. simpl.
  replace (map (kept_entry d) (rd_applied_operations d)) with (rd_applied_operations d).
  - destruct (kept_entry_cases d (mkEntry i op (rd_geometry d))) as [Hid [Hin|[-> _]]]; [|done].
    exfalso. apply Hi. apply (list_elem_of_fmap_2 oe_id) in Hin. by rewrite Hid in Hin.
  - symmetry. rewrite <- (map_id (rd_applied_operations d)) at 2. apply map_ext_in.
    intros e He%list_elem_of_In. apply kept_own; [done|]. unfold entries. set_solver.
Qed.

(** What a request refers to, and what someone is told who does not own it. *)
Definition about (r : DraftRequest) : option uuid :=
  match r with
  | PostCreateDraft _ _ _ _ _ => None
  | GetDraft i | PostApplyOperation _ i _ _ | PostUndo _ i _ _ | PostRedo _ i _ _ | PostReset _ i _ _
  | DeleteDraft _ i | PostValidateDraft i _ => Some i
  end.

Definition operation_id_of (headers : HeaderMap) : result ApiError uuid :=
  key ← extract_idempotency_key headers; map_err invalid_idempotency_key (parse_idempotency_key key).

Definition refusal (r : DraftRequest) : ApiError :=
  match r with
  | PostApplyOperation _ _ headers _ =>
      match operation_id_of headers with Err e => e | _ => ownership_not_found_error end
  | PostUndo _ _ headers _ | PostRedo _ _ headers _ | PostReset _ _ headers _ =>
      match extract_idempotency_key headers with Err e => e | _ => ownership_not_found_error end
  | _ => ownership_not_found_error
  end.

(** The request repeats an operation that the tables know. *)
Definition replays (db : DraftDb) (r : DraftRequest) : Prop :=
  match r with
  | PostApplyOperation _ _ headers _ =>
      exists i, operation_id_of headers = Ok i /\ is_Some (db_operations db !! i)
  | _ => False
  end.

Lemma foreign_load actor i db (k : RouteDraft -> eff DraftDb ApiError Response) :
  drafts_sound db -> ~ owned_by db actor i ->
  (load_owned_draft actor i ≫= k) db = (Err ownership_not_found_error, db).
Proof using json laws.
  intros Hs Hno.
  destruct (load_owned_cases actor i db Hs) as [[_ Hl]|(d & Hid & Ho & [Hrow _] & _)].
  - by erewrite eff_bind_err by done.
  - exfalso. apply Hno. exists (draft_row d). by rewrite <- Hid.
Qed.

Lemma lift_bind {S E A B} (r : result E A) (k : A -> eff S E B) s :
  (lift r ≫= k) s = match r with Ok a => k a s | Err e => (Err e, s) | Panicked => (Panicked, s) end.
Proof. run. by destruct r. Qed.

Lemma no_panic_key headers : extract_idempotency_key headers <> Panicked.
Proof.
  unfold extract_idempotency_key, idempotency_key_of. destruct (get_header _ _); [|done]. cbn.
  by destruct (is_empty _).
Qed.

(** ** Properties *)


(** C7: drafts of others are hidden.  A request about a draft that the caller does not
    own, and that does not repeat a known operation, is refused in the same way
    whether the draft exists or not, and changes nothing. *)
Theorem foreign_draft_hidden actor r i db :
  drafts_sound db -> about r = Some i -> ~ owned_by db actor i -> ~ replays db r ->
  serve actor r db = (Err (refusal r), db).
Proof using json laws.
  intros Hs Hi Hno Hrep.
  destruct r as [|j|now j headers body|now j headers v|now j headers v|now j headers v|now j|j v];
    simplify_eq/=; unfold get_draft, post_apply_operation, post_undo, post_redo, post_reset, delete_draft;
    try by apply foreign_load.
  - unfold operation_id_of in *. rewrite lift_bind. pose proof (no_panic_key headers) as Hp.
    destruct (extract_idempotency_key headers) as [key|e|]; [|done..]. cbn [mbind result_bind] in *.
    rewrite lift_bind. destruct (parse_idempotency_key key) as [op_id|e|] eqn:Hk; simpl in *; [|done|].
    + erewrite eff_bind_ok by done. destruct (db_operations db !! op_id) as [r|] eqn:Hop; simpl.
      * exfalso. apply Hrep. by exists op_id.
      * by apply foreign_load.
    + unfold parse_idempotency_key in Hk. by destruct (uuid_parse key).
  - rewrite lift_bind. pose proof (no_panic_key headers).
    destruct (extract_idempotency_key headers); [by apply foreign_load|done..].
  - rewrite lift_bind. pose proof (no_panic_key headers).
    destruct (extract_idempotency_key headers); [by apply foreign_load|done..].
  - rewrite lift_bind. pose proof (no_panic_key headers).
    destruct (extract_idempotency_key headers); [by apply foreign_load|done..].
  - unfold post_validate_draft.
    destruct (load_draft_cases i db Hs) as [[_ Hl]|(d & Hid & [Hrow _] & _ & Hl & _)].
    + by erewrite eff_bind_err by done.
    + erewrite eff_bind_ok by done. unfold validate_for_publication.
      destruct (N.eqb_spec (rd_owner_id d) actor) as [Ho|Ho]; [|done].
      exfalso. apply Hno. exists (draft_row d). by rewrite <- Hid.
Qed.

(** The replay of a known operation, by anyone and under any draft's address. *)
Lemma replay_run now actor j headers body op_id op d n e db :
  drafts_sound db -> stored db d -> draft_ok d -> operation_id_of headers = Ok op_id ->
  rd_applied_operations d !! n = Some e -> oe_id e = op_id ->
  operation_to_domain (aor_operation body) = Ok op -> RouteOperation_eqb (oe_operation e) op = true ->
  post_apply_operation now actor j headers body db =
    (Ok (operation_result (rd_id d) (N.of_nat n + 1) true false), db).
Proof using json laws.
  intros Hs Hst Hok Hkey Hn Hid Hdom Heqb. unfold post_apply_operation, operation_id_of in *.
  destruct (extract_idempotency_key headers) as [key|err|]; [|done..]. cbn [mbind result_bind] in Hkey.
  rewrite lift_bind, lift_bind, Hkey. erewrite eff_bind_ok by done.
  assert (e ∈ rd_applied_operations d) as Hin by (by eapply list_elem_of_lookup_2).
  assert (e ∈ entries d) as Hen by (unfold entries; set_solver).
  destruct (stack_row_of_entry d e Hen) as (u & seq & Hr). destruct (id Hst) as [_ Hops].
  assert (db_operations db !! op_id = Some (operation_row (rd_id d) u seq e)) as ->.
  { rewrite <- Hid. by apply (Hops (oe_id e) _ (stack_rows_draft _ _ Hr)). }
  simpl. unfold load_draft at 1.
  pose proof (stored_find db d (sound_ops _ Hs) (draft_ok_storable d Hok) Hst) as Hf.
  assert (load_draft (rd_id d) db = (Ok (in_store d), db)) as Hl.
  { unfold load_draft, call. run. cbn [find_draft production_repo PgRouteDraftRepository]. by rewrite Hf. }
  fold (load_draft (rd_id d)). erewrite eff_bind_ok by exact Hl. unfold replay_operation.
  change (rd_applied_operations (in_store d)) with (rd_applied_operations d).
  change (rd_id (in_store d)) with (rd_id d).
  destruct Hok as ((_ & _ & Hnd) & _).
  assert (list_find (fun x => oe_id x = op_id) (rd_applied_operations d) = Some (n, e)) as ->.
  { apply list_find_Some. split_and!; [done..|]. intros m x Hm Hlt Hx.
    assert (x = e) as ->.
    { apply (NoDup_map_inj oe_id (entries d)); [done| |done|congruence].
      unfold entries. apply elem_of_app. left. by eapply list_elem_of_lookup_2. }
    unfold all_operations in Hnd. rewrite map_app in Hnd. apply NoDup_app in Hnd as (Hnd & _).
    pose proof (NoDup_lookup _ m n (oe_id e) Hnd) as Hinj.
    rewrite !list_lookup_fmap, Hm, Hn in Hinj. specialize (Hinj eq_refl eq_refl). lia. }
  rewrite Hdom. simpl. by rewrite Heqb.
Qed.


(** A request that changes an owned draft and was answered. *)
Lemma change_answered c actor i db res db' :
  drafts_sound db -> tables_have_room db -> call_known db c ->
  (load_owned_draft actor i ≫= fun d => change_and_store (run_call c) d ≫= fun d' =>
     mret (draft_result d')) db = (Ok res, db') ->
  exists d d', pg_find_draft i db = (Ok (Some d), db) /\ draft_ok d /\ effect_of c d d' /\
    drafts_sound db' /\ pg_find_draft i db' = (Ok (Some (in_store (as_stored d d'))), db').
Proof using json laws.
  intros Hs Hroom Hk Hrun.
  destruct (load_owned_cases actor i db Hs) as [[_ Hl]|(d & Hid & _ & Hst & Hok & Hl & Hf)].
  { erewrite eff_bind_err in Hrun by done. done. }
  erewrite eff_bind_ok in Hrun by done.
  destruct (change_cases c db d Hs Hst Hok (Hroom _ _ Hf) Hk) as
    [(e & He & _)|(d' & db1 & _ & _ & Heff & He & Hs' & Hst' & Hok' & [Hsame _] & _)].
  { erewrite eff_bind_err in Hrun by done. done. }
  erewrite eff_bind_ok in Hrun by done. injection Hrun as _ <-.
  exists d, d'. split_and!; try done. rewrite <- Hid, <- Hsame.
  by apply (stored_find db1 (as_stored d d') (sound_ops _ Hs') (draft_ok_storable _ Hok')).
Qed.

(** Redo over HTTP restores nothing: after an undo and a redo that were both
    answered with success, the draft has the geometry from after the undo. *)
Lemma redo_request_restores_nothing now now' actor i h h' v v' db db1 db2 r1 r2 :
  drafts_sound db -> tables_have_room db -> tables_have_room db1 ->
  post_undo now actor i h v db = (Ok r1, db1) -> post_redo now' actor i h' v' db1 = (Ok r2, db2) ->
  exists d1 d2, pg_find_draft i db1 = (Ok (Some d1), db1) /\ pg_find_draft i db2 = (Ok (Some d2), db2) /\
    rd_geometry d2 = rd_geometry d1.
Proof using json laws.
  intros Hs Hroom Hroom1 Hundo Hredo. unfold post_undo, post_redo in *. rewrite lift_bind in Hundo, Hredo.
  destruct (extract_idempotency_key h) as [k|e|]; [|done..].
  destruct (extract_idempotency_key h') as [k'|e|]; [|done..].
  apply (change_answered (CallUndo now v)) in Hundo as (d & du & _ & Hok & Heff & Hs1 & Hf1); [|done..].
  apply (change_answered (CallRedo now' v')) in Hredo as (d1 & dr & Hf1' & _ & Heff' & _ & Hf2); [|done..].
  rewrite Hf1 in Hf1'. injection Hf1' as <-. set (d1 := in_store (as_stored d du)) in *.
  exists d1, (in_store (as_stored d1 dr)).
  split_and!; [done..|]. destruct Heff as (applied & e & Ha & ->).
  destruct Heff' as (undone & e' & Hu & ->). simpl in Hu |- *. rewrite map_app in Hu. simpl in Hu.
  apply app_inj_tail in Hu as [_ <-]. destruct Hok as ((_ & _ & Hnd) & _).
  assert (e ∈ entries d) as He by (unfold entries; rewrite Ha; set_solver).
  replace (kept_entry d (swap_entry e (rd_geometry d))) with e; [done|].
  destruct (kept_entry_cases d (swap_entry e (rd_geometry d))) as [Hid [Hin|[_ Hno]]].
  - symmetry. by apply (NoDup_map_inj oe_id (entries d)).
  - exfalso. apply Hno. by apply (list_elem_of_fmap_2 oe_id) in He.
Qed.

Lemma reset_empty_refused now v d : exists e, reset now v [[]] d = (Err e, d).
Proof.
  unfold reset.
  destruct (decide (rd_state d = Active)) as [Ha|Ha].
  - erewrite eff_bind_ok by (by rewrite check_active_run, decide_True).
    destruct (N.eqb_spec v (rd_revision d)) as [->|Hv].
    + erewrite eff_bind_ok by (by rewrite check_revision_run, N.eqb_refl). eexists. done.
    + erewrite eff_bind_err by (rewrite check_revision_run; by apply N.eqb_neq in Hv as ->). eauto.
  - erewrite eff_bind_err by (by rewrite check_active_run, decide_False). eauto.
Qed.

(** C8: in production no draft is ever discarded, and none is ever reset: whoever asks,
    DELETE and reset end in an error and change nothing.  Discarding does not
    move the revision that the update compares; the version gateway knows only a
    geometry that the aggregate refuses. *)
Theorem delete_and_reset_refused now actor i headers v db :
  drafts_sound db ->
  (exists e, delete_draft now actor i db = (Err e, db)) /\
  (exists e, post_reset now actor i headers v db = (Err e, db)).
Proof using json laws.
  intros Hs.
  destruct (load_owned_cases actor i db Hs) as [[_ Hl]|(d & _ & _ & Hst & (_ & Ha & _) & Hl & _)].
  - split; [unfold delete_draft; erewrite eff_bind_err by done; eauto|].
    unfold post_reset. rewrite lift_bind. pose proof (no_panic_key headers).
    destruct (extract_idempotency_key headers) as [k|e|]; [|eauto|done].
    erewrite eff_bind_err by done. eauto.
  - split.
    + unfold delete_draft. erewrite eff_bind_ok by done. unfold change_and_store.
      destruct (discard now d) as [r d'] eqn:Hd.
      assert (r = Ok tt) as ->.
      { unfold discard in Hd. erewrite eff_bind_ok in Hd by (by rewrite check_active_run, decide_True).
        by injection Hd as <- _. }
      eexists. unfold call. run. cbn. by rewrite (closing_refused (CallDiscard now) db d d' eq_refl Hst Ha Hd).
    + unfold post_reset. rewrite lift_bind. pose proof (no_panic_key headers).
      destruct (extract_idempotency_key headers) as [k|e|]; [|eauto|done].
      erewrite eff_bind_ok by done. rewrite lift_bind.
      destruct (rd_base_route_version_id d); simpl; [|eauto]. erewrite eff_bind_ok by done.
      unfold change_and_store. destruct (reset_empty_refused now v d) as [e ->]. eauto.
Qed.
End production.

(** ** Witnesses *)

(** A codec that loses nothing, and identifiers written in decimals. *)
Definition nat_json (n : N) : Json := JInt (Z.of_N n).

Definition encode_operation (op : RouteOperation) : Json :=
  match op with
  | MovePoint i j c =>
      JArray [JInt 0; nat_json i; nat_json j; JFloat (latitude c); JFloat (longitude c)]
  | AddPoint i j p => JArray [JInt 1; nat_json i; nat_json j; point_to_json p]
  | DeletePoint i j => JArray [JInt 2; nat_json i; nat_json j]
  | DeleteSection i a b => JArray [JInt 3; nat_json i; nat_json a; nat_json b]
  | ReplaceSection i a b r =>
      JArray [JInt 4; nat_json i; nat_json a; nat_json b; JArray (map point_to_json r)]
  | SplitSegment i k => JArray [JInt 5; nat_json i; nat_json k]
  | JoinSegments i j => JArray [JInt 6; nat_json i; nat_json j]
  end.

Definition decode_operation (j : Json) : option RouteOperation :=
  match j with
  | JArray [JInt 0; JInt i; JInt j; JFloat lat; JFloat lon] =>
      Some (MovePoint (Z.to_N i) (Z.to_N j) (mkCoordinate lat lon))
  | JArray [JInt 1; JInt i; JInt j; p] => AddPoint (Z.to_N i) (Z.to_N j) <$> point_of_json p
  | JArray [JInt 2; JInt i; JInt j] => Some (DeletePoint (Z.to_N i) (Z.to_N j))
  | JArray [JInt 3; JInt i; JInt a; JInt b] =>
      Some (DeleteSection (Z.to_N i) (Z.to_N a) (Z.to_N b))
  | JArray [JInt 4; JInt i; JInt a; JInt b; r] =>
      ReplaceSection (Z.to_N i) (Z.to_N a) (Z.to_N b) <$> array_of_json point_of_json r
  | JArray [JInt 5; JInt i; JInt k] => Some (SplitSegment (Z.to_N i) (Z.to_N k))
  | JArray [JInt 6; JInt i; JInt j] => Some (JoinSegments (Z.to_N i) (Z.to_N j))
  | _ => None
  end.

#[local] Instance exact_json : DraftJson := {|
  geometry_to_json := @geometry_to_json sample_json;
  json_to_geometry := @json_to_geometry sample_json;
  operation_to_json := encode_operation;
  json_to_operation := decode_operation |}.

Lemma point_json_roundtrip p : point_of_json (point_to_json p) = Some p.
Proof. by destruct p as [[lat lon] [e|]]. Qed.

Lemma mapM_roundtrip {A} (f : Json -> option A) (g : A -> Json) l :
  (forall x, f (g x) = Some x) -> mapM f (map g l) = Some l.
Proof.
  intros Hf. apply mapM_Some. apply Forall2_fmap_l, Forall_Forall2_diag, Forall_true. intros x. apply Hf.
Qed.

#[local] Existing Instances micros micros_laws.

#[local] Instance exact_laws : DraftJsonLaws.
Proof.
  split; [apply micros_laws| |].
  - intros g _. simpl. rewrite mapM_roundtrip; [done|]. intros s. apply mapM_roundtrip, point_json_roundtrip.
  - intros op _. destruct op as [i j [lat lon]|i j [[lat lon] [e|]]|i j|i a b|i a b r|i k|i j]; simpl;
      rewrite ?N2Z.id, ?(mapM_roundtrip _ _ _ point_json_roundtrip); done.
Qed.

#[local] Instance plain_parser : UuidParser := fun s =>
  match parse_uint (2 ^ 128) s with Some u => inr u | None => inl (lit "invalid") end.
#[local] Instance plain_text : DateTimeText := display_Z.
#[local] Instance plain_display : UuidDisplay := display_N.

Definition with_key (key : rstr) : HeaderMap := {[ lit "idempotency-key" := as_bytes key ]}.

Definition create_square : DraftRequest :=
  PostCreateDraft 1 5 2 (with_key (lit "8")) (mkCreateDraft (geometry_to_dto square) None).

Definition tables_with_square : DraftDb := snd (serve [] 3 create_square (mkDraftDb ∅ ∅)).
Definition square_draft : RouteDraft := in_store (mkDraft 1 2 3 None 0 square [] [] Active 5 5).

Lemma square_reached : reach (api_step []) (mkDraftDb ∅ ∅) tables_with_square.
Proof.
  eapply reach_step; [|apply reach_refl]. apply (api_request [] 3 create_square); [|by repeat constructor].
  intros i d Hf. unfold pg_find_draft in Hf. revert Hf. run. simpl. by rewrite lookup_empty.
Qed.

Lemma square_found : pg_find_draft 1 tables_with_square = (Ok (Some square_draft), tables_with_square).
Proof. vm_compute. reflexivity. Qed.

Lemma square_room : has_room square_draft.
Proof. split; [apply square_fits|by split]. Qed.


Lemma foreign_draft_hidden_witness :
  serve [] 4 (GetDraft 1) tables_with_square = (Err ownership_not_found_error, tables_with_square).
Proof.
  apply (foreign_draft_hidden [] 4 (GetDraft 1) 1);
    [apply (reachable_sound [] _ square_reached)|reflexivity| |by intros []].
  intros (row & Hrow & Ho). apply (f_equal (fmap dr_owner_id)) in Hrow. simpl in Hrow.
  rewrite Ho in Hrow. vm_compute in Hrow. done.
Defined.

Definition move_request : ApplyOperationRequest :=
  mkApplyRequest (MovePointDto 0 0 (mkPositionDto (f64_of_Z 5) (f64_of_Z 5))) 0.


Lemma delete_and_reset_refused_witness :
  snd (serve [] 3 (DeleteDraft 9 1) tables_with_square) = tables_with_square.
Proof.
  destruct (delete_and_reset_refused [] 9 3 1 ∅ 0 tables_with_square
    (reachable_sound [] _ square_reached)) as [[e He] _]. unfold serve, serve_draft. by rewrite He.
Defined.
