(* ===== verification/ImportApi.v ===== *)
(** The endpoints of imports: crates/api/src/imports.rs and imports_dto.rs.

    The job queue and the quota are optional services of the application's state;
    the serialisation of a job's payload (serde_json) is a parameter.  In production
    both are there, the queue being the one of JobQueue.v ([PgJobEnqueuer] of
    crates/api/src/main.rs), over one database with the table of imports. *)
From S2P Require Import Prelude Float64 RustString Utf8 RecordedActivity RouteVersioning Imports.
From S2P Require Import ImportHandlers ImportPersistence Http RateLimits Api.
From S2P Require JobQueue.

(** [JobEnqueuer::enqueue]: job type, payload and correlation id. *)
Definition JobEnqueuer (S : Type) := rstr -> Json -> uuid -> eff S rstr uuid.

Definition BACKPRESSURE_ERROR_PREFIX : rstr := lit "BACKPRESSURE:".

(** The [UploadQuota] that the requests share, within their state. *)
Record QuotaCell (S : Type) := mkQuotaCell {
  quota_of : S -> UploadQuota;
  set_quota : UploadQuota -> S -> S }.
Arguments quota_of {S}.
Arguments set_quota {S}.

(** ** DTOs *)

Record StartImportRequest := mkStartRequest {
  sir_filename : rstr; sir_content_type : rstr; sir_file_size_bytes : N }.

Definition SAFE_FAILURE_REASONS : list rstr :=
  [lit "unsupported file format"; lit "parsing failed"; lit "file too large";
   lit "invalid media type"; lit "checksum mismatch"; lit "duplicate checksum";
   lit "upload too large"; lit "upload not found in storage"; lit "upload is empty";
   lit "validation failed"].

Section responses.
Context `{UnicodeLower} `{UuidDisplay} `{DateTimeText}.

Definition sanitize_failure_reason (reason : rstr) : rstr :=
  let lower := to_lowercase reason in
  if existsb (fun safe => starts_with safe lower) SAFE_FAILURE_REASONS then reason
  else lit "an internal error occurred".

(** [ImportStatusResponse]. *)
Definition import_to_status_response (import : Import) : Json :=
  JObject
    ([(lit "id", json_uuid (im_id import)); (lit "status", JString (status_display (im_status import)))]
     ++ optional_field (lit "failureReason") (fun r => JString (sanitize_failure_reason r))
          (im_failure_reason import)
     ++ optional_field (lit "failureCode") (fun c => JString (as_str c)) (im_failure_code import)
     ++ optional_field (lit "activityId") json_uuid (im_activity_id import)
     ++ [(lit "createdAt", json_datetime (im_created_at import));
         (lit "updatedAt", json_datetime (im_updated_at import))]).

(** [StartImportResponse]. *)
Definition start_response (r : StartImportResult) : Json :=
  JObject [(lit "importId", json_uuid (im_id (sr_import r)));
           (lit "uploadUrl", JString (sr_upload_url r));
           (lit "status", JString (status_display (im_status (sr_import r))))].
End responses.

(** ** Errors *)

Definition import_error_to_api_error (e : ImportError) : ApiError :=
  match e with
  | NotFound | Unauthorized => not_found_error (lit "import not found")
  | UploadTooLarge =>
      ApiError_new 422 (lit "UPLOAD_TOO_LARGE") (lit "file size exceeds the 50MB limit")
        (lit "/problems/upload-too-large") (lit "Upload Too Large")
  | InvalidMediaType =>
      ApiError_new 422 (lit "INVALID_MEDIA_TYPE")
        (lit "content type must be application/gpx+xml or application/xml")
        (lit "/problems/invalid-media-type") (lit "Invalid Media Type")
  | ObjectNotFound =>
      ApiError_new 422 (lit "OBJECT_NOT_FOUND") (lit "uploaded object not found in storage")
        (lit "/problems/object-not-found") (lit "Object Not Found")
  | InvalidTransition from to =>
      ApiError_new 409 (lit "INVALID_STATE_TRANSITION")
        (lit "cannot transition from " ++ from ++ lit " to " ++ to)
        (lit "/problems/invalid-state-transition") (lit "Invalid State Transition")
  | DuplicateIdempotencyKey =>
      ApiError_new 409 (lit "DUPLICATE_IDEMPOTENCY_KEY")
        (lit "an import with this idempotency key already exists")
        (lit "/problems/duplicate-idempotency-key") (lit "Duplicate Idempotency Key")
  | IdempotencyPayloadMismatch =>
      ApiError_new 409 (lit "IDEMPOTENCY_PAYLOAD_MISMATCH")
        (lit "idempotency key reused with different payload")
        (lit "/problems/idempotency-conflict") (lit "Idempotency Conflict")
  | ValidationFailed message => validation_error message
  | StorageError _ =>
      ApiError_new 500 (lit "STORAGE_ERROR") (lit "a storage error occurred")
        (lit "/problems/storage-error") (lit "Storage Error")
  | _ => unexpected_error
  end.

Definition quota_exceeded (max retry_after : N) : ApiError :=
  ApiError_new 429 (lit "UPLOAD_QUOTA_EXCEEDED")
    (lit "daily import limit of " ++ display_N max ++ lit " exceeded, retry after "
       ++ display_N retry_after ++ lit "s")
    (lit "/problems/upload-quota-exceeded") (lit "Upload Quota Exceeded").

Definition queue_backpressure : ApiError :=
  ApiError_new 429 (lit "QUEUE_BACKPRESSURE")
    (lit "the processing queue is at capacity, please retry later")
    (lit "/problems/queue-backpressure") (lit "Service Temporarily Overloaded").

Definition enqueue_failed : ApiError :=
  ApiError_new 500 (lit "JOB_ENQUEUE_FAILED") (lit "an unexpected error occurred")
    (lit "/problems/internal-error") (lit "Internal Server Error").

Definition extract_idempotency_key (headers : HeaderMap) : result ApiError rstr :=
  idempotency_key_of headers.

(** ** Endpoints *)

Section endpoints.
Context {S : Type} `{ImportRepository S} `{UploadUrlGenerator S} `{UploadVerifier S}
  `{Sha256} `{UuidDisplay} `{UnicodeLower} `{CanonicalReason} `{DateTimeText}.
(** [serde_json::to_value] of a payload. *)
Context (job_to_value : ParseGpxJob -> rstr + Json).
Context (job_queue : option (JobEnqueuer S)) (upload_quota : option (QuotaCell S)).

Abbreviation handler := (eff S ApiError Response) (only parsing).

Definition call {A} (m : eff S ImportError A) : eff S ApiError A :=
  eff_map_err import_error_to_api_error m.

(** [Some (max, retry_after)] if the quota refuses the upload. *)
Definition charge_quota (instant : Z) (user_id : uuid) : eff S ApiError (option (N * N)) :=
  match upload_quota with
  | None => mret None
  | Some cell => fun s =>
      let '(r, q) := check_and_increment instant user_id (quota_of cell s) in
      (Ok (match r with
           | inl retry_after => Some (uq_max_imports (quota_of cell s), retry_after)
           | inr _ => None
           end), set_quota cell q s)
  end.

(** [fresh_id] is the request id of an error that is answered here. *)
Definition post_start_import (instant : Z) (new_id : uuid) (now : datetime) (fresh_id : rstr)
    (actor : uuid) (headers : HeaderMap) (body : StartImportRequest) : handler :=
  idempotency_key ← lift (extract_idempotency_key headers);
  exceeded ← charge_quota instant actor;
  match exceeded with
  | Some (max, retry_after) =>
      mret (with_retry_after retry_after (into_response fresh_id (quota_exceeded max retry_after)))
  | None =>
      let cmd := mkStartImport actor idempotency_key (sir_filename body) (sir_content_type body)
                   (sir_file_size_bytes body) in
      result ← call (handle_start_import new_id now cmd);
      mret (json_response 202 (start_response result))
  end.

Definition parse_job_of (import : Import) : ParseGpxJob :=
  mkParseGpxJob (im_id import) (im_owner_id import) (storage_key (im_owner_id import) (im_id import))
    (im_id import).

(** [Some response] if the queue is full. *)
Definition enqueue_parsing (fresh_id : rstr) (queue : JobEnqueuer S) (import : Import)
    : eff S ApiError (option Response) :=
  payload_json ← lift (match job_to_value (parse_job_of import) with
                       | inr json => Ok json
                       | inl _ => Err unexpected_error
                       end);
  r ← attempt (queue PARSE_GPX_JOB_TYPE payload_json (im_id import));
  match r with
  | Ok _ => mret None
  | Err e =>
      if starts_with BACKPRESSURE_ERROR_PREFIX e
      then mret (Some (with_retry_after 60 (into_response fresh_id queue_backpressure)))
      else throw enqueue_failed
  | Panicked => panic
  end.

Definition post_complete_upload (new_artifact_id : uuid) (now : datetime) (fresh_id : rstr)
    (actor import_id : uuid) (checksum : rstr) : handler :=
  import ← call (handle_complete_upload new_artifact_id now (mkCompleteUpload import_id actor checksum));
  full ← match job_queue with
         | Some queue => enqueue_parsing fresh_id queue import
         | None => mret None
         end;
  match full with
  | Some response => mret response
  | None => mret (json_response 200 (import_to_status_response import))
  end.

Definition get_import_status (actor import_id : uuid) : handler :=
  import ← call (handle_get_import import_id actor);
  mret (json_response 200 (import_to_status_response import)).
End endpoints.

(** ** Production *)

(** What the endpoints share: two tables of the database, and the quota. *)
Record ImportsDb := mkImportsDb {
  ib_imports : gmap N ImportRow;
  ib_jobs : gmap N (JobQueue.JobRow Json);
  ib_quota : UploadQuota }.

Definition set_ib_imports (t : gmap N ImportRow) (d : ImportsDb) : ImportsDb :=
  mkImportsDb t (ib_jobs d) (ib_quota d).
Definition set_ib_jobs (t : gmap N (JobQueue.JobRow Json)) (d : ImportsDb) : ImportsDb :=
  mkImportsDb (ib_imports d) t (ib_quota d).
Definition shared_quota : QuotaCell ImportsDb :=
  mkQuotaCell _ ib_quota (fun q d => mkImportsDb (ib_imports d) (ib_jobs d) q).

Section production.
Context `{UnicodeLower} (violation : rstr) (now : datetime) (queue_error_display : JobQueue.QueueError -> rstr).

Definition ApiImportRepository : ImportRepository ImportsDb :=
  ZoomImportRepository ib_imports set_ib_imports (repo := PgImportRepository violation now).
Definition ApiImportRepositoryLaws : ImportRepositoryLaws (H := ApiImportRepository) ImportsDb.
Proof.
  refine (ZoomImportRepositoryLaws ib_imports set_ib_imports _ _
            (laws := PgImportRepositoryLaws violation now)); [done|by intros []].
Defined.

(** [between1] and [between2] are what other sessions do to the queue during the
    call. *)
Definition PgJobEnqueuer (between1 between2 : gmap N (JobQueue.JobRow Json) -> gmap N (JobQueue.JobRow Json))
    (id retry_id : uuid) : JobEnqueuer ImportsDb := fun job_type payload correlation_id =>
  eff_map_err (fun e => lit "failed to enqueue job: " ++ queue_error_display e)
    (zoom ib_jobs set_ib_jobs
       (JobQueue.enqueue_idempotent between1 between2 now id retry_id job_type payload correlation_id)).

(** *** The routes *)

Context `{UploadUrlGenerator ImportsDb} `{UploadVerifier ImportsDb} `{Sha256} `{UuidDisplay}
  `{CanonicalReason} `{DateTimeText} (job_to_value : ParseGpxJob -> rstr + Json).

(** A request, with its clocks, the identifiers that are made up for it and its
    connection to the queue. *)
Inductive ImportRequest : Type :=
| StartRequest (instant : Z) (new_id : uuid) (at_ : datetime) (fresh_id : rstr) (actor : uuid)
    (headers : HeaderMap) (body : StartImportRequest)
| CompletionRequest (queue : JobEnqueuer ImportsDb) (new_artifact_id : uuid) (at_ : datetime)
    (fresh_id : rstr) (actor import_id : uuid) (checksum : rstr)
| StatusRequest (actor import_id : uuid).

Definition serve_import (request : ImportRequest) : eff ImportsDb ApiError Response :=
  let _ := ApiImportRepository in
  match request with
  | StartRequest instant new_id at_ fresh_id actor headers body =>
      post_start_import (Some shared_quota) instant new_id at_ fresh_id actor headers body
  | CompletionRequest queue new_artifact_id at_ fresh_id actor import_id checksum =>
      post_complete_upload job_to_value (Some queue) new_artifact_id at_ fresh_id actor import_id checksum
  | StatusRequest actor import_id => get_import_status actor import_id
  end.
End production.
