(* ===== verification/ImportApiTheory.v ===== *)
(** The endpoints of imports over the database of production (ImportApi.v): what
    a completed upload leaves in the queue, and what becomes of an import whose
    job could not be enqueued. *)
From S2P Require Import Prelude Float64 RustString Utf8 RecordedActivity RouteVersioning Imports.
From S2P Require Import ImportTheory ImportHandlers ImportPersistence ImportHandlerTheory Http.
From S2P Require Import RateLimits Api ImportApi.
From S2P Require Import JobQueue JobQueueTheory.
From S2P Require Import ImportApi ImportPersistence Imports.
#[local] Set Default Proof Using "All".

(** ** The use cases, for any repository *)

Section handlers.
Context {S : Type} `{Laws : ImportRepositoryLaws S} `{!UnicodeLowerLaw} `{UuidDisplay}.

(** A completion is accepted, or refused: then the import has failed, if anything
    has changed. *)
Lemma complete_upload_outcome `{UploadVerifier S} artifact now cmd (s : S) :
  (forall key, silent (verify_upload key)) ->
  (forall i, imports s !! cu_import_id cmd = Some i -> im_id i = cu_import_id cmd /\ checksum_ok i) ->
  let '(r, s') := handle_complete_upload artifact now cmd s in
  match r with
  | Ok import => exists k i, imports s !! cu_import_id cmd = Some i /\
      im_owner_id i = cu_owner_id cmd /\ im_status i = Uploading /\
      Checksum_new (cu_checksum cmd) = Ok k /\ import = uploaded now artifact k i /\ imports s' = <[cu_import_id cmd := import]> (imports s)
  | _ => imports s' = imports s \/
      exists reason i, im_id i = cu_import_id cmd /\ imports s !! cu_import_id cmd = Some i /\
        im_status i = Uploading /\ imports s' = <[cu_import_id cmd := failed now reason i]> (imports s)
  end.
Proof.
  intros Hv Hwf. pose proof (complete_upload_guarded Hv artifact now cmd s) as Hg.
  destruct (Checksum_new (cu_checksum cmd)) as [k|e|] eqn:Hk; [|rewrite Hg; by left..].
  destruct Hg as [[m ->]| ->]; [by left|]. unfold upload_guard. run.
  destruct (imports s !! cu_import_id cmd) as [i|] eqn:Hi; simpl; [|by left].
  destruct (Hwf i eq_refl) as [Hi' Hok]. unfold guard_err.
  destruct (N.eqb_spec (im_owner_id i) (cu_owner_id cmd)) as [Ho|]; simpl; [|by left].
  case_bool_decide as Hst; simpl; [|by left].
  pose proof (settle_run Hv artifact now cmd k i s) as Hset. rewrite Hi' in Hset.
  specialize (Hset Hi Hst Hok (Checksum_new_fixed _ _ Hk)).
  destruct (verify_upload _ s) as [v s1], (settle _ _ _ _ _ s) as [r s'].
  destruct Hset as [(m & -> & ->)|Hset]; [by left|]. unfold settled in Hset. rewrite Hi' in Hset.
  destruct (upload_verdict v); try destruct Hset as [-> ->]; [eauto 10|right; eauto 10|done|by left].
Qed.

(** An import that is not being uploaded takes no completion. *)
Lemma complete_upload_closed `{UploadVerifier S} artifact now cmd (s : S) i :
  imports s !! cu_import_id cmd = Some i -> im_status i <> Uploading ->
  exists e, handle_complete_upload artifact now cmd s = (Err e, s).
Proof.
  intros Hi Hst. unfold handle_complete_upload. run.
  destruct (Checksum_new (cu_checksum cmd)) as [k|e|] eqn:Hk; [|eauto|].
  2: { exfalso. unfold Checksum_new in Hk. by repeat case_match. }
  destruct (find_by_id_law (cu_import_id cmd) s) as [-> |[m ->]]; [|eauto]. rewrite Hi. simpl.
  unfold guard_err. destruct (negb _); [eauto|]. rewrite bool_decide_eq_false_2 by done. simpl. eauto.
Qed.

(** A call may leave the imports as they are, or write the one it is about. *)
Definition writes (id : uuid) (t t' : gmap N Import) : Prop :=
  t' = t \/ exists i, im_id i = id /\ t' = <[id := i]> t.

(** A start adds an import, if it writes one. *)
Lemma start_import_writes `{UploadUrlGenerator S} `{Sha256} new_id now cmd (s : S) :
  (forall key, silent (generate_upload_url key)) ->
  let t' := imports (snd (handle_start_import new_id now cmd s)) in
  writes new_id (imports s) t' /\ (t' = imports s \/ imports s !! new_id = None).
Proof.
  intros Hu. unfold handle_start_import. run.
  destruct (validate_start cmd) as [[]|e|]; [|by split; left..].
  destruct (find_by_key_law (si_owner_id cmd) (si_idempotency_key cmd) s) as [[m ->]|(o & -> & Ho)];
    [by split; left|].
  destruct o as [j|].
  - destruct (match im_payload_hash j with Some _ => _ | None => _ end); [|by split; left..].
    specialize (Hu (storage_key (si_owner_id cmd) (im_id j)) s).
    destruct (generate_upload_url _ s) as [[url|e|] s1]; simpl in *; rewrite Hu; by split; left.
  - unfold new_import. destruct (is_empty _); [by split; left|]. run. simpl.
    set (j := touch_import now _).
    specialize (Hu (storage_key (si_owner_id cmd) new_id) s).
    destruct (generate_upload_url _ s) as [[url|e|] s1]; simpl in *; [|rewrite Hu; by split; left..].
    destruct (save_law j s1) as [[m ->]|(s' & -> & Hn & Hs)]; [done|simpl; rewrite Hu; by split; left|].
    rewrite Hu in Hn, Hs. simpl. rewrite Hs. split; [|by right]. right. by exists j.
Qed.
End handlers.

(** ** The database *)

Definition no_job (job_type : rstr) (cid : uuid) (t : gmap N (JobRow Json)) : Prop :=
  forall k r, t !! k = Some r -> has_key job_type cid r = false.

(** What a request relies on of the queue: a call that succeeds leaves an active
    job of that type and correlation id, which is the given one unless there was
    one; a call that fails changes nothing. *)
Definition enqueuer_lawful (queue : JobEnqueuer ImportsDb) : Prop :=
  forall job_type p cid d, keyed (ib_jobs d) ->
    let '(r, d') := queue job_type p cid d in
    match r with
    | Ok j => exists row, ib_jobs d' !! j = Some row /\ has_key job_type cid row = true /\
        keyed (ib_jobs d') /\
        (d' = d \/ (jr_payload row = p /\ d' = set_ib_jobs (<[j := row]> (ib_jobs d)) d))
    | _ => d' = d
    end.

Section enqueuer.
Context (now : datetime) (display : QueueError -> rstr).

Lemma insert_or_nothing_cases (r : JobRow Json) cid t :
  insert_job_or_nothing r cid t = (Ok 0%N, t) /\ JobQueue.rows_where (has_key (jr_job_type r) cid) t <> [] \/
  (insert_job_or_nothing r cid t = (Ok 1%N, <[jr_id r := r]> t)) \/
  (exists e, insert_job_or_nothing r cid t = (Err e, t)).
Proof.
  unfold insert_job_or_nothing. run.
  destruct (JobQueue.rows_where _ t) as [|r' l] eqn:Hr; simpl; [|left; by split]. right.
  destruct (insert_job_cases r t) as [(-> & _)| ->]; eauto.
Qed.

Lemma PgJobEnqueuer_lawful id retry_id :
  enqueuer_lawful (PgJobEnqueuer now display (fun t => t) (fun t => t) id retry_id).
Proof.
  intros job_type p cid d Hk. unfold PgJobEnqueuer, zoom, enqueue_idempotent. run.
  pose proof (insert_or_nothing_cases (new_job_row now id job_type p now (Some cid)) cid (ib_jobs d)) as Hc.
  set (row := new_job_row now id job_type p now (Some cid)) in *.
  assert (has_key job_type cid row = true) as Hkey
    by (unfold has_key; simpl; by rewrite !bool_decide_eq_true_2).
  destruct Hc as [[-> Hne]|[-> |[e ->]]]; simpl in *.
  - destruct (JobQueue.rows_where (has_key job_type cid) (ib_jobs d)) as [|r l] eqn:Hr; [done|]. simpl.
    assert (r ∈ JobQueue.rows_where (has_key job_type cid) (ib_jobs d)) as (k & Hrk & Hp)%elem_of_job_rows
      by (rewrite Hr; left).
    exists r. rewrite (Hk k r Hrk). split_and!; try done. left. by destruct d.
  - exists row. rewrite lookup_insert_eq. split_and!; try done.
    + by apply (keyed_insert row).
    + by right.
  - by destruct d.
Qed.
End enqueuer.

Section served.
Context `{lower : UnicodeLower} {lower_law : UnicodeLowerLaw} `{UuidDisplay} `{Sha256}
  `{CanonicalReason} `{DateTimeText}.
Context (violation : rstr) (clock : datetime) (job_to_value : ParseGpxJob -> rstr + Json).
Context `{UploadUrlGenerator ImportsDb} `{UploadVerifier ImportsDb}.
(** The object storage is not this database. *)
Context (Hurl : forall key d, snd (generate_upload_url key d) = d)
  (Hverify : forall key d, snd (verify_upload key d) = d).

#[local] Instance served_repo : ImportRepository ImportsDb := ApiImportRepository violation clock.
#[local] Instance served_laws : ImportRepositoryLaws ImportsDb := ApiImportRepositoryLaws violation clock.

Record imports_sound (d : ImportsDb) : Prop := {
  sound_imports id i : imports d !! id = Some i -> im_id i = id;
  sound_jobs : keyed (ib_jobs d) }.

Lemma stored_checksum (d : ImportsDb) id i : imports d !! id = Some i -> checksum_ok i.
Proof.
  simpl. unfold shown. rewrite lookup_fmap. intros (r & _ & ->)%fmap_Some c Hc. simpl in Hc.
  destruct (ir_checksum r) as [v|]; [|done]. simpl in Hc.
  destruct (Checksum_new v) as [k| |] eqn:Hk; simplify_eq. by eapply Checksum_new_fixed.
Qed.

Lemma sound_wf d id i : imports_sound d -> imports d !! id = Some i -> im_id i = id /\ checksum_ok i.
Proof. intros Hd Hi. split; [by apply Hd|by eapply stored_checksum]. Qed.

Lemma verify_silent key : silent (verify_upload (S := ImportsDb) key).
Proof. intros d. by rewrite Hverify. Qed.
Lemma url_silent key : silent (generate_upload_url (S := ImportsDb) key).
Proof. intros d. by rewrite Hurl. Qed.

(** The use cases leave the queue alone. *)
Definition no_queueing {A} (m : eff ImportsDb ImportError A) : Prop :=
  forall d, ib_jobs (snd (m d)) = ib_jobs d.

Lemma no_queueing_bind {A B} (m : eff ImportsDb ImportError A) (f : A -> eff ImportsDb ImportError B) :
  no_queueing m -> (forall a, no_queueing (f a)) -> no_queueing (m ≫= f).
Proof.
  intros Hm Hf d. unfold mbind, eff_bind. specialize (Hm d). destruct (m d) as [[a|e|] d']; [|done..].
  by rewrite (Hf a d').
Qed.
Lemma no_queueing_zoom {A} (m : eff (gmap N ImportRow) ImportError A) :
  no_queueing (zoom ib_imports set_ib_imports m).
Proof. intros d. unfold zoom. by destruct (m _). Qed.
Lemma no_queueing_lift {A} (r : result ImportError A) : no_queueing (lift r).
Proof. done. Qed.

Ltac no_queueing :=
  repeat first
    [ apply no_queueing_lift
    | apply no_queueing_zoom
    | apply no_queueing_bind; [|intros ?]
    | progress cbv beta iota
    | case_match
    | done ].

Lemma complete_upload_no_queueing artifact at_ cmd :
  no_queueing (handle_complete_upload (S := ImportsDb) artifact at_ cmd).
Proof.
  assert (forall A import reason e, no_queueing (fail_and_return (S := ImportsDb) (A := A) at_ import reason e)) as Hf.
  { intros A import reason e. unfold fail_and_return. destruct (fail _ _ _). no_queueing. }
  assert (forall key, no_queueing (attempt (F := ImportError) (verify_upload (S := ImportsDb) key))) as Ha.
  { intros key d. unfold attempt. pose proof (Hverify key d) as Hv.
    by destruct (verify_upload key d) as [[] d']; simpl in *; subst. }
  unfold handle_complete_upload. no_queueing; try first [apply Hf|apply Ha].
  unfold check_metadata. no_queueing; apply Hf.
Qed.

Lemma start_import_no_queueing new_id at_ cmd :
  no_queueing (handle_start_import (S := ImportsDb) new_id at_ cmd).
Proof.
  assert (forall key, no_queueing (generate_upload_url (S := ImportsDb) key)) as Hu
    by (intros key d; by rewrite Hurl).
  unfold handle_start_import. no_queueing; apply Hu.
Qed.

(** ** Completion *)

(** What the enqueueing of a completed import comes to. *)
Lemma enqueue_parsing_cases fresh_id (queue : JobEnqueuer ImportsDb) import d :
  enqueuer_lawful queue -> keyed (ib_jobs d) ->
  let '(r, d') := enqueue_parsing job_to_value fresh_id queue import d in
  match r with
  | Ok None => exists payload j row,
      job_to_value (parse_job_of import) = inr payload /\ ib_jobs d' !! j = Some row /\
      has_key PARSE_GPX_JOB_TYPE (im_id import) row = true /\ keyed (ib_jobs d') /\
      (d' = d \/ (jr_payload row = payload /\ d' = set_ib_jobs (<[j := row]> (ib_jobs d)) d))
  | Ok (Some response) => rs_status response = 429%N /\ d' = d
  | _ => d' = d
  end.
Proof.
  intros Hq Hk. unfold enqueue_parsing. run.
  destruct (job_to_value (parse_job_of import)) as [e|payload] eqn:Hp; [done|].
  specialize (Hq PARSE_GPX_JOB_TYPE payload (im_id import) d Hk).
  destruct (queue _ payload _ d) as [[j|e|] d']; [|by destruct (starts_with _ e)|done].
  destruct Hq as (row & Hr & Hkey & Hk' & Hd). eauto 10.
Qed.

Definition complete_request (queue : JobEnqueuer ImportsDb) artifact at_ fresh_id actor id checksum :=
  serve_import violation clock job_to_value
    (CompletionRequest queue artifact at_ fresh_id actor id checksum).

(** A completion that gets as far as the queue. *)
Lemma complete_request_accepted queue artifact at_ fresh_id actor id checksum d :
  imports_sound d ->
  let '(r, d') := complete_request queue artifact at_ fresh_id actor id checksum d in
  (exists k i d1, imports d !! id = Some i /\ im_owner_id i = actor /\ im_status i = Uploading /\
     Checksum_new checksum = Ok k /\
     let import := uploaded at_ artifact k i in
     imports d1 = <[id := import]> (imports d) /\ ib_jobs d1 = ib_jobs d /\
     let '(q, d2) := enqueue_parsing job_to_value fresh_id queue import d1 in
     d' = d2 /\ r = match q with
                    | Ok None => Ok (json_response 200 (import_to_status_response import))
                    | Ok (Some response) => Ok response
                    | Err e => Err e
                    | Panicked => Panicked
                    end) \/
  (match r with Ok _ => False | _ => True end /\ ib_jobs d' = ib_jobs d /\
   (imports d' = imports d \/
    exists reason i, im_id i = id /\ imports d !! id = Some i /\ im_status i = Uploading /\
      imports d' = <[id := failed at_ reason i]> (imports d))).
Proof.
  intros Hd. unfold complete_request, serve_import, post_complete_upload, call. run.
  set (cmd := mkCompleteUpload id actor checksum).
  pose proof (complete_upload_outcome artifact at_ cmd d verify_silent (fun i => sound_wf d id i Hd)) as Ho.
  pose proof (complete_upload_no_queueing artifact at_ cmd d) as Hj.
  change (ApiImportRepository violation clock) with served_repo.
  cbv zeta. destruct (handle_complete_upload artifact at_ cmd d) as [[import|e|] d1]; simpl in *; [|by right..].
  destruct Ho as (k & i & Hi & Howner & Hst & Hk & -> & Hd1).
  destruct (enqueue_parsing _ _ _ _ d1) as [q d2] eqn:Hq.
  destruct q as [[resp|]|e|]; left; exists k, i, d1; by rewrite Hq.
Qed.
(** ** Histories of requests *)

Definition request_lawful (request : ImportRequest) : Prop :=
  match request with
  | CompletionRequest queue _ _ _ _ _ _ => enqueuer_lawful queue
  | _ => True
  end.

Definition import_step (d d' : ImportsDb) : Prop :=
  exists request, request_lawful request /\
    d' = snd (serve_import violation clock job_to_value request d).

(** An import that waits for nothing, with no job to process it. *)
Definition stranded (id : uuid) (i : Import) (d : ImportsDb) : Prop :=
  imports_sound d /\ imports d !! id = Some i /\ no_job PARSE_GPX_JOB_TYPE id (ib_jobs d).

Lemma get_import_status_keeps actor id d :
  snd (get_import_status (S := ImportsDb) actor id d) = d.
Proof.
  unfold get_import_status, call, handle_get_import. run.
  destruct (find_by_id_law id d) as [->|[m ->]]; [|done].
  destruct (imports d !! id) as [i|]; [|done]. simpl. unfold guard_err. by destruct (negb _).
Qed.

Lemma charge_quota_keeps instant actor d :
  exists o q, charge_quota (Some shared_quota) instant actor d =
    (Ok o, mkImportsDb (ib_imports d) (ib_jobs d) q).
Proof. unfold charge_quota. destruct (check_and_increment _ _ _) as [r q]. by eexists _, q. Qed.

(** What a start does to the tables. *)
Lemma start_request_writes instant new_id at_ fresh_id actor headers body d :
  let d' := snd (serve_import violation clock job_to_value
                   (StartRequest instant new_id at_ fresh_id actor headers body) d) in
  ib_jobs d' = ib_jobs d /\ writes new_id (imports d) (imports d') /\
  (imports d' = imports d \/ imports d !! new_id = None).
Proof.
  unfold serve_import, post_start_import, call. run.
  destruct (extract_idempotency_key headers) as [key|e|]; [|by split_and!; try left..].
  destruct (charge_quota_keeps instant actor d) as (o & q & ->).
  destruct o as [[max retry]|]; [by split_and!; try left|].
  set (d1 := mkImportsDb _ _ q). set (cmd := mkStartImport _ _ _ _ _).
  pose proof (start_import_writes new_id at_ cmd d1 url_silent) as Hw.
  pose proof (start_import_no_queueing new_id at_ cmd d1) as Hj.
  change (ApiImportRepository violation clock) with served_repo.
  by destruct (handle_start_import new_id at_ cmd d1) as [[r|e|] d2].
Qed.

Lemma writes_keyed id t t' :
  writes id t t' -> (forall k i, t !! k = Some i -> im_id i = k) ->
  forall k i, t' !! k = Some i -> im_id i = k.
Proof.
  intros [-> |(j & Hj & ->)] Ht k i Hi; [by apply Ht|].
  apply lookup_insert_Some in Hi as [[<- <-]|[_ Hi]]; [done|by apply Ht].
Qed.

Lemma has_key_other job_type cid cid' (r : JobRow Json) :
  has_key job_type cid r = true -> cid' <> cid -> has_key job_type cid' r = false.
Proof.
  unfold has_key. intros Hk Hne. to_prop. rewrite (bool_decide_eq_false_2 (_ = Some cid')) by congruence.
  by rewrite andb_false_r.
Qed.

(** Enqueueing another import's job. *)
Lemma enqueue_parsing_frame fresh_id (queue : JobEnqueuer ImportsDb) import id i d :
  stranded id i d -> enqueuer_lawful queue -> im_id import <> id ->
  stranded id i (snd (enqueue_parsing job_to_value fresh_id queue import d)).
Proof.
  intros (Hd & Hi & Hno) Hlaw Hne.
  pose proof (enqueue_parsing_cases fresh_id queue import d Hlaw (sound_jobs d Hd)) as Hq.
  destruct (enqueue_parsing _ _ _ _ d) as [[[resp|]|e|] d2]; simpl; [|..|by subst].
  - by destruct Hq as [_ ->].
  - destruct Hq as (payload & j & row & _ & _ & Hkey & Hk & [-> |[_ ->]]); [done|].
    split_and!; [split; [apply Hd|exact Hk]|exact Hi|]. intros k r Hr. simpl in Hr.
    apply lookup_insert_Some in Hr as [[_ <-]|[_ Hr]]; [|by apply (Hno k)].
    by eapply has_key_other.
  - by subst.
Qed.

Lemma import_step_stranded id i d d' :
  im_status i <> Uploading -> stranded id i d -> import_step d d' -> stranded id i d'.
Proof.
  intros Hst (Hd & Hi & Hno) ([instant new_id at_ fresh actor headers body|queue artifact at_ fresh actor id' k|actor id'] & Hlaw & ->).
  - destruct (start_request_writes instant new_id at_ fresh actor headers body d) as (Hj & Hw & Hn).
    set (d' := snd _) in *. split_and!.
    + split; [by eapply writes_keyed, Hd|rewrite Hj; apply Hd].
    + destruct Hn as [-> |Hn]; [done|]. destruct Hw as [-> |(j & _ & ->)]; [done|].
      rewrite lookup_insert_ne; [done|congruence].
    + by rewrite Hj.
  - pose proof (complete_request_accepted queue artifact at_ fresh actor id' k d Hd) as Hc.
    unfold complete_request in Hc. destruct (serve_import _ _ _ _ d) as [r d']. simpl.
    destruct Hc as [(c & j & d1 & Hj & _ & Hup & _ & Hd1 & Hjobs & Hq)|(_ & Hjobs & Himports)].
    + assert (id' <> id) as Hne by (intros ->; congruence).
      assert (im_id j = id') as Hid by (by apply Hd).
      assert (stranded id i d1) as Hs1.
      { split_and!; [split|by rewrite Hd1, lookup_insert_ne|by rewrite Hjobs].
        - eapply (writes_keyed id'), Hd. right. eexists. by split; [|exact Hd1].
        - rewrite Hjobs. apply Hd. }
      assert (im_id (uploaded at_ artifact c j) <> id) as Hne' by (simpl; congruence).
      pose proof (enqueue_parsing_frame fresh queue _ id i d1 Hs1 Hlaw Hne') as Hs2.
      destruct (enqueue_parsing _ _ _ _ d1) as [q d2]. by destruct Hq as [-> _].
    + assert (writes id' (imports d) (imports d')) as Hw.
      { destruct Himports as [-> |(m & j & Hj & _ & _ & ->)]; [by left|right; eexists; by split; [|done]]. }
      split_and!; [split; [by eapply writes_keyed, Hd|rewrite Hjobs; apply Hd]| |by rewrite Hjobs].
      destruct Himports as [-> |(m & j & _ & Hj & Hup & ->)]; [done|].
      rewrite lookup_insert_ne; [done|congruence].
  - unfold serve_import. change (ApiImportRepository violation clock) with served_repo. cbv zeta.
    by rewrite get_import_status_keeps.
Qed.
(** ** Properties *)

(** A completed upload is queued.  When the request is answered with 200 the
    import was the user's and waited for its upload; it is now uploaded, with the
    checksum of the request, as the response says; and the queue holds an active parsing job under the import's
    id: the one this request describes, unless there was one before. *)
Theorem completed_upload_is_queued queue artifact at_ fresh_id actor id checksum d :
  imports_sound d -> enqueuer_lawful queue ->
  let '(r, d') := complete_request queue artifact at_ fresh_id actor id checksum d in
  forall response, r = Ok response -> rs_status response = 200%N ->
  exists k i payload j row,
    imports d !! id = Some i /\ im_owner_id i = actor /\ im_status i = Uploading /\
    Checksum_new checksum = Ok k /\
    imports d' = <[id := uploaded at_ artifact k i]> (imports d) /\
    response = json_response 200 (import_to_status_response (uploaded at_ artifact k i)) /\
    job_to_value (mkParseGpxJob id actor (storage_key actor id) id) = inr payload /\
    ib_jobs d' !! j = Some row /\ has_key PARSE_GPX_JOB_TYPE id row = true /\
    (no_job PARSE_GPX_JOB_TYPE id (ib_jobs d) ->
     jr_payload row = payload /\ ib_jobs d' = <[j := row]> (ib_jobs d)).
Proof.
  intros Hd Hlaw.
  pose proof (complete_request_accepted queue artifact at_ fresh_id actor id checksum d Hd) as Hc.
  destruct (complete_request _ _ _ _ _ _ _ d) as [r d']. intros response -> Hst.
  destruct Hc as [(k & i & d1 & Hi & <- & Hup & Hck & Hd1 & Hjobs & Hq)|([] & _)].
  assert (im_id i = id) as Hid by (by apply Hd).
  pose proof (enqueue_parsing_cases fresh_id queue (uploaded at_ artifact k i) d1 Hlaw) as He.
  rewrite Hjobs in He. specialize (He (sound_jobs d Hd)).
  destruct (enqueue_parsing _ _ _ _ d1) as [[[resp|]|e|] d2]; destruct Hq as [-> Hr]; try done.
  { injection Hr as <-. destruct He as [He _]. congruence. }
  injection Hr as ->. destruct He as (payload & j & row & Hp & Hrow & Hkey & _ & Hd2).
  unfold parse_job_of in Hp. simpl in Hp, Hkey. rewrite Hid in Hp, Hkey.
  exists k, i, payload, j, row. split_and!; try done.
  - by destruct Hd2 as [-> |[_ ->]].
  - intros Hno. destruct Hd2 as [-> |[Hrp ->]]; [|done]. rewrite Hjobs in Hrow.
    by rewrite (Hno j row Hrow) in Hkey.
Qed.

(** C16: an upload that was completed while the queue failed is lost.  The user is
    told to retry later, or that something went wrong; but the import has become
    uploaded, a status that no request leaves, so every retry is refused, no
    parsing job for the import ever appears, and it stays uploaded whatever
    requests anyone makes. *)
Theorem unqueued_import_is_stranded queue artifact at_ fresh_id actor id checksum d i' :
  imports_sound d -> enqueuer_lawful queue -> no_job PARSE_GPX_JOB_TYPE id (ib_jobs d) ->
  (forall i, imports d !! id = Some i -> im_status i = Uploading) ->
  let '(r, d') := complete_request queue artifact at_ fresh_id actor id checksum d in
  (forall response, r = Ok response -> rs_status response <> 200%N) ->
  imports d' !! id = Some i' -> im_status i' = Uploaded ->
  forall d'', reach import_step d' d'' ->
    imports d'' !! id = Some i' /\ no_job PARSE_GPX_JOB_TYPE id (ib_jobs d'') /\
    forall queue artifact at_ fresh_id actor checksum,
      exists e, complete_request queue artifact at_ fresh_id actor id checksum d'' = (Err e, d'').
Proof.
  intros Hd Hlaw Hno Hup.
  pose proof (complete_request_accepted queue artifact at_ fresh_id actor id checksum d Hd) as Hc.
  destruct (complete_request _ _ _ _ _ _ _ d) as [r d']. intros Hr Hi' Hst' d'' Hreach.
  assert (stranded id i' d') as Hs.
  { destruct Hc as [(k & i & d1 & Hi & _ & Hu & _ & Hd1 & Hjobs & Hq)|(_ & Hjobs & Himports)].
    - assert (im_id i = id) as Hid by (by apply Hd).
      pose proof (enqueue_parsing_cases fresh_id queue (uploaded at_ artifact k i) d1 Hlaw) as He.
      rewrite Hjobs in He. specialize (He (sound_jobs d Hd)).
      assert (d' = d1) as ->.
      { destruct (enqueue_parsing _ _ _ _ d1) as [[[resp|]|e|] d2]; destruct Hq as [-> ->]; try done.
        - by destruct He.
        - by destruct (Hr _ eq_refl). }
      split_and!; [split|done|by rewrite Hjobs]; [|rewrite Hjobs; apply Hd].
      eapply (writes_keyed id), Hd. right. exists (uploaded at_ artifact k i). by rewrite Hd1.
    - exfalso. destruct Himports as [Hs|(m & i & _ & Hi & _ & Hs)]; rewrite Hs in Hi'.
      + specialize (Hup i' Hi'). congruence.
      + rewrite lookup_insert_eq in Hi'. by simplify_eq. }
  apply (reach_invariant import_step (stranded id i')) in Hreach as (Hd'' & Hi'' & Hno''); [|..|exact Hs].
  2: { intros x y Hx. apply import_step_stranded; [congruence|done]. }
  split_and!; [done..|]. intros queue' artifact' now' fresh' actor' checksum'.
  unfold complete_request, serve_import, post_complete_upload, call. run. cbv zeta.
  destruct (complete_upload_closed artifact' now' (mkCompleteUpload id actor' checksum') d'' i' Hi'') as [e He];
    [congruence|].
  change (ApiImportRepository violation clock) with served_repo. rewrite He. eauto.
Qed.
End served.

(** ** Witnesses *)

#[local] Instance sample_lower : UnicodeLower := map ascii_lower.
#[local] Instance sample_lower_law : UnicodeLowerLaw.
Proof. intros v _. unfold unicode_lower, sample_lower. rewrite map_map. apply map_ext, ascii_lower_idem. Qed.
#[local] Instance sample_sha : Sha256 := fun b => b.
#[local] Instance sample_uuid : UuidDisplay := display_N.
#[local] Instance sample_reason : CanonicalReason := fun _ => None.
#[local] Instance sample_time : DateTimeText := fun _ => lit "now".
#[local] Instance sample_url : UploadUrlGenerator ImportsDb := fun key => mret key.
#[local] Instance sample_verifier : UploadVerifier ImportsDb :=
  fun key => mret (mkUploadMetadata 10 (Some (lit "application/gpx+xml"))).

Definition sample_value (job : ParseGpxJob) : rstr + Json := inr (json_uuid (job_import_id job)).
Definition sample_started : result ApiError Response * ImportsDb :=
  serve_import (lit "conflict") 0 sample_value
    (StartRequest 0 1 0 (lit "request") 5 {[ lit "idempotency-key" := lit "key" ]}
       (mkStartRequest (lit "hike.gpx") (lit "application/gpx+xml") 10))
    (mkImportsDb ∅ ∅ (new_quota 100)).
Definition sample_db : ImportsDb := snd sample_started.
Definition sample_queue : JobEnqueuer ImportsDb :=
  PgJobEnqueuer 2 (fun _ => lit "conflict") (fun t => t) (fun t => t) 8 9.
(** A queue that has no connection to give. *)
Definition broken_queue : JobEnqueuer ImportsDb := fun _ _ _ => throw (lit "failed to enqueue job: timed out").

Definition sample_complete (queue : JobEnqueuer ImportsDb) : result ApiError Response * ImportsDb :=
  complete_request (lit "conflict") 0 sample_value queue 7 3 (lit "request") 5 1 (replicate 64 65%N) sample_db.

Lemma sample_url_apart key d : snd (generate_upload_url (S := ImportsDb) key d) = d.
Proof. done. Qed.
Lemma sample_verifier_apart key d : snd (verify_upload (S := ImportsDb) key d) = d.
Proof. done. Qed.

Lemma sample_db_sound : imports_sound (lit "conflict") 0 sample_db.
Proof.
  split; [intros id i Hi|intros k r Hr; by vm_compute in Hr].
  apply elem_of_map_to_list, (list_elem_of_fmap_2 (fun kv => (kv.1, im_id kv.2))) in Hi.
  match type of Hi with _ ∈ ?l => assert (l = [(1%N, 1%N)]) as He by (vm_compute; reflexivity) end.
  rewrite He in Hi. apply list_elem_of_singleton in Hi. by injection Hi as -> ->.
Qed.

Lemma completed_upload_is_queued_witness :
  exists response, fst (sample_complete sample_queue) = Ok response /\ rs_status response = 200%N /\
    exists j row, ib_jobs (snd (sample_complete sample_queue)) !! j = Some row /\
      has_key PARSE_GPX_JOB_TYPE 1 row = true /\ jr_payload row = json_uuid 1.
Proof.
  pose proof (completed_upload_is_queued (lit "conflict") 0 sample_value
    sample_url_apart sample_verifier_apart sample_queue 7 3 (lit "request") 5 1 (replicate 64 65%N) sample_db sample_db_sound
    (PgJobEnqueuer_lawful 2 _ 8 9)) as Hp.
  assert (exists response, fst (sample_complete sample_queue) = Ok response /\ rs_status response = 200%N)
    as (response & Hr & Hst) by (eexists; split; vm_compute; reflexivity).
  exists response. split; [done|]. split; [done|].
  unfold sample_complete in *. destruct (complete_request _ _ _ _ _ _ _ _ _ _ sample_db) as [r d'].
  destruct (Hp response Hr Hst) as (k & i & payload & j & row & _ & _ & _ & _ & _ & _ & Hv & Hrow & Hkey & Hnew).
  exists j, row. split; [done|]. split; [done|]. injection Hv as <-.
  apply Hnew. intros x y Hxy. by vm_compute in Hxy.
Defined.

Lemma unqueued_import_is_stranded_witness :
  fst (sample_complete broken_queue) = Err enqueue_failed /\
  exists i', imports (ImportRepositoryLaws := ApiImportRepositoryLaws (lit "conflict") 0)
      (snd (sample_complete broken_queue)) !! 1%N = Some i' /\ im_status i' = Uploaded /\
  exists e, complete_request (lit "conflict") 0 sample_value sample_queue 7 4 (lit "retry") 5 1
      (replicate 64 65%N) (snd (sample_complete broken_queue)) = (Err e, snd (sample_complete broken_queue)).
Proof.
  assert (Forall (fun kv => im_status kv.2 = Uploading /\ kv.1 = 1%N) (map_to_list (imports
    (ImportRepositoryLaws := ApiImportRepositoryLaws (lit "conflict") 0) sample_db))) as Hup
    by (vm_compute; repeat constructor).
  pose proof (fun i' => unqueued_import_is_stranded (lit "conflict") 0 sample_value sample_url_apart
    sample_verifier_apart broken_queue 7 3 (lit "request") 5 1 (replicate 64 65%N) sample_db i' sample_db_sound
    (fun _ _ _ _ _ => eq_refl)) as Hp.
  assert (fst (sample_complete broken_queue) = Err enqueue_failed) as Hf by (vm_compute; reflexivity).
  assert (exists i', imports (ImportRepositoryLaws := ApiImportRepositoryLaws (lit "conflict") 0)
      (snd (sample_complete broken_queue)) !! 1%N = Some i' /\ im_status i' = Uploaded)
    as (i' & Hi' & Hst) by (eexists; split; [vm_compute; reflexivity|reflexivity]).
  split; [exact Hf|]. exists i'. split; [exact Hi'|]. split; [exact Hst|].
  unfold sample_complete in *. destruct (complete_request _ _ _ broken_queue _ _ _ _ _ _ sample_db) as [r d'].
  eapply (Hp i'); [| |intros response Hr; simpl in Hf; congruence|exact Hi'|exact Hst|apply reach_refl].
  - intros x y Hxy. by vm_compute in Hxy.
  - intros i Hi. apply elem_of_map_to_list in Hi. rewrite Forall_forall in Hup. by apply (Hup _ Hi).
Defined.
