(* ===== verification/ObjectStorage.v ===== *)
(** The object storage client, crates/infrastructure/src/object_storage.rs, and
    the adapters through which the contexts use it.

    The S3 bucket (rust-s3) is a parameter: what its requests answer, and what
    they do to the storage. *)
From S2P Require Import Prelude Float64 RustString RustVec Utf8 RecordedActivity.
From S2P Require Import RouteVersioning ActivityCatalog GpxParser Imports ImportHandlers.

Inductive ObjectStorageError : Type :=
| StorageNotFound (key : rstr)
| Storage (message : rstr).

Definition storage_error_display (e : ObjectStorageError) : rstr :=
  match e with
  | StorageNotFound key => lit "object not found: " ++ key
  | Storage message => lit "storage error: " ++ message
  end.

(** [HeadObjectResult], as far as it is read. *)
Record HeadObjectResult := mkHeadResult {
  hr_content_length : option Z; hr_content_type : option rstr }.

(** A request that came through has a status code; one that did not, the text of
    its error. *)
Class Bucket (S : Type) := {
  put_object_with_content_type : rstr -> bytes -> rstr -> eff S rstr N;
  get_object : rstr -> eff S rstr (N * bytes);
  delete_object : rstr -> eff S rstr N;
  bucket_head_object : rstr -> eff S rstr (HeadObjectResult * N);
  presign_put : rstr -> N -> eff S rstr rstr;
  presign_get : rstr -> N -> option (gmap rstr rstr) -> eff S rstr rstr }.

Definition is_not_found_error (msg : rstr) : bool :=
  str_contains (lit "404") msg || str_contains (lit "NoSuchKey") msg ||
  str_contains (lit "not found") msg || str_contains (lit "NotFound") msg.

Definition build_response_header_queries (filename content_type : option rstr)
    : option (gmap rstr rstr) :=
  let map_ := match filename with
              | Some name => {[ lit "response-content-disposition" :=
                                lit "attachment; filename=" ++ [34%N] ++ name ++ [34%N] ]}
              | None => ∅
              end in
  let map_ := match content_type with
              | Some ct => <[lit "response-content-type" := ct]> map_
              | None => map_
              end in
  if decide (map_ = ∅) then None else Some map_.

(** [duration.as_secs().try_into().unwrap_or(u32::MAX)]. *)
Definition expiry_secs (expires_in : N) : N :=
  if (expires_in <? u32_modulus)%N then expires_in else (u32_modulus - 1)%N.

Section client.
Context {S : Type} `{Bucket S}.
Abbreviation call A := (eff S ObjectStorageError A) (only parsing).

(** The error of a request that looks for an object. *)
Definition lookup_error (key msg : rstr) : ObjectStorageError :=
  if is_not_found_error msg then StorageNotFound key else Storage msg.

(** "what failed with status N". *)
Definition status_failure (what : rstr) (status : N) : ObjectStorageError :=
  Storage (what ++ lit " failed with status " ++ display_N status).

Definition upload (key : rstr) (body : bytes) (content_type : option rstr) : call unit :=
  let ct := default (lit "application/octet-stream") content_type in
  status ← eff_map_err Storage (put_object_with_content_type key body ct);
  lift (guard_err (300 <=? status)%N (status_failure (lit "upload") status)).

Definition download_object (key : rstr) : call bytes :=
  response ← eff_map_err (lookup_error key) (get_object key);
  lift (guard_err (fst response =? 404)%N (StorageNotFound key));;
  mret (snd response).

Definition delete_stored (key : rstr) : call unit :=
  status ← eff_map_err Storage (delete_object key);
  lift (guard_err ((300 <=? status) && negb (status =? 404))%N (status_failure (lit "delete") status)).

Definition presigned_upload_url (key : rstr) (expires_in : N) : call rstr :=
  eff_map_err Storage (presign_put key (expiry_secs expires_in)).

Definition presigned_download_url (key : rstr) (expires_in : N) (filename content_type : option rstr)
    : call rstr :=
  eff_map_err Storage
    (presign_get key (expiry_secs expires_in) (build_response_header_queries filename content_type)).

Definition exists_ (key : rstr) : call bool :=
  r ← attempt (bucket_head_object key);
  match r with
  | Ok _ => mret true
  | Err msg => if is_not_found_error msg then mret false else throw (Storage msg)
  | Panicked => panic
  end.

Definition head_object (key : rstr) : call (N * option rstr) :=
  r ← eff_map_err (lookup_error key) (bucket_head_object key);
  mret (Z.to_N (default 0%Z (hr_content_length (fst r)) mod 2 ^ 64), hr_content_type (fst r)).

(** ** Adapters *)

#[export] Instance ClientUploadVerifier : UploadVerifier S := fun key =>
  m ← eff_map_err (fun e => match e with
                            | StorageNotFound _ => ObjectNotFound
                            | Storage msg => StorageError msg
                            end) (head_object key);
  mret (mkUploadMetadata (fst m) (snd m)).

#[export] Instance ObjectStoreAdapter : ObjectStore S := fun key =>
  eff_map_err (fun e => StorageError (storage_error_display e)) (download_object key).

#[export] Instance PresignedUrlGenerator : UploadUrlGenerator S := fun key =>
  eff_map_err (fun e => StorageError (lit "failed to generate presigned URL: " ++ storage_error_display e))
    (presigned_upload_url key 3600).
End client.

(** ** What the client makes of an answer *)

Section answers.
Context {S : Type} `{Bucket S}.

(** A request that came through is a yes, whatever its status. *)
Lemma exists_ignores_status key s r status s' :
  bucket_head_object key s = (Ok (r, status), s') -> exists_ key s = (Ok true, s').
Proof. intros Hr. unfold exists_. run. by rewrite Hr. Qed.

(** Of the statuses of a download, only 404 makes a difference. *)
Lemma download_ignores_status key s status body s' :
  get_object key s = (Ok (status, body), s') -> status <> 404%N ->
  download_object key s = (Ok body, s').
Proof.
  intros Hr Hst. unfold download_object. run. rewrite Hr. simpl.
  by rewrite (proj2 (N.eqb_neq status 404) Hst).
Qed.

(** An upload that succeeded was acknowledged. *)
Lemma upload_acknowledged key body ct s s' :
  upload key body ct s = (Ok tt, s') ->
  exists status, (status < 300)%N /\
    put_object_with_content_type key body (default (lit "application/octet-stream") ct) s = (Ok status, s').
Proof.
  unfold upload. run. destruct (put_object_with_content_type _ _ _ s) as [[status|e|] s1]; [|done..].
  unfold guard_err. cbn [map_err]. destruct (N.leb_spec 300 status) as [Hs|Hs]; [done|]. intros [= <-]. by exists status.
Qed.
End answers.
