(* ===== verification/ExportWorker.v ===== *)
(** The worker's handler of export jobs,
    crates/infrastructure/src/export_worker.rs: the tables it reads and writes,
    and every step of [process] and [mark_failed].

    The object storage is a bucket (ObjectStorage.v), part of the state like the
    database; SHA-256 and the XML escaping of quick_xml are parameters. *)
From S2P Require Import Prelude Float64 RustString RustVec Utf8 RecordedActivity RouteVersioning.
From S2P Require Import ObjectStorage Exports.

(** ** Tables *)

Record ExportRow := mkExportRow {
  xr_id : uuid;
  xr_activity_id : uuid;
  xr_route_version_id : uuid;
  xr_requested_by : uuid;
  xr_format : rstr;
  xr_status : rstr;
  xr_idempotency_key : rstr;
  xr_payload_hash : option rstr;
  xr_object_storage_key : option rstr;
  xr_checksum : option rstr;
  xr_failure_reason : option rstr;
  xr_expires_at : option datetime;
  xr_created_at : datetime;
  xr_updated_at : datetime }.

(** exports.export_jobs, if it is there, the column geometry_json of
    route_versioning.route_versions and the column title of
    activity_catalog.activities. *)
Record ExportDb := mkExportDb {
  xd_exports : option (gmap N ExportRow);
  xd_geometries : gmap N Json;
  xd_titles : gmap N (option rstr) }.

Definition set_exports (t : gmap N ExportRow) (d : ExportDb) : ExportDb :=
  mkExportDb (Some t) (xd_geometries d) (xd_titles d).

(** ** Rows *)

Definition parse_export_status (s : rstr) : result rstr ExportStatus :=
  if decide (s = lit "queued") then Ok Queued
  else if decide (s = lit "generating") then Ok Generating
  else if decide (s = lit "ready") then Ok Ready
  else if decide (s = lit "failed") then Ok Failed
  else if decide (s = lit "expired") then Ok Expired
  else Err (lit "unknown export job status: " ++ s).

Definition parse_export_format (s : rstr) : result rstr ExportFormat :=
  if decide (s = lit "gpx") then Ok Gpx else Err (lit "unknown export format: " ++ s).

Definition row_to_export (r : ExportRow) : result rstr ExportJob :=
  status ← parse_export_status (xr_status r);
  format ← parse_export_format (xr_format r);
  mret (mkExportJob (xr_id r) (xr_activity_id r) (xr_route_version_id r) (xr_requested_by r) format
          status (xr_idempotency_key r) (xr_payload_hash r) (xr_object_storage_key r) (xr_checksum r)
          (xr_failure_reason r) (xr_expires_at r) (xr_created_at r) (xr_updated_at r)).

(** The SET clause of the UPDATE. *)
Definition updated_export_row (j : ExportJob) (r : ExportRow) : ExportRow :=
  mkExportRow (xr_id r) (xr_activity_id r) (xr_route_version_id r) (xr_requested_by r)
    (export_format_display (ej_format j)) (export_status_display (ej_status j))
    (xr_idempotency_key r) (xr_payload_hash r) (ej_object_storage_key j) (ej_checksum j)
    (ej_failure_reason j) (ej_expires_at j) (xr_created_at r) (ej_updated_at j).

(** ** Geometry *)

(** What serde's derived code makes of a JSON value: a [Value] number of any kind
    is an [f64]; a struct is an object, whose unknown fields it ignores, or an
    array with one element for each field; an [Option] may be null, and missing
    in an object. *)
Definition json_to_option_f64 (v : Json) : option (option f64) :=
  match v with JNull => Some None | _ => Some <$> json_to_f64 v end.

(** [GeometryPoint], turned into a [GpxPoint] at once. *)
Definition json_to_point (v : Json) : option GpxPoint :=
  match v with
  | JObject fields =>
      latitude ← json_field (lit "latitude") fields ≫= json_to_f64;
      longitude ← json_field (lit "longitude") fields ≫= json_to_f64;
      elevation ← match json_field (lit "elevation") fields with
                  | Some e => json_to_option_f64 e
                  | None => Some None
                  end;
      Some (mkGpxPoint latitude longitude elevation)
  | JArray [a; b; c] =>
      latitude ← json_to_f64 a;
      longitude ← json_to_f64 b;
      elevation ← json_to_option_f64 c;
      Some (mkGpxPoint latitude longitude elevation)
  | _ => None
  end.

Definition json_to_list {A} (f : Json -> option A) (v : Json) : option (list A) :=
  match v with JArray l => mapM f l | _ => None end.

Definition parse_geometry_json (raw : Json) : result rstr (list (list GpxPoint)) :=
  match json_to_list (json_to_list json_to_point) raw with
  | Some segments => Ok segments
  | None =>
      match json_to_list json_to_point raw with
      | Some points => Ok [points]
      | None => Err (lit "geometry_json is neither a segmented array nor a flat point array")
      end
  end.

(** ** The job *)

Definition export_storage_key `{UuidDisplay} (owner_id export_job_id : uuid) : rstr :=
  lit "exports/" ++ uuid_display owner_id ++ lit "/" ++ uuid_display export_job_id ++ lit ".gpx".

(** [ExportError]'s Display, and [GpxGeneratorError]'s. *)
Definition export_error_display (e : ExportError) : rstr :=
  match e with
  | NotFound => lit "export not found"
  | Unauthorized => lit "unauthorized"
  | InvalidTransition from to => lit "invalid transition from " ++ from ++ lit " to " ++ to
  | IdempotencyPayloadMismatch => lit "idempotency key reused with different payload"
  | RouteVersionNotFound => lit "route version not found"
  | ActivityNotFound => lit "activity not found"
  | ValidationFailed message => lit "validation failed: " ++ message
  | PersistenceError message => lit "persistence error: " ++ message
  | ChecksumMismatch expected actual =>
      lit "checksum mismatch: expected " ++ expected ++ lit ", got " ++ actual
  | ArtifactExpired => lit "artifact expired"
  | NotReady status => lit "export not ready: current status is " ++ status
  end.
Definition generator_error_display (e : GpxGeneratorError) : rstr :=
  match e with GenerationFailed message => lit "gpx generation failed: " ++ message end.

(** What becomes of the blocking task that generates the file. *)
Inductive TaskOutcome : Type :=
| TaskInTime
| TaskPanicked (join_error : rstr)
| TaskTimedOut.

(** A delivery: the clock, the job's timeout and payload, and what becomes of the
    task. *)
Record ExportDelivery := mkExportDelivery {
  xl_now : datetime;
  xl_timeout_seconds : Z;
  xl_payload : rstr + GenerateExportJob;
  xl_task : TaskOutcome }.

Definition MAX_POINTS : N := 500000.

Section worker.
Context {St : Type} `{Bucket St} `{Sha256} `{UuidDisplay} `{XmlEscape}.
(** sqlx's text for a table that is not there. *)
Context (relation_missing : rstr).

Abbreviation run A := (eff (ExportDb * St) rstr A) (only parsing).

Definition on_db {A} (m : eff ExportDb rstr A) : run A := zoom fst (fun d s => (d, snd s)) m.
Definition on_storage {A} (m : eff St ObjectStorageError A) : run A :=
  eff_map_err storage_error_display (zoom snd (fun t s => (fst s, t)) m).

(** [.map_err(|e| format!("what: {e}"))]. *)
Definition describe {A} (what : rstr) (m : run A) : run A := eff_map_err (fun e => what ++ lit ": " ++ e) m.

Definition prefixed {A} (what : rstr) (r : result ExportError A) : result rstr A :=
  map_err (fun e => what ++ lit ": " ++ export_error_display e) r.

Definition load_export_job (id : uuid) : run ExportJob := on_db (
  d ← get;
  match xd_exports d with
  | None => throw (lit "failed to query export job: " ++ relation_missing)
  | Some t =>
      row ← lift (ok_or (t !! id) (lit "export job " ++ uuid_display id ++ lit " not found"));
      lift (row_to_export row)
  end).

Definition persist_export_job (j : ExportJob) : run unit := on_db (
  d ← get;
  match xd_exports d with
  | None => throw (lit "failed to update export job: " ++ relation_missing)
  | Some t => put (set_exports (alter (updated_export_row j) (ej_id j) t) d)
  end).

Definition load_geometry (route_version_id : uuid) : run Json := on_db (
  d ← get;
  lift (ok_or (xd_geometries d !! route_version_id)
          (lit "route version " ++ uuid_display route_version_id ++ lit " not found"))).

Definition load_activity_name (activity_id : uuid) : run (option rstr) := on_db (
  d ← get; mret (xd_titles d !! activity_id ≫= id)).

(** Best effort: what goes wrong is logged. *)
Definition mark_failed (now : datetime) (id : uuid) (reason : rstr) : run unit :=
  r ← attempt (load_export_job id);
  match r with
  | Ok export_job =>
      if is_terminal (ej_status export_job) then mret tt
      else
        let '(r, export_job) := fail now reason export_job in
        match r with
        | Ok _ => attempt (F := rstr) (persist_export_job export_job);; mret tt
        | Err _ => mret tt
        | Panicked => panic
        end
  | Err _ => mret tt
  | Panicked => panic
  end.

(** [self.mark_failed(..).await; return Err(reason)]. *)
Definition fail_job {A} (now : datetime) (id : uuid) (reason : rstr) : run A :=
  mark_failed now id reason;; throw reason.

(** [match call { Ok(a) => a, Err(e) => fail the job }]. *)
Definition or_fail_job {A} (now : datetime) (id : uuid) (what : rstr) (m : run A) : run A :=
  r ← attempt m;
  match r with
  | Ok a => mret a
  | Err e => fail_job now id (what ++ lit ": " ++ e)
  | Panicked => panic
  end.

(** The branch for a file that is already there. *)
Definition finish_existing (now : datetime) (id : uuid) (key : rstr) : run unit :=
  export_job ← load_export_job id;
  if bool_decide (ej_status export_job = Ready) then mret tt
  else
    existing_bytes ← describe (lit "failed to download existing export for checksum")
      (on_storage (download_object key));
    let checksum := sha256_hex existing_bytes in
    let expires_at := (now + 24 * 3600 * 1000000000)%Z in
    let '(r, export_job) :=
      if bool_decide (ej_status export_job = Queued) then start_generating now export_job
      else (Ok tt, export_job) in
    lift (prefixed (lit "failed to transition to generating") r);;
    let '(r, export_job) :=
      if bool_decide (ej_status export_job = Generating)
      then complete_with_verified_checksum now key checksum checksum expires_at export_job
      else (Ok tt, export_job) in
    lift (prefixed (lit "failed to complete export job") r);;
    persist_export_job export_job.

(** Step (e): [true] if there is work to do. *)
Definition begin_generating (now : datetime) (id : uuid) : run bool :=
  export_job ← load_export_job id;
  match ej_status export_job with
  | Ready => mret false
  | Failed | Expired =>
      throw (lit "export job " ++ uuid_display id ++ lit " is in terminal state '"
               ++ export_status_display (ej_status export_job) ++ lit "'")
  | Queued =>
      let '(r, export_job) := start_generating now export_job in
      lift (prefixed (lit "failed to transition to generating") r);;
      persist_export_job export_job;;
      mret true
  | Generating => mret true
  end.

(** Steps (b) to (f): the file. *)
Definition generate_file (dl : ExportDelivery) (job : GenerateExportJob) : run bytes :=
  let now := xl_now dl in
  let id := ge_export_job_id job in
  geometry_json ← or_fail_job now id (lit "failed to load geometry") (load_geometry (ge_route_version_id job));
  segments ← or_fail_job now id (lit "failed to parse geometry_json") (lift (parse_geometry_json geometry_json));
  name ← attempt (load_activity_name (ge_activity_id job));
  let activity_name := match name with Ok n => n | _ => None end in
  let total_points := len (concat segments) in
  if (MAX_POINTS <? total_points)%N then
    fail_job now id (lit "geometry exceeds maximum point count: " ++ display_N total_points
                      ++ lit " points (limit: " ++ display_N MAX_POINTS ++ lit ")")
  else
    let timeout_secs := if (0 <? xl_timeout_seconds dl)%Z then xl_timeout_seconds dl else 300%Z in
    match xl_task dl with
    | TaskInTime =>
        or_fail_job now id (lit "GPX generation failed")
          (lift (map_err generator_error_display (generate_gpx (mkGeneratorInput activity_name segments))))
    | TaskPanicked join_error => fail_job now id (lit "GPX generation task panicked: " ++ join_error)
    | TaskTimedOut =>
        fail_job now id (lit "GPX generation timed out after " ++ display_Z timeout_secs ++ lit "s")
    end.

(** Steps (g) to (j.1): the checksum of the file, uploaded and read again. *)
Definition upload_verified (now : datetime) (id : uuid) (key : rstr) (gpx_bytes : bytes) : run rstr :=
  let checksum := sha256_hex gpx_bytes in
  or_fail_job now id (lit "failed to upload export to storage")
    (on_storage (upload key gpx_bytes (Some (lit "application/gpx+xml"))));;
  verified_bytes ← or_fail_job now id (lit "failed to download export for verification")
    (on_storage (download_object key));
  let verified_checksum := sha256_hex verified_bytes in
  if bool_decide (checksum = verified_checksum) then mret checksum
  else fail_job now id (lit "post-upload verification failed: checksum mismatch (expected " ++ checksum
                         ++ lit ", got " ++ verified_checksum ++ lit ")").

(** Steps (k) and (l). *)
Definition complete_export (now : datetime) (id : uuid) (key checksum : rstr) : run unit :=
  let expires_at := (now + 24 * 3600 * 1000000000)%Z in
  export_job ← load_export_job id;
  if bool_decide (ej_status export_job = Generating) then
    let '(r, export_job) := complete_with_verified_checksum now key checksum checksum expires_at export_job in
    lift (prefixed (lit "failed to complete export job") r);;
    persist_export_job export_job
  else mret tt.

Definition process (dl : ExportDelivery) : run unit :=
  job ← lift (match xl_payload dl with
              | inr job => Ok job
              | inl e => Err (lit "failed to deserialize GenerateExportJob payload: " ++ e)
              end);
  let now := xl_now dl in
  let id := ge_export_job_id job in
  let key := export_storage_key (ge_owner_id job) id in
  already_exists ← describe (lit "failed to check object existence") (on_storage (exists_ key));
  if already_exists : bool then finish_existing now id key
  else
    work ← begin_generating now id;
    if work : bool then
      gpx_bytes ← generate_file dl job;
      checksum ← upload_verified now id key gpx_bytes;
      complete_export now id key checksum
    else mret tt.
End worker.
