(* ===== verification/ExportWorkerTheory.v ===== *)
(** What the worker's export handler does (ExportWorker.v), whatever the object
    storage does: it drives every row along the state machine of exports, and an
    export is ready only with a file that was read back. *)
From S2P Require Import Prelude Float64 RustString RustVec Utf8 RecordedActivity RouteVersioning.
From S2P Require Import ObjectStorage Exports ExportTheory ExportWorker.
#[local] Set Default Proof Using "Type".

(** ** Rows and jobs *)

Definition job_at (id : uuid) (d : ExportDb) (j : ExportJob) : Prop :=
  exists t row, xd_exports d = Some t /\ t !! id = Some row /\ row_to_export row = Ok j /\ ej_id j = id.

(** The database after [persist_export_job]. *)
Definition store_export (j : ExportJob) (d : ExportDb) : ExportDb :=
  match xd_exports d with
  | Some t => set_exports (alter (updated_export_row j) (ej_id j) t) d
  | None => d
  end.

Lemma parse_export_status_display s : parse_export_status (export_status_display s) = Ok s.
Proof. by destruct s. Qed.

Lemma row_to_export_inv row j :
  row_to_export row = Ok j ->
  row = mkExportRow (ej_id j) (ej_activity_id j) (ej_route_version_id j) (ej_requested_by j)
    (export_format_display (ej_format j)) (export_status_display (ej_status j)) (ej_idempotency_key j)
    (ej_payload_hash j) (ej_object_storage_key j) (ej_checksum j) (ej_failure_reason j)
    (ej_expires_at j) (ej_created_at j) (ej_updated_at j).
Proof.
  unfold row_to_export. intros (st & Hst & (f & Hf & [= <-])%result_bind_inv)%result_bind_inv. simpl.
  assert (xr_status row = export_status_display st) as <-.
  { unfold parse_export_status in Hst. by repeat case_decide; simplify_eq. }
  assert (xr_format row = export_format_display f) as <-.
  { unfold parse_export_format in Hf. by repeat case_decide; simplify_eq. }
  by destruct row.
Qed.

(** What identifies a row, and when it was made. *)
Definition same_row (j j' : ExportJob) : Prop :=
  same_export j j' /\ ej_format j' = ej_format j /\ ej_created_at j' = ej_created_at j.

Lemma same_row_refl j : same_row j j.
Proof. done. Qed.
Lemma same_row_trans a b c : same_row a b -> same_row b c -> same_row a c.
Proof. unfold same_row, same_export. intuition congruence. Qed.

Lemma run_export_call_row c j : same_row j (snd (run_export_call c j)).
Proof.
  destruct c; simpl; unfold start_generating, complete, complete_with_verified_checksum, fail, expire,
    move_to, guard_err; run; repeat case_match; simplify_eq; done.
Qed.

Lemma row_to_export_updated row j j' :
  row_to_export row = Ok j -> same_row j j' -> row_to_export (updated_export_row j' row) = Ok j'.
Proof.
  intros ->%row_to_export_inv ((H1 & H2 & H3 & H4 & H5 & H6) & H7 & H8).
  unfold row_to_export, updated_export_row. simpl. rewrite parse_export_status_display.
  destruct j' as [? ? ? ? [] ? ? ? ? ? ? ? ? ?]. simpl in *. run. by rewrite H1, H2, H3, H4, H5, H6, H8.
Qed.

Lemma job_at_unique id d j j' : job_at id d j -> job_at id d j' -> j = j'.
Proof. intros (t & r & ? & ? & ? & _) (t' & r' & ? & ? & ? & _). congruence. Qed.

Lemma job_at_store id d j j' : job_at id d j -> same_row j j' -> job_at id (store_export j' d) j'.
Proof.
  intros (t & r & Ht & Hr & Hj & Hid) Hs. assert (ej_id j' = id) as Hid' by (destruct Hs as [[-> _] _]; done).
  exists (alter (updated_export_row j') id t), (updated_export_row j' r).
  unfold store_export. rewrite Ht, Hid', lookup_alter_eq, Hr. split_and!; try done.
  by eapply row_to_export_updated.
Qed.

Lemma store_store j j' d : ej_id j = ej_id j' -> store_export j' (store_export j d) = store_export j' d.
Proof.
  intros Hid. unfold store_export. destruct (xd_exports d) as [t|] eqn:Ht; simpl; [|by rewrite Ht].
  rewrite Hid. unfold set_exports. simpl. f_equal. f_equal. apply map_eq. intros i.
  destruct (decide (i = ej_id j')) as [->|Hi]; [|by rewrite !lookup_alter_ne].
  rewrite !lookup_alter_eq. by destruct (t !! ej_id j').
Qed.

Lemma store_same id d j : job_at id d j -> store_export j d = d.
Proof.
  intros (t & r & Ht & Hr & Hj%row_to_export_inv & Hid). unfold store_export. rewrite Ht.
  destruct d as [x g n]. simpl in *. subst x. unfold set_exports. simpl. f_equal. f_equal. apply map_eq. intros i.
  destruct (decide (i = ej_id j)) as [->|Hi]; [|by rewrite lookup_alter_ne].
  rewrite lookup_alter_eq, Hid, Hr. simpl. by subst r.
Qed.

(** ** What a run does to the database *)

(** A run follows the lifecycle of the export [id]: it leaves the database alone,
    or moves that row along the state machine. *)
Definition follows (id : uuid) (d d' : ExportDb) : Prop :=
  d' = d \/ exists j j', job_at id d j /\ reach export_step j j' /\ same_row j j' /\
              d' = store_export j' d.

Lemma follows_trans id a b c : follows id a b -> follows id b c -> follows id a c.
Proof.
  intros [-> |(j & k & Hj & Hr & Hs & ->)] Hbc; [done|].
  pose proof (job_at_store _ _ _ _ Hj Hs) as Hk.
  destruct Hbc as [-> |(k' & l & Hk' & Hr' & Hs' & ->)]; [right; eauto 10|].
  assert (k' = k) as -> by (by eapply job_at_unique).
  right. exists j, l. split_and!; [done|by eapply reach_trans|by eapply same_row_trans|].
  apply store_store. destruct Hs' as [[-> _] _]. done.
Qed.

Lemma follows_call id d j c :
  job_at id d j -> follows id d (store_export (snd (run_export_call c j)) d).
Proof.
  intros Hj. right. exists j, (snd (run_export_call c j)). split_and!; [done| |apply run_export_call_row|done].
  eapply reach_step; [by exists c|apply reach_refl].
Qed.

(** ** Runs *)

Section runs.
Context {St : Type} `{bucket : Bucket St} `{sha : Sha256} `{display : UuidDisplay} `{xml : XmlEscape}.
Context (relation_missing : rstr).
Implicit Types (s : ExportDb * St) (d : ExportDb).

(** The rows are under their ids. *)
Definition rows_keyed d : Prop :=
  match xd_exports d with Some t => map_Forall (fun id r => xr_id r = id) t | None => True end.

Lemma load_keyed id s :
  rows_keyed (fst s) ->
  (exists j, job_at id (fst s) j /\ load_export_job relation_missing id s = (Ok j, s)) \/
  (exists e, load_export_job relation_missing id s = (Err e, s) /\ forall j, ~ job_at id (fst s) j).
Proof.
  intros Hk. destruct s as [d st]. unfold load_export_job, on_db, zoom, rows_keyed in *. run. simpl in *.
  destruct (xd_exports d) as [t|] eqn:Ht; [|right; eexists; split; [done|intros j (t' & ? & Ht' & _); congruence]].
  destruct (t !! id) as [row|] eqn:Hr; simpl.
  2: { right. eexists. split; [done|]. intros j (t' & r & Ht' & Hr' & _). congruence. }
  destruct (row_to_export row) as [j|e|] eqn:Hj.
  - left. exists j. split; [|done]. exists t, row. split_and!; try done.
    apply row_to_export_inv in Hj. specialize (Hk id row Hr). by subst row.
  - right. eexists. split; [done|]. intros j (t' & r & Ht' & Hr' & Hj' & _). congruence.
  - exfalso. unfold row_to_export, parse_export_status, parse_export_format in Hj.
    by repeat (case_decide; simplify_eq/=).
Qed.

Lemma persist_run id j0 j s :
  job_at id (fst s) j0 ->
  persist_export_job relation_missing j s = (Ok tt, (store_export j (fst s), snd s)).
Proof.
  intros (t & r & Ht & _). destruct s as [d st]. unfold persist_export_job, on_db, zoom, store_export. run.
  simpl in *. by rewrite Ht.
Qed.

Lemma follows_keyed id d d' : follows id d d' -> rows_keyed d -> rows_keyed d'.
Proof.
  intros [-> |(j & j' & _ & _ & _ & ->)]; [done|]. unfold rows_keyed, store_export.
  destruct (xd_exports d) as [t|] eqn:Ht; simpl; [|by rewrite Ht]. intros Hk i r Hr.
  apply lookup_alter_Some in Hr as [(<- & r' & Hr' & ->)|[_ Hr]];
    [by apply (Hk _ r')|by apply (Hk i r)].
Qed.

(** The storage is apart from the database. *)
Lemma on_storage_db {A} (m : eff St ObjectStorageError A) s : fst (snd (on_storage m s)) = fst s.
Proof. unfold on_storage, zoom. run. by destruct (m (snd s)). Qed.

(** *** Failing *)

Definition failed_export (now : datetime) (reason : rstr) (j : ExportJob) : ExportJob :=
  snd (run_export_call (CallFail now reason) j).

Lemma fail_export_live now reason j :
  is_terminal (ej_status j) = false ->
  fail now reason j = (Ok tt, failed_export now reason j) /\ ej_status (failed_export now reason j) = Failed.
Proof.
  intros Hj. unfold failed_export, run_export_call, fail, move_to. run. by destruct (ej_status j).
Qed.

(** [mark_failed] on a row: it fails, unless it has ended. *)
Definition after_failure (now : datetime) (id : uuid) (reason : rstr) (s s' : ExportDb * St) : Prop :=
  s' = s /\ (forall j, job_at id (fst s) j -> is_terminal (ej_status j) = true) \/
  exists j, job_at id (fst s) j /\ is_terminal (ej_status j) = false /\
    s' = (store_export (failed_export now reason j) (fst s), snd s).

Lemma mark_failed_run now id reason s :
  rows_keyed (fst s) ->
  exists s', mark_failed relation_missing now id reason s = (Ok tt, s') /\ after_failure now id reason s s'.
Proof.
  intros Hk. unfold mark_failed. run.
  destruct (load_keyed id s Hk) as [(j & Hj & ->)|(e & -> & Hno)].
  2: { exists s. split; [done|]. left. split; [done|]. intros j Hj. by destruct (Hno j). }
  destruct (is_terminal (ej_status j)) eqn:Hst.
  { exists s. split; [done|]. left. split; [done|]. intros j' Hj'. by rewrite (job_at_unique _ _ _ _ Hj' Hj). }
  destruct (fail_export_live now reason j Hst) as [-> _]. run. rewrite (persist_run id j _ s Hj).
  eexists. split; [done|]. right. eauto.
Qed.

Lemma after_failure_follows now id reason s s' :
  after_failure now id reason s s' -> follows id (fst s) (fst s').
Proof.
  intros [[-> _]|(j & Hj & _ & ->)]; [by left|]. by apply (follows_call id _ j (CallFail now reason)).
Qed.

Lemma fail_job_run {A} now id reason s :
  rows_keyed (fst s) ->
  exists s', fail_job (A := A) relation_missing now id reason s = (Err reason, s') /\
    after_failure now id reason s s'.
Proof.
  intros Hk. destruct (mark_failed_run now id reason s Hk) as (s' & Hm & Hs').
  exists s'. split; [|done]. unfold fail_job. run. by rewrite Hm.
Qed.

(** A step that gives up when its call fails. *)
Lemma or_fail_job_run {A} now id what (m : eff (ExportDb * St) rstr A) s :
  (forall s, fst (snd (m s)) = fst s) -> rows_keyed (fst s) ->
  let '(r, s') := or_fail_job relation_missing now id what m s in
  match r with
  | Ok a => m s = (Ok a, s')
  | Err e => exists e' s1, m s = (Err e', s1) /\ after_failure now id e s1 s'
  | Panicked => m s = (Panicked, s')
  end.
Proof.
  intros Hm Hk. unfold or_fail_job. run. specialize (Hm s).
  destruct (m s) as [[a|e|] s1]; [done| |done]. simpl in Hm.
  destruct (fail_job_run (A := A) now id (what ++ lit ": " ++ e) s1) as (s' & -> & Hs'); [by rewrite Hm|].
  eauto.
Qed.

Lemma or_fail_job_read {A} now id what (m : eff (ExportDb * St) rstr A) s :
  (forall s, snd (m s) = s) -> rows_keyed (fst s) ->
  let '(r, s') := or_fail_job relation_missing now id what m s in
  match r with
  | Ok a => s' = s /\ fst (m s) = Ok a
  | Err e => after_failure now id e s s'
  | Panicked => fst (m s) = Panicked
  end.
Proof.
  intros Hm Hk. pose proof (or_fail_job_run now id what m s (fun s => f_equal fst (Hm s)) Hk) as Hr.
  specialize (Hm s). destruct (or_fail_job _ _ _ _ _ s) as [[a|e|] s']; [|destruct Hr as (e' & s1 & Hr & Ha)|];
    rewrite Hr in Hm; rewrite ?Hr; simpl in *; by subst.
Qed.

(** A step that gives up ends the run. *)
Ltac gives_up Hk :=
  match goal with
  | |- context [fail_job _ ?now ?id ?reason ?s] =>
      destruct (fail_job_run (A := bytes) now id reason s Hk) as (? & -> & ?); done
  end.

(** *** The phases *)

(** What completes an export with the checksum of a file. *)
Definition completion (now : datetime) (key checksum : rstr) : ExportCall :=
  CallCompleteVerified now key checksum checksum (now + 24 * 3600 * 1000000000)%Z.

Lemma start_live now j :
  ej_status j = Queued ->
  start_generating now j = (Ok tt, snd (run_export_call (CallStart now) j)) /\
  ej_status (snd (run_export_call (CallStart now) j)) = Generating.
Proof. intros Hj. simpl. unfold start_generating, move_to. run. by rewrite Hj. Qed.

Definition completed_job (now : datetime) (key checksum : rstr) (j : ExportJob) : ExportJob :=
  snd (run_export_call (completion now key checksum) j).

Lemma completion_live now key checksum j :
  ej_status j = Generating ->
  let j' := completed_job now key checksum j in
  complete_with_verified_checksum now key checksum checksum (now + 24 * 3600 * 1000000000)%Z j = (Ok tt, j') /\
  ej_status j' = Ready /\ ej_object_storage_key j' = Some key /\ ej_checksum j' = Some checksum /\
  ej_expires_at j' = Some (now + 24 * 3600 * 1000000000)%Z.
Proof.
  intros Hj. unfold completed_job, completion, run_export_call, complete_with_verified_checksum, move_to.
  rewrite bool_decide_eq_true_2 by done. run. by rewrite Hj.
Qed.

Lemma begin_generating_run now id s :
  rows_keyed (fst s) ->
  let '(r, s') := begin_generating relation_missing now id s in
  match r with
  | Ok true => snd s' = snd s /\ exists j0 j, job_at id (fst s) j0 /\ is_terminal (ej_status j0) = false /\
      reach export_step j0 j /\ same_row j0 j /\ ej_status j = Generating /\
      fst s' = store_export j (fst s)
  | Ok false => s' = s /\ exists j, job_at id (fst s) j /\ ej_status j = Ready
  | Err _ => s' = s
  | Panicked => False
  end.
Proof.
  intros Hk. unfold begin_generating. run.
  destruct (load_keyed id s Hk) as [(j & Hj & ->)|(e & -> & _)]; [|done].
  destruct (ej_status j) eqn:Hst; run; [| |by eauto|done|done].
  - destruct (start_live now j Hst) as [-> Hst']. simpl map_err. cbn iota. rewrite (persist_run id j) by done.
    split; [done|]. exists j. eexists. split_and!; [done|by rewrite Hst| |apply run_export_call_row|exact Hst'|done].
    eapply reach_step; [by exists (CallStart now)|apply reach_refl].
  - split; [done|]. exists j, j. split_and!; [done|by rewrite Hst|apply reach_refl|done|done|].
    symmetry. by eapply store_same.
Qed.

Lemma generate_file_run dl job s :
  rows_keyed (fst s) ->
  let '(r, s') := generate_file relation_missing dl job s in
  match r with
  | Ok gpx => s' = s /\ exists g segments,
      xd_geometries (fst s) !! ge_route_version_id job = Some g /\ parse_geometry_json g = Ok segments /\
      (len (concat segments) <= MAX_POINTS)%N /\
      generate_gpx (mkGeneratorInput (xd_titles (fst s) !! ge_activity_id job ≫= id) segments) = Ok gpx
  | Err e => after_failure (xl_now dl) (ge_export_job_id job) e s s'
  | Panicked => False
  end.
Proof.
  intros Hk. unfold generate_file. set (now := xl_now dl). set (id := ge_export_job_id job). run.
  pose proof (or_fail_job_read now id (lit "failed to load geometry") (load_geometry (ge_route_version_id job))
    s ltac:(by intros []) Hk) as Hr.
  destruct (or_fail_job _ _ _ _ _ s) as [[g|e|] s1]; [destruct Hr as [-> Hg]|done|].
  2: { destruct s as [d st]. unfold load_geometry, on_db, zoom in Hr. run. simpl in Hr.
       by destruct (xd_geometries d !! ge_route_version_id job). }
  assert (xd_geometries (fst s) !! ge_route_version_id job = Some g) as Hg'.
  { destruct s. unfold load_geometry, on_db, zoom in Hg. run. simpl in Hg. by apply ok_or_inv in Hg. }
  pose proof (or_fail_job_read now id (lit "failed to parse geometry_json") (lift (parse_geometry_json g))
    s ltac:(done) Hk) as Hr.
  destruct (or_fail_job _ _ _ _ _ s) as [[segments|e|] s1]; [destruct Hr as [-> Hp]|done|].
  2: { exfalso. simpl in Hr. unfold parse_geometry_json in Hr. by repeat case_match. }
  assert (load_activity_name (ge_activity_id job) s =
    (Ok (xd_titles (fst s) !! ge_activity_id job ≫= Datatypes.id), s)) as -> by (by destruct s).
  simpl. destruct (N.ltb_spec MAX_POINTS (len (concat segments))) as [|Hmax].
  { gives_up Hk. }
  destruct (xl_task dl); [|gives_up Hk..].
  pose proof (or_fail_job_read now id (lit "GPX generation failed")
    (lift (map_err generator_error_display (generate_gpx (mkGeneratorInput
       (xd_titles (fst s) !! ge_activity_id job ≫= Datatypes.id) segments)))) s ltac:(done) Hk) as Hr.
  destruct (or_fail_job _ _ _ _ _ s) as [[gpx|e|] s1]; [|done|done].
  destruct Hr as [-> Hgpx]. split; [done|]. exists g, segments. split_and!; [done..|].
  unfold lift, generate_gpx in *. cbn [fst map_err] in Hgpx. by injection Hgpx as <-.
Qed.

Lemma on_storage_run {A} (m : eff St ObjectStorageError A) (s : ExportDb * St) :
  on_storage m s = (map_err storage_error_display (fst (m (snd s))), (fst s, snd (m (snd s)))).
Proof. unfold on_storage, zoom. run. by destruct (m (snd s)). Qed.

Lemma upload_verified_run now id key gpx s :
  rows_keyed (fst s) ->
  let '(r, s') := upload_verified relation_missing now id key gpx s in
  match r with
  | Ok checksum => fst s' = fst s /\ exists st1 bs,
      upload key gpx (Some (lit "application/gpx+xml")) (snd s) = (Ok tt, st1) /\
      download_object key st1 = (Ok bs, snd s') /\ checksum = sha256_hex gpx /\ sha256_hex bs = checksum
  | Err e => exists s1, fst s1 = fst s /\ after_failure now id e s1 s'
  | Panicked => fst s' = fst s
  end.
Proof.
  intros Hk. unfold upload_verified. run.
  set (up := upload key gpx (Some (lit "application/gpx+xml"))).
  pose proof (or_fail_job_run now id (lit "failed to upload export to storage") (on_storage up) s
    (on_storage_db up) Hk) as Hr.
  rewrite on_storage_run in Hr.
  destruct (or_fail_job _ _ _ _ _ s) as [[[]|e|] s1];
    [|destruct Hr as (e' & s2 & [= _ <-] & Ha); eexists; by split; [|exact Ha]|by injection Hr as _ <-].
  injection Hr as Hu <-. destruct (up (snd s)) as [[[]|e|] st1] eqn:Hup; [|done..]. simpl.
  set (s1 := (fst s, st1)). set (down := download_object key).
  pose proof (or_fail_job_run now id (lit "failed to download export for verification") (on_storage down) s1
    (on_storage_db down) Hk) as Hr.
  rewrite on_storage_run in Hr.
  destruct (or_fail_job _ _ _ _ _ s1) as [[bs|e|] s2];
    [|destruct Hr as (e' & s3 & [= _ <-] & Ha); eexists; by split; [|exact Ha]|by injection Hr as _ <-].
  injection Hr as Hd <-. simpl in Hd. destruct (down st1) as [[b|e|] st2] eqn:Hdown; [|done..]. injection Hd as ->.
  case_bool_decide as Hc; simpl; [split; [done|]; by exists st1, bs|].
  match goal with |- context [fail_job _ _ _ ?reason ?s'] =>
    destruct (fail_job_run (A := rstr) now id reason s' Hk) as (s3 & -> & Ha) end.
  eexists. by split; [|exact Ha].
Qed.

Lemma complete_export_run now id key checksum j s :
  job_at id (fst s) j -> rows_keyed (fst s) -> ej_status j = Generating ->
  complete_export relation_missing now id key checksum s =
    (Ok tt, (store_export (completed_job now key checksum j) (fst s), snd s)).
Proof.
  intros Hj Hk Hst. unfold complete_export. run.
  destruct (load_keyed id s Hk) as [(j' & Hj' & ->)|(e & _ & Hno)]; [|by destruct (Hno j)].
  rewrite (job_at_unique _ _ _ _ Hj' Hj), bool_decide_eq_true_2 by done.
  destruct (completion_live now key checksum j Hst) as [-> _]. simpl. by rewrite (persist_run id j).
Qed.

(** The branch for a file that is there: the row is completed with the checksum of
    that file, unless it had ended. *)
Lemma finish_existing_run now id key s :
  rows_keyed (fst s) ->
  let '(r, s') := finish_existing relation_missing now id key s in
  match r with
  | Ok _ => exists j, job_at id (fst s) j /\
      ((is_terminal (ej_status j) = true /\ fst s' = fst s) \/
       exists bs st1, download_object key st1 = (Ok bs, snd s') /\
         is_terminal (ej_status j) = false /\ exists j', reach export_step j j' /\ same_row j j' /\
         ej_status j' = Generating /\ fst s' = store_export (completed_job now key (sha256_hex bs) j') (fst s))
  | _ => fst s' = fst s
  end.
Proof.
  intros Hk. unfold finish_existing, describe. run.
  destruct (load_keyed id s Hk) as [(j & Hj & ->)|(e & -> & _)]; [|done].
  destruct (decide (ej_status j = Ready)) as [Hr|Hr];
    [rewrite bool_decide_eq_true_2 by done|rewrite bool_decide_eq_false_2 by done].
  { exists j. split; [done|]. left. by rewrite Hr. }
  rewrite on_storage_run. destruct (download_object key (snd s)) as [[bs|e|] st1] eqn:Hd; [|done..]. simpl map_err.
  cbn iota beta. destruct (ej_status j) eqn:Hst; [| |done|..].
  - destruct (start_live now j Hst) as [Hstart Hst'].
    rewrite bool_decide_eq_true_2, Hstart by done. set (j1 := snd (run_export_call (CallStart now) j)) in *.
    cbn beta iota delta [prefixed map_err]. rewrite bool_decide_eq_true_2 by done.
    destruct (completion_live now key (sha256_hex bs) j1 Hst') as [-> _]. cbn beta iota.
    rewrite (persist_run id j) by done. exists j. split; [done|]. right. exists bs, (snd s).
    split_and!; [done|by rewrite Hst|]. exists j1. split_and!; [|apply run_export_call_row|done|done].
    eapply reach_step; [by exists (CallStart now)|apply reach_refl].
  - rewrite bool_decide_eq_false_2 by done. cbn beta iota delta [prefixed map_err].
    rewrite Hst, bool_decide_eq_true_2 by done.
    destruct (completion_live now key (sha256_hex bs) j Hst) as [-> _]. cbn beta iota.
    rewrite (persist_run id j) by done. exists j. split; [done|]. right. exists bs, (snd s).
    split_and!; [done|by rewrite Hst|]. exists j. split_and!; [apply reach_refl|done..].
  - rewrite bool_decide_eq_false_2 by done. cbn beta iota delta [prefixed map_err].
    rewrite Hst, bool_decide_eq_false_2 by done. cbn beta iota. rewrite (persist_run id j) by done.
    exists j. split; [done|]. left. rewrite Hst. split; [done|]. by eapply store_same.
  - rewrite bool_decide_eq_false_2 by done. cbn beta iota delta [prefixed map_err].
    rewrite Hst, bool_decide_eq_false_2 by done. cbn beta iota. rewrite (persist_run id j) by done.
    exists j. split; [done|]. left. rewrite Hst. split; [done|]. by eapply store_same.
Qed.

(** *** A whole run *)

(** The file that an export is of: the GPX of the version's geometry, under the
    title of the activity. *)
Definition file_of (d : ExportDb) (job : GenerateExportJob) (gpx : bytes) : Prop :=
  exists g segments, xd_geometries d !! ge_route_version_id job = Some g /\
    parse_geometry_json g = Ok segments /\ (len (concat segments) <= MAX_POINTS)%N /\
    generate_gpx (mkGeneratorInput (xd_titles d !! ge_activity_id job ≫= id) segments) = Ok gpx.

(** The job [j'] is ready: its checksum is that of the object which the run read
    last, and which was there at its beginning or else was uploaded just before
    and has the checksum of the file. *)
Definition readied (dl : ExportDelivery) (job : GenerateExportJob) (s s' : ExportDb * St) (j' : ExportJob)
    : Prop :=
  let key := export_storage_key (ge_owner_id job) (ge_export_job_id job) in
  exists st1 bs, download_object key st1 = (Ok bs, snd s') /\
    ej_object_storage_key j' = Some key /\ ej_checksum j' = Some (sha256_hex bs) /\
    ej_expires_at j' = Some (xl_now dl + 24 * 3600 * 1000000000)%Z /\
    (fst (exists_ key (snd s)) = Ok true \/
     exists gpx st0, file_of (fst s) job gpx /\ sha256_hex bs = sha256_hex gpx /\
       upload key gpx (Some (lit "application/gpx+xml")) st0 = (Ok tt, st1)).

(** What a run comes to: it moves the row along the state machine, to [Ready]
    exactly if it succeeds; or it leaves the database alone, and then it succeeds
    only on a row that has ended. *)
Definition outcome (dl : ExportDelivery) (job : GenerateExportJob) (s s' : ExportDb * St)
    (r : result rstr unit) : Prop :=
  let id := ge_export_job_id job in
  (fst s' = fst s /\ (r = Ok tt -> exists j, job_at id (fst s) j /\ is_terminal (ej_status j) = true)) \/
  (exists j j', job_at id (fst s) j /\ is_terminal (ej_status j) = false /\ reach export_step j j' /\
     same_row j j' /\ fst s' = store_export j' (fst s) /\
     if decide (ej_status j' = Ready) then r = Ok tt /\ readied dl job s s' j' else r <> Ok tt).

(** From a row that is being generated. *)
Section generating.
Context (dl : ExportDelivery) (job : GenerateExportJob) (s s1 : ExportDb * St) (j0 j : ExportJob).
Context (Hj0 : job_at (ge_export_job_id job) (fst s) j0) (Hst : is_terminal (ej_status j0) = false)
  (Hreach : reach export_step j0 j) (Hrow : same_row j0 j) (Hj : ej_status j = Generating)
  (Hs1 : fst s1 = store_export j (fst s)).

Lemma generating_at : job_at (ge_export_job_id job) (fst s1) j.
Proof using Hj0 Hrow Hs1. rewrite Hs1. by eapply job_at_store. Qed.

(** The run ends with a further call. *)
Lemma outcome_call c s' r :
  fst s' = store_export (snd (run_export_call c j)) (fst s1) ->
  (if decide (ej_status (snd (run_export_call c j)) = Ready)
   then r = Ok tt /\ readied dl job s s' (snd (run_export_call c j)) else r <> Ok tt) ->
  outcome dl job s s' r.
Proof using Hj0 Hst Hreach Hrow Hs1.
  intros Hs' Hr. right. set (j' := snd (run_export_call c j)) in *.
  assert (same_row j j') as Hrow' by apply run_export_call_row.
  exists j0, j'. split_and!; try done.
  - eapply reach_trans; [exact Hreach|]. eapply reach_step; [by exists c|apply reach_refl].
  - by eapply same_row_trans.
  - rewrite Hs', Hs1. apply store_store. by destruct Hrow' as [[-> _] _].
Qed.

Lemma outcome_failure s2 s' now e :
  fst s2 = fst s1 -> after_failure now (ge_export_job_id job) e s2 s' -> outcome dl job s s' (Err e).
Proof using Hj0 Hst Hreach Hrow Hj Hs1.
  intros Hs2 Ha. destruct Ha as [[_ Hterm]|(k & Hk & Hkt & ->)].
  { rewrite Hs2 in Hterm. specialize (Hterm j generating_at). by rewrite Hj in Hterm. }
  rewrite Hs2 in Hk. assert (k = j) as -> by (eapply job_at_unique; [exact Hk|apply generating_at]).
  apply (outcome_call (CallFail now e)); [cbn [fst]; by rewrite Hs2|].
  destruct (fail_export_live now e j Hkt) as [_ Hf]. unfold failed_export in Hf. by rewrite decide_False by (by rewrite Hf).
Qed.

Lemma outcome_stuck s' r : fst s' = fst s1 -> r <> Ok tt -> outcome dl job s s' r.
Proof using Hj0 Hst Hreach Hrow Hj Hs1.
  intros Hs' Hr. right. exists j0, j. split_and!; try done; [by rewrite Hs'|].
  by rewrite decide_False by (by rewrite Hj).
Qed.
End generating.

Lemma process_run dl job s :
  xl_payload dl = inr job -> rows_keyed (fst s) ->
  let '(r, s') := process relation_missing dl s in outcome dl job s s' r.
Proof.
  intros Hpay Hk. unfold process, describe. run. rewrite Hpay.
  set (now := xl_now dl). set (id := ge_export_job_id job). set (key := export_storage_key (ge_owner_id job) id).
  rewrite on_storage_run. destruct (exists_ key (snd s)) as [[there|e|] st1] eqn:Hex; simpl map_err;
    cbn beta iota; [|by left..].
  destruct there.
  - pose proof (finish_existing_run now id key (fst s, st1) Hk) as Hf. simpl in Hf.
    destruct (finish_existing _ now id key _) as [[[]|e|] s']; [|by left..].
    destruct Hf as (j & Hj & [[Ht Hs']|(bs & st2 & Hd & Ht & j1 & Hreach & Hrow & Hj1 & Hs')]); [left; eauto|].
    destruct (completion_live now key (sha256_hex bs) j1 Hj1) as (_ & Hst & Hkey & Hsum & Hexp).
    set (j' := completed_job now key (sha256_hex bs) j1) in *. right. exists j, j'.
    split_and!; [done|done| | |done|].
    + eapply reach_trans; [exact Hreach|]. eapply reach_step; [by exists (completion now key (sha256_hex bs))|].
      apply reach_refl.
    + eapply same_row_trans; [exact Hrow|apply run_export_call_row].
    + rewrite decide_True by done. split; [done|]. exists st2, bs. split_and!; try done. left.
      change (fst (exists_ key (snd s)) = Ok true). by rewrite Hex.
  - pose proof (begin_generating_run now id (fst s, st1) Hk) as Hb.
    destruct (begin_generating _ now id _) as [[[|]|e|] s1]; [|by left; destruct Hb as [-> (j & Hj & Hst)]; split; [|exists j; rewrite Hst]|by left; rewrite Hb|done].
    destruct Hb as (_ & j0 & j & Hj0 & Hst & Hreach & Hrow & Hj & Hs1). simpl in Hj0, Hs1.
    assert (rows_keyed (fst s1)) as Hk1 by (apply (follows_keyed id (fst s)); [right; eauto 10|done]).
    pose proof (generate_file_run dl job s1 Hk1) as Hg.
    destruct (generate_file _ dl job s1) as [[gpx|e|] s2]; [|by eapply outcome_failure|done].
    destruct Hg as [-> (g & segs & Hgeo & Hparse & Hmax & Hgpx)].
    pose proof (upload_verified_run now id key gpx s1 Hk1) as Hu.
    destruct (upload_verified _ now id key gpx s1) as [[checksum|e|] s3];
      [|by destruct Hu as (s4 & Hs4 & Ha); eapply outcome_failure|by eapply outcome_stuck].
    destruct Hu as (Hs3 & st3 & bs & Hup & Hdown & -> & Hsum).
    assert (job_at id (fst s3) j) as Hj3 by (rewrite Hs3, Hs1; by eapply job_at_store).
    rewrite (complete_export_run now id key (sha256_hex gpx) j s3) by (done || by rewrite Hs3).
    destruct (completion_live now key (sha256_hex gpx) j Hj) as (_ & Hready & Hkey & Hck & Hexp).
    eapply (outcome_call dl job s s1 j0 j) with (c := completion now key (sha256_hex gpx)); try done;
      [cbn [fst]; by rewrite Hs3|].
    rewrite decide_True by done. split; [done|]. exists st3, bs. rewrite Hsum. split_and!; try done.
    right. exists gpx, (snd s1). split_and!; [|done..].
    assert (forall d x, xd_geometries (store_export x d) = xd_geometries d /\ xd_titles (store_export x d) = xd_titles d)
      as Hkeep by (intros d x; unfold store_export; by destruct (xd_exports d)).
    rewrite Hs1, (proj1 (Hkeep _ _)) in Hgeo. rewrite Hs1, (proj2 (Hkeep _ _)) in Hgpx. by exists g, segs.
Qed.

(** *** Deliveries *)

Lemma process_unreadable dl s e :
  xl_payload dl = inl e -> exists e', process relation_missing dl s = (Err e', s).
Proof. intros Hp. unfold process. run. rewrite Hp. eauto. Qed.

Lemma outcome_follows dl job s s' r :
  outcome dl job s s' r -> follows (ge_export_job_id job) (fst s) (fst s').
Proof. intros [[-> _]|(j & j' & Hj & _ & Hr & Hs & -> & _)]; [by left|right; eauto 10]. Qed.

Lemma follows_job id id' d d' j :
  follows id d d' -> job_at id' d j ->
  exists j', job_at id' d' j' /\ reach export_step j j' /\ same_row j j'.
Proof.
  intros [-> |(k & k' & Hk & Hr & Hs & ->)] Hj; [exists j; split_and!; [done|apply reach_refl|done..]|].
  destruct (decide (id' = id)) as [->|Hne].
  - rewrite (job_at_unique _ _ _ _ Hj Hk). exists k'. split_and!; [by apply (job_at_store _ _ k)|done..].
  - exists j. split_and!; [|apply reach_refl|done..]. destruct Hj as (t & r & Ht & Hr' & Hj & Hid).
    assert (ej_id k' = id) as Hk' by (destruct Hk as (?&?&?&?&?&<-); by destruct Hs as [[-> _] _]).
    exists (alter (updated_export_row k') id t), r. unfold store_export. rewrite Ht, Hk'.
    by rewrite lookup_alter_ne.
Qed.

(** Deliveries of any jobs, whatever the object storage has become between them. *)
Definition delivery_step (d d' : ExportDb) : Prop :=
  exists dl st, d' = fst (snd (process relation_missing dl (d, st))).

Lemma delivery_follows d d' :
  rows_keyed d -> delivery_step d d' -> d' = d \/ exists id, follows id d d'.
Proof.
  intros Hk (dl & st & ->). destruct (xl_payload dl) as [e|job] eqn:Hp.
  - destruct (process_unreadable dl (d, st) e Hp) as [e' ->]. by left.
  - right. pose proof (process_run dl job (d, st) Hp Hk) as Ho.
    destruct (process _ dl (d, st)) as [r s']. exists (ge_export_job_id job). by eapply outcome_follows in Ho.
Qed.

Lemma terminal_untouched dl job d st j :
  rows_keyed d -> xl_payload dl = inr job -> job_at (ge_export_job_id job) d j ->
  is_terminal (ej_status j) = true -> fst (snd (process relation_missing dl (d, st))) = d.
Proof.
  intros Hk Hp Hj Ht. pose proof (process_run dl job (d, st) Hp Hk) as Ho.
  destruct (process _ dl (d, st)) as [r s']. destruct Ho as [[Hs _]|(k & k' & Hk' & Hkt & _)]; [exact Hs|].
  rewrite (job_at_unique _ _ _ _ Hk' Hj) in Hkt. congruence.
Qed.

(** Without its table, nothing is ever generated: every delivery is an error, and
    the storage has only been asked whether the file is there. *)
Lemma no_export_without_table dl d st :
  xd_exports d = None ->
  exists e st', process relation_missing dl (d, st) = (Err e, (d, st')) \/
    process relation_missing dl (d, st) = (Panicked, (d, st')).
Proof.
  intros Ht. assert (forall id (st : St), load_export_job relation_missing id (d, st) =
    (Err (lit "failed to query export job: " ++ relation_missing), (d, st))) as Hload.
  { intros id st0. unfold load_export_job, on_db, zoom. run. simpl. by rewrite Ht. }
  unfold process, describe. run. destruct (xl_payload dl) as [e|job]; [by eexists _, _; left|].
  rewrite on_storage_run. destruct (exists_ _ _) as [[[|]|e|] st1]; simpl map_err; cbn beta iota.
  - unfold finish_existing. run. simpl. rewrite Hload. by eexists _, _; left.
  - unfold begin_generating. run. simpl. rewrite Hload. by eexists _, _; left.
  - by eexists _, _; left.
  - by eexists [], _; right.
Qed.

(** ** Properties *)

(** C14: the worker keeps to the lifecycle of exports.  Whatever jobs are delivered,
    how often, and whatever the object storage does, every export that was in the
    table still is, has got where it is by calls of the aggregate, keeps its owner,
    activity, version and key, and keeps the invariant of the aggregate. *)
Theorem deliveries_follow_lifecycle d d' :
  rows_keyed d -> reach delivery_step d d' ->
  rows_keyed d' /\ forall id j, job_at id d j ->
    exists j', job_at id d' j' /\ reach export_step j j' /\ same_row j j' /\
      (export_wf j -> export_wf j').
Proof.
  intros Hk Hreach.
  apply (reach_invariant delivery_step (fun x => rows_keyed x /\ forall id j, job_at id d j ->
    exists j', job_at id x j' /\ reach export_step j j' /\ same_row j j')) in Hreach as [Hk' Hall].
  - split; [done|]. intros id j Hj. destruct (Hall id j Hj) as (j' & Hj' & Hr & Hs). exists j'.
    split_and!; [done..|]. intros Hwf. assert (same_export j j) as Hjj by done.
    by apply (reach_invariant export_step (fun x => export_wf x /\ same_export j x)
                (export_step_keeps j) j j' (conj Hwf Hjj) Hr).
  - intros a b [Ha Hj] Hstep. destruct (delivery_follows a b Ha Hstep) as [-> |[id Hf]]; [done|].
    split; [by eapply follows_keyed|]. intros id' j Hj0. destruct (Hj id' j Hj0) as (k & Hk1 & Hr & Hs).
    destruct (follows_job id id' a b k Hf Hk1) as (k' & Hk2 & Hr' & Hs').
    exists k'. split_and!; [done|by eapply reach_trans|by eapply same_row_trans].
  - split; [done|]. intros id j Hj. exists j. split_and!; [done|apply reach_refl|done..].
Qed.

(** C15: an export becomes ready only with a file that was read back.  If a delivery
    makes a row ready, it is the delivery of that row's job and it succeeds; the
    row holds the key of the job's owner and id, an expiry 24 hours away, and the
    checksum of the object that the run last read under that key: an object that
    was there already, or the one uploaded just before, whose checksum is that of
    the GPX of the version's geometry. *)
Theorem ready_export_was_read_back dl d st id j j' :
  rows_keyed d -> job_at id d j -> ej_status j <> Ready ->
  let '(r, s') := process relation_missing dl (d, st) in
  job_at id (fst s') j' -> ej_status j' = Ready ->
  r = Ok tt /\ exists job, xl_payload dl = inr job /\ ge_export_job_id job = id /\
    readied dl job (d, st) s' j'.
Proof.
  intros Hk Hj Hst. destruct (xl_payload dl) as [e|job] eqn:Hp.
  { destruct (process_unreadable dl (d, st) e Hp) as [e' ->]. intros Hj' Hst'.
    rewrite (job_at_unique _ _ _ _ Hj' Hj) in Hst'. congruence. }
  pose proof (process_run dl job (d, st) Hp Hk) as Ho. destruct (process _ dl (d, st)) as [r s'].
  intros Hj' Hst'. destruct Ho as [[Hs _]|(k & k' & Hk1 & Hkt & Hr & Hs & Hs' & Hcase)].
  { rewrite Hs in Hj'. rewrite (job_at_unique _ _ _ _ Hj' Hj) in Hst'. congruence. }
  destruct (decide (id = ge_export_job_id job)) as [->|Hne].
  - pose proof (job_at_store _ _ _ _ Hk1 Hs) as Hk2. rewrite <- Hs' in Hk2.
    rewrite (job_at_unique _ _ _ _ Hj' Hk2) in *. rewrite decide_True in Hcase by done.
    destruct Hcase as [-> Hready]. eauto.
  - exfalso. assert (follows (ge_export_job_id job) d (fst s')) as Hf by (right; eauto 10).
    destruct Hj as (t & row & Ht & Hrow & Hjr & Hid). destruct Hj' as (t' & row' & Ht' & Hrow' & Hjr' & Hid').
    rewrite Hs' in Ht'. unfold store_export in Ht'. simpl in Ht'. rewrite Ht in Ht'. injection Ht' as <-.
    assert (ej_id k' = ge_export_job_id job) as Hk'
      by (destruct Hk1 as (?&?&?&?&?&<-); by destruct Hs as [[-> _] _]).
    rewrite Hk', lookup_alter_ne in Hrow' by done. congruence.
Qed.

(** A job of the queue that succeeded is done for good.  Its export has ended,
    and no further delivery for that export, by whatever payload and against
    whatever storage, changes anything in the database. *)
Theorem export_handled_once dl d st d' st' :
  rows_keyed d -> process relation_missing dl (d, st) = (Ok tt, (d', st')) ->
  exists job j, xl_payload dl = inr job /\ job_at (ge_export_job_id job) d' j /\
    is_terminal (ej_status j) = true /\
    forall dl' job' st1, xl_payload dl' = inr job' -> ge_export_job_id job' = ge_export_job_id job ->
      fst (snd (process relation_missing dl' (d', st1))) = d'.
Proof.
  intros Hk Hr. destruct (xl_payload dl) as [e|job] eqn:Hp.
  { destruct (process_unreadable dl (d, st) e Hp) as [e' He]. congruence. }
  pose proof (process_run dl job (d, st) Hp Hk) as Ho. rewrite Hr in Ho.
  assert (exists j, job_at (ge_export_job_id job) d' j /\ is_terminal (ej_status j) = true) as (j & Hj & Ht).
  { destruct Ho as [[Hd He]|(k & k' & Hk1 & _ & _ & Hs & Hs' & Hcase)]; simpl in *.
    - rewrite Hd. by apply He.
    - exists k'. rewrite Hs'. split; [by eapply job_at_store|].
      by destruct (decide (ej_status k' = Ready)) as [-> |]. }
  exists job, j. split_and!; try done. intros dl' job' st1 Hp' Hid.
  apply outcome_follows in Ho. eapply terminal_untouched; [by eapply follows_keyed in Ho|exact Hp'| |exact Ht].
  by rewrite Hid.
Qed.
End runs.

(** ** Witnesses *)

(** A storage that keeps what it is given. *)
#[local] Instance sample_bucket : Bucket (gmap rstr bytes) := {|
  put_object_with_content_type key body _ := modify (fun m => <[key := body]> m);; mret 200%N;
  get_object key := m ← get; lift (ok_or ((fun b => (200%N, b)) <$> m !! key) (lit "404 NoSuchKey"));
  delete_object key := modify (fun m => delete key m);; mret 204%N;
  bucket_head_object key :=
    m ← get; lift (ok_or ((fun b => (mkHeadResult (Some (Z.of_nat (length b))) None, 200%N)) <$> m !! key)
                     (lit "404 NoSuchKey"));
  presign_put key _ := mret key;
  presign_get key _ _ := mret key |}.
#[local] Instance sample_sha : Sha256 := fun b => b.
#[local] Instance sample_display : UuidDisplay := display_N.
#[local] Instance sample_escape : XmlEscape := fun s => s.

Definition sample_row (status : rstr) : ExportRow :=
  mkExportRow 1 2 3 5 (lit "gpx") status (lit "key") None None None None None 0 0.
Definition sample_db (status : rstr) : ExportDb :=
  mkExportDb (Some {[ 1%N := sample_row status ]})
    {[ 3%N := JArray [JObject [(lit "latitude", JInt 47); (lit "longitude", JInt 8)]] ]} ∅.
Definition sample_delivery : ExportDelivery :=
  mkExportDelivery 100 0 (inr (mkGenerateExport 1 2 3 5 (lit "gpx") 1)) TaskInTime.
Definition sample_run (status : rstr) (storage : gmap rstr bytes) :=
  process (lit "missing") sample_delivery (sample_db status, storage).

Definition row_status (d : ExportDb) : option rstr := xd_exports d ≫= fun t => xr_status <$> t !! 1%N.

Lemma sample_keyed status : rows_keyed (sample_db status).
Proof. intros k r Hr. apply lookup_singleton_Some in Hr as [<- <-]. done. Qed.

Definition sample_job : ExportJob := mkExportJob 1 2 3 5 Gpx Queued (lit "key") None None None None None 0 0.
Lemma sample_job_at : job_at 1 (sample_db (lit "queued")) sample_job.
Proof. exists {[ 1%N := sample_row (lit "queued") ]}, (sample_row (lit "queued")). done. Qed.

Lemma deliveries_follow_lifecycle_witness :
  exists j', job_at 1 (fst (snd (sample_run (lit "queued") ∅))) j' /\ reach export_step sample_job j'.
Proof.
  destruct (deliveries_follow_lifecycle (lit "missing") (sample_db (lit "queued"))
    (fst (snd (sample_run (lit "queued") ∅))) (sample_keyed _)) as [_ Hall].
  - eapply reach_step; [by exists sample_delivery, (∅ : gmap rstr bytes)|apply reach_refl].
  - destruct (Hall 1%N sample_job sample_job_at) as (j' & Hj' & Hr & _). by exists j'.
Defined.

Lemma ready_export_was_read_back_witness :
  row_status (fst (snd (sample_run (lit "queued") ∅))) = Some (lit "ready") /\
  exists j', readied sample_delivery (mkGenerateExport 1 2 3 5 (lit "gpx") 1)
    (sample_db (lit "queued"), ∅) (snd (sample_run (lit "queued") ∅)) j'.
Proof.
  split; [vm_compute; reflexivity|].
  pose proof (fun j' => ready_export_was_read_back (lit "missing") sample_delivery (sample_db (lit "queued")) ∅
    1 sample_job j' (sample_keyed _) sample_job_at ltac:(done)) as Hp.
  assert (exists t row j', xd_exports (fst (snd (sample_run (lit "queued") ∅))) = Some t /\ t !! 1%N = Some row /\
    row_to_export row = Ok j' /\ ej_id j' = 1%N /\ ej_status j' = Ready) as (t & row & j' & Ht & Hrow & Hj & Hid & Hst).
  { eexists _, _, _. split; [vm_compute; reflexivity|]. split; [vm_compute; reflexivity|].
    split; [vm_compute; reflexivity|]. by split. }
  exists j'. specialize (Hp j'). unfold sample_run in *. destruct (process _ sample_delivery _) as [r s'].
  destruct (Hp ltac:(by exists t, row) Hst) as (_ & job & Hjob & _ & Hready). by injection Hjob as <-.
Defined.

Lemma export_handled_once_witness :
  exists d' st', sample_run (lit "queued") ∅ = (Ok tt, (d', st')) /\
    fst (snd (process (lit "missing") sample_delivery (d', ∅ : gmap rstr bytes))) = d'.
Proof.
  destruct (sample_run (lit "queued") ∅) as [r [d' st']] eqn:Hr. exists d', st'.
  assert (r = Ok tt) as -> by (change r with (fst (r, (d', st'))); rewrite <- Hr; vm_compute; reflexivity).
  split; [done|].
  destruct (export_handled_once (lit "missing") sample_delivery (sample_db (lit "queued")) ∅ d' st'
    (sample_keyed _) Hr) as (job & j & Hjob & _ & _ & Hagain).
  eapply Hagain; [exact Hjob|done].
Defined.

(** The comments call the branch for an existing file one that leaves the record
    in the Ready state; a failed record stays failed, and the job succeeds. *)
Lemma existing_file_of_failed_export :
  let '(r, (d', _)) := sample_run (lit "failed") {[ lit "exports/5/1.gpx" := [1%N] ]} in
  r = Ok tt /\ row_status d' = Some (lit "failed").
Proof. vm_compute. done. Qed.

(** The first failure is the last: a later delivery, the storage being back, is
    refused. *)
Definition broken_put : Bucket (gmap rstr bytes) := {|
  put_object_with_content_type _ _ _ := throw (lit "connection refused");
  get_object := get_object; delete_object := delete_object; bucket_head_object := bucket_head_object;
  presign_put := presign_put; presign_get := presign_get |}.

Lemma transient_failure_is_final :
  let '(r, (d', st')) := process (H := broken_put) (lit "missing") sample_delivery
                           (sample_db (lit "queued"), ∅) in
  is_ok r = false /\ row_status d' = Some (lit "failed") /\
  let '(r'', (d'', _)) := process (lit "missing") sample_delivery (d', st') in
  is_ok r'' = false /\ d'' = d'.
Proof. vm_compute. done. Qed.
