(* ===== verification/ExportsApi.v ===== *)
(** The endpoints of exports: crates/api/src/exports.rs and exports_dto.rs, and
    the placeholders that crates/api/src/main.rs gives them.

    The job queue, the generator of download URLs and the audit sink are optional
    services of the application's state. *)
From S2P Require Import Prelude Float64 RustString Utf8 RecordedActivity RouteVersioning.
From S2P Require Imports.
From S2P Require Import Exports Http Api ImportApi.

(** [ExportAuditSink::record]: actor, action, type and id of the resource. *)
Definition ExportAuditSink (S : Type) := uuid -> rstr -> rstr -> rstr -> eff S ExportError unit.


Definition DOWNLOAD_URL_TTL_SECONDS : N := 300.

Definition SAFE_EXPORT_FAILURE_REASONS : list rstr :=
  [lit "generation failed"; lit "format not supported"; lit "route version unavailable";
   lit "export file corrupted"].

Record RequestExportRequest := mkExportRequest { rer_route_version_id : uuid; rer_format : rstr }.

Section responses.
Context `{Imports.UnicodeLower} `{UuidDisplay} `{DateTimeText}.

Definition sanitize_export_reason (reason : rstr) : rstr :=
  let lower := Imports.to_lowercase reason in
  if existsb (fun safe => starts_with safe lower) SAFE_EXPORT_FAILURE_REASONS then reason
  else lit "an internal error occurred".

(** [ExportStatusResponse]. *)
Definition export_to_status_response (j : ExportJob) : Json :=
  JObject
    ([(lit "id", json_uuid (ej_id j)); (lit "status", JString (export_status_display (ej_status j)));
      (lit "format", JString (export_format_display (ej_format j)));
      (lit "routeVersionId", json_uuid (ej_route_version_id j));
      (lit "activityId", json_uuid (ej_activity_id j))]
     ++ optional_field (lit "failureReason") (fun r => JString (sanitize_export_reason r))
          (ej_failure_reason j)
     ++ optional_field (lit "checksum") JString (ej_checksum j)
     ++ optional_field (lit "expiresAt") json_datetime (ej_expires_at j)
     ++ [(lit "createdAt", json_datetime (ej_created_at j));
         (lit "updatedAt", json_datetime (ej_updated_at j))]).

(** [RequestExportResponse]. *)
Definition request_export_response (j : ExportJob) : Json :=
  JObject [(lit "exportId", json_uuid (ej_id j));
           (lit "status", JString (export_status_display (ej_status j)))].

(** [ExportDownloadUrlResponse]. *)
Definition download_response (info : DownloadInfo) (filename checksum content_type : rstr) : Json :=
  JObject [(lit "downloadUrl", JString (di_url info)); (lit "filename", JString filename);
           (lit "expiresAt", json_datetime (di_expires_at info)); (lit "checksum", JString checksum);
           (lit "contentType", JString content_type)].

Definition parse_format (format : rstr) : result ApiError ExportFormat :=
  if decide (Imports.to_lowercase format = lit "gpx") then Ok Gpx
  else Err (validation_error (lit "unsupported export format: " ++ format)).
End responses.

Definition export_error_to_api_error (e : ExportError) : ApiError :=
  match e with
  | NotFound | Unauthorized => not_found_error (lit "export not found")
  | InvalidTransition from to =>
      ApiError_new 409 (lit "INVALID_STATE_TRANSITION")
        (lit "cannot transition from " ++ from ++ lit " to " ++ to)
        (lit "/problems/invalid-state-transition") (lit "Invalid State Transition")
  | IdempotencyPayloadMismatch =>
      ApiError_new 409 (lit "IDEMPOTENCY_PAYLOAD_MISMATCH")
        (lit "idempotency key reused with different payload")
        (lit "/problems/idempotency-conflict") (lit "Idempotency Conflict")
  | RouteVersionNotFound => not_found_error (lit "route version not found")
  | ActivityNotFound => not_found_error (lit "activity not found")
  | ValidationFailed message => validation_error message
  | PersistenceError _ | ChecksumMismatch _ _ => unexpected_error
  | ArtifactExpired =>
      ApiError_new 410 (lit "ARTIFACT_EXPIRED") (lit "export artifact has expired and is no longer available")
        (lit "/problems/artifact-expired") (lit "Artifact Expired")
  | NotReady status =>
      ApiError_new 409 (lit "EXPORT_NOT_READY")
        (lit "export is not ready for download: current status is " ++ status)
        (lit "/problems/export-not-ready") (lit "Export Not Ready")
  end.

(** ** File names *)

Definition is_ascii_alphanumeric (c : rchar) : bool :=
  ((48 <=? c) && (c <=? 57) || (65 <=? c) && (c <=? 90) || (97 <=? c) && (c <=? 122))%N.

(** The loop that drops a hyphen after a hyphen. *)
Fixpoint collapse_hyphens (prev_hyphen : bool) (s : rstr) : rstr :=
  match s with
  | [] => []
  | c :: s' =>
      if (c =? 45)%N then
        if prev_hyphen then collapse_hyphens true s' else c :: collapse_hyphens true s'
      else c :: collapse_hyphens false s'
  end.

Definition is_hyphen : rchar -> bool := N.eqb 45.

(** The subtraction panics in a debug build and wraps in a release build for an
    extension of a hundred bytes. *)
Definition sanitize_filename {E} (name extension : rstr) : result E rstr :=
  let max_base_len := u64_sub (u64_sub 100 (str_len extension)) 1 in
  let sanitized := map (fun c => if is_ascii_alphanumeric c || is_hyphen c then c else 45%N) name in
  let result := trim_end_matches is_hyphen (trim_start_matches is_hyphen (collapse_hyphens false sanitized)) in
  result ← if (max_base_len <? str_len result)%N
           then result ← slice_to result max_base_len; mret (trim_end_matches is_hyphen result)
           else mret result;
  let base := if is_empty result then lit "export" else result in
  mret (base ++ lit "." ++ extension).

(** ** Endpoints *)

Section endpoints.
Context {S : Type} `{ExportRepository S} `{RouteVersionGateway S} `{UuidBytes} `{ExportHash}
  `{Imports.UnicodeLower} `{UuidDisplay} `{DateTimeText}.
(** [serde_json::to_value] of a payload. *)
Context (job_to_value : GenerateExportJob -> rstr + Json).
Context (job_queue : option (JobEnqueuer S)) (download_url_generator : option (DownloadUrlGenerator S))
  (audit_sink : option (ExportAuditSink S)).

Abbreviation handler := (eff S ApiError Response) (only parsing).

Definition call_export {A} (m : eff S ExportError A) : eff S ApiError A :=
  eff_map_err export_error_to_api_error m.

Definition export_payload (j : ExportJob) : GenerateExportJob :=
  mkGenerateExport (ej_id j) (ej_activity_id j) (ej_route_version_id j) (ej_requested_by j)
    (export_format_display (ej_format j)) (ej_id j).

Definition enqueue_generation (queue : JobEnqueuer S) (j : ExportJob) : eff S ApiError unit :=
  payload_json ← lift (match job_to_value (export_payload j) with
                       | inr json => Ok json
                       | inl _ => Err unexpected_error
                       end);
  eff_map_err (fun _ => enqueue_failed) (queue GENERATE_EXPORT_JOB_TYPE payload_json (ej_id j));;
  mret tt.

Definition post_request_export (new_id : uuid) (now : datetime) (actor activity_id : uuid)
    (headers : HeaderMap) (body : RequestExportRequest) : handler :=
  idempotency_key ← lift (idempotency_key_of headers);
  format ← lift (parse_format (rer_format body));
  let cmd := mkRequestExport actor activity_id (rer_route_version_id body) format idempotency_key in
  export_job ← call_export (handle_request_export new_id now cmd);
  match job_queue with
  | Some queue => enqueue_generation queue export_job
  | None => mret tt
  end;;
  mret (json_response 202 (request_export_response export_job)).

Definition get_export_status (actor export_id : uuid) : handler :=
  export_job ← call_export (handle_get_export export_id actor);
  mret (json_response 200 (export_to_status_response export_job)).

Definition get_export_download (now : datetime) (actor export_id : uuid) : handler :=
  export_job ← call_export (handle_download_export now export_id actor);
  storage_key ← lift (ok_or (ej_object_storage_key export_job) unexpected_error);
  let checksum := default [] (ej_checksum export_job) in
  let '(content_type, extension) :=
    match ej_format export_job with Gpx => (lit "application/gpx+xml", lit "gpx") end in
  filename ← lift (sanitize_filename (lit "export") extension);
  generate ← lift (ok_or download_url_generator unexpected_error);
  download_info ← call_export (generate storage_key filename content_type DOWNLOAD_URL_TTL_SECONDS);
  match audit_sink with
  | Some record =>
      attempt (record actor (lit "export.download") (lit "export_job") (uuid_display export_id));; mret tt
  | None => mret tt
  end;;
  mret (with_header (lit "cache-control") (lit "no-store")
    (json_response 200 (download_response download_info filename checksum content_type))).
End endpoints.

(** ** Production

    The placeholders of main.rs: a repository that keeps nothing and a gateway
    that agrees to everything; no queue, no URLs, no audit. *)

Definition InMemoryExportRepoPlaceholder {S} : ExportRepository S := {|
  save_export _ := mret tt;
  find_export _ := mret None;
  find_export_by_key _ _ := mret None;
  update_export _ := mret tt |}.

Definition StubRouteVersionGatewayPlaceholder {S} : RouteVersionGateway S := fun _ _ _ => mret tt.

Section production.
Context `{UuidBytes} `{ExportHash} `{Imports.UnicodeLower} `{UuidDisplay} `{DateTimeText}.
Context (job_to_value : GenerateExportJob -> rstr + Json).

Inductive ExportRequest : Type :=
| ExportCreation (new_id : uuid) (now : datetime) (actor activity_id : uuid) (headers : HeaderMap)
    (body : RequestExportRequest)
| ExportStatusRequest (actor export_id : uuid)
| ExportDownload (now : datetime) (actor export_id : uuid).

(** The state of production holds nothing of exports. *)
Definition serve_export {S} (request : ExportRequest) : eff S ApiError Response :=
  let _ := @InMemoryExportRepoPlaceholder S in
  let _ := @StubRouteVersionGatewayPlaceholder S in
  match request with
  | ExportCreation new_id now actor activity_id headers body =>
      post_request_export job_to_value None new_id now actor activity_id headers body
  | ExportStatusRequest actor export_id => get_export_status actor export_id
  | ExportDownload now actor export_id => get_export_download None None now actor export_id
  end.
End production.
