(* ===== verification/ExportsApiTheory.v ===== *)
(** The endpoints of exports (ExportsApi.v): file names are safe, a request can be
    repeated until its job is queued, and production keeps no export. *)
From S2P Require Import Prelude Float64 RustString Utf8 RecordedActivity RouteVersioning.
From S2P Require Imports.
From S2P Require Import Exports ExportTheory Http Api ImportApi ExportsApi.
#[local] Set Default Proof Using "Type".

(** ** File names *)

(** Letters, digits and single hyphens; [prev_hyphen] if a hyphen comes before. *)
Fixpoint tidy (prev_hyphen : bool) (s : rstr) : bool :=
  match s with
  | [] => true
  | c :: s' => if (c =? 45)%N then negb prev_hyphen && tidy true s'
               else is_ascii_alphanumeric c && tidy false s'
  end.

(** Words of letters and digits, joined by single hyphens. *)
Fixpoint slug_from (prev_hyphen : bool) (s : rstr) : bool :=
  match s with
  | [] => negb prev_hyphen
  | c :: s' => if (c =? 45)%N then negb prev_hyphen && slug_from true s'
               else is_ascii_alphanumeric c && slug_from false s'
  end.
Definition slug (s : rstr) : bool := slug_from true s.

Lemma is_hyphen_eq c : is_hyphen c = (c =? 45)%N.
Proof. apply N.eqb_sym. Qed.
#[local] Arguments is_hyphen : simpl never.
#[local] Arguments N.eqb : simpl never.

Lemma collapse_tidy p s :
  Forall (fun c => is_ascii_alphanumeric c || is_hyphen c = true) s -> tidy p (collapse_hyphens p s) = true.
Proof.
  intros Hs. revert p. induction Hs as [|c s Hc _ IH]; intros p; [done|]. simpl.
  rewrite is_hyphen_eq in Hc. destruct (N.eqb_spec c 45) as [->|Hn].
  - destruct p; [apply IH|]. simpl. apply IH.
  - rewrite orb_false_r in Hc. simpl. rewrite (proj2 (N.eqb_neq c 45) Hn), Hc. apply IH.
Qed.

Lemma drop_hyphens_tidy s : tidy false s = true -> tidy true (drop_while is_hyphen s) = true.
Proof.
  destruct s as [|c s]; [done|]. simpl. rewrite is_hyphen_eq.
  destruct (N.eqb_spec c 45) as [->|Hn]; simpl.
  - destruct s as [|c s]; [done|]. simpl. rewrite is_hyphen_eq. destruct (N.eqb_spec c 45); [done|].
    simpl. by rewrite (proj2 (N.eqb_neq c 45)).
  - by rewrite (proj2 (N.eqb_neq c 45) Hn).
Qed.

Lemma tidy_app p a b : tidy p (a ++ b) = true -> tidy p a = true.
Proof.
  revert p. induction a as [|c a IH]; intros p; [done|]. simpl.
  destruct (c =? 45)%N; intros [-> Hr]%andb_true_iff; by rewrite (IH _ Hr).
Qed.

Lemma drop_while_app (p : rchar -> bool) s : exists k, s = k ++ drop_while p s /\ Forall (fun c => p c = true) k.
Proof.
  induction s as [|c s (k & Hs & Hk)]; [by exists []|]. simpl. destruct (p c) eqn:Hc; [|by exists []].
  exists (c :: k). simpl. rewrite <- Hs. auto.
Qed.
Lemma drop_while_head (p : rchar -> bool) s c r : drop_while p s = c :: r -> p c = false.
Proof. induction s as [|x s IH]; [done|]. simpl. destruct (p x) eqn:Hx; [done|]. by intros [= <- _]. Qed.

Lemma trim_end_app p s : exists k, s = trim_end_matches p s ++ k.
Proof.
  unfold trim_end_matches. destruct (drop_while_app p (reverse s)) as (k & Hk & _). exists (reverse k).
  rewrite <- reverse_app, <- Hk. by rewrite reverse_involutive.
Qed.
Lemma trim_end_last p s a c : trim_end_matches p s = a ++ [c] -> p c = false.
Proof.
  unfold trim_end_matches. intros Hs. apply (f_equal reverse) in Hs.
  rewrite reverse_involutive, reverse_snoc in Hs. by eapply drop_while_head.
Qed.

(** A tidy string that ends in no hyphen is a slug, if it is not empty. *)
Lemma tidy_slug p s :
  tidy p s = true -> (forall a c, s = a ++ [c] -> is_hyphen c = false) -> (s = [] -> p = false) ->
  slug_from p s = true.
Proof.
  revert p. induction s as [|c s IH]; intros p Ht Hl He; [simpl; by rewrite He|]. simpl in *.
  assert (forall a x, s = a ++ [x] -> is_hyphen x = false) as Hl' by (intros a x ->; by apply (Hl (c :: a))).
  destruct (N.eqb_spec c 45) as [->|Hn]; apply andb_true_iff in Ht as [-> Ht]; simpl.
  - apply IH; [done..|]. intros ->. by specialize (Hl [] 45%N eq_refl).
  - by apply IH.
Qed.

Lemma trimmed_slug s :
  tidy true s = true -> trim_end_matches is_hyphen s = [] \/ slug (trim_end_matches is_hyphen s) = true.
Proof.
  intros Ht. destruct (trim_end_matches is_hyphen s) as [|c r] eqn:Hr; [by left|right]. rewrite <- Hr.
  apply tidy_slug; [|apply trim_end_last|by rewrite Hr].
  destruct (trim_end_app is_hyphen s) as [k Hk]. rewrite Hk in Ht. by eapply tidy_app.
Qed.

Lemma trim_end_keeps p s : (forall a c, s = a ++ [c] -> p c = false) -> trim_end_matches p s = s.
Proof.
  intros Hl. unfold trim_end_matches. destruct s as [|c a] using rev_ind; [done|].
  rewrite reverse_snoc. simpl. by rewrite (Hl a c eq_refl), reverse_cons, reverse_involutive.
Qed.

(** *** Bytes of a tidy string *)

Lemma alphanumeric_ascii c : is_ascii_alphanumeric c = true -> (c < 128)%N.
Proof.
  unfold is_ascii_alphanumeric. rewrite !orb_true_iff, !andb_true_iff, !N.leb_le. lia.
Qed.

Lemma tidy_ascii p s : tidy p s = true -> Forall (fun c => (c < 128)%N) s.
Proof.
  revert p. induction s as [|c s IH]; intros p; [constructor|]. simpl.
  destruct (N.eqb_spec c 45) as [->|Hn]; intros [Hc Hs]%andb_true_iff; (constructor; [|by eapply IH]); [lia|].
  by apply alphanumeric_ascii.
Qed.

Lemma ascii_text_len s : Forall (fun c => (c < 128)%N) s -> str_len s = len s.
Proof.
  induction 1 as [|c s Hc _ IH]; [done|]. simpl. unfold len_utf8. rewrite (proj2 (N.ltb_lt c 128) Hc), IH.
  by rewrite len_cons.
Qed.

Lemma ascii_slice {E} s n :
  Forall (fun c => (c < 128)%N) s -> (n <= length s)%nat ->
  slice_to (E := E) s (N.of_nat n) = Ok (take n s).
Proof.
  intros Hs. revert n. induction Hs as [|c s Hc _ IH]; intros [|n] Hn; [done|simpl in Hn; lia|done|].
  cbn [slice_to]. unfold len_utf8. rewrite (proj2 (N.ltb_lt c 128) Hc).
  rewrite (proj2 (N.eqb_neq _ _)) by lia. rewrite (proj2 (N.leb_le _ _)) by lia.
  replace (N.of_nat (S n) - 1)%N with (N.of_nat n) by lia. rewrite IH by (simpl in Hn; lia). done.
Qed.

(** *** Slugs are left alone *)

Lemma slug_tidy p s : slug_from p s = true -> tidy p s = true.
Proof.
  revert p. induction s as [|c s IH]; intros p; [done|]. simpl.
  destruct (c =? 45)%N; intros [-> Hs]%andb_true_iff; by rewrite (IH _ Hs).
Qed.

Lemma slug_last p a c : slug_from p (a ++ [c]) = true -> is_hyphen c = false.
Proof.
  revert p. induction a as [|x a IH]; intros p; simpl.
  - rewrite is_hyphen_eq. destruct (c =? 45)%N; [|done]. by rewrite andb_false_r.
  - destruct (x =? 45)%N; intros [_ Hs]%andb_true_iff; by eapply IH.
Qed.

Lemma tidy_map p s :
  tidy p s = true -> map (fun c => if is_ascii_alphanumeric c || is_hyphen c then c else 45%N) s = s.
Proof.
  revert p. induction s as [|c s IH]; intros p; [done|]. simpl. rewrite is_hyphen_eq.
  destruct (N.eqb_spec c 45) as [->|Hn]; intros [Hc Hs]%andb_true_iff.
  - by rewrite (IH true).
  - by rewrite Hc, (IH false).
Qed.

Lemma tidy_collapse p s : tidy p s = true -> collapse_hyphens p s = s.
Proof.
  revert p. induction s as [|c s IH]; intros p; [done|]. simpl.
  destruct (N.eqb_spec c 45) as [->|Hn]; intros [Hc Hs]%andb_true_iff.
  - destruct p; [done|]. by rewrite IH.
  - by rewrite IH.
Qed.

Lemma tidy_weaken s : tidy true s = true -> tidy false s = true.
Proof. destruct s as [|c s]; [done|]. simpl. by destruct (c =? 45)%N. Qed.

(** The truncation, which leaves at most [m] bytes. *)
Lemma cut_base t m :
  tidy true t = true -> t = [] \/ slug t = true ->
  exists r, (forall E, (if (m <? str_len t)%N
                        then r ← slice_to (E := E) t m; mret (trim_end_matches is_hyphen r)
                        else mret t) = Ok r) /\
    (r = [] \/ slug r = true) /\ (len r <= m)%N /\ ((len t <= m)%N -> r = t).
Proof.
  intros Ht Hs. rewrite (ascii_text_len t (tidy_ascii _ _ Ht)).
  destruct (N.ltb_spec m (len t)) as [Hm|Hm]; [|by exists t].
  exists (trim_end_matches is_hyphen (take (N.to_nat m) t)).
  assert (N.to_nat m <= length t)%nat as Hm' by (unfold len in Hm; lia).
  split_and!.
  - intros E. rewrite <- (N2Nat.id m) at 1. by rewrite (ascii_slice t _ (tidy_ascii _ _ Ht) Hm').
  - apply trimmed_slug. rewrite <- (take_drop (N.to_nat m) t) in Ht. by eapply tidy_app.
  - destruct (trim_end_app is_hyphen (take (N.to_nat m) t)) as [k Hk]. apply (f_equal length) in Hk.
    rewrite length_app, length_take in Hk. unfold len. lia.
  - lia.
Qed.

(** C18: the file name of a download is safe, whatever the name it is made from: the
    base is words of ASCII letters and digits joined by single hyphens, never
    empty, so no name can leave the quotes of a Content-Disposition header; the
    whole has at most a hundred bytes; the slicing never panics; and a name that
    is such a base and fits is kept. *)
Theorem sanitize_filename_safe {E} name extension :
  Forall (fun c => is_ascii_alphanumeric c = true) extension -> (len extension <= 90)%N ->
  exists base, sanitize_filename (E := E) name extension = Ok (base ++ lit "." ++ extension) /\
    slug base = true /\ (str_len (base ++ lit "." ++ extension) <= 100)%N /\
    (slug name = true -> (str_len name + str_len extension <= 99)%N -> base = name).
Proof.
  intros Hext Hlen.
  assert (Forall (fun c => (c < 128)%N) extension) as Hext'
    by (eapply Forall_impl; [exact Hext|]; intros c; apply alphanumeric_ascii).
  pose proof (ascii_text_len extension Hext') as Hel.
  set (m := (99 - len extension)%N).
  assert (u64_sub (u64_sub 100 (str_len extension)) 1 = m) as Hm.
  { rewrite Hel. unfold u64_sub, u64_wrap, u64_modulus, m. rewrite (N.mod_small (len extension)) by lia.
    replace (100 + 2 ^ 64 - len extension)%N with ((100 - len extension) + 1 * 2 ^ 64)%N by lia.
    rewrite N.Div0.mod_add, (N.mod_small (100 - len extension)) by lia.
    replace (100 - len extension + 2 ^ 64 - 1 mod 2 ^ 64)%N with ((99 - len extension) + 1 * 2 ^ 64)%N
      by (change (1 mod 2 ^ 64)%N with 1%N; lia).
    by rewrite N.Div0.mod_add, N.mod_small by lia. }
  unfold sanitize_filename. rewrite Hm. set (clean := map _ name).
  assert (tidy true (trim_start_matches is_hyphen (collapse_hyphens false clean)) = true) as Ht.
  { apply drop_hyphens_tidy, collapse_tidy. apply Forall_forall. intros c (x & -> & _)%list_elem_of_fmap.
    destruct (is_ascii_alphanumeric x || is_hyphen x) eqn:Hx; [exact Hx|done]. }
  set (t := trim_end_matches is_hyphen _).
  assert (tidy true t = true) as Htt.
  { destruct (trim_end_app is_hyphen (trim_start_matches is_hyphen (collapse_hyphens false clean))) as [k Hk].
    rewrite Hk in Ht. by eapply tidy_app. }
  destruct (cut_base t m Htt) as (r & Hr & Hslug & Hrl & Hkeep); [by apply trimmed_slug|].
  exists (if is_empty r then lit "export" else r).
  rewrite (Hr E). split; [done|]. split; [|split].
  - destruct Hslug as [-> |Hs]; [done|]. by destruct r.
  - rewrite ascii_text_len.
    + rewrite !len_app. change (len (lit ".")) with 1%N. unfold m in Hrl.
      destruct r; [change (len (if is_empty [] then lit "export" else [])) with 6%N; lia|]. simpl is_empty. cbn iota. lia.
    + rewrite !Forall_app. split_and!; [|by repeat constructor|done].
      destruct Hslug as [-> |Hs]; [by repeat constructor|]. destruct (is_empty r); [by repeat constructor|].
      eapply tidy_ascii, slug_tidy, Hs.
  - intros Hn Hfit. pose proof (slug_tidy _ _ Hn) as Htn.
    assert (t = name) as Heq.
    { unfold t, clean. rewrite (tidy_map true name Htn), (tidy_collapse false name (tidy_weaken name Htn)).
      unfold trim_start_matches. assert (drop_while is_hyphen name = name) as ->.
      { destruct name as [|c n]; [done|]. unfold slug in Hn. simpl in Hn |- *. rewrite is_hyphen_eq. by destruct (c =? 45)%N. }
      apply trim_end_keeps. intros a c ->. by eapply slug_last. }
    rewrite (ascii_text_len name (tidy_ascii _ _ Htn)), Hel in Hfit.
    rewrite Hkeep, Heq by (rewrite Heq; unfold m; lia). by destruct name.
Qed.

(** ** Requests *)

Lemma idempotency_key_status headers e : idempotency_key_of headers = Err e -> ae_status e = 400%N.
Proof.
  unfold idempotency_key_of. run. destruct (get_header _ headers) as [key|]; simpl; [|by intros [= <-]].
  destruct (is_empty _); simpl; [by intros [= <-]|done].
Qed.

Section request.
Context {S : Type} `{Laws : ExportRepositoryLaws S} `{gateway : RouteVersionGateway S} `{bytes_of : UuidBytes}
  `{hash : ExportHash} `{lower : Imports.UnicodeLower} `{display : UuidDisplay} `{text : DateTimeText}.
Context (job_to_value : GenerateExportJob -> rstr + Json).
(** The gateway and the queue do not touch the exports. *)
Context (Hgateway : forall a v o s, exports (snd (verify_owned_route_version a v o s)) = exports s).
Definition apart (queue : JobEnqueuer S) : Prop :=
  forall job_type p c s, exports (snd (queue job_type p c s)) = exports s.

(** What a request does once it has its export. *)
Definition queued_response (queue : JobEnqueuer S) (j : ExportJob) : eff S ApiError Response :=
  enqueue_generation job_to_value queue j;; mret (json_response 202 (request_export_response j)).

Lemma post_request_export_run queue new_id now actor activity headers body key format s :
  idempotency_key_of headers = Ok key -> parse_format (rer_format body) = Ok format ->
  let cmd := mkRequestExport actor activity (rer_route_version_id body) format key in
  post_request_export job_to_value (Some queue) new_id now actor activity headers body s =
    (j ← call_export (handle_request_export new_id now cmd); queued_response queue j) s.
Proof. intros Hk Hf cmd. unfold post_request_export, queued_response. run. by rewrite Hk, Hf. Qed.

Lemma queued_response_cases queue j s :
  apart queue ->
  let '(r, s') := queued_response queue j s in
  exports s' = exports s /\
  match r with
  | Ok response => response = json_response 202 (request_export_response j) /\
      exists payload jid, job_to_value (export_payload j) = inr payload /\
        queue GENERATE_EXPORT_JOB_TYPE payload (ej_id j) s = (Ok jid, s')
  | Err e => e = unexpected_error \/ e = enqueue_failed
  | Panicked => True
  end.
Proof.
  intros Hq. unfold queued_response, enqueue_generation. run.
  destruct (job_to_value (export_payload j)) as [e|payload]; [split; [done|by left]|]. simpl.
  specialize (Hq GENERATE_EXPORT_JOB_TYPE payload (ej_id j) s).
  destruct (queue _ payload _ s) as [[jid|e|] s'] eqn:Hrun; simpl in *; split; eauto 10.
Qed.

(** C17: the handler of export requests, given a queue and a repository that keeps
    exports, can be asked again until the job is queued.  This is the handler as it
    is written, not production: main.rs gives it no queue and a repository that
    keeps nothing, and there an answer of 202 has stored and queued nothing
    (exports_vanish_in_production).  The hypotheses: the repository meets its
    contract, in which each call may also fail, the gateway to the routes writes
    nothing, and the queue leaves the exports alone.  Then a request answered with
    202 has put the generation of the export it names on the queue, and the export
    is stored as the user's, under the request's key; and after a request that was
    answered with 202, or with the error that the queue failed, every repetition of
    it, while the exports are as it left them, ends in one of two ways: the repository fails, and the answer is the error
    500 and nothing has changed; or the same export is found, no other is created,
    and its job is given to the queue again, whose outcome is the answer. *)
Theorem export_request_recovers queue new_id now actor activity headers body s :
  unique_export_keys (exports s) -> apart queue ->
  let '(r, s') := post_request_export job_to_value (Some queue) new_id now actor activity headers body s in
  match r with Ok _ => True | Err e => e = enqueue_failed | Panicked => False end ->
  exists j id key, exports s' !! id = Some j /\ ej_requested_by j = actor /\
    idempotency_key_of headers = Ok key /\ ej_idempotency_key j = key /\ unique_export_keys (exports s') /\
    (forall response, r = Ok response -> response = json_response 202 (request_export_response j) /\
       exists payload jid s1, job_to_value (export_payload j) = inr payload /\
         queue GENERATE_EXPORT_JOB_TYPE payload (ej_id j) s1 = (Ok jid, s')) /\
    forall queue' new_id' now' s2, exports s2 = exports s' ->
      post_request_export job_to_value (Some queue') new_id' now' actor activity headers body s2 =
        (Err unexpected_error, s2) \/
      post_request_export job_to_value (Some queue') new_id' now' actor activity headers body s2 =
        queued_response queue' j s2.
Proof using Laws Hgateway.
  intros Hu Hq.
  destruct (idempotency_key_of headers) as [key|e|] eqn:Hkey.
  2: { unfold post_request_export. run. rewrite Hkey. intros ->.
       by apply idempotency_key_status in Hkey. }
  2: { unfold post_request_export. run. rewrite Hkey. by intros []. }
  destruct (parse_format (rer_format body)) as [format|e|] eqn:Hfmt.
  2: { unfold post_request_export. run. rewrite Hkey, Hfmt. intros ->. unfold parse_format in Hfmt. by case_decide. }
  2: { unfold post_request_export. run. rewrite Hkey, Hfmt. by intros []. }
  pose proof (fun q i t => post_request_export_run q i t actor activity headers body key format) as Hrun.
  set (cmd := mkRequestExport actor activity (rer_route_version_id body) format key) in *.
  rewrite (Hrun queue new_id now s Hkey Hfmt). unfold call_export. run.
  destruct (handle_request_export new_id now cmd s) as [[j|e|] s1] eqn:Hreq; [|by destruct e|by intros []].
  simpl. destruct (request_export_ok Hgateway new_id now cmd s j s1 Hreq) as (He & Ho & Hk & Hh & Hstored).
  pose proof (queued_response_cases queue j s1 Hq) as Hc.
  destruct (queued_response queue j s1) as [r s'] eqn:Hresp. destruct Hc as [Hs' Hc].
  assert (unique_export_keys (exports s') /\ exists id, exports s' !! id = Some j) as [Hu' [id Hj]].
  { rewrite Hs'. destruct Hstored as [[-> Hid]|(-> & _ & _ & _ & _ & _ & Hnew)]; [by split|].
    split; [|exists new_id; by rewrite lookup_insert_eq].
    apply unique_export_keys_insert; [done|]. intros i k Hi Hik. rewrite Hk. apply (Hnew i k Hi). by rewrite Hik. }
  intros Hr. exists j, id, key. split_and!; try done.
  - intros response ->. destruct Hc as (-> & payload & jid & Hp & Hjid). eauto 10.
  - intros queue' new_id' now' s2 Hs2. rewrite (Hrun queue' new_id' now' s2 Hkey Hfmt). unfold call_export. run.
    destruct (request_export_again new_id' now' cmd s2 j id) as [[m ->]| ->]; try (by rewrite Hs2); try done;
      [by left|]. rewrite decide_True by done. by right.
Qed.
End request.

(** ** Production *)

(** Production keeps no export.  Whatever the requests, nothing is stored; a
    request that is accepted names an export that every later question about it
    answers with 404, and so does every download. *)
Theorem exports_vanish_in_production {S} `{UuidBytes} `{ExportHash} `{Imports.UnicodeLower} `{UuidDisplay}
    `{DateTimeText} job_to_value (request : ExportRequest) (s : S) :
  snd (serve_export job_to_value request s) = s /\
  match request with
  | ExportCreation new_id _ _ _ _ _ => forall response,
      fst (serve_export job_to_value request s) = Ok response ->
      rs_status response = 202%N /\ rs_body response =
        Some (JObject [(lit "exportId", json_uuid new_id); (lit "status", JString (lit "queued"))])
  | _ => fst (serve_export job_to_value request s) = Err (not_found_error (lit "export not found"))
  end.
Proof.
  destruct request as [new_id now actor activity headers body|actor id|now actor id]; [|by split..].
  unfold serve_export, post_request_export, call_export, handle_request_export. run.
  destruct (idempotency_key_of headers) as [key|e|] eqn:Hk; [|by split..].
  destruct (parse_format (rer_format body)) as [format|e|]; [|by split..].
  simpl. destruct (is_empty (trim key)) eqn:He; simpl; [by split|]. unfold new_export. rewrite He. simpl. split; [done|].
  by intros response [= <-].
Qed.

(** ** Witnesses *)

Lemma sanitize_filename_safe_witness :
  exists base, sanitize_filename (E := unit) (lit "Monte-Rosa") (lit "gpx") = Ok (base ++ lit "." ++ lit "gpx") /\
    slug base = true.
Proof.
  destruct (sanitize_filename_safe (E := unit) (lit "Monte-Rosa") (lit "gpx")) as (base & Hb & Hs & _).
  - by repeat constructor.
  - vm_compute. done.
  - by exists base.
Defined.

Example sanitize_filename_hostile :
  sanitize_filename (E := unit) ([34%N] ++ lit "; rm -rf /" ++ [13%N; 10%N] ++ lit "X: y") (lit "gpx") =
    Ok (lit "rm-rf-X-y.gpx").
Proof. vm_compute. done. Qed.

#[local] Instance sample_lower : Imports.UnicodeLower := map ascii_lower.
#[local] Instance sample_uuid : UuidDisplay := display_N.
#[local] Instance sample_bytes : UuidBytes := fun id => [id].
#[local] Instance sample_hash : ExportHash := fun b => b.
#[local] Instance sample_time : DateTimeText := fun _ => lit "now".
#[local] Instance sample_gateway : RouteVersionGateway (gmap N ExportJob) := fun _ _ _ => mret tt.

Definition sample_value (job : GenerateExportJob) : rstr + Json := inr (json_uuid (ge_export_job_id job)).
Definition broken_queue : JobEnqueuer (gmap N ExportJob) := fun _ _ _ => throw (lit "timed out").
Definition working_queue : JobEnqueuer (gmap N ExportJob) := fun _ _ _ => mret 9%N.
Definition sample_headers : HeaderMap := {[ lit "idempotency-key" := lit "key" ]}.
Definition sample_post (queue : JobEnqueuer (gmap N ExportJob)) (new_id : uuid) :=
  post_request_export sample_value (Some queue) new_id 0 5 2 sample_headers (mkExportRequest 3 (lit "GPX")).

Lemma sample_gateway_apart a v o (s : gmap N ExportJob) :
  exports (snd (verify_owned_route_version a v o s)) = exports s.
Proof. done. Qed.
Lemma broken_queue_apart : apart broken_queue.
Proof. by intros job_type p c s. Qed.
Lemma empty_unique : unique_export_keys (exports (∅ : gmap N ExportJob)).
Proof. intros a b i j Hi. change ((∅ : gmap N ExportJob) !! a = Some i) in Hi. by rewrite lookup_empty in Hi. Qed.

Lemma export_request_recovers_witness :
  fst (sample_post broken_queue 1 ∅) = Err enqueue_failed /\
  exists j, sample_post working_queue 8 (snd (sample_post broken_queue 1 ∅)) =
    queued_response sample_value working_queue j (snd (sample_post broken_queue 1 ∅)) /\
    ej_requested_by j = 5%N.
Proof.
  assert (fst (sample_post broken_queue 1 ∅) = Err enqueue_failed) as Hf by (vm_compute; reflexivity).
  split; [exact Hf|].
  pose proof (export_request_recovers sample_value sample_gateway_apart broken_queue 1 0 5 2 sample_headers
    (mkExportRequest 3 (lit "GPX")) ∅ empty_unique broken_queue_apart) as Hp.
  assert (fst (sample_post working_queue 8 (snd (sample_post broken_queue 1 ∅))) <> Err unexpected_error) as Hok
    by (vm_compute; discriminate).
  unfold sample_post in *. destruct (post_request_export _ (Some broken_queue) _ _ _ _ _ _ ∅) as [r s'].
  simpl in Hf. subst r. destruct (Hp eq_refl) as (j & id & key & _ & Ho & _ & _ & _ & _ & Hagain).
  exists j. split; [|exact Ho]. destruct (Hagain working_queue 8%N 0%Z s' eq_refl) as [He|He]; [|exact He].
  cbn [snd] in Hok. by rewrite He in Hok.
Defined.
