(* ===== verification/RecordedRoute.v ===== *)
(** The repository of recorded routes,
    crates/infrastructure/src/recorded_route_persistence.rs: the two queries over
    the shared tables and the reading of the stored JSON.  A value of a JSON
    column is the one that was stored. *)
From S2P Require Import Prelude Float64 RustString RecordedActivity RouteVersioning.
From S2P Require Import ActivityCatalog Database.

(** ** Reading JSON

    [?] in the closures of [filter_map] skips the element. *)

Definition json_f64_at (name : rstr) (v : Json) : option f64 := json_get name v ≫= json_to_f64.

Definition coordinate_of (lat lng : f64) : option Coordinate :=
  match Coordinate_new lat lng with Ok c => Some c | _ => None end.

(** [if coords.is_empty() { None } else { Some(RouteSegment { .. }) }]. *)
Definition route_segment (coords : list Coordinate) : option RouteSegment :=
  match coords with [] => None | _ => Some (mkRouteSegment coords) end.

Definition parse_point (p : Json) : option Coordinate :=
  coord ← json_get (lit "coordinate") p;
  lat ← json_f64_at (lit "latitude") coord;
  lng ← json_f64_at (lit "longitude") coord;
  coordinate_of lat lng.

Definition parse_segment (seg : Json) : option RouteSegment :=
  points ← json_get (lit "points") seg ≫= json_as_array;
  route_segment (omap parse_point points).

Definition parse_legacy_point (p : Json) : option Coordinate :=
  arr ← json_as_array p;
  lng ← head arr ≫= json_to_f64;
  lat ← arr !! 1 ≫= json_to_f64;
  coordinate_of lat lng.

Definition parse_legacy_segment (seg : Json) : option RouteSegment :=
  points ← json_as_array seg;
  route_segment (omap parse_legacy_point points).

Definition parse_geometry_legacy (geometry_json : Json) : list RouteSegment :=
  match json_get (lit "segments") geometry_json ≫= json_as_array with
  | Some segments => omap parse_legacy_segment segments
  | None => []
  end.

Definition parse_geometry (geometry_json : Json) : list RouteSegment :=
  match json_as_array geometry_json with
  | Some segments => omap parse_segment segments
  | None => parse_geometry_legacy geometry_json
  end.

Definition parse_bounding_box (bbox_json : Json) : option BoundingBox :=
  sw ← json_get (lit "south_west") bbox_json;
  ne ← json_get (lit "north_east") bbox_json;
  sw_lat ← json_f64_at (lit "latitude") sw;
  sw_lng ← json_f64_at (lit "longitude") sw;
  ne_lat ← json_f64_at (lit "latitude") ne;
  ne_lng ← json_f64_at (lit "longitude") ne;
  south_west ← coordinate_of sw_lat sw_lng;
  north_east ← coordinate_of ne_lat ne_lng;
  Some (mkBoundingBox south_west north_east).

(** [unwrap_or_else(|| BoundingBox::new(..))] of two zero coordinates. *)
Definition null_island : BoundingBox :=
  mkBoundingBox (mkCoordinate f64_zero f64_zero) (mkCoordinate f64_zero f64_zero).

(** ** The queries *)

(** [WHERE sr.activity_id = $1] of the join, with the number to sort by. *)
Definition joined_track (activity_id : uuid) (d : Database) (rt : RecordedTrackRow)
    : option (Z * RecordedTrackRow) :=
  sr ← db_revisions d !! rtr_source_revision_id rt;
  if (srr_activity_id sr =? activity_id)%N then Some (srr_revision_number sr, rt) else None.

(** [ORDER BY sr.revision_number DESC LIMIT 1]: the first of those with the highest
    number. *)
Definition latest_of (best : option (Z * RecordedTrackRow)) (r : Z * RecordedTrackRow)
    : option (Z * RecordedTrackRow) :=
  match best with
  | Some b => if (fst b <? fst r)%Z then Some r else Some b
  | None => Some r
  end.

Definition latest_track (activity_id : uuid) (d : Database) : option RecordedTrackRow :=
  snd <$> fold_left latest_of
    (omap (joined_track activity_id d) (map snd (map_to_list (db_tracks d)))) None.

(** [i32 as u32]. *)
Definition u32_of_i32 (n : Z) : N := Z.to_N (n mod 2 ^ 32).

Definition row_statistics (rt : RecordedTrackRow) : RouteStatistics :=
  mkRouteStatistics (rtr_distance_meters rt) (rtr_elevation_gain_meters rt)
    (rtr_elevation_loss_meters rt) (u32_of_i32 (rtr_point_count rt))
    (u32_of_i32 (rtr_segment_count rt)).

Definition pg_recorded_route (activity_id : uuid)
    : eff Database RecordedActivityError (option RecordedRouteData) :=
  d ← get;
  mret (rt ← latest_track activity_id d;
        let segments := parse_geometry (rtr_geometry_json rt) in
        let bounding_box := default null_island (parse_bounding_box (rtr_bounding_box_json rt)) in
        Some (mkRecordedRouteData activity_id segments bounding_box (row_statistics rt))).

Definition pg_recorded_route_preview (activity_id : uuid)
    : eff Database RecordedActivityError (option RecordedRoutePreview) :=
  d ← get;
  mret (rt ← latest_track activity_id d;
        let bounding_box := default null_island (parse_bounding_box (rtr_bounding_box_json rt)) in
        Some (mkRecordedRoutePreview activity_id bounding_box (row_statistics rt))).

#[export] Instance PgRecordedRouteRepository : RecordedRouteRepository Database := {|
  get_recorded_route_data := pg_recorded_route;
  get_recorded_route_preview := pg_recorded_route_preview |}.

(** ** The activity repository within the database *)

Definition on_activities {A} (m : eff (gmap N ActivityRow) ActivityCatalogError A)
    : eff Database ActivityCatalogError A := zoom db_activities set_activities m.

#[export] Instance DbActivityRepository `{CursorJson} `{CursorText} (now : datetime) (duplicate : rstr)
    : ActivityRepository Database := {|
  repo_list_activities owner cursor page_size := on_activities (pg_list_activities owner cursor page_size);
  find_activity id := on_activities (pg_find_activity id);
  save_activity a := on_activities (pg_save_activity duplicate a);
  update_activity a := on_activities (pg_update_activity a);
  delete_row id := on_activities (pg_delete_row now id) |}.
