(* ===== verification/RecordedRouteTheory.v ===== *)
(** What an import records is what is served: the JSON of a track reads back as
    the track, a track that was committed stays the one that its activity's
    recorded route is read from, and together with the parser and the
    normalisation, the route served is that of the file. *)
From S2P Require Import Prelude Float64 RustString RustVec Utf8 GpxParser GpxParserTheory.
From S2P Require Import RecordedActivity RecordedActivityTheory RouteVersioning.
From S2P Require Import ActivityCatalog Imports ImportHandlers Database ImportCommit ImportCommitTheory RecordedRoute.

(** ** Numbers *)

Lemma in_range_finite lo hi x :
  is_finite lo = true -> is_finite hi = true -> range_contains lo hi x = true -> is_finite x = true.
Proof. by destruct lo, hi, x as [|[]| |]. Qed.

Lemma u32_of_i32_of n : (n < u32_modulus)%N -> u32_of_i32 (i32_of (Z.of_N n)) = n.
Proof.
  intros Hn. unfold u32_modulus in Hn. unfold u32_of_i32, i32_of, to_signed.
  change (2 ^ Z.of_N 32)%Z with (2 ^ 32)%Z.
  rewrite (Z.mod_small (Z.of_N n)) by lia. case_match.
  - rewrite Z.mod_small by lia. lia.
  - rewrite Zminus_mod, Z.mod_same, Z.sub_0_r, Z.mod_mod, Z.mod_small by lia. lia.
Qed.

(** ** The JSON of a track *)

#[local] Arguments lit : simpl never.

(** What serde derives for the structs: an object with a field for each field,
    whose value is the field's. *)
Definition coordinate_value (v : Json) (c : Coordinate) : Prop :=
  json_get (lit "latitude") v = Some (json_f64 (latitude c)) /\
  json_get (lit "longitude") v = Some (json_f64 (longitude c)).
Definition point_value (v : Json) (p : TrackPoint) : Prop :=
  exists cv, json_get (lit "coordinate") v = Some cv /\ coordinate_value cv (tp_coordinate p).
Definition segment_value (v : Json) (s : TrackSegment) : Prop :=
  exists vs, json_get (lit "points") v = Some (JArray vs) /\ Forall2 point_value vs (ts_points s).
Definition box_value (v : Json) (b : BoundingBox) : Prop :=
  exists sw ne, json_get (lit "south_west") v = Some sw /\ coordinate_value sw (south_west b) /\
    json_get (lit "north_east") v = Some ne /\ coordinate_value ne (north_east b).

Class DerivedJson `{CommitJson} := {
  segments_derived l v : segments_to_value l = inr v ->
    exists vs, v = JArray vs /\ Forall2 segment_value vs l;
  bounding_box_derived b v : bounding_box_to_value b = inr v -> box_value v b }.

(** The route of a segment: its coordinates. *)
Definition route_of (s : TrackSegment) : RouteSegment := mkRouteSegment (map tp_coordinate (ts_points s)).

Definition segment_in_range (s : TrackSegment) : Prop :=
  ts_points s <> [] /\ Forall (fun p => in_range (tp_coordinate p)) (ts_points s).

Lemma json_f64_at_ok name v x :
  json_get name v = Some (json_f64 x) -> is_finite x = true -> json_f64_at name v = Some x.
Proof. intros Hv Hx. unfold json_f64_at, json_f64 in *. by rewrite Hv, Hx. Qed.

(** [reads Hv Hr]: a coordinate in range is read from its value. *)
Lemma read_coordinate v c :
  coordinate_value v c -> in_range c ->
  json_f64_at (lit "latitude") v = Some (latitude c) /\
  json_f64_at (lit "longitude") v = Some (longitude c) /\
  coordinate_of (latitude c) (longitude c) = Some c.
Proof.
  intros [Hlat Hlon] [H1 H2]. unfold lat_ok, lon_ok in *. split_and!.
  - eapply json_f64_at_ok; [done|]. by eapply in_range_finite; [..|exact H1]; vm_compute.
  - eapply json_f64_at_ok; [done|]. by eapply in_range_finite; [..|exact H2]; vm_compute.
  - unfold coordinate_of, Coordinate_new. rewrite H1, H2. by destruct c.
Qed.

Lemma parse_point_value v p :
  point_value v p -> in_range (tp_coordinate p) -> parse_point v = Some (tp_coordinate p).
Proof.
  intros (cv & Hcv & Hval) Hr. destruct (read_coordinate _ _ Hval Hr) as (H1 & H2 & H3).
  unfold parse_point. rewrite Hcv. simpl. by rewrite H1, H2.
Qed.

Lemma omap_Forall2 {A B C} (f : A -> option C) (g : B -> C) P (Q : B -> Prop) (l : list A) (k : list B) :
  (forall x y, P x y -> Q y -> f x = Some (g y)) -> Forall2 P l k -> Forall Q k -> omap f l = map g k.
Proof.
  intros Hf. induction 1 as [|x y l k Hxy _ IH]; [done|]. intros [Hy Hk]%Forall_cons.
  unfold omap in *. simpl. by rewrite (Hf x y), IH.
Qed.

Lemma parse_segment_value v s :
  segment_value v s -> segment_in_range s -> parse_segment v = Some (route_of s).
Proof.
  intros (vs & Hvs & Hpts) [Hne Hr]. unfold parse_segment. rewrite Hvs. simpl.
  rewrite (omap_Forall2 parse_point tp_coordinate _ _ vs (ts_points s) parse_point_value Hpts Hr).
  unfold route_segment, route_of. by destruct (ts_points s).
Qed.

Lemma parse_geometry_value vs l :
  Forall2 segment_value vs l -> Forall segment_in_range l -> parse_geometry (JArray vs) = map route_of l.
Proof.
  intros Hvs Hr. exact (omap_Forall2 parse_segment route_of _ _ vs l parse_segment_value Hvs Hr).
Qed.

Lemma parse_box_value v b :
  box_value v b -> in_range (south_west b) -> in_range (north_east b) -> parse_bounding_box v = Some b.
Proof.
  intros (sw & ne & Hsw & Hswv & Hne & Hnev) H1 H2.
  destruct (read_coordinate _ _ Hswv H1) as (A1 & A2 & A3).
  destruct (read_coordinate _ _ Hnev H2) as (B1 & B2 & B3).
  unfold parse_bounding_box. rewrite Hsw, Hne. simpl. rewrite A1, A2, B1, B2. simpl.
  rewrite A3, B3. by destruct b.
Qed.

(** ** The latest track *)

Lemma omap_none {A B} (f : A -> option B) (l : list A) : Forall (fun x => f x = None) l -> omap f l = [].
Proof. induction 1 as [|x l Hx _ IH]; [done|]. unfold omap in *. simpl. by rewrite Hx. Qed.

Lemma omap_unique {A B} (f : A -> option B) (m : gmap N A) k x y :
  m !! k = Some x -> f x = Some y -> (forall k' x', k' <> k -> m !! k' = Some x' -> f x' = None) ->
  omap f (map snd (map_to_list m)) = [y].
Proof.
  intros Hk Hx Hother. apply Permutation_singleton_r.
  transitivity (omap f (map snd ((k, x) :: map_to_list (delete k m)))).
  { apply omap_Permutation, Permutation_map. rewrite <- (insert_delete_id m k x Hk) at 1.
    apply map_to_list_insert, lookup_delete_eq. }
  unfold omap. simpl. rewrite Hx. rewrite (omap_none f); [done|].
  apply Forall_map, Forall_forall. intros [k' x'] Hin%elem_of_map_to_list.
  apply lookup_delete_Some in Hin as [Hne Hin]. by eapply Hother.
Qed.

(** [track] is the only track of the activity. *)
Definition only_track (activity_id : uuid) (track : RecordedTrackRow) (d : Database) : Prop :=
  exists k n, db_tracks d !! k = Some track /\ joined_track activity_id d track = Some (n, track) /\
    forall k' t, k' <> k -> db_tracks d !! k' = Some t -> joined_track activity_id d t = None.

Lemma latest_of_only activity_id track d :
  only_track activity_id track d -> latest_track activity_id d = Some track.
Proof.
  intros (k & n & Hk & Hj & Hother). unfold latest_track.
  by rewrite (omap_unique _ (db_tracks d) k track (n, track)).
Qed.

(** ** Histories *)

(** Every revision is of an activity, every track of a revision. *)
Definition recorded_wf (d : Database) : Prop :=
  (forall k r, db_revisions d !! k = Some r -> is_Some (db_activities d !! srr_activity_id r)) /\
  (forall k t, db_tracks d !! k = Some t -> is_Some (db_revisions d !! rtr_source_revision_id t)).

Section history.
Context `{SqlxDisplay} `{CommitJson} `{StatisticsToJson} `{UuidDisplay}.

(** Commits of imports, which may fail, and whatever else leaves the recorded
    tables alone and removes no activity: nothing in the program does more. *)
Inductive history_step (d : Database) : Database -> Prop :=
| commit_step now audit_id outbox_id data :
    history_step d (snd (pg_commit_import now audit_id outbox_id data d))
| other_step d' :
    db_revisions d' = db_revisions d -> db_tracks d' = db_tracks d ->
    (forall k, is_Some (db_activities d !! k) -> is_Some (db_activities d' !! k)) -> history_step d d'.

Definition settled (activity_id : uuid) (track : RecordedTrackRow) (d : Database) : Prop :=
  recorded_wf d /\ is_Some (db_activities d !! activity_id) /\ only_track activity_id track d.

Lemma committed_wf now audit_id outbox_id data g b r s c d :
  recorded_wf d -> recorded_wf (committed_db now audit_id outbox_id data g b r s c d).
Proof.
  intros [Hr Ht]. split; simpl.
  - intros k r' [[<- <-]|[Hne Hk]]%lookup_insert_Some; simpl; [by rewrite lookup_insert_eq; eauto|].
    destruct (Hr k r' Hk) as [a Ha]. destruct (decide (srr_activity_id r' = icd_activity_id data)) as [->|];
      [by rewrite lookup_insert_eq; eauto|rewrite lookup_insert_ne by done; eauto].
  - intros k t [[<- <-]|[Hne Hk]]%lookup_insert_Some; simpl; [by rewrite lookup_insert_eq; eauto|].
    destruct (Ht k t Hk) as [x Hx].
    destruct (decide (rtr_source_revision_id t = icd_source_revision_id data)) as [->|];
      [by rewrite lookup_insert_eq; eauto|rewrite lookup_insert_ne by done; eauto].
Qed.

Lemma joined_old now audit_id outbox_id data g b r s c d k t activity_id :
  recorded_wf d -> db_revisions d !! icd_source_revision_id data = None -> db_tracks d !! k = Some t ->
  joined_track activity_id (committed_db now audit_id outbox_id data g b r s c d) t =
  joined_track activity_id d t.
Proof.
  intros [_ Ht] Hnew Hk. unfold joined_track. simpl. destruct (Ht k t Hk) as [x Hx].
  by rewrite lookup_insert_ne by congruence.
Qed.

(** The commit of another activity's track. *)
Lemma committed_settled now audit_id outbox_id data g b r s c d activity_id track :
  commit_ready now audit_id outbox_id data d -> settled activity_id track d ->
  settled activity_id track (committed_db now audit_id outbox_id data g b r s c d).
Proof.
  intros (_ & _ & _ & Hrev & _ & Htr & Hact & _) (Hwf & [a Ha] & k & n & Hk & Hj & Hother).
  assert (activity_id <> icd_activity_id data) as Hne by congruence.
  assert (k <> icd_recorded_track_id data) as Hkne by congruence.
  split_and!; [by apply committed_wf|simpl; rewrite lookup_insert_ne by done; eauto|].
  exists k, n. split_and!.
  - simpl. by rewrite lookup_insert_ne.
  - by rewrite (joined_old _ _ _ _ _ _ _ _ _ d k track).
  - intros k' t Hk'. simpl. intros [[<- <-]|[Hne' Ht]]%lookup_insert_Some.
    + unfold joined_track. simpl. rewrite lookup_insert_eq. simpl.
      by rewrite (proj2 (N.eqb_neq _ _) (not_eq_sym Hne)).
    + rewrite (joined_old _ _ _ _ _ _ _ _ _ d k' t) by done. by apply (Hother k').
Qed.

(** A committed track is the only one of its activity. *)
Lemma committed_only_track now audit_id outbox_id data g b r s c d :
  commit_ready now audit_id outbox_id data d -> recorded_wf d ->
  settled (icd_activity_id data) (track_row now data g b)
    (committed_db now audit_id outbox_id data g b r s c d).
Proof.
  intros (_ & _ & _ & Hrev & _ & Htr & Hact & _) Hwf.
  split_and!; [by apply committed_wf|simpl; rewrite lookup_insert_eq; eauto|].
  exists (icd_recorded_track_id data), (icd_revision_number data). split_and!.
  - simpl. by rewrite lookup_insert_eq.
  - unfold joined_track. simpl. rewrite lookup_insert_eq. simpl. by rewrite N.eqb_refl.
  - intros k' t Hk'. simpl. intros [[<- <-]|[Hne' Ht]]%lookup_insert_Some; [done|].
    rewrite (joined_old _ _ _ _ _ _ _ _ _ d k' t) by done. unfold joined_track.
    destruct Hwf as [Hr Ht']. destruct (Ht' k' t Ht) as [x Hx]. rewrite Hx. simpl.
    destruct (N.eqb_spec (srr_activity_id x) (icd_activity_id data)) as [He|]; [|done].
    destruct (Hr _ _ Hx) as [a Ha]. rewrite He in Ha. congruence.
Qed.

Lemma history_settled activity_id track d d' :
  settled activity_id track d -> history_step d d' -> settled activity_id track d'.
Proof.
  intros Hs [now audit_id outbox_id data|d1 Hr Ht Ha].
  - pose proof (committed_settled now audit_id outbox_id data) as Hc. unfold pg_commit_import, transaction.
    pose proof (commit_statements_ok now audit_id outbox_id data d) as Hok.
    destruct (commit_statements now audit_id outbox_id data d) as [[a|e|] d1]; [|done..].
    destruct (Hok a d1 eq_refl) as (Hready & _ & g & b & r & s & c & _ & ->). by apply Hc.
  - destruct Hs as ([Hwr Hwt] & Hact & k & n & Hk & Hj & Hother). unfold settled, recorded_wf, only_track.
    unfold joined_track in *. rewrite Hr, Ht. split_and!; eauto 10.
Qed.

Lemma history_keeps activity_id track d d' :
  settled activity_id track d -> reach history_step d d' -> settled activity_id track d'.
Proof. apply (reach_invariant history_step), history_settled. Qed.
End history.

(** ** The route of a file *)

(** The coordinates of the segments that normalisation keeps. *)
Definition file_route (r : GpxParseResult) : list RouteSegment :=
  map (fun s => mkRouteSegment (map gpx_coordinate (gs_points s))) (usable (result_segments r)).

Definition file_statistics (n : NormalizedTrack) : RouteStatistics :=
  let s := rt_statistics (nt_recorded_track n) in
  mkRouteStatistics (distance_meters s) (elevation_gain_meters s) (elevation_loss_meters s)
    (point_count s) (segment_count s).

Lemma normalized_route `{DateTimeParser} r n :
  normalized_from r n -> map route_of (rt_segments (nt_recorded_track n)) = file_route r.
Proof.
  intros (Hs & _). rewrite Hs. unfold file_route. rewrite map_map. apply map_ext. intros s.
  unfold route_of, track_segment. simpl. by rewrite map_map.
Qed.

Lemma normalized_in_range `{DateTimeParser} r n :
  gpx_result_wf r -> normalized_from r n ->
  Forall segment_in_range (rt_segments (nt_recorded_track n)) /\
  in_range (south_west (rt_bounding_box (nt_recorded_track n))) /\
  in_range (north_east (rt_bounding_box (nt_recorded_track n))) /\
  (point_count (rt_statistics (nt_recorded_track n)) < u32_modulus)%N /\
  (segment_count (rt_statistics (nt_recorded_track n)) < u32_modulus)%N.
Proof.
  intros (Hr & Hpts & Hseg & _) (Hs & Hlen & Hp & Hsc & _ & (T1 & T2 & T3 & T4) & _).
  destruct (usable_points_sub _ Hr) as (Hr' & Hl1 & Hl2). rewrite Hs in *.
  set (kept := usable (result_segments r)) in *.
  assert (Forall in_range (map gpx_coordinate (flat_map gs_points kept))) as Hin
    by (rewrite Forall_map; eapply Forall_impl; [exact Hr'|done]).
  rewrite Forall_forall in Hin. split_and!.
  - rewrite Forall_map in Hlen |- *. apply Forall_forall. intros s Hsin. split.
    + rewrite Forall_forall in Hlen. specialize (Hlen s Hsin). by destruct (ts_points _); simpl in Hlen; [lia|].
    + unfold track_segment. simpl. rewrite Forall_map. apply Forall_forall. intros pt Hpt.
      rewrite Forall_forall in Hr'. apply (Hr' pt). apply list_elem_of_In, in_flat_map.
      exists s. by rewrite <- !list_elem_of_In.
  - destruct T1 as (c & Hc & E1), T3 as (c' & Hc' & E2). split; [rewrite E1|rewrite E2]; by apply Hin.
  - destruct T2 as (c & Hc & E1), T4 as (c' & Hc' & E2). split; [rewrite E1|rewrite E2]; by apply Hin.
  - rewrite Hp. unfold len at 1. rewrite length_map. fold (len (flat_map gs_points kept)).
    unfold result_points, MAX_POINTS, u32_modulus in *. lia.
  - rewrite Hsc. unfold MAX_SEGMENTS, u32_modulus in *. lia.
Qed.

Lemma parsed_file_normal `{DateTimeParser} `{Libm} `{XmlReader} input r new_id n :
  parse_gpx input = Ok r -> normalize_gpx new_id r = Ok n -> gpx_result_wf r /\ normalized_from r n.
Proof.
  intros (_ & p & Hinv & _ & Ht & Hm & Hp & _)%parse_gpx_inv Hn.
  assert (gpx_result_wf r) as Hr by by eapply result_wf_of_inv.
  destruct (normalize_gpx_spec new_id r Hr) as [[_ He]|(_ & n' & He & Hf)]; [congruence|].
  split; [done|]. congruence.
Qed.

Lemma file_points r :
  concat (map rs_points (file_route r)) = map gpx_coordinate (flat_map gs_points (usable (result_segments r))).
Proof.
  unfold file_route. rewrite map_map, flat_map_concat_map, concat_map, map_map. done.
Qed.

(** The box and the counts are those of the route. *)
Lemma file_route_bounds `{DateTimeParser} r n :
  normalized_from r n ->
  let box := rt_bounding_box (nt_recorded_track n) in
  let route := map rs_points (map route_of (rt_segments (nt_recorded_track n))) in
  Forall (Forall (inside box)) route /\ tight box (concat route) /\
  rst_point_count (file_statistics n) = len (concat route) /\
  rst_segment_count (file_statistics n) = len (map route_of (rt_segments (nt_recorded_track n))).
Proof.
  intros Hf box route. unfold route. rewrite (normalized_route r n Hf), file_points.
  destruct Hf as (_ & _ & Hp & Hsc & Hin & Ht & _). split_and!; [|done|done|].
  - rewrite <- file_points in Hin. by apply Forall_concat in Hin.
  - simpl. rewrite Hsc. unfold file_route, len. by rewrite length_map.
Qed.

Section served.
Context `{SqlxDisplay} `{CommitJson} {json_laws : DerivedJson} `{StatisticsToJson} `{UuidDisplay}.

(** What the row of a track in range says. *)
Lemma served_row data now g b r s c activity_id d :
  serializable data g b r s c ->
  Forall segment_in_range (icd_segments data) ->
  in_range (south_west (icd_bounding_box data)) -> in_range (north_east (icd_bounding_box data)) ->
  (point_count (icd_statistics data) < u32_modulus)%N ->
  (segment_count (icd_statistics data) < u32_modulus)%N ->
  settled activity_id (track_row now data g b) d ->
  let statistics :=
    mkRouteStatistics (distance_meters (icd_statistics data)) (elevation_gain_meters (icd_statistics data))
      (elevation_loss_meters (icd_statistics data)) (point_count (icd_statistics data))
      (segment_count (icd_statistics data)) in
  pg_recorded_route activity_id d =
    (Ok (Some (mkRecordedRouteData activity_id (map route_of (icd_segments data)) (icd_bounding_box data)
                 statistics)), d) /\
  pg_recorded_route_preview activity_id d =
    (Ok (Some (mkRecordedRoutePreview activity_id (icd_bounding_box data) statistics)), d).
Proof using json_laws.
  intros (Hg & Hb & _) Hseg Hsw Hne Hpc Hsc (_ & _ & Honly%latest_of_only).
  destruct (segments_derived _ _ Hg) as (vs & -> & Hvs). apply bounding_box_derived in Hb.
  unfold pg_recorded_route, pg_recorded_route_preview. run. rewrite Honly. simpl.
  unfold row_statistics. simpl. rewrite !u32_of_i32_of by done.
  by rewrite (parse_geometry_value _ _ Hvs Hseg), (parse_box_value _ _ Hb).
Qed.

(** After the commit of a file's track: what the repository answers, for good. *)
Lemma imported_route `{DateTimeParser} `{Libm} `{XmlReader} input r new_id n
    ids import owner_id import_id key correlation_id file_bytes hash version stats
    now audit_id outbox_id d a d1 d2 :
  parse_gpx input = Ok r -> normalize_gpx new_id r = Ok n -> recorded_wf d ->
  pg_commit_import now audit_id outbox_id
    (build_commit_data ids import owner_id import_id key correlation_id file_bytes hash n version stats) d
    = (Ok a, d1) ->
  reach history_step d1 d2 ->
  let box := rt_bounding_box (nt_recorded_track n) in
  pg_recorded_route a d2 = (Ok (Some (mkRecordedRouteData a (file_route r) box (file_statistics n))), d2) /\
  pg_recorded_route_preview a d2 = (Ok (Some (mkRecordedRoutePreview a box (file_statistics n))), d2).
Proof using json_laws.
  intros Hparse Hn Hwf Hc Hreach box. set (data := build_commit_data _ _ _ _ _ _ _ _ _ _ _) in *.
  destruct (parsed_file_normal input r new_id n Hparse Hn) as [Hr Hfrom].
  unfold pg_commit_import, transaction in Hc.
  destruct (commit_statements now audit_id outbox_id data d) as [[a'|e|] d'] eqn:Hs; try done.
  injection Hc as -> ->.
  destruct (commit_statements_ok now audit_id outbox_id data d a d1 Hs)
    as (Hready & -> & g & b & rv & s & c & Hser & ->).
  pose proof (committed_only_track now audit_id outbox_id data g b rv s c d Hready Hwf) as Hset.
  pose proof (history_keeps _ _ _ _ Hset Hreach) as Hend.
  destruct (normalized_in_range r n Hr Hfrom) as (H1' & H2' & H3' & H4' & H5').
  rewrite <- (normalized_route r n Hfrom).
  exact (served_row data now g b rv s c (icd_activity_id data) d2 Hser H1' H2' H3' H4' H5' Hend).
Qed.

End served.

(** ** Witness

    A writer that meets [DerivedJson], and the import of the sample file. *)

Definition coordinate_json (c : Coordinate) : Json :=
  JObject [(lit "latitude", json_f64 (latitude c)); (lit "longitude", json_f64 (longitude c))].
Definition point_json (p : TrackPoint) : Json :=
  JObject [(lit "coordinate", coordinate_json (tp_coordinate p));
           (lit "elevation", json_option_f64 (meters <$> tp_elevation p));
           (lit "timestamp", JNull)].
Definition segment_json (s : TrackSegment) : Json :=
  JObject [(lit "points", JArray (map point_json (ts_points s)))].
Definition box_json (b : BoundingBox) : Json :=
  JObject [(lit "south_west", coordinate_json (south_west b));
           (lit "north_east", coordinate_json (north_east b))].

#[local] Instance plain_json : CommitJson := {|
  segments_to_value l := inr (JArray (map segment_json l));
  bounding_box_to_value b := inr (box_json b);
  coordinates_to_value l := inr (JArray (map coordinate_json l));
  recorded_statistics_to_value _ := inr JNull |}.

Lemma coordinate_json_value c : coordinate_value (coordinate_json c) c.
Proof. by split; vm_compute. Qed.

Lemma Forall2_mapped {A B} (f : B -> A) (P : A -> B -> Prop) l :
  (forall y, P (f y) y) -> Forall2 P (map f l) l.
Proof. intros Hf. induction l; by constructor. Qed.

#[local] Instance plain_json_derived : DerivedJson.
Proof.
  split.
  - intros l v [= <-]. eexists. split; [done|]. apply Forall2_mapped. intros s.
    exists (map point_json (ts_points s)). split; [by vm_compute|]. apply Forall2_mapped. intros p.
    exists (coordinate_json (tp_coordinate p)). split; [by vm_compute|apply coordinate_json_value].
  - intros b v [= <-]. exists (coordinate_json (south_west b)), (coordinate_json (north_east b)).
    split_and!; first [apply coordinate_json_value | by vm_compute].
Qed.

#[local] Instance sample_sqlx : SqlxDisplay := fun _ => lit "violation".
#[local] Instance sample_uuid : UuidDisplay := display_N.
#[local] Instance sample_statistics : StatisticsToJson := fun _ => inr JNull.
#[local] Instance sample_reader : XmlReader := fun _ => sample_events.
#[local] Instance sample_dates : DateTimeParser := fun _ => None.
#[local] Instance sample_libm : Libm := {| f64_sin := id; f64_cos := id; f64_asin := id |}.

Definition sample_import_ids : FreshIds := mkFreshIds 21 22 23 24 25 26.
Definition sample_version : RouteVersion :=
  mkVersion 25 21 None 1 [] null_island (mkCorrected f64_zero 0 []) [] None 5 0.
Definition empty_db : Database := mkDb {[ 5%N ]} ∅ ∅ ∅ ∅ ∅ ∅ None ∅ ∅.
Definition sample_data (n : NormalizedTrack) : ImportCommitData :=
  build_commit_data sample_import_ids ImportTheory.sample_import 5 1 (lit "key") 9 (bs "<gpx/>") (lit "hash") n
    sample_version (mkCorrected f64_zero 0 []).

Lemma sample_commits n : exists a d1, pg_commit_import 3 31 32 (sample_data n) empty_db = (Ok a, d1).
Proof.
  destruct (commit_statements_run 3 31 32 (sample_data n) empty_db) as [d1 Hd].
  - unfold commit_ready. split_and!; try done. by eexists _, _, _, _, _.
  - exists 21%N, d1. unfold pg_commit_import, transaction. by rewrite Hd.
Qed.

