(* ===== verification/ActivitiesApi.v ===== *)
(** The endpoints of activities: crates/api/src/activities.rs and
    activities_dto.rs, with the repositories and the audit sink that
    crates/api/src/main.rs gives them. *)
From S2P Require Import Prelude Float64 RustString Utf8 Imports RecordedActivity RouteVersioning.
From S2P Require Import ActivityCatalog Legs Database ImportWorker RecordedRoute Http Api.

Definition activity_error_to_api_error (e : ActivityCatalogError) : ApiError :=
  match e with
  | CActivityNotFound | CUnauthorized => not_found_error (lit "activity not found")
  | InvalidTitle message => validation_error message
  | VersionNotBelongsToActivity =>
      ApiError_new 422 (lit "VERSION_NOT_BELONGS_TO_ACTIVITY")
        (lit "version does not belong to this activity") (lit "/problems/validation-failed")
        (lit "Validation Failed")
  | InvalidCursor message =>
      ApiError_new 400 (lit "INVALID_CURSOR") message (lit "/problems/invalid-cursor")
        (lit "Invalid Cursor")
  | PersistenceError _ => internal_error (lit "a persistence error occurred")
  end.

(** ** Responses *)

(** chrono's serialisation of a [NaiveDate]. *)
Class DateText := date_text : Z -> rstr.

Section responses.
Context `{UuidDisplay} `{DateTimeText} `{DateText}.

Definition json_option_datetime (t : option datetime) : Json :=
  match t with Some t => json_datetime t | None => JNull end.
Definition json_N (n : N) : Json := JInt (Z.of_N n).
Definition json_date (d : date) : Json := JString (date_text d).

(** [ActivitySummaryResponse]. *)
Definition activity_summary (a : Activity) : Json :=
  JObject
    ([(lit "id", json_uuid (ac_id a)); (lit "title", JString (title_str (ac_title a)));
      (lit "activityType", JString (type_display (ac_activity_type a)));
      (lit "startedAt", json_option_datetime (ac_started_at a));
      (lit "endedAt", json_option_datetime (ac_ended_at a))]
     ++ optional_field (lit "recordedSummary") id (ac_recorded_summary a)
     ++ optional_field (lit "correctedSummary") id (ac_corrected_summary a)
     ++ [(lit "createdAt", json_datetime (ac_created_at a));
         (lit "updatedAt", json_datetime (ac_updated_at a))]).

(** [PaginationMeta], of this module and of the route versions. *)
Definition pagination_meta (cursor : option rstr) (has_more : bool) (page_size : N) : Json :=
  JObject (optional_field (lit "cursor") JString cursor
           ++ [(lit "hasMore", JBool has_more); (lit "pageSize", json_N page_size)]).

(** [ActivityListResponse]. *)
Definition activity_list (page : ActivityPage) : Json :=
  JObject [(lit "items", JArray (map activity_summary (ap_items page)));
           (lit "pagination", pagination_meta (ap_next_cursor page) (ap_has_more page)
                                (u32_wrap (len (ap_items page))))].

(** [ActivityAggregatedStats]. *)
Record AggregatedStats := mkAggregated {
  ag_total_distance : f64; ag_total_elevation_gain : option f64; ag_total_days : N; ag_total_legs : N }.

Definition aggregated_response (s : AggregatedStats) : Json :=
  JObject ([(lit "totalDistance", json_f64 (ag_total_distance s))]
           ++ optional_field (lit "totalElevationGain") json_f64 (ag_total_elevation_gain s)
           ++ [(lit "totalDays", json_N (ag_total_days s)); (lit "totalLegs", json_N (ag_total_legs s))]).

(** The [json!] of a leg's summary. *)
Definition recorded_summary_json (s : LegSummary) : Json :=
  JObject [(lit "distanceMeters", json_f64 (ls_distance_meters s));
           (lit "elevationGainMeters", json_option_f64 (ls_elevation_gain_meters s));
           (lit "elevationLossMeters", json_option_f64 (ls_elevation_loss_meters s));
           (lit "pointCount", json_N (ls_point_count s));
           (lit "durationSeconds", json_option_f64 (ls_duration_seconds s))].

(** [ActivityLegSummary]. *)
Definition leg_summary_response (leg : Leg) (summary : option LegSummary) : Json :=
  JObject
    ([(lit "id", json_uuid (leg_id leg)); (lit "legNumber", json_N (leg_number leg))]
     ++ optional_field (lit "title") (fun t => JString (leg_title_str t)) (leg_title leg)
     ++ [(lit "date", json_date (leg_date leg))]
     ++ optional_field (lit "recordedSummary") recorded_summary_json summary).

(** [ActivityDetailResponse]. *)
Definition activity_detail (a : Activity) (legs : option (list Json)) (stats : option AggregatedStats)
    : Json :=
  JObject
    ([(lit "id", json_uuid (ac_id a)); (lit "title", JString (title_str (ac_title a)));
      (lit "activityType", JString (type_display (ac_activity_type a)));
      (lit "startedAt", json_option_datetime (ac_started_at a));
      (lit "endedAt", json_option_datetime (ac_ended_at a));
      (lit "lifecycleState", JString (lifecycle_display (ac_lifecycle_state a)))]
     ++ optional_field (lit "recordedSummary") id (ac_recorded_summary a)
     ++ optional_field (lit "correctedSummary") id (ac_corrected_summary a)
     ++ optional_field (lit "currentRouteVersionId") json_uuid (ac_current_route_version_id a)
     ++ optional_field (lit "legs") JArray legs
     ++ optional_field (lit "aggregatedStats") aggregated_response stats
     ++ [(lit "createdAt", json_datetime (ac_created_at a));
         (lit "updatedAt", json_datetime (ac_updated_at a))]).
End responses.
Arguments activity_detail {_ _} a legs stats.

(** ** Handlers *)

(** The accumulators of the loop over the legs. *)
Record LegTotals := mkTotals {
  lt_total_distance : f64; lt_total_elevation_gain : option f64; lt_dates : gset Z }.
Definition no_totals : LegTotals := mkTotals f64_zero None ∅.

(** One leg, with its summary if there is one. *)
Definition add_to_totals (leg : Leg) (summary : option LegSummary) (t : LegTotals) : LegTotals :=
  let '(distance, gain) :=
    match summary with
    | Some s =>
        (f64_add (lt_total_distance t) (ls_distance_meters s),
         match ls_elevation_gain_meters s with
         | Some gain => Some (f64_add (default f64_zero (lt_total_elevation_gain t)) gain)
         | None => lt_total_elevation_gain t
         end)
    | None => (lt_total_distance t, lt_total_elevation_gain t)
    end in
  mkTotals distance gain ({[ leg_date leg ]} ∪ lt_dates t).

Section handlers.
Context {S : Type} `{ActivityRepository S} `{LegRepository S} `{RouteVersionRepository S} `{AuditSink S}.
Context `{UuidDisplay} `{DateTimeText} `{DateText} `{StatisticsToJson} `{DebugStrings}.

Abbreviation handler := (eff S ApiError Response) (only parsing).

Definition call {A} (m : eff S ActivityCatalogError A) : eff S ApiError A :=
  eff_map_err activity_error_to_api_error m.

Definition get_activities (actor : uuid) (cursor : option rstr) (page_size : option N) : handler :=
  page ← call (list_activities actor cursor page_size);
  mret (json_response 200 (activity_list page)).

(** [.await.ok().flatten()]: what goes wrong is a leg without a summary. *)
Definition leg_summary_or_none (id : uuid) : eff S ApiError (option LegSummary) :=
  r ← attempt (get_leg_summary id);
  mret match r with Ok summary => summary | _ => None end.

Fixpoint summarize_legs (legs : list Leg) (summaries : list Json) (t : LegTotals)
    : eff S ApiError (list Json * LegTotals) :=
  match legs with
  | [] => mret (summaries, t)
  | leg :: rest =>
      summary ← leg_summary_or_none (leg_id leg);
      summarize_legs rest (summaries ++ [leg_summary_response leg summary]) (add_to_totals leg summary t)
  end.

Definition get_activity_detail (actor activity_id : uuid) : handler :=
  activity ← call (get_activity activity_id actor);
  found ← attempt (list_legs (ac_id activity));
  let legs := match found with Ok legs => legs | _ => [] end in
  match legs with
  | [] => mret (json_response 200 (activity_detail activity None None))
  | _ =>
      out ← summarize_legs legs [] no_totals;
      let stats := mkAggregated (lt_total_distance (snd out)) (lt_total_elevation_gain (snd out))
                     (u32_wrap (N.of_nat (size (lt_dates (snd out))))) (u32_wrap (len legs)) in
      mret (json_response 200 (activity_detail activity (Some (fst out)) (Some stats)))
  end.

Definition patch_activity_title (now : datetime) (actor activity_id : uuid) (title : rstr) : handler :=
  activity ← call (rename_activity now activity_id actor title);
  mret (json_response 200 (activity_detail activity None None)).

Definition delete_activity_handler (now : datetime) (actor activity_id : uuid) : handler :=
  call (delete_activity now activity_id actor);;
  mret (status_response 204).

Definition post_select_current_route_version (now : datetime) (actor activity_id : uuid)
    (headers : HeaderMap) (route_version_id : uuid) : handler :=
  lift (idempotency_key_of headers);;
  activity ← call (select_current_route_version now activity_id actor route_version_id);
  mret (json_response 200 (activity_detail activity None None)).
End handlers.

(** ** Production *)

(** The database, the legs and the route versions, whose repository is that of
    the haiker_platform crate. *)
Record CatalogDb (V : Type) := mkCatalogDb {
  cd_db : Database; cd_legs : LegDb; cd_versions : V }.
Arguments mkCatalogDb {V}.
Arguments cd_db {V}.
Arguments cd_legs {V}.
Arguments cd_versions {V}.

Section production.
Context {V : Type} `{versions : RouteVersionRepository V} `{CursorJson} `{CursorText} `{SqlxDisplay} `{DbMessages}.
Context `{UuidDisplay} `{DateTimeText} `{DateText} `{StatisticsToJson} `{DebugStrings}.

Definition set_cd_db (d : Database) (s : CatalogDb V) : CatalogDb V := mkCatalogDb d (cd_legs s) (cd_versions s).
Definition set_cd_legs (l : LegDb) (s : CatalogDb V) : CatalogDb V := mkCatalogDb (cd_db s) l (cd_versions s).
Definition set_cd_versions (v : V) (s : CatalogDb V) : CatalogDb V := mkCatalogDb (cd_db s) (cd_legs s) v.

Definition on_db {E A} (m : eff Database E A) : eff (CatalogDb V) E A := zoom cd_db set_cd_db m.
Definition on_legs {E A} (m : eff LegDb E A) : eff (CatalogDb V) E A := zoom cd_legs set_cd_legs m.
Definition on_versions {E A} (m : eff V E A) : eff (CatalogDb V) E A := zoom cd_versions set_cd_versions m.

Definition ApiActivityRepository (now : datetime) (duplicate : rstr) : ActivityRepository (CatalogDb V) :=
  let repo := DbActivityRepository now duplicate in {|
  repo_list_activities owner cursor page_size := on_db (repo_list_activities owner cursor page_size);
  find_activity id := on_db (find_activity id);
  save_activity a := on_db (save_activity a);
  update_activity a := on_db (update_activity a);
  delete_row id := on_db (delete_row id) |}.

Definition ApiLegRepository (now : datetime) : LegRepository (CatalogDb V) :=
  let repo := PgLegRepository now in {|
  list_legs a := on_legs (list_legs a);
  find_leg id := on_legs (find_leg id);
  save_leg l := on_legs (save_leg l);
  update_leg l := on_legs (update_leg l);
  delete_leg id := on_legs (delete_leg id);
  next_leg_number a := on_legs (next_leg_number a);
  reorder_legs a id p := on_legs (reorder_legs a id p);
  get_leg_summary id := on_legs (get_leg_summary id) |}.

Definition ApiVersionRepository : RouteVersionRepository (CatalogDb V) := {|
  save_version v := on_versions (save_version v);
  find_version id := on_versions (find_version id);
  find_latest_by_activity a := on_versions (find_latest_by_activity a);
  find_version_by_key k := on_versions (find_version_by_key k);
  list_by_activity a cursor page_size := on_versions (list_by_activity a cursor page_size) |}.

(** The adapter of main.rs around [AuditLog::append]. *)
Definition AuditSinkAdapter (now : datetime) (new_id : uuid) : AuditSink (CatalogDb V) :=
  fun actor_id action resource_type resource_id =>
  on_db (eff_map_err (fun e => PersistenceError (lit "audit log error: " ++ e))
    (DbAuditLog now new_id actor_id action resource_type resource_id None)).

(** The routes of activities, with the clock and the identifier that the audit log
    makes up. *)
Inductive ActivityRequest : Type :=
| ListRequest (cursor : option rstr) (page_size : option N)
| DetailRequest (activity_id : uuid)
| RenameRequest (activity_id : uuid) (title : rstr)
| DeleteRequest (activity_id : uuid)
| SelectRequest (activity_id : uuid) (headers : HeaderMap) (route_version_id : uuid).

Definition serve_activity (duplicate : rstr) (now : datetime) (audit_id actor : uuid)
    (request : ActivityRequest) : eff (CatalogDb V) ApiError Response :=
  let _ := ApiActivityRepository now duplicate in
  let _ := ApiLegRepository now in
  let _ := ApiVersionRepository in
  let _ := AuditSinkAdapter now audit_id in
  match request with
  | ListRequest cursor page_size => get_activities actor cursor page_size
  | DetailRequest activity_id => get_activity_detail actor activity_id
  | RenameRequest activity_id title => patch_activity_title now actor activity_id title
  | DeleteRequest activity_id => delete_activity_handler now actor activity_id
  | SelectRequest activity_id headers route_version_id =>
      post_select_current_route_version now actor activity_id headers route_version_id
  end.
End production.
