(* ===== verification/ActivitiesApiTheory.v ===== *)
(** The endpoints of activities keep users apart: what a user is answered and what
    becomes of the user's activities does not depend on anybody else's. *)
From stdpp Require Import sorting.
From S2P Require Import Prelude Float64 RustString RustVec Utf8 Sorting Imports RecordedActivity RouteVersioning.
From S2P Require Import ActivityCatalog CatalogTheory Legs Database ImportWorker RecordedRoute Http Api.
From S2P Require Import ActivitiesApi.

(** ** Runs in lockstep

    Two runs from related states end alike, in related states. *)

Definition lockstep {S E A} (R : S -> S -> Prop) (m : eff S E A) : Prop :=
  forall s1 s2, R s1 s2 -> fst (m s1) = fst (m s2) /\ R (snd (m s1)) (snd (m s2)).

Section lockstep.
Context {S : Type} (R : S -> S -> Prop).

Lemma lockstep_bind {E A B} (m : eff S E A) (f : A -> eff S E B) :
  lockstep R m -> (forall a, lockstep R (f a)) -> lockstep R (m ≫= f).
Proof.
  intros Hm Hf s1 s2 Hs. destruct (Hm s1 s2 Hs) as [Hr Hs']. unfold mbind, eff_bind.
  destruct (m s1) as [r1 s1'], (m s2) as [r2 s2']. simpl in *. subst r2.
  destruct r1 as [a|e|]; [by apply Hf|done..].
Qed.

Lemma lockstep_ret {E A} (a : A) : lockstep R (mret a : eff S E A).
Proof. by intros s1 s2 Hs. Qed.
Lemma lockstep_lift {E A} (r : result E A) : lockstep R (lift r).
Proof. by intros s1 s2 Hs. Qed.

Lemma lockstep_attempt {E F A} (m : eff S E A) : lockstep R m -> lockstep R (attempt (F := F) m).
Proof.
  intros Hm s1 s2 Hs. destruct (Hm s1 s2 Hs) as [Hr Hs']. unfold attempt.
  destruct (m s1) as [r1 s1'], (m s2) as [r2 s2']. simpl in *. subst r2. by destruct r1.
Qed.

Lemma lockstep_map_err {E F A} (f : E -> F) (m : eff S E A) : lockstep R m -> lockstep R (eff_map_err f m).
Proof.
  intros Hm s1 s2 Hs. destruct (Hm s1 s2 Hs) as [Hr Hs']. unfold eff_map_err.
  destruct (m s1) as [r1 s1'], (m s2) as [r2 s2']. simpl in *. subst r2. by destruct r1.
Qed.
End lockstep.

Create HintDb lockstep discriminated.
#[export] Hint Resolve lockstep_bind lockstep_ret lockstep_lift lockstep_attempt lockstep_map_err : lockstep.

(** ** Tables *)

(** The tables have the same rows that satisfy [P]. *)
Definition agree (P : ActivityRow -> Prop) (t t' : gmap N ActivityRow) : Prop :=
  forall k r, P r -> (t !! k = Some r <-> t' !! k = Some r).

Definition owned_by (u : uuid) (r : ActivityRow) : Prop := ar_owner_id r = u.
Definition foreign_to (u : uuid) (r : ActivityRow) : Prop := ar_owner_id r <> u.

(** A row whose title cannot be read: whoever's request comes across it panics. *)
Definition unreadable (r : ActivityRow) : Prop := title_panics r = true.
(** What a request of [u] leaves as it is. *)
Definition untouched (u : uuid) (r : ActivityRow) : Prop := foreign_to u r \/ unreadable r.

Lemma listing_after_sorted u c t : StronglySorted row_order (listing_after u c t).
Proof.
  apply StronglySorted_merge_sort; [exact row_order_trans|exact row_order_total].
Qed.

Lemma listing_agrees u c t t' :
  table_ids t -> table_ids t' -> agree (owned_by u) t t' -> listing_after u c t = listing_after u c t'.
Proof.
  intros Hids Hids' Hag.
  pose proof (listing_after_sorted u c t) as Hs. pose proof (listing_after_sorted u c t') as Hs'.
  unfold listing_after in *.
  set (f := fun r => visible_row u r && after_cursor c r).
  assert (forall r, f r = true -> owned_by u r) as Hown
    by (intros r Hr; unfold f, visible_row in Hr; by to_prop).
  assert (forall t0 r, r ∈ List.filter f (rows_in t0) <-> (exists k, t0 !! k = Some r) /\ f r = true) as Hin
    by (intros t0 r; by rewrite list_elem_of_In, filter_In, <- list_elem_of_In, elem_of_rows_in).
  apply (StronglySorted_unique_strong row_order).
  - intros r r' Hr Hr' H1 H2. rewrite merge_sort_Permutation, Hin in Hr, Hr'.
    destruct Hr as [[k Hk] Hf], Hr' as [[k' Hk'] _]. apply (Hag k r (Hown r Hf)) in Hk.
    apply (same_id_same_row t'); [done|apply elem_of_rows_in; eauto..|by apply row_order_antisym].
  - exact Hs.
  - exact Hs'.
  - rewrite !merge_sort_Permutation. apply NoDup_Permutation.
    + by apply NoDup_List_filter, rows_in_NoDup.
    + by apply NoDup_List_filter, rows_in_NoDup.
    + intros r. rewrite !Hin. split; intros [[k Hk] Hf]; (split; [|done]); exists k; by apply (Hag k r (Hown r Hf)).
Qed.

(** ** Twin states *)

Section requests.
Context {V : Type} `{versions : RouteVersionRepository V} `{CursorJson} `{CursorText} `{SqlxDisplay} `{DbMessages}.
Context `{UuidDisplay} `{DateTimeText} `{DateText} `{StatisticsToJson} `{DebugStrings}.
Context (duplicate : rstr) (now : datetime) (audit_id u : uuid).
(** The repository of versions does not write where it looks. *)
Context (Hread : forall id v, snd (find_version id v) = v).
#[local] Set Default Proof Using "All".
#[local] Instance activity_repo : ActivityRepository (CatalogDb V) := ApiActivityRepository now duplicate.
#[local] Instance leg_repo : LegRepository (CatalogDb V) := ApiLegRepository now.
#[local] Instance version_repo : RouteVersionRepository (CatalogDb V) := ApiVersionRepository.
#[local] Instance audit_sink : AuditSink (CatalogDb V) := AuditSinkAdapter now audit_id.

Definition table (s : CatalogDb V) : gmap N ActivityRow := db_activities (cd_db s).

(** The states agree on [u]'s activities; of the activities of others, and of those
    whose titles cannot be read, they have the ones of [t1] and [t2]; the legs and versions are those given; and the activity in
    hand, if there is one, is [u]'s. *)
Record twin (t1 t2 : gmap N ActivityRow) (l : LegDb) (v : V) (hand : option uuid) (s1 s2 : CatalogDb V)
    : Prop := {
  tw_own : agree (owned_by u) (table s1) (table s2);
  tw_others1 : agree (untouched u) (table s1) t1;
  tw_others2 : agree (untouched u) (table s2) t2;
  tw_ids1 : table_ids (table s1);
  tw_ids2 : table_ids (table s2);
  tw_legs1 : cd_legs s1 = l;
  tw_legs2 : cd_legs s2 = l;
  tw_versions1 : cd_versions s1 = v;
  tw_versions2 : cd_versions s2 = v;
  tw_hand : forall id, hand = Some id -> exists r, table s1 !! id = Some r /\ owned_by u r /\ readable r }.

Section steps.
Context (t1 t2 : gmap N ActivityRow) (l0 : LegDb) (v0 : V).
(** Where a title cannot be read, it is in both tables. *)
Context (Hunreadable : agree unreadable t1 t2).
Abbreviation twins := (twin t1 t2 l0 v0) (only parsing).

Lemma lockstep_legs hand {E A} (m : eff LegDb E A) :
  (forall l, snd (m l) = l) -> lockstep (twins hand) (on_legs m).
Proof.
  intros Hm s1 s2 Hs. unfold on_legs, zoom. destruct Hs as [? ? ? ? ? Hl1 Hl2 ? ? ?]. rewrite Hl1, Hl2.
  specialize (Hm l0). destruct (m l0) as [r l]. simpl in Hm. subst l. by split; [|constructor].
Qed.

Lemma lockstep_versions hand {E A} (m : eff V E A) :
  (forall v, snd (m v) = v) -> lockstep (twins hand) (on_versions m).
Proof.
  intros Hm s1 s2 Hs. unfold on_versions, zoom. destruct Hs as [? ? ? ? ? ? ? Hv1 Hv2 ?]. rewrite Hv1, Hv2.
  specialize (Hm v0). destruct (m v0) as [r v]. simpl in Hm. subst v. by split; [|constructor].
Qed.

(** The audit log is nobody's business. *)
Lemma audit_run actor action id s :
  exists s', audit_best_effort actor action id s = (Ok tt, s') /\ table s' = table s /\
    cd_legs s' = cd_legs s /\ cd_versions s' = cd_versions s.
Proof.
  unfold audit_best_effort, record_audit, audit_sink, AuditSinkAdapter, on_db, zoom, DbAuditLog, append_in_tx,
    insert_pk, require. run.
  destruct (bool_decide _); eexists; (split; [reflexivity|]); by split_and!.
Qed.

Lemma lockstep_audit hand actor action id : lockstep (twins hand) (audit_best_effort actor action id).
Proof.
  intros s1 s2 Hs. destruct (audit_run actor action id s1) as (s1' & -> & Ht1 & Hl1 & Hv1).
  destruct (audit_run actor action id s2) as (s2' & -> & Ht2 & Hl2 & Hv2). split; [done|].
  simpl. destruct Hs. constructor; rewrite ?Ht1, ?Ht2; first [done | congruence].
Qed.

(** What a look for an activity finds. *)
Lemma find_cases id s :
  table_ids (table s) ->
  match table s !! id with
  | None => find_activity id s = (Ok None, s)
  | Some r =>
      if title_panics r then find_activity id s = (Panicked, s)
      else exists a, find_activity id s = (Ok (Some a), s) /\
             row_to_activity (E := ActivityCatalogError) r = Ok a /\ ac_owner_id a = ar_owner_id r /\
             ac_id a = id /\ (str_len (title_str (ac_title a)) <= 500)%N
  end.
Proof.
  intros Hids. assert (set_cd_db (set_activities (table s) (cd_db s)) s = s) as Hset
    by (by destruct s as [[] ? ?]).
  unfold find_activity, activity_repo, ApiActivityRepository, on_db, zoom. simpl.
  unfold on_activities, zoom, pg_find_activity. run. fold (table s).
  destruct (table s !! id) as [r|] eqn:Hr; [|by rewrite Hset].
  pose proof (row_reads (E := ActivityCatalogError) r) as Hread_row.
  destruct (title_panics r); [by rewrite Hread_row, Hset|]. destruct Hread_row as [a Ha].
  exists a. rewrite Ha, Hset. split_and!; [done..| | |].
  - unfold row_to_activity in Ha. by apply result_bind_inv in Ha as (? & _ & [= <-]).
  - rewrite <- (Hids id r Hr). unfold row_to_activity in Ha. by apply result_bind_inv in Ha as (? & _ & [= <-]).
  - by eapply row_title_short.
Qed.

(** What a request of [u] sees under an id: the user's own row, or one that cannot
    be read. *)
Definition seen (s : CatalogDb V) (id : uuid) : option ActivityRow :=
  match table s !! id with
  | Some r => if (ar_owner_id r =? u)%N || title_panics r then Some r else None
  | None => None
  end.

Lemma seen_Some s id r :
  seen s id = Some r <-> table s !! id = Some r /\ (owned_by u r \/ unreadable r).
Proof.
  unfold seen, owned_by, unreadable. destruct (table s !! id) as [x|]; [|by split; [|intros []]].
  destruct (title_panics x) eqn:Ht.
  { rewrite orb_true_r. split; [intros [= <-]; by auto|by intros [[= <-] _]]. }
  rewrite orb_false_r. destruct (N.eqb_spec (ar_owner_id x) u) as [Hu|Hu]; split.
  - intros [= <-]. by auto.
  - by intros [[= <-] _].
  - done.
  - intros [[= <-] [|]]; congruence.
Qed.

Lemma twin_seen hand s1 s2 id : twins hand s1 s2 -> seen s1 id = seen s2 id.
Proof.
  intros Hs. assert (forall r, seen s1 id = Some r <-> seen s2 id = Some r) as Hsame.
  { intros r. rewrite !seen_Some. split; intros [Hr Hu]; (split; [|done]); revert Hr;
      (destruct Hu as [Hu|Hu]; [apply (tw_own _ _ _ _ _ _ _ Hs id r Hu)|]);
      rewrite (tw_others1 _ _ _ _ _ _ _ Hs id r (or_intror Hu)), (tw_others2 _ _ _ _ _ _ _ Hs id r (or_intror Hu));
      apply (Hunreadable id r Hu). }
  destruct (seen s1 id) as [r|]; [symmetry; by apply Hsame|].
  destruct (seen s2 id) as [r|]; [by apply Hsame|done].
Qed.

(** What is found is not the user's. *)
Definition not_mine (o : option Activity) : Prop := forall a, o = Some a -> ac_owner_id a <> u.

Lemma find_seen id s :
  table_ids (table s) ->
  match seen s id with
  | None => exists o, find_activity id s = (Ok o, s) /\ not_mine o
  | Some r =>
      if title_panics r then find_activity id s = (Panicked, s)
      else exists a, find_activity id s = (Ok (Some a), s) /\
             row_to_activity (E := ActivityCatalogError) r = Ok a /\ ac_owner_id a = u /\
             ac_id a = id /\ (str_len (title_str (ac_title a)) <= 500)%N
  end.
Proof.
  intros Hids. pose proof (find_cases id s Hids) as C. unfold seen.
  destruct (table s !! id) as [r|]; [|by exists None].
  destruct (title_panics r) eqn:Ht; [by rewrite orb_true_r, Ht|]. rewrite orb_false_r.
  destruct C as (a & Hf & Ha & Ho & Hi & Hl).
  destruct (N.eqb_spec (ar_owner_id r) u) as [Hu|Hu].
  - rewrite Ht. exists a. split_and!; congruence.
  - exists (Some a). split; [done|]. intros a' [= <-]. congruence.
Qed.

(** Either both runs find the user's activity, or neither finds one of the user's,
    or both come across the title that cannot be read. *)
Lemma find_twins id s1 s2 :
  twins None s1 s2 ->
  (exists a, find_activity id s1 = (Ok (Some a), s1) /\ find_activity id s2 = (Ok (Some a), s2) /\
     ac_owner_id a = u /\ ac_id a = id /\ (str_len (title_str (ac_title a)) <= 500)%N /\
     twins (Some id) s1 s2) \/
  (exists o1 o2, find_activity id s1 = (Ok o1, s1) /\ find_activity id s2 = (Ok o2, s2) /\
     not_mine o1 /\ not_mine o2) \/
  (find_activity id s1 = (Panicked, s1) /\ find_activity id s2 = (Panicked, s2)).
Proof.
  intros Hs. pose proof (find_seen id s1 (tw_ids1 _ _ _ _ _ _ _ Hs)) as C1.
  pose proof (find_seen id s2 (tw_ids2 _ _ _ _ _ _ _ Hs)) as C2. rewrite <- (twin_seen _ _ _ id Hs) in C2.
  destruct (seen s1 id) as [r|] eqn:Hseen; [|right; left; naive_solver].
  destruct (title_panics r) eqn:Ht; [by do 2 right|left].
  destruct C1 as (a & Hf1 & Ha & Ho & Hi & Hl), C2 as (a' & Hf2 & Ha' & _).
  assert (a' = a) as -> by congruence. exists a. split_and!; [done..|].
  apply seen_Some in Hseen as [Hr _]. destruct Hs; constructor; try done.
  intros id' [= <-]. exists r. split_and!; [done| |by apply readable_iff].
  unfold owned_by. unfold row_to_activity in Ha. by apply result_bind_inv in Ha as (? & _ & [= <-]).
Qed.

Lemma twin_weaken hand s1 s2 : twins hand s1 s2 -> twins None s1 s2.
Proof. by intros []; constructor. Qed.

(** Storing the activity in hand. *)
Definition stored_row (a : Activity) (r : ActivityRow) : ActivityRow :=
  mkActivityRow (ar_id r) (ar_owner_id r) (title_str (ac_title a)) (type_display (ac_activity_type a))
    (lifecycle_display (ac_lifecycle_state a)) (ac_started_at a) (ac_ended_at a) (ac_recorded_summary a)
    (ac_corrected_summary a) (ac_current_route_version_id a) (ar_created_at r) (ac_updated_at a).

Lemma activity_update_run a s :
  exists s', update_activity a s = (Ok tt, s') /\ table s' = alter (stored_row a) (ac_id a) (table s) /\
    cd_legs s' = cd_legs s /\ cd_versions s' = cd_versions s.
Proof. by eexists. Qed.

Lemma stored_ids a t : table_ids t -> table_ids (alter (stored_row a) (ac_id a) t).
Proof.
  intros Hids k r. rewrite lookup_alter_Some. intros [(<- & r0 & Hr & ->)|[_ Hr]]; by apply (Hids _ _ Hr).
Qed.

Lemma stored_readable a r : (str_len (title_str (ac_title a)) <= 500)%N -> readable (stored_row a r).
Proof. intros Ht. by apply short_row_readable. Qed.

(** The row of a user, changed in place, is no row of anybody else, nor one that
    cannot be read. *)
Lemma stored_untouched a t t' r0 :
  (str_len (title_str (ac_title a)) <= 500)%N -> t !! ac_id a = Some r0 -> owned_by u r0 -> readable r0 ->
  agree (untouched u) t t' -> agree (untouched u) (alter (stored_row a) (ac_id a) t) t'.
Proof.
  intros Ht Hr0 Ho Hrd Hag k r Hf. rewrite <- (Hag k r Hf), lookup_alter_Some.
  unfold untouched, foreign_to, unreadable, owned_by in *. apply readable_iff in Hrd. split.
  - intros [(<- & r1 & Hr1 & ->)|[_ Hr]]; [|done].
    pose proof (proj1 (readable_iff _) (stored_readable a r1 Ht)). simpl in Hf. destruct Hf; congruence.
  - intros Hr. right. split; [|done]. intros <-. destruct Hf; congruence.
Qed.

Lemma lockstep_update a :
  (str_len (title_str (ac_title a)) <= 500)%N -> lockstep (twins (Some (ac_id a))) (update_activity a).
Proof.
  intros Ht s1 s2 Hs. destruct (activity_update_run a s1) as (s1' & -> & Ht1 & Hl1 & Hv1).
  destruct (activity_update_run a s2) as (s2' & -> & Ht2 & Hl2 & Hv2). split; [done|]. simpl.
  destruct Hs as [Hown Ho1 Ho2 Hok1 Hok2 Hlegs1 Hlegs2 Hver1 Hver2 Hhand].
  destruct (Hhand _ eq_refl) as (r0 & Hr0 & Hu & Hrd). pose proof (proj1 (Hown _ r0 Hu) Hr0) as Hr0'.
  constructor; rewrite ?Ht1, ?Ht2; try congruence.
  - intros k r Hr. rewrite !lookup_alter_Some. split; (intros [(<- & r1 & Hr1 & ->)|[Hne Hk]];
      [left; split; [done|]; exists r0; split; [done|congruence]|right; split; [done|by apply (Hown k r Hr)]]).
  - by eapply stored_untouched.
  - by eapply stored_untouched.
  - by apply stored_ids.
  - by apply stored_ids.
  - intros id [= <-]. exists (stored_row a r0). rewrite lookup_alter_eq, Hr0.
    split_and!; [done..|by apply stored_readable].
Qed.

(** Reading: the activity of somebody else is like none. *)
Lemma lockstep_get_activity id : lockstep (twins None) (call (get_activity id u)).
Proof.
  intros s1 s2 Hs. unfold call, get_activity. run.
  destruct (find_twins id s1 s2 Hs) as [(a & -> & -> & _)|[(o1 & o2 & -> & -> & Hn1 & Hn2)|[-> ->]]]; [| |done].
  - by destruct (ok_or _ _).
  - assert (forall o, (forall a, o = Some a -> ac_owner_id a <> u) -> keep_visible u o = None) as Hkeep.
    { intros [a|] Ho; [|done]. unfold keep_visible, visible_to. simpl.
      by rewrite (proj2 (N.eqb_neq _ _) (Ho a eq_refl)). }
    by rewrite !Hkeep.
Qed.

(** Changing: so is it, once the error is turned into a response. *)
Lemma lockstep_owned {A} id (k : Activity -> eff (CatalogDb V) ActivityCatalogError A) :
  (forall a, ac_id a = id -> (str_len (title_str (ac_title a)) <= 500)%N ->
     lockstep (twins (Some id)) (k a)) ->
  lockstep (twins None)
    (call (activity ← load_activity id;
           lift (guard_err (negb (ac_owner_id activity =? u)%N) CUnauthorized);;
           k activity)).
Proof.
  intros Hk s1 s2 Hs. unfold call, load_activity. run.
  destruct (find_twins id s1 s2 Hs)
    as [(a & -> & -> & Ho & Hi & Ht & Htw)|[(o1 & o2 & -> & -> & Hn1 & Hn2)|[-> ->]]]; [| |done].
  - simpl. rewrite Ho, N.eqb_refl. simpl. destruct (Hk a Hi Ht s1 s2 Htw) as [Hr Hs'].
    destruct (k a s1) as [x1 s1'], (k a s2) as [x2 s2']. simpl in *. subst x2.
    apply twin_weaken in Hs'. by destruct x1.
  - assert (forall o, (forall a, o = Some a -> ac_owner_id a <> u) ->
        forall a, ok_or o CActivityNotFound = Ok a -> negb (ac_owner_id a =? u)%N = true) as Hother.
    { intros o Ho a Ha%ok_or_inv. by rewrite (proj2 (N.eqb_neq _ _) (Ho a Ha)). }
    specialize (Hother o1 Hn1) as H1'. specialize (Hother o2 Hn2) as H2'.
    destruct o1 as [a1|], o2 as [a2|]; simpl in *; rewrite ?(H1' _ eq_refl), ?(H2' _ eq_refl); done.
Qed.

(** A listing is made from the listed rows. *)
Lemma lockstep_list hand cursor p :
  lockstep (twins hand) (repo_list_activities u cursor p : eff (CatalogDb V) _ _).
Proof.
  intros s1 s2 Hs. pose proof Hs as [Hown _ _ Hids1 Hids2 _ _ _ _ _].
  unfold repo_list_activities, activity_repo, ApiActivityRepository, on_db, zoom. simpl.
  unfold on_activities, zoom, pg_list_activities. run. fold (table s1) (table s2).
  destruct (read_cursor cursor) as [c|e|]; [|split; [done|]; by destruct Hs; constructor..].
  assert (forall limit t, select_rows u c limit t = take (N.to_nat limit) (listing_after u c t)) as Hsel by done.
  rewrite !Hsel, (listing_agrees u c _ _ Hids1 Hids2 Hown).
  destruct (rows_to_activities _) as [items|e|]; [|split; [done|]; by destruct Hs; constructor..].
  destruct (if (p <? _)%N then _ else _) as [next|e|]; (split; [done|]); by destruct Hs; constructor.
Qed.

Hint Resolve lockstep_audit lockstep_list lockstep_get_activity : lockstep.

Lemma lockstep_summaries legs summaries t :
  lockstep (twins None) (summarize_legs legs summaries t).
Proof.
  revert summaries t. induction legs as [|leg legs IH]; intros summaries t; simpl; [apply lockstep_ret|].
  apply lockstep_bind; [|auto]. unfold leg_summary_or_none.
  apply lockstep_bind; [|auto with lockstep]. by apply lockstep_attempt, lockstep_legs.
Qed.

Lemma lockstep_detail id : lockstep (twins None) (get_activity_detail u id).
Proof.
  unfold get_activity_detail. apply lockstep_bind; [auto with lockstep|]. intros a.
  apply lockstep_bind; [by apply lockstep_attempt, lockstep_legs|]. intros found.
  destruct (match found with Ok legs => legs | _ => [] end) as [|leg legs]; [auto with lockstep|].
  apply lockstep_bind; [apply lockstep_summaries|auto with lockstep].
Qed.

Lemma lockstep_rename id title : lockstep (twins None) (patch_activity_title now u id title).
Proof.
  unfold patch_activity_title. apply lockstep_bind; [|auto with lockstep].
  unfold call, rename_activity. destruct (ActivityTitle_new title) as [new_title|e|] eqn:Ht; [|by intros s1 s2 Hs..].
  apply (lockstep_owned id (fun activity =>
    lift (guard_err (bool_decide (ac_lifecycle_state activity = LDeleted)) CActivityNotFound);; _)).
  intros a <- _. apply lockstep_bind; [auto with lockstep|]. intros _.
  apply lockstep_bind; [|auto with lockstep].
  apply (lockstep_update (update_title now new_title a)). simpl. by eapply title_short.
Qed.

Lemma lockstep_delete id : lockstep (twins None) (delete_activity_handler now u id).
Proof.
  unfold delete_activity_handler. apply lockstep_bind; [|auto with lockstep]. unfold delete_activity.
  apply (lockstep_owned id (fun activity =>
    if bool_decide (ac_lifecycle_state activity = LDeleted) then mret tt else _)).
  intros a <- Hs. destruct (bool_decide _); [auto with lockstep|].
  apply lockstep_bind; [by apply (lockstep_update (delete_state now a))|auto with lockstep].
Qed.

Lemma lockstep_select id headers version :
  lockstep (twins None) (post_select_current_route_version now u id headers version).
Proof.
  unfold post_select_current_route_version. apply lockstep_bind; [auto with lockstep|]. intros _.
  apply lockstep_bind; [|auto with lockstep]. unfold select_current_route_version.
  apply (lockstep_owned id (fun activity =>
    lift (guard_err (bool_decide (ac_lifecycle_state activity = LDeleted)) CActivityNotFound);; _)).
  intros a <- Ht. apply lockstep_bind; [auto with lockstep|]. intros _.
  apply lockstep_bind; [by apply lockstep_map_err, lockstep_versions|]. intros found.
  apply lockstep_bind; [auto with lockstep|]. intros v. apply lockstep_bind; [auto with lockstep|]. intros _.
  apply lockstep_bind; [auto with lockstep|]. intros summary.
  apply lockstep_bind; [by apply (lockstep_update (select_version now version summary a))|auto with lockstep].
Qed.

Lemma lockstep_serve request : lockstep (twins None) (serve_activity duplicate now audit_id u request).
Proof.
  destruct request; simpl;
    [|apply lockstep_detail|apply lockstep_rename|apply lockstep_delete|apply lockstep_select].
  unfold get_activities. apply lockstep_bind; [|auto with lockstep].
  apply lockstep_map_err. unfold list_activities. apply lockstep_list.
Qed.
End steps.
End requests.

(** ** Traces *)

Section traces.
Context {V : Type} `{versions : RouteVersionRepository V} `{CursorJson} `{CursorText} `{SqlxDisplay} `{DbMessages}.
Context `{UuidDisplay} `{DateTimeText} `{DateText} `{StatisticsToJson} `{DebugStrings}.
Context (duplicate : rstr).

(** A request of a user, with the clock and the identifier for the audit log. *)
Record Turn := mkTurn { tn_user : uuid; tn_now : datetime; tn_audit_id : uuid; tn_request : ActivityRequest }.

Definition take_turn (turn : Turn) : eff (CatalogDb V) ApiError Response :=
  serve_activity duplicate (tn_now turn) (tn_audit_id turn) (tn_user turn) (tn_request turn).

(** What [u] is answered in the course of a trace, and the state at its end. *)
Fixpoint answers_to (u : uuid) (trace : list Turn) (s : CatalogDb V)
    : list (result ApiError Response) * CatalogDb V :=
  match trace with
  | [] => ([], s)
  | turn :: rest =>
      let '(r, s) := take_turn turn s in
      let '(answers, s) := answers_to u rest s in
      (if (tn_user turn =? u)%N then r :: answers else answers, s)
  end.

(** The trace without the requests of others. *)
Definition purge (u : uuid) (trace : list Turn) : list Turn :=
  List.filter (fun turn => tn_user turn =? u)%N trace.

(** What [u] cannot tell apart: states with the same activities of [u] and the same
    rows whose titles cannot be read, whoever's they are, since a request for one
    of them panics; with the same legs and the same versions.  The activities of
    the others that can be read may differ in everything. *)
Definition alike (u : uuid) (s1 s2 : CatalogDb V) : Prop :=
  agree (owned_by u) (table s1) (table s2) /\ agree unreadable (table s1) (table s2) /\
  table_ids (table s1) /\ table_ids (table s2) /\
  cd_legs s1 = cd_legs s2 /\ cd_versions s1 = cd_versions s2.

Context (Hread : forall id v, snd (find_version id v) = v).

(** A request of [u] in alike states: alike answers and states; and of others'
    activities, and of those that cannot be read, not one is changed. *)
Lemma turn_alike turn s1 s2 :
  alike (tn_user turn) s1 s2 ->
  fst (take_turn turn s1) = fst (take_turn turn s2) /\
  alike (tn_user turn) (snd (take_turn turn s1)) (snd (take_turn turn s2)) /\
  agree (untouched (tn_user turn)) (table (snd (take_turn turn s1))) (table s1) /\
  cd_legs (snd (take_turn turn s1)) = cd_legs s1 /\ cd_versions (snd (take_turn turn s1)) = cd_versions s1.
Proof using Hread.
  intros (Hown & Hun & Hok1 & Hok2 & Hl & Hv).
  destruct (lockstep_serve duplicate (tn_now turn) (tn_audit_id turn) (tn_user turn) Hread (table s1) (table s2)
              (cd_legs s1) (cd_versions s1) Hun (tn_request turn) s1 s2) as [Hr Hs].
  - by constructor.
  - fold (take_turn turn) in *. destruct Hs as [Hown' Ho1 Ho2 ? ? ? ? ? ? _].
    unfold alike. split_and!; try first [done | congruence].
    intros k r Hr'. rewrite (Ho1 k r (or_intror Hr')), (Ho2 k r (or_intror Hr')). by apply Hun.
Qed.

Lemma alike_refl u s : table_ids (table s) -> alike u s s.
Proof. intros Hok. unfold alike. split_and!; [by intros k r _|by intros k r _|done..]. Qed.

(** Somebody else's request: [u] cannot tell. *)
Lemma turn_unnoticed turn u s :
  tn_user turn <> u -> table_ids (table s) -> alike u s (snd (take_turn turn s)).
Proof using Hread.
  intros Hne Hok. destruct (turn_alike turn s s) as (_ & (_ & _ & Hok' & _) & Hag & Hl & Hv);
    [by apply alike_refl|].
  unfold alike. split_and!; try done; intros k r Hr; symmetry; apply Hag.
  - left. unfold owned_by, foreign_to in *. congruence.
  - by right.
Qed.

Lemma agree_trans P t1 t2 t3 : agree P t1 t2 -> agree P t2 t3 -> agree P t1 t3.
Proof. intros Ha Hb k r Hr. rewrite (Ha k r Hr). by apply Hb. Qed.
Lemma agree_sym P t1 t2 : agree P t1 t2 -> agree P t2 t1.
Proof. intros Ha k r Hr. by rewrite (Ha k r Hr). Qed.

Lemma alike_trans u s1 s2 s3 : alike u s1 s2 -> alike u s2 s3 -> alike u s1 s3.
Proof.
  intros (Ha & Hu & ? & ? & El & Ev) (Hb & Hu' & ? & ? & El' & Ev'). unfold alike. rewrite El, Ev.
  split_and!; [by eapply agree_trans|by eapply agree_trans|done..].
Qed.

Lemma alike_sym u s1 s2 : alike u s1 s2 -> alike u s2 s1.
Proof.
  intros (Ha & Hu & ? & ? & ? & ?). unfold alike. split_and!; [by apply agree_sym|by apply agree_sym|done..].
Qed.

(** C4: users do not notice each other.  However the requests of all users to the
    activity endpoints interleave, a user is answered exactly as if nobody else had
    made any: the answers to the trace are those to the trace without the others'
    requests, and at the end the user's activities are the same too.  The second
    run may start where the first does, or in any state with the same activities of
    the user, the same rows with titles that cannot be read (a request for one of
    those panics, whoever makes it and whosever it is), the same legs and the same
    route versions; what else the others have may differ.  It is assumed that
    finding a version does not write, and that rows carry the id they are stored
    under. *)
Theorem users_do_not_interfere u trace s1 s2 :
  alike u s1 s2 ->
  fst (answers_to u trace s1) = fst (answers_to u (purge u trace) s2) /\
  alike u (snd (answers_to u trace s1)) (snd (answers_to u (purge u trace) s2)).
Proof using Hread.
  revert s1 s2. induction trace as [|turn trace IH]; intros s1 s2 Hs; [done|]. simpl.
  destruct (N.eqb_spec (tn_user turn) u) as [<-|Hne]; simpl.
  - rewrite N.eqb_refl. destruct (turn_alike turn s1 s2 Hs) as (Hr & Hs' & _).
    destruct (take_turn turn s1) as [r1 s1'], (take_turn turn s2) as [r2 s2']. simpl in *. subst r2.
    destruct (IH s1' s2' Hs') as [Ha Hend].
    destruct (answers_to _ trace s1'), (answers_to _ (purge _ trace) s2'). simpl in *. by subst.
  - pose proof (turn_unnoticed turn u s1 Hne (proj1 (proj2 (proj2 Hs)))) as Hn.
    destruct (take_turn turn s1) as [r1 s1']. simpl in Hn.
    destruct (IH s1' s2 (alike_trans _ _ _ _ (alike_sym _ _ _ Hn) Hs)) as [Ha Hend].
    by destruct (answers_to _ trace s1').
Qed.
End traces.

(** ** The totals of an activity's legs

    The handler adds the summaries up by itself; the domain has
    [get_aggregated_stats] for it.  The sums agree up to the sign of a zero. *)

Definition is_zero (x : f64) : bool := match x with S754_zero _ => true | _ => false end.
Definition same_number (x y : f64) : Prop := x = y \/ (is_zero x = true /\ is_zero y = true).

#[export] Instance same_number_equivalence : Equivalence same_number.
Proof.
  split.
  - by left.
  - intros x y [-> | [Hx Hy]]; [by left|by right].
  - intros x y z [-> | [Hx Hy]] [<- | [Hy' Hz]]; [by left|by right..].
Qed.

Lemma f64_add_zero_r x z : is_zero z = true -> same_number (f64_add x z) x.
Proof. destruct z as [[]| | |], x as [[]|[]| |]; try done; intros _; (by left) || (by right). Qed.
Lemma f64_add_zero_l z x : is_zero z = true -> same_number (f64_add z x) x.
Proof. destruct z as [[]| | |], x as [[]|[]| |]; try done; intros _; (by left) || (by right). Qed.

#[export] Instance f64_add_proper : Proper (same_number ==> same_number ==> same_number) f64_add.
Proof.
  intros x x' Hx y y' Hy. transitivity (f64_add x' y).
  - destruct Hx as [<- | [Hx Hx']]; [done|]. by rewrite !f64_add_zero_l.
  - destruct Hy as [<- | [Hy Hy']]; [done|]. by rewrite !f64_add_zero_r.
Qed.

#[local] Arguments f64_add : simpl never.

(** The two accumulators hold the same sums. *)
Definition same_totals (t : LegTotals) (total : LegSummary) : Prop :=
  same_number (lt_total_distance t) (ls_distance_meters total) /\
  option_Forall2 same_number (lt_total_elevation_gain t) (ls_elevation_gain_meters total).

Lemma add_to_totals_same leg summary t total :
  same_totals t total -> same_totals (add_to_totals leg summary t) (combine total (default empty_summary summary)).
Proof.
  intros [Hd Hg]. unfold add_to_totals, combine, same_totals. destruct summary as [s|]; simpl.
  - split; [by rewrite Hd|]. destruct Hg as [x y Hxy|]; destruct (ls_elevation_gain_meters s) as [gain|]; simpl.
    + constructor. by rewrite Hxy.
    + by constructor.
    + constructor. by apply f64_add_zero_l.
    + constructor.
  - split; [by rewrite f64_add_zero_r|]. destruct Hg; by constructor.
Qed.

Section totals.
Context {V : Type} `{DbMessages} `{UuidDisplay} `{DateText}.
Context (now : datetime).
#[local] Instance legs_repo : LegRepository (CatalogDb V) := ApiLegRepository now.
#[local] Instance table_repo : LegRepository LegDb := PgLegRepository now.

Lemma summary_run id (s : CatalogDb V) :
  exists o, get_leg_summary id (cd_legs s) = (Ok o, cd_legs s) /\ leg_summary_or_none id s = (Ok o, s).
Proof.
  assert (set_cd_legs (cd_legs s) s = s) as Hs by by destruct s.
  eexists. split; [reflexivity|]. unfold leg_summary_or_none. run.
  change (get_leg_summary id s) with (let '(r, l) := pg_get_leg_summary id (cd_legs s) in (r, set_cd_legs l s)).
  unfold pg_get_leg_summary. run. by rewrite Hs.
Qed.

Lemma totals_run legs (s : CatalogDb V) summaries t total per_leg :
  same_totals t total ->
  exists summaries' t' st, summarize_legs legs summaries t s = (Ok (summaries', t'), s) /\
    aggregate legs total per_leg (cd_legs s) = (Ok st, cd_legs s) /\ same_totals t' (als_total st) /\
    length summaries' = length summaries + length legs /\
    length (als_per_leg st) = length per_leg + length legs /\
    lt_dates t' = list_to_set (map leg_date legs) ∪ lt_dates t.
Proof.
  revert summaries t total per_leg. induction legs as [|leg legs IH]; intros summaries t total per_leg Ht; simpl.
  { eexists _, _, _. split_and!; [done..|simpl; lia|simpl; lia|set_solver]. }
  destruct (summary_run (leg_id leg) s) as (o & Ho & Ho').
  rewrite (eff_bind_ok _ _ _ _ _ Ho), (eff_bind_ok _ _ _ _ _ Ho').
  destruct (IH (summaries ++ [leg_summary_response leg o]) (add_to_totals leg o t)
    (combine total (default empty_summary o)) (per_leg ++ [mkLegWithSummary leg (default empty_summary o)])
    (add_to_totals_same leg o t total Ht)) as (summaries' & t' & st & -> & -> & Hs & Hl & Hp & Hd).
  eexists _, _, _. rewrite length_app in Hl, Hp. simpl in *.
  split_and!; [done..|lia|lia|]. rewrite Hd. unfold add_to_totals. destruct o; simpl; set_solver.
Qed.

(** C21: the totals that the detail of an activity shows are the domain's.  For
    every activity and all tables, the loop of the handler runs through and
    agrees, up to the sign of a zero, with [get_aggregated_stats] in distance
    and elevation gain; it has one summary for each leg, and the days it counts
    are the distinct dates of the legs. *)
Theorem detail_totals_agree activity_id (s : CatalogDb V) :
  exists legs summaries t st,
    list_legs activity_id s = (Ok legs, s) /\
    summarize_legs legs [] no_totals s = (Ok (summaries, t), s) /\
    get_aggregated_stats activity_id (cd_legs s) = (Ok st, cd_legs s) /\
    same_number (lt_total_distance t) (ls_distance_meters (als_total st)) /\
    option_Forall2 same_number (lt_total_elevation_gain t) (ls_elevation_gain_meters (als_total st)) /\
    length summaries = length legs /\ length (als_per_leg st) = length legs /\
    lt_dates t = list_to_set (map leg_date legs).
Proof.
  assert (set_cd_legs (cd_legs s) s = s) as Hset by by destruct s.
  set (legs := map into_leg (sort_by_key number_key (rows_of activity_id (legs_table (cd_legs s))))).
  destruct (totals_run legs s [] no_totals empty_summary []) as (summaries & t & st & Hr & Ha & [Hd Hg] & Hl & Hp & Hdates).
  { split; [by left|constructor]. }
  exists legs, summaries, t, st. split_and!; [|done|exact Ha|done..|].
  - change (list_legs activity_id s) with (let '(r, l) := pg_list_legs activity_id (cd_legs s) in (r, set_cd_legs l s)).
    unfold pg_list_legs. run. by rewrite Hset.
  - rewrite Hdates. simpl. set_solver.
Qed.
End totals.

(** ** Witness *)

#[local] Instance sample_uuid : UuidDisplay := display_N.
#[local] Instance sample_times : DateTimeText := display_Z.
#[local] Instance sample_days : DateText := display_Z.
#[local] Instance sample_sqlx : SqlxDisplay := fun _ => lit "violation".
#[local] Instance sample_messages : DbMessages := lit "violation".
#[local] Instance sample_statistics : StatisticsToJson := fun _ => inr JNull.
#[local] Instance sample_debug : DebugStrings := fun l => concat l.
#[local] Instance sample_json : CursorJson := {|
  cursor_to_string p := cp_id p; cursor_from_str s := Some (mkCursor None s) |}.
#[local] Instance sample_text : CursorText := {|
  uuid_to_string := display_N; parse_uuid _ := None; to_rfc3339 := display_Z; parse_rfc3339 _ := None |}.
#[local] Instance no_versions : RouteVersionRepository unit := {|
  save_version _ := mret tt; find_version _ := mret None; find_latest_by_activity _ := mret None;
  find_version_by_key _ := mret None; list_by_activity _ _ _ := mret (mkVersionPage [] None false) |}.

(** A hike of each of the users 5 and 6. *)
Definition hike (id owner : uuid) : ActivityRow :=
  mkActivityRow id owner (lit "A hike") (lit "hike") (lit "active") None None None None None 0 0.
Definition shared_db : CatalogDb unit :=
  mkCatalogDb (mkDb {[ 5%N; 6%N ]} ∅ ∅ ∅ ∅ {[ 1%N := hike 1 5; 2%N := hike 2 6 ]} ∅ None ∅ ∅) (mkLegDb ∅ ∅) tt.
Definition busy_trace : list Turn :=
  [mkTurn 6 7 31 (DeleteRequest 1); mkTurn 5 8 32 (RenameRequest 1 (lit "Mine"));
   mkTurn 6 9 33 (DeleteRequest 2); mkTurn 5 10 34 (DetailRequest 2); mkTurn 5 11 35 (ListRequest None None)].

Lemma shared_db_ok : table_ids (table shared_db).
Proof. repeat (apply map_Forall_insert_2; [done|]). apply map_Forall_empty. Qed.

Lemma users_do_not_interfere_witness :
  map (fun r => match r with Ok response => rs_status response | Err e => ae_status e | Panicked => 0%N end)
    (fst (answers_to (lit "duplicate") 5 busy_trace shared_db)) = [200; 404; 200]%N /\
  fst (answers_to (lit "duplicate") 5 busy_trace shared_db) =
    fst (answers_to (lit "duplicate") 5 (purge 5 busy_trace) shared_db).
Proof.
  split; [by vm_compute|].
  assert (forall id (v : unit), snd (find_version id v) = v) as Hread by done.
  apply (users_do_not_interfere (lit "duplicate") Hread 5 busy_trace shared_db shared_db).
  apply alike_refl, shared_db_ok.
Defined.
