(* ===== verification/RouteQueriesApi.v ===== *)
(** The endpoints that read routes: crates/api/src/recorded_route.rs and
    route_versioning.rs with their DTOs, over the repositories that
    crates/api/src/main.rs gives them. *)
From S2P Require Import Prelude Float64 RustString Utf8 Imports RecordedActivity RouteVersioning.
From S2P Require Import ActivityCatalog Legs Database RecordedRoute Http Api ActivitiesApi.

(** ** GeoJSON *)

Definition json_position (c : Coordinate) : Json := JArray [json_f64 (longitude c); json_f64 (latitude c)].

(** [west, south, east, north]. *)
Definition json_bbox (b : BoundingBox) : Json :=
  JArray [json_f64 (longitude (south_west b)); json_f64 (latitude (south_west b));
          json_f64 (longitude (north_east b)); json_f64 (latitude (north_east b))].

Definition line_feature (points : list Coordinate) (properties : list (rstr * Json)) : Json :=
  JObject [(lit "type", JString (lit "Feature"));
           (lit "geometry", JObject [(lit "type", JString (lit "LineString"));
                                     (lit "coordinates", JArray (map json_position points))]);
           (lit "properties", JObject properties)].

Definition geo_json (status : N) (body : Json) : Response :=
  with_header (lit "content-type") (lit "application/geo+json") (json_response status body).

(** ** Recorded routes *)

Inductive RouteDetail : Type := DetailFull | DetailPreview.

Definition recorded_route_error_to_api_error (e : RecordedActivityError) : ApiError :=
  match e with
  | NotFound => not_found_error (lit "recorded route not found")
  | Persistence message => internal_error message
  | _ => internal_error (lit "unexpected error")
  end.

(** One feature for each segment, numbered from [i]. *)
Fixpoint segment_features (i : N) (segments : list RouteSegment) : list Json :=
  match segments with
  | [] => []
  | segment :: rest =>
      line_feature (rs_points segment)
        [(lit "segmentIndex", json_N i); (lit "pointCount", json_N (len (rs_points segment)))]
      :: segment_features (i + 1) rest
  end.

(** [RecordedRouteResponse]. *)
Definition recorded_route_response (data : RecordedRouteData) : Json :=
  let s := rrd_statistics data in
  JObject
    [(lit "type", JString (lit "FeatureCollection")); (lit "bbox", json_bbox (rrd_bounding_box data));
     (lit "features", JArray (segment_features 0 (rrd_segments data)));
     (lit "properties", JObject
        ([(lit "distanceMeters", json_f64 (rst_distance_meters s))]
         ++ optional_field (lit "elevationGainMeters") json_f64 (rst_elevation_gain_meters s)
         ++ optional_field (lit "elevationLossMeters") json_f64 (rst_elevation_loss_meters s)
         ++ [(lit "pointCount", json_N (rst_point_count s));
             (lit "segmentCount", json_N (rst_segment_count s))]))].

(** [RecordedRoutePreviewResponse]. *)
Definition preview_response (p : RecordedRoutePreview) : Json :=
  let s := rrp_statistics p in
  JObject
    ([(lit "bbox", json_bbox (rrp_bounding_box p)); (lit "pointCount", json_N (rst_point_count s));
      (lit "segmentCount", json_N (rst_segment_count s));
      (lit "distanceMeters", json_f64 (rst_distance_meters s))]
     ++ optional_field (lit "elevationGainMeters") json_f64 (rst_elevation_gain_meters s)
     ++ optional_field (lit "elevationLossMeters") json_f64 (rst_elevation_loss_meters s)).

Definition get_recorded_route_handler {S} `{ActivityRepository S} `{RecordedRouteRepository S}
    (actor activity_id : uuid) (detail : RouteDetail) : eff S ApiError Response :=
  let preview := match detail with DetailPreview => true | DetailFull => false end in
  result ← eff_map_err recorded_route_error_to_api_error (get_recorded_route activity_id actor preview);
  mret match result with
       | RouteFull data => geo_json 200 (recorded_route_response data)
       | RoutePreview preview_data => json_response 200 (preview_response preview_data)
       end.

(** ** Route versions *)

Definition versioning_error_to_api_error (e : RouteVersioningError) : ApiError :=
  match e with
  | VersionNotFound | NotAuthorized => not_found_error (lit "route version not found")
  | VPersistenceError message => internal_error (lit "internal error: " ++ message)
  | _ => internal_error (lit "unexpected error")
  end.

Section versions.
Context {S : Type} `{ActivityRepository S} `{RouteVersionRepository S}.
Context `{UuidDisplay} `{DateTimeText} `{StatisticsToJson}.

Abbreviation handler := (eff S ApiError Response) (only parsing).

Definition call_version {A} (m : eff S RouteVersioningError A) : eff S ApiError A :=
  eff_map_err versioning_error_to_api_error m.

(** [RouteVersionSummaryResponse] and [RouteVersionDetailResponse], with
    [to_value(..).unwrap_or_default()]. *)
Definition version_response (v : RouteVersion) : Json :=
  JObject
    ([(lit "id", json_uuid (rv_id v)); (lit "activityId", json_uuid (rv_activity_id v))]
     ++ optional_field (lit "parentVersionId") json_uuid (rv_parent_version_id v)
     ++ [(lit "versionNumber", JInt (rv_version_number v))]
     ++ optional_field (lit "editSummary") JString (rv_edit_summary v)
     ++ [(lit "correctedStatistics",
           match statistics_to_value (rv_corrected_statistics v) with inr j => j | inl _ => JNull end);
         (lit "calculationVersion", JString (rv_calculation_version v));
         (lit "createdBy", json_uuid (rv_created_by v));
         (lit "createdAt", json_datetime (rv_created_at v))]).

Definition get_route_versions_list (actor activity_id : uuid) (cursor : option rstr) (page_size : option N)
    : handler :=
  page ← call_version (list_route_versions activity_id actor cursor page_size);
  mret (json_response 200 (JObject
    [(lit "items", JArray (map version_response (rvp_items page)));
     (lit "pagination", pagination_meta (rvp_next_cursor page) (rvp_has_more page)
                          (clamp_page_size page_size))])).

Definition get_route_version_detail (actor route_version_id : uuid) : handler :=
  version ← call_version (get_route_version route_version_id actor);
  mret (json_response 200 (version_response version)).

(** [RouteVersionGeometryResponse]: the distance is always there. *)
Definition geometry_response (g : RouteVersionGeometry) : Json :=
  JObject
    [(lit "type", JString (lit "FeatureCollection")); (lit "bbox", json_bbox (rvg_bounding_box g));
     (lit "features", JArray
        [line_feature (rvg_geometry g)
           [(lit "pointCount", json_N (len (rvg_geometry g)));
            (lit "distanceMeters", json_f64 (cs_distance_meters (rvg_corrected_statistics g)))]])].

Definition get_route_version_geometry_handler (actor route_version_id : uuid) : handler :=
  geometry_result ← call_version (get_route_version_geometry route_version_id actor);
  mret (geo_json 200 (geometry_response geometry_result)).
End versions.

(** ** Production *)

Section production.
Context {V : Type} `{versions : RouteVersionRepository V} `{CursorJson} `{CursorText}.
Context `{UuidDisplay} `{DateTimeText} `{StatisticsToJson}.

Definition ApiRecordedRouteRepository : RecordedRouteRepository (CatalogDb V) := {|
  get_recorded_route_data id := on_db (pg_recorded_route id);
  get_recorded_route_preview id := on_db (pg_recorded_route_preview id) |}.

Inductive RouteRequest : Type :=
| RecordedRouteRequest (activity_id : uuid) (detail : RouteDetail)
| VersionsRequest (activity_id : uuid) (cursor : option rstr) (page_size : option N)
| VersionRequest (route_version_id : uuid)
| VersionGeometryRequest (route_version_id : uuid).

Definition serve_route (duplicate : rstr) (now : datetime) (actor : uuid) (request : RouteRequest)
    : eff (CatalogDb V) ApiError Response :=
  let _ := ApiActivityRepository now duplicate in
  let _ := ApiRecordedRouteRepository in
  let _ := ApiVersionRepository in
  match request with
  | RecordedRouteRequest activity_id detail => get_recorded_route_handler actor activity_id detail
  | VersionsRequest activity_id cursor page_size => get_route_versions_list actor activity_id cursor page_size
  | VersionRequest id => get_route_version_detail actor id
  | VersionGeometryRequest id => get_route_version_geometry_handler actor id
  end.
End production.
