(* ===== verification/RouteQueriesTheory.v ===== *)
(** The endpoints that read routes: the owner of an import is served the route of
    the file, and nobody else learns that there is one. *)
From S2P Require Import Prelude Float64 RustString RustVec Utf8 GpxParser GpxParserTheory.
From S2P Require Import RecordedActivity RecordedActivityTheory RouteVersioning ActivityCatalog CatalogTheory.
From S2P Require Import Imports ImportHandlers Database ImportCommit RecordedRoute RecordedRouteTheory.
From S2P Require Import Legs Http Api ActivitiesApi RouteQueriesApi.

(** The features of a route, with their positions. *)
Lemma features_imap `{DateTimeParser} r :
  segment_features 0 (file_route r) =
    imap (fun i points => line_feature points
            [(lit "segmentIndex", json_N (N.of_nat i)); (lit "pointCount", json_N (len points))])
      (map (fun g => map gpx_coordinate (gs_points g)) (usable (result_segments r))).
Proof.
  unfold file_route. generalize (usable (result_segments r)). intros l.
  assert (forall i, segment_features (N.of_nat i) (map (fun s => mkRouteSegment (map gpx_coordinate (gs_points s))) l) =
    imap (fun j points => line_feature points
            [(lit "segmentIndex", json_N (N.of_nat (i + j))); (lit "pointCount", json_N (len points))])
      (map (fun g => map gpx_coordinate (gs_points g)) l)) as Hall; [|by apply (Hall 0)].
  induction l as [|g l IH]; intros i; [done|].
  cbn [map segment_features]. rewrite imap_cons. f_equal; [by rewrite Nat.add_0_r|].
  replace (N.of_nat i + 1)%N with (N.of_nat (S i)) by lia. rewrite IH. apply imap_ext. intros j points _.
  unfold compose. by rewrite Nat.add_succ_r.
Qed.

Section queries.
Context {V : Type} `{versions : RouteVersionRepository V} `{CursorJson} `{CursorText}.
Context `{UuidDisplay} `{DateTimeText} `{StatisticsToJson}.
Context (duplicate : rstr) (clock : datetime).
#[local] Instance activity_repo : ActivityRepository (CatalogDb V) := ApiActivityRepository clock duplicate.
#[local] Instance version_repo : RouteVersionRepository (CatalogDb V) := ApiVersionRepository.
#[local] Instance route_repo : RecordedRouteRepository (CatalogDb V) := ApiRecordedRouteRepository.

(** The activity that a state has under an id, as it reads. *)
Definition activity_at (s : CatalogDb V) (id : uuid) (a : Activity) : Prop :=
  exists r, db_activities (cd_db s) !! id = Some r /\ ar_id r = id /\
    row_to_activity (E := ActivityCatalogError) r = Ok a.

Lemma restored (s : CatalogDb V) :
  set_cd_db (set_activities (db_activities (cd_db s)) (cd_db s)) s = s /\ set_cd_db (cd_db s) s = s.
Proof. by destruct s as [[] ? ?]. Qed.

Lemma find_at s id a :
  activity_at s id a -> find_activity id s = (Ok (Some a), s) /\ ac_id a = id.
Proof.
  intros (r & Hr & Hid & Ha). split.
  - unfold find_activity, activity_repo, ApiActivityRepository, on_db, zoom. simpl.
    unfold on_activities, zoom, pg_find_activity. run. rewrite Hr, Ha. by rewrite (proj1 (restored s)).
  - unfold row_to_activity in Ha. by apply result_bind_inv in Ha as (? & _ & [= <-]).
Qed.

Lemma find_nothing s id :
  db_activities (cd_db s) !! id = None -> find_activity id s = (Ok None, s).
Proof.
  intros Hr. unfold find_activity, activity_repo, ApiActivityRepository, on_db, zoom. simpl.
  unfold on_activities, zoom, pg_find_activity. run. rewrite Hr. by rewrite (proj1 (restored s)).
Qed.

Lemma find_panics s id r :
  db_activities (cd_db s) !! id = Some r -> title_panics r = true -> find_activity id s = (Panicked, s).
Proof.
  intros Hr Hp. unfold find_activity, activity_repo, ApiActivityRepository, on_db, zoom. simpl.
  unfold on_activities, zoom, pg_find_activity. run. rewrite Hr.
  pose proof (row_reads (E := ActivityCatalogError) r) as Hread. rewrite Hp in Hread.
  by rewrite Hread, (proj1 (restored s)).
Qed.

(** What reads as visible is what a listing selects. *)
Lemma row_visible user r a :
  row_to_activity (E := ActivityCatalogError) r = Ok a -> visible_to user a = visible_row user r.
Proof.
  unfold row_to_activity. intros (t & _ & [= <-])%result_bind_inv. unfold visible_to, visible_row. simpl.
  do 2 f_equal. unfold parse_lifecycle_state. apply bool_decide_ext.
  case_decide as Ha; [rewrite Ha; split; by intros Hx; vm_compute in Hx|]. by case_decide.
Qed.

(** An activity that a user may not see: there is none, or it is another user's,
    or it was deleted. *)
Definition hidden_from (user : uuid) (s : CatalogDb V) (id : uuid) : Prop :=
  forall r, db_activities (cd_db s) !! id = Some r -> visible_row user r = false.

(** The row of the activity has a title that cannot be read: whoever asks for the
    activity, the request panics. *)
Definition unreadable_at (s : CatalogDb V) (id : uuid) : bool :=
  match db_activities (cd_db s) !! id with Some r => title_panics r | None => false end.

(** What the user is answered who may not see an activity: always the same, except
    that a title that cannot be read makes the request panic. *)
Definition hidden_answer {E A} (s : CatalogDb V) (id : uuid) (e : E) : result E A :=
  if unreadable_at s id then Panicked else Err e.

Lemma find_hidden user s id :
  hidden_from user s id ->
  if unreadable_at s id then find_activity id s = (Panicked, s)
  else exists o, find_activity id s = (Ok o, s) /\ keep_visible user o = None.
Proof.
  unfold hidden_from, unreadable_at. intros Hh.
  destruct (db_activities (cd_db s) !! id) as [r|] eqn:Hr; [|by exists None; rewrite (find_nothing s id Hr)].
  destruct (title_panics r) eqn:Hp; [by apply (find_panics s id r)|].
  apply readable_iff in Hp as [a Ha]. exists (Some a). split.
  - unfold find_activity, activity_repo, ApiActivityRepository, on_db, zoom. simpl.
    unfold on_activities, zoom, pg_find_activity. run. rewrite Hr, Ha. by rewrite (proj1 (restored s)).
  - unfold keep_visible. simpl. by rewrite (row_visible user r a Ha), (Hh r eq_refl).
Qed.

Lemma ownership_hidden user s id :
  hidden_from user s id -> verify_activity_ownership id user s = (hidden_answer s id VersionNotFound, s).
Proof.
  intros Hh%find_hidden. unfold verify_activity_ownership, hidden_answer. run.
  destruct (unreadable_at s id); [by rewrite Hh|]. destruct Hh as (o & Ho & Hk). rewrite Ho. cbn [map_err]. by rewrite Hk.
Qed.

Lemma map_hidden_answer {E F A} (f : E -> F) s id e :
  map_err f (hidden_answer (A := A) s id e) = hidden_answer s id (f e).
Proof. unfold hidden_answer. by destruct (unreadable_at s id). Qed.

(** The activity that a request for a route is about. *)
Definition asks_for (request : RouteRequest) (s : CatalogDb V) (activity_id : uuid) : Prop :=
  match request with
  | RecordedRouteRequest id _ | VersionsRequest id _ _ => id = activity_id
  | VersionRequest id | VersionGeometryRequest id =>
      exists v, find_version id (cd_versions s) = (Ok (Some v), cd_versions s) /\ rv_activity_id v = activity_id
  end.

Lemma owned_version_hidden user s id activity_id v :
  find_version id (cd_versions s) = (Ok (Some v), cd_versions s) -> rv_activity_id v = activity_id ->
  hidden_from user s activity_id ->
  load_owned_version id user s = (hidden_answer s activity_id VersionNotFound, s).
Proof.
  intros Hv <- Hh. assert (set_cd_versions (cd_versions s) s = s) as Hs by by destruct s.
  unfold load_owned_version. run. unfold find_version at 1, version_repo, ApiVersionRepository, on_versions, zoom.
  rewrite Hv, Hs. simpl. rewrite (ownership_hidden user s _ Hh). unfold hidden_answer.
  by destruct (unreadable_at s _).
Qed.

Lemma recorded_route_hidden user s id detail :
  hidden_from user s id ->
  serve_route duplicate clock user (RecordedRouteRequest id detail) s =
    (hidden_answer s id (not_found_error (lit "recorded route not found")), s).
Proof.
  intros Hh%find_hidden. simpl. unfold get_recorded_route_handler, get_recorded_route, hidden_answer. run.
  fold activity_repo. destruct (unreadable_at s id); [by rewrite Hh|].
  destruct Hh as (o & Ho & Hk). rewrite Ho. cbn [map_err]. by rewrite Hk.
Qed.

(** The routes of an activity are hidden with it.  Whatever route of it is asked
    for, an activity that does not exist, that belongs to somebody else or that
    was deleted gets the one answer 404 with the same text, unless its title cannot
    be read, and nothing changes. *)
Theorem routes_hidden_with_activity user request s activity_id :
  asks_for request s activity_id -> hidden_from user s activity_id ->
  serve_route duplicate clock user request s =
    (hidden_answer s activity_id
       (not_found_error (match request with
                         | RecordedRouteRequest _ _ => lit "recorded route not found"
                         | _ => lit "route version not found"
                         end)), s).
Proof.
  intros Hask Hh. destruct request as [id detail|id cursor p|id|id]; simpl in Hask;
    [subst id; by apply recorded_route_hidden|simpl; unfold hidden_answer..].
  - subst id. unfold get_route_versions_list, call_version, list_route_versions. run. fold activity_repo.
    rewrite (ownership_hidden user s activity_id Hh). unfold hidden_answer. by destruct (unreadable_at s _).
  - destruct Hask as (v & Hv & Ha). unfold get_route_version_detail, call_version, get_route_version. run.
    fold activity_repo. fold version_repo. rewrite (owned_version_hidden user s id activity_id v) by done.
    unfold hidden_answer. by destruct (unreadable_at s _).
  - destruct Hask as (v & Hv & Ha). unfold get_route_version_geometry_handler, call_version, get_route_version_geometry.
    run. fold activity_repo. fold version_repo. rewrite (owned_version_hidden user s id activity_id v) by done.
    unfold hidden_answer. by destruct (unreadable_at s _).
Qed.

Lemma visible_or_hidden user s id :
  (exists row, db_activities (cd_db s) !! id = Some row /\ visible_row user row = true) \/ hidden_from user s id.
Proof.
  destruct (db_activities (cd_db s) !! id) as [row|] eqn:Hrow; [|right; intros r Hr; congruence].
  destruct (visible_row user row) eqn:Hv; [left; eauto|right]. intros r Hr. congruence.
Qed.

(** What the owner is served: the repository's answer, written as GeoJSON. *)
Lemma visible_route_served user s activity_id a detail data preview :
  activity_at s activity_id a -> visible_to user a = true ->
  pg_recorded_route activity_id (cd_db s) = (Ok (Some data), cd_db s) ->
  pg_recorded_route_preview activity_id (cd_db s) = (Ok (Some preview), cd_db s) ->
  serve_route duplicate clock user (RecordedRouteRequest activity_id detail) s =
    (Ok (match detail with
         | DetailFull => geo_json 200 (recorded_route_response data)
         | DetailPreview => json_response 200 (preview_response preview)
         end), s).
Proof.
  intros Ha Hv Hd Hp. destruct (find_at s activity_id a Ha) as [Hf Hid].
  simpl. unfold get_recorded_route_handler, get_recorded_route. fold activity_repo. fold route_repo. run.
  rewrite Hf. cbn [map_err]. unfold keep_visible, mbind, option_bind. rewrite Hv. cbn [ok_or]. rewrite Hid.
  destruct detail; unfold get_recorded_route_data, get_recorded_route_preview, route_repo,
    ApiRecordedRouteRepository, on_db, zoom; rewrite ?Hd, ?Hp; by rewrite (proj2 (restored s)).
Qed.

End queries.

(** ** Witnesses

    The import of the sample file of RecordedRouteTheory.v. *)

#[local] Existing Instances plain_json plain_json_derived sample_reader sample_dates sample_libm.
#[local] Instance sample_sqlx : SqlxDisplay := fun _ => lit "violation".
#[local] Instance sample_uuid : UuidDisplay := display_N.
#[local] Instance sample_times : DateTimeText := display_Z.
#[local] Instance sample_statistics : StatisticsToJson := fun _ => inr JNull.
#[local] Instance sample_cursors : CursorJson := {|
  cursor_to_string p := cp_id p; cursor_from_str s := Some (mkCursor None s) |}.
#[local] Instance sample_text : CursorText := {|
  uuid_to_string := display_N; parse_uuid _ := None; to_rfc3339 := display_Z; parse_rfc3339 _ := None |}.
#[local] Instance no_versions : RouteVersionRepository unit := {|
  save_version _ := mret tt; find_version _ := mret None; find_latest_by_activity _ := mret None;
  find_version_by_key _ := mret None; list_by_activity _ _ _ := mret (mkVersionPage [] None false) |}.

Definition sample_parsed : GpxParseResult :=
  match parse_gpx (bs "<gpx/>") with Ok r => r | _ => mkGpxResult Gpx11 (mkMetadata None None None) [] 0 end.
Definition sample_normal : result RecordedActivityError NormalizedTrack := normalize_gpx 7 sample_parsed.
Definition catalog_of (d : Database) : CatalogDb unit := mkCatalogDb d (mkLegDb ∅ ∅) tt.

Lemma routes_hidden_with_activity_witness :
  serve_route (lit "duplicate") 9 6 (RecordedRouteRequest 1 DetailFull) (catalog_of empty_db) =
    (Err (not_found_error (lit "recorded route not found")), catalog_of empty_db).
Proof. by apply (routes_hidden_with_activity (lit "duplicate") 9 6 (RecordedRouteRequest 1 DetailFull) (catalog_of empty_db) 1); [|intros r ?]. Defined.

