(* ===== verification/LegsApi.v ===== *)
(** The endpoints of legs: crates/api/src/legs.rs and legs_dto.rs, over the
    repositories that crates/api/src/main.rs gives them. *)
From S2P Require Import Prelude Float64 RustString Utf8 Imports RecordedActivity RouteVersioning.
From S2P Require Import ActivityCatalog Legs Database RecordedRoute Http Api ActivitiesApi.

Definition leg_not_found_error : ApiError := not_found_error (lit "leg not found").

Definition leg_error_to_api_error (e : RecordedActivityError) : ApiError :=
  match e with
  | LegNotFound _ => leg_not_found_error
  | InvalidLegTitle message => validation_error message
  | InvalidLegNumber _ reason => validation_error reason
  | MaxLegsExceeded _ max =>
      ApiError_new 422 (lit "MAX_LEGS_EXCEEDED")
        (lit "maximum number of legs (" ++ display_N max ++ lit ") exceeded")
        (lit "/problems/max-legs-exceeded") (lit "Maximum Legs Exceeded")
  | DuplicateLegNumber n =>
      ApiError_new 409 (lit "DUPLICATE_LEG_NUMBER") (lit "duplicate leg number: " ++ display_N n)
        (lit "/problems/duplicate-leg-number") (lit "Duplicate Leg Number")
  | Persistence _ => internal_error (lit "a persistence error occurred")
  | _ => unexpected_error
  end.

(** ** Requests and responses *)

Record CreateLegRequest := mkCreateLeg { clr_title : option rstr; clr_date : date }.

(** An absent title, one to clear, or a new one. *)
Record UpdateLegRequest := mkUpdateLeg {
  ulr_title : option (option rstr); ulr_date : option date; ulr_leg_number : option N }.

Section responses.
Context `{UuidDisplay} `{DateTimeText} `{DateText}.

(** [LegSummaryStatsResponse]. *)
Definition summary_stats (s : LegSummary) : Json :=
  JObject
    ([(lit "distanceMeters", json_f64 (ls_distance_meters s))]
     ++ optional_field (lit "elevationGainMeters") json_f64 (ls_elevation_gain_meters s)
     ++ optional_field (lit "elevationLossMeters") json_f64 (ls_elevation_loss_meters s)
     ++ [(lit "pointCount", json_N (ls_point_count s))]
     ++ optional_field (lit "durationSeconds") json_f64 (ls_duration_seconds s)).

Definition leg_fields (leg : Leg) : list (rstr * Json) :=
  [(lit "id", json_uuid (leg_id leg)); (lit "legNumber", json_N (leg_number leg))]
  ++ optional_field (lit "title") (fun t => JString (leg_title_str t)) (leg_title leg)
  ++ [(lit "date", json_date (leg_date leg))].

Definition leg_times (leg : Leg) : list (rstr * Json) :=
  [(lit "createdAt", json_datetime (leg_created_at leg)); (lit "updatedAt", json_datetime (leg_updated_at leg))].

(** [LegSummaryResponse]. *)
Definition leg_item (leg : Leg) (summary : option LegSummary) : Json :=
  JObject (leg_fields leg ++ optional_field (lit "recordedSummary") summary_stats summary ++ leg_times leg).

(** [LegDetailResponse]. *)
Definition leg_detail_response (leg : Leg) (summary : option LegSummary) : Json :=
  JObject
    (leg_fields leg
     ++ optional_field (lit "sourceRevisionId") json_uuid (leg_source_revision_id leg)
     ++ optional_field (lit "recordedTrackId") json_uuid (leg_recorded_track_id leg)
     ++ optional_field (lit "recordedSummary") summary_stats summary
     ++ leg_times leg).
End responses.

(** ** Handlers *)

Section handlers.
Context {S : Type} `{ActivityRepository S} `{LegRepository S}.
Context `{UuidDisplay} `{DateTimeText} `{DateText}.

Abbreviation handler := (eff S ApiError Response) (only parsing).

Definition call_leg {A} (m : eff S RecordedActivityError A) : eff S ApiError A :=
  eff_map_err leg_error_to_api_error m.

(** The private [verify_activity_ownership]: every error is a 404. *)
Definition verify_leg_activity (actor activity_id : uuid) : eff S ApiError unit :=
  eff_map_err (fun _ => not_found_error (lit "activity not found")) (get_activity activity_id actor);;
  mret tt.

Definition post_add_leg (new_id : uuid) (now : datetime) (actor activity_id : uuid)
    (body : CreateLegRequest) : handler :=
  verify_leg_activity actor activity_id;;
  leg ← call_leg (add_leg new_id now activity_id (clr_title body) (clr_date body) None None);
  mret (json_response 201 (leg_detail_response leg None)).

Fixpoint leg_items (legs : list Leg) (items : list Json) : eff S ApiError (list Json) :=
  match legs with
  | [] => mret items
  | leg :: rest =>
      summary ← call_leg (get_leg_summary (leg_id leg));
      leg_items rest (items ++ [leg_item leg summary])
  end.

Definition get_legs (actor activity_id : uuid) : handler :=
  verify_leg_activity actor activity_id;;
  legs ← call_leg (list_legs_for_activity activity_id);
  items ← leg_items legs [];
  mret (json_response 200 (JObject [(lit "items", JArray items)])).

Definition get_leg_detail_handler (actor activity_id leg_id : uuid) : handler :=
  verify_leg_activity actor activity_id;;
  detail ← call_leg (get_leg_detail leg_id);
  lift (guard_err (negb (leg_activity_id (ld_leg detail) =? activity_id)%N) leg_not_found_error);;
  mret (json_response 200 (leg_detail_response (ld_leg detail) (ld_summary detail))).

(** The leg of the path, if it is one of the activity. *)
Definition existing_leg (activity_id leg_id : uuid) : eff S ApiError unit :=
  found ← call_leg (find_leg leg_id);
  existing ← lift (ok_or found leg_not_found_error);
  lift (guard_err (negb (leg_activity_id existing =? activity_id)%N) leg_not_found_error).

(** The three updates, each applied if it is there. *)
Definition apply_leg_updates (now : datetime) (leg_id : uuid) (body : UpdateLegRequest)
    : eff S ApiError unit :=
  match ulr_title body with
  | Some title_option => call_leg (rename_leg now leg_id title_option);; mret tt
  | None => mret tt
  end;;
  match ulr_date body with
  | Some new_date => call_leg (update_leg_date now leg_id new_date);; mret tt
  | None => mret tt
  end;;
  match ulr_leg_number body with
  | Some new_position => call_leg (reorder_leg leg_id new_position)
  | None => mret tt
  end.

Definition patch_leg (now : datetime) (actor activity_id leg_id : uuid) (body : UpdateLegRequest) : handler :=
  verify_leg_activity actor activity_id;;
  existing_leg activity_id leg_id;;
  apply_leg_updates now leg_id body;;
  updated_detail ← call_leg (get_leg_detail leg_id);
  mret (json_response 200 (leg_detail_response (ld_leg updated_detail) (ld_summary updated_detail))).

Definition delete_leg_handler (now : datetime) (actor activity_id leg_id : uuid) : handler :=
  verify_leg_activity actor activity_id;;
  existing_leg activity_id leg_id;;
  call_leg (remove_leg now leg_id);;
  mret (status_response 204).
End handlers.

(** ** Production *)

Section production.
Context {V : Type} `{CursorJson} `{CursorText} `{DbMessages} `{UuidDisplay} `{DateTimeText} `{DateText}.

Inductive LegRequest : Type :=
| AddLegRequest (new_id : uuid) (body : CreateLegRequest)
| ListLegsRequest
| LegDetailRequest (leg_id : uuid)
| PatchLegRequest (leg_id : uuid) (body : UpdateLegRequest)
| DeleteLegRequest (leg_id : uuid).

Definition serve_leg (duplicate : rstr) (now : datetime) (actor activity_id : uuid) (request : LegRequest)
    : eff (CatalogDb V) ApiError Response :=
  let _ := ApiActivityRepository now duplicate in
  let _ := ApiLegRepository now in
  match request with
  | AddLegRequest new_id body => post_add_leg new_id now actor activity_id body
  | ListLegsRequest => get_legs actor activity_id
  | LegDetailRequest leg_id => get_leg_detail_handler actor activity_id leg_id
  | PatchLegRequest leg_id body => patch_leg now actor activity_id leg_id body
  | DeleteLegRequest leg_id => delete_leg_handler now actor activity_id leg_id
  end.
End production.
