(* ===== verification/LegsApiTheory.v ===== *)
(** The endpoints of legs touch the legs of one activity only, and only for its
    owner; and what an update of a leg leaves behind when it fails half-way. *)
From S2P Require Import Prelude Float64 RustString RustVec Utf8 Sorting Imports RecordedActivity RouteVersioning.
From S2P Require Import ActivityCatalog CatalogTheory Legs LegTheory Database RecordedRoute Http Api.
From S2P Require Import ActivitiesApi RouteQueriesApi RouteQueriesTheory LegsApi.

(** ** Triples

    What holds after a run that succeeded, and [C] after any other. *)

Definition triple {S E A} (C P : S -> Prop) (m : eff S E A) (Q : A -> S -> Prop) : Prop :=
  forall s, P s -> let '(r, s') := m s in match r with Ok a => Q a s' | _ => C s' end.

Section triples.
Context {S : Type} (C : S -> Prop).

Lemma triple_bind {E A B} P (m : eff S E A) Q (f : A -> eff S E B) R :
  triple C P m Q -> (forall a, triple C (Q a) (f a) R) -> triple C P (m ≫= f) R.
Proof.
  intros Hm Hf s Hs. specialize (Hm s Hs). unfold mbind, eff_bind. destruct (m s) as [[a|e|] s']; [|done..].
  by apply Hf.
Qed.

Lemma triple_ret {E A} (P : S -> Prop) (a : A) (Q : A -> S -> Prop) :
  (forall s, P s -> Q a s) -> triple C P (mret a : eff S E A) Q.
Proof. intros Hq s Hs. by apply Hq. Qed.

Lemma triple_lift {E A} (P : S -> Prop) (r : result E A) (Q : A -> S -> Prop) :
  (forall s, P s -> C s) -> (forall a s, r = Ok a -> P s -> Q a s) -> triple C P (lift r) Q.
Proof. intros Hc Hq s Hs. destruct r; [by apply Hq|by apply Hc..]. Qed.

Lemma triple_map_err {E F A} (f : E -> F) P (m : eff S E A) Q :
  triple C P m Q -> triple C P (eff_map_err f m) Q.
Proof. intros Hm s Hs. specialize (Hm s Hs). unfold eff_map_err. by destruct (m s) as [[]]. Qed.

Lemma triple_weaken {E A} (P P' : S -> Prop) (m : eff S E A) (Q Q' : A -> S -> Prop) :
  triple C P' m Q' -> (forall s, P s -> P' s) -> (forall a s, Q' a s -> Q a s) -> triple C P m Q.
Proof.
  intros Hm Hp Hq s Hs. specialize (Hm s (Hp s Hs)). destruct (m s) as [[a|e|] s']; [by apply Hq|done..].
Qed.

(** Facts about the result on the side. *)
Lemma triple_bind_fact {E A B} (F : A -> Prop) P (P' : S -> Prop) (m : eff S E A) (f : A -> eff S E B) R :
  triple C P m (fun a s => F a /\ P' s) -> (forall a, F a -> triple C P' (f a) R) -> triple C P (m ≫= f) R.
Proof.
  intros Hm Hf. eapply triple_bind; [exact Hm|]. intros a s [Ha Hs]. by apply (Hf a Ha s Hs).
Qed.
End triples.

(** ** The table of legs *)

Section table.
Context `{DbMessages} (now : datetime) (a : uuid) (t0 : gmap N LegRow) (tracks : gmap N TrackRow).
#[local] Instance repo : LegRepository LegDb := PgLegRepository now.

(** The legs of other activities are those of [t0]; every row is under its id; and
    the legs in hand are of the activity. *)
Record confined (hand : uuid -> Prop) (db : LegDb) : Prop := {
  cf_foreign : forall k r, lr_activity_id r <> a -> (legs_table db !! k = Some r <-> t0 !! k = Some r);
  cf_ids : forall k r, legs_table db !! k = Some r -> lr_id r = k;
  cf_tracks : tracks_table db = tracks;
  cf_hand : forall id, hand id -> exists r, legs_table db !! id = Some r /\ lr_activity_id r = a }.

Definition nothing : uuid -> Prop := fun _ => False.
Definition C : LegDb -> Prop := confined nothing.

Lemma confined_less (hand hand' : uuid -> Prop) db :
  (forall id, hand' id -> hand id) -> confined hand db -> confined hand' db.
Proof. intros Hh []. constructor; eauto. Qed.

Lemma confined_nothing hand db : confined hand db -> C db.
Proof. by apply confined_less. Qed.

(** A statement that turns rows of the activity into rows of the activity, and
    keeps their ids. *)
Definition stays (f : gmap N LegRow -> gmap N LegRow) (hand hand' : uuid -> Prop) : Prop :=
  forall db, confined hand db -> confined hand' (mkLegDb (f (legs_table db)) (tracks_table db)).

Lemma execute_confined f (hand hand' : uuid -> Prop) :
  stays f hand hand' -> triple C (confined hand) (execute_sql f) (fun _ => confined hand').
Proof.
  intros Hf db Hdb. unfold execute_sql. run. destruct (decide _); simpl; [by apply Hf|].
  by eapply confined_nothing.
Qed.

(** Changing one row in hand. *)
Lemma alter_stays g id hand :
  (forall r, lr_activity_id (g r) = lr_activity_id r /\ lr_id (g r) = lr_id r) -> hand id ->
  stays (alter g id) hand hand.
Proof.
  intros Hg Hid db [Hf Hi Ht Hh]. constructor; simpl; [| |done|].
  - intros k r Hr. rewrite <- (Hf k r Hr), lookup_alter_Some. destruct (Hh id Hid) as (r0 & Hr0 & Ha0).
    split; [|intros Hk; right; split; [|done]; intros <-; congruence].
    intros [(<- & r1 & Hr1 & ->)|[_ Hk]]; [|done]. destruct (Hg r1) as [Hga _]. congruence.
  - intros k r. rewrite lookup_alter_Some. intros [(<- & r1 & Hr1 & ->)|[_ Hk]]; [|by apply Hi].
    rewrite (proj2 (Hg r1)). by apply Hi.
  - intros id' Hid'. destruct (Hh id' Hid') as (r & Hr & Ha). destruct (decide (id' = id)) as [->|Hne].
    + exists (g r). rewrite lookup_alter_eq, Hr. split; [done|]. by rewrite (proj1 (Hg r)).
    + exists r. by rewrite lookup_alter_ne.
Qed.

Lemma delete_stays id (hand hand' : uuid -> Prop) :
  hand id -> (forall id', hand' id' -> hand id' /\ id' <> id) -> stays (delete id) hand hand'.
Proof.
  intros Hid Hh' db [Hf Hi Ht Hh]. constructor; simpl; [| |done|].
  - intros k r Hr. rewrite lookup_delete_Some, (Hf k r Hr). split; [by intros [_ Hk]|]. intros Hk.
    split; [|done]. intros <-. destruct (Hh id Hid) as (r0 & Hr0 & Ha0). apply (Hf _ r Hr) in Hk. congruence.
  - intros k r [_ Hk]%lookup_delete_Some. by apply Hi.
  - intros id' (Hin & Hne)%Hh'. destruct (Hh id' Hin) as (r & Hr & Ha). exists r.
    by rewrite lookup_delete_ne by done.
Qed.

Lemma shift_stays id lo hi delta hand : stays (shift_numbers now a id lo hi delta) hand hand.
Proof.
  intros db [Hf Hi Ht Hh]. set (g := fun j r => if bool_decide (lr_activity_id r = a) && (lo <=? lr_leg_number r)%Z
        && (lr_leg_number r <=? hi)%Z && negb (j =? id)%N then set_number now (lr_leg_number r + delta) r else r).
  assert (forall k r, shift_numbers now a id lo hi delta (legs_table db) !! k = Some r <->
            exists r0, legs_table db !! k = Some r0 /\ r = g k r0) as Hlook.
  { intros k r. unfold shift_numbers. rewrite map_lookup_imap. destruct (legs_table db !! k); simpl; naive_solver. }
  assert (forall j r, lr_activity_id (g j r) = lr_activity_id r /\ lr_id (g j r) = lr_id r) as Hg
    by (intros j r; unfold g; by destruct (_ && _)).
  assert (forall j r, lr_activity_id r <> a -> g j r = r) as Hother
    by (intros j r Hr; unfold g; by rewrite bool_decide_eq_false_2).
  constructor; simpl; [| |done|].
  - intros k r Hr. rewrite <- (Hf k r Hr), Hlook. split.
    + intros (r0 & Hr0 & ->). rewrite Hother; [done|]. by rewrite <- (proj1 (Hg k r0)).
    + intros Hk. exists r. by rewrite Hother.
  - intros k r (r0 & Hr0 & ->)%Hlook. rewrite (proj2 (Hg k r0)). by apply Hi.
  - intros id' Hid'. destruct (Hh id' Hid') as (r & Hr & Ha). exists (g id' r). rewrite Hlook.
    split; [eauto|]. by rewrite (proj1 (Hg id' r)).
Qed.

(** The statements of the repository. *)
Lemma pg_find_hand hand id :
  hand id ->
  triple C (confined hand) (pg_find_leg id)
    (fun o db => (exists l, o = Some l /\ leg_id l = id /\ leg_activity_id l = a) /\ confined hand db).
Proof.
  intros Hid db Hdb. destruct (cf_hand _ _ Hdb id Hid) as (r & Hr & Ha). pose proof (cf_ids _ _ Hdb id r Hr) as Hi.
  unfold pg_find_leg. run. rewrite Hr. split; [|done]. by exists (into_leg r).
Qed.

(** A leg of the activity that was found is in hand. *)
Lemma pg_find_any id :
  triple C C (pg_find_leg id)
    (fun o => confined (fun x => exists l, o = Some l /\ leg_activity_id l = a /\ x = id)).
Proof.
  intros db Hdb. unfold pg_find_leg. run. destruct Hdb as [Hf Hi Ht _]. constructor; [done..|].
  intros x (l & Hl & Ha & ->). destruct (legs_table db !! id) as [r|] eqn:Hr; [|done].
  injection Hl as <-. by exists r.
Qed.

Lemma pg_update_hand hand leg :
  hand (leg_id leg) -> triple C (confined hand) (pg_update_leg leg) (fun _ => confined hand).
Proof. intros Hid. apply execute_confined. by apply alter_stays. Qed.

Lemma pg_save_own hand leg :
  leg_activity_id leg = a -> triple C (confined hand) (pg_save_leg leg) (fun _ => confined hand).
Proof.
  intros Ha db Hdb. unfold pg_save_leg. run.
  destruct (legs_table db !! leg_id leg) as [r|] eqn:Hr; [by eapply confined_nothing|].
  unfold execute_sql. run. destruct (decide _); simpl; [|by eapply confined_nothing].
  destruct Hdb as [Hf Hids Ht Hh]. constructor; simpl; [| |done|].
  - intros k r' Hr'. rewrite <- (Hf k r' Hr'), lookup_insert_Some.
    split; [by intros [[<- <-]|[_ Hk]]|]. intros Hk; right; split; [congruence|done].
  - intros k r' [[<- <-]|[_ Hk]]%lookup_insert_Some; [done|by apply Hids].
  - intros id Hid. destruct (Hh id Hid) as (r & Hr' & Ha'). exists r.
    by rewrite lookup_insert_ne by congruence.
Qed.

Lemma pg_delete_hand (hand hand' : uuid -> Prop) id :
  hand id -> (forall x, hand' x -> hand x /\ x <> id) ->
  triple C (confined hand) (pg_delete_leg id) (fun _ => confined hand').
Proof. intros. apply execute_confined. by apply (delete_stays id hand). Qed.

(** The legs of a listing are in hand. *)
Lemma pg_list_hand :
  triple C C (pg_list_legs a) (fun legs => confined (fun x => exists l, l ∈ legs /\ leg_id l = x)).
Proof.
  intros db Hdb. unfold pg_list_legs. run. destruct Hdb as [Hf Hi Ht _]. constructor; [done..|].
  intros x (l & (r & -> & Hr)%list_elem_of_fmap & <-).
  rewrite sort_by_key_perm, elem_of_rows in Hr. destruct Hr as [Ha [k Hk]].
  exists r. simpl. by rewrite (Hi k r Hk).
Qed.

Lemma pg_reorder_hand hand id p :
  hand id -> triple C (confined hand) (pg_reorder_legs now a id p) (fun _ => confined hand).
Proof.
  intros Hid. unfold pg_reorder_legs. eapply triple_bind_fact; [by apply pg_find_hand|].
  intros o (leg & -> & _). eapply triple_bind_fact with (F := fun _ => True) (P' := confined hand).
  { intros db Hdb. by run. }
  intros cur _. destruct (_ =? _)%Z; [by apply triple_ret|].
  eapply triple_bind with (Q := fun _ => confined hand).
  - destruct (_ <? _)%Z; apply execute_confined, shift_stays.
  - intros []. apply execute_confined. by apply alter_stays.
Qed.
End table.

(** ** Commands

    Over any state whose repository keeps to the activity: [K hand] says that
    nothing outside it has changed, and that the legs [hand] are its own. *)

Class ConfinedRepository {S} `{LegRepository S} (a : uuid) (K : (uuid -> Prop) -> S -> Prop) : Prop := {
  confined_weaken (hand hand' : uuid -> Prop) s : (forall id, hand' id -> hand id) -> K hand s -> K hand' s;
  find_hand (hand : uuid -> Prop) id : hand id ->
    triple (K nothing) (K hand) (find_leg id)
      (fun o s => (exists l, o = Some l /\ leg_id l = id /\ leg_activity_id l = a) /\ K hand s);
  find_any id :
    triple (K nothing) (K nothing) (find_leg id)
      (fun o => K (fun x => exists l, o = Some l /\ leg_activity_id l = a /\ x = id));
  update_hand (hand : uuid -> Prop) leg : hand (leg_id leg) ->
    triple (K nothing) (K hand) (update_leg leg) (fun _ => K hand);
  save_own (hand : uuid -> Prop) leg : leg_activity_id leg = a ->
    triple (K nothing) (K hand) (save_leg leg) (fun _ => K hand);
  delete_hand (hand hand' : uuid -> Prop) id : hand id -> (forall x, hand' x -> hand x /\ x <> id) ->
    triple (K nothing) (K hand) (delete_leg id) (fun _ => K hand');
  list_hand :
    triple (K nothing) (K nothing) (list_legs a) (fun legs => K (fun x => exists l, l ∈ legs /\ leg_id l = x));
  next_quiet (hand : uuid -> Prop) : triple (K nothing) (K hand) (next_leg_number a) (fun _ => K hand);
  reorder_hand (hand : uuid -> Prop) id p : hand id ->
    triple (K nothing) (K hand) (reorder_legs a id p) (fun _ => K hand);
  summary_quiet (hand : uuid -> Prop) id : triple (K nothing) (K hand) (get_leg_summary id) (fun _ => K hand) }.

Section commands.
Context {S : Type} `{LegRepository S} (a : uuid) (K : (uuid -> Prop) -> S -> Prop) `{!ConfinedRepository a K}.
Context (now : datetime).
#[local] Set Default Proof Using "All".

Lemma quiet (hand : uuid -> Prop) s : K hand s -> K nothing s.
Proof. apply confined_weaken. by intros id []. Qed.

Lemma lift_quiet hand {E A} (r : result E A) :
  triple (K nothing) (K hand) (lift r) (fun x s => r = Ok x /\ K hand s).
Proof. intros s Hs. destruct r; simpl; [done|by apply (quiet hand)..]. Qed.

Lemma load_hand hand id :
  hand id ->
  triple (K nothing) (K hand) (load_leg id)
    (fun leg s => (leg_id leg = id /\ leg_activity_id leg = a) /\ K hand s).
Proof.
  intros Hid. unfold load_leg. eapply triple_bind_fact; [by apply find_hand|].
  intros o (l & -> & Hl). by apply triple_ret.
Qed.

Lemma rename_hand hand id title :
  hand id -> triple (K nothing) (K hand) (rename_leg now id title) (fun _ => K hand).
Proof.
  intros Hid. unfold rename_leg. eapply triple_bind_fact; [apply lift_quiet|]. intros t _.
  eapply triple_bind_fact; [by apply load_hand|]. intros leg [Hl _].
  eapply triple_bind; [apply (update_hand hand (rename now t leg)); simpl; congruence|].
  intros []. by apply triple_ret.
Qed.

Lemma update_date_hand hand id d :
  hand id -> triple (K nothing) (K hand) (update_leg_date now id d) (fun _ => K hand).
Proof.
  intros Hid. unfold update_leg_date.
  eapply triple_bind_fact; [by apply load_hand|]. intros leg [Hl _].
  eapply triple_bind; [apply (update_hand hand (update_date now d leg)); simpl; congruence|].
  intros []. by apply triple_ret.
Qed.

Lemma reorder_leg_hand hand id p :
  hand id -> triple (K nothing) (K hand) (reorder_leg id p) (fun _ => K hand).
Proof.
  intros Hid. unfold reorder_leg. eapply triple_bind_fact; [apply lift_quiet|]. intros [] _.
  eapply triple_bind_fact; [apply lift_quiet|]. intros [] _.
  eapply triple_bind_fact; [by apply load_hand|]. intros leg [_ ->]. by apply reorder_hand.
Qed.

Lemma add_own hand new_id title d sr rt :
  triple (K nothing) (K hand) (add_leg new_id now a title d sr rt) (fun _ => K hand).
Proof.
  unfold add_leg. eapply triple_bind; [apply next_quiet|]. intros k.
  eapply triple_bind_fact; [apply lift_quiet|]. intros [] _.
  eapply triple_bind_fact; [apply lift_quiet|]. intros t _.
  eapply triple_bind_fact; [apply lift_quiet|]. intros leg Hleg.
  eapply triple_bind with (Q := fun _ => K hand); [|intros []; by apply triple_ret]. apply save_own.
  unfold Leg_new in Hleg. by apply result_bind_inv in Hleg as (? & _ & [= <-]).
Qed.

Lemma renumber_hand hand idx legs :
  (forall l, l ∈ legs -> hand (leg_id l)) ->
  triple (K nothing) (K hand) (renumber now idx legs) (fun _ => K hand).
Proof.
  revert idx. induction legs as [|leg legs IH]; intros idx Hl; simpl; [by apply triple_ret|].
  eapply triple_bind with (Q := fun _ => K hand); [|intros []; apply IH; intros l Hin; apply Hl; by right].
  destruct (negb _); [|by apply triple_ret]. eapply triple_bind_fact; [apply lift_quiet|]. intros leg' Hleg.
  apply update_hand. unfold update_leg_number in Hleg. apply result_bind_inv in Hleg as (? & _ & [= <-]).
  apply (Hl leg). by left.
Qed.

Lemma remove_hand (hand : uuid -> Prop) id :
  hand id -> triple (K nothing) (K hand) (remove_leg now id) (fun _ => K nothing).
Proof.
  intros Hid. unfold remove_leg. eapply triple_bind_fact; [by apply load_hand|]. intros leg [_ ->].
  eapply triple_bind; [by apply (delete_hand hand nothing)|]. intros [].
  eapply triple_bind; [apply list_hand|]. intros legs. simpl.
  eapply triple_weaken; [apply renumber_hand|done|].
  - intros l Hin. rewrite sort_by_key_perm in Hin. eauto.
  - intros [] s Hs. by eapply quiet.
Qed.

Lemma detail_hand hand id :
  hand id ->
  triple (K nothing) (K hand) (get_leg_detail id)
    (fun detail s => leg_activity_id (ld_leg detail) = a /\ K hand s).
Proof.
  intros Hid. unfold get_leg_detail. eapply triple_bind_fact; [by apply load_hand|]. intros leg [_ Ha].
  eapply triple_bind; [apply summary_quiet|]. intros summary. by apply triple_ret.
Qed.

Lemma detail_any id : triple (K nothing) (K nothing) (get_leg_detail id) (fun _ => K nothing).
Proof.
  unfold get_leg_detail, load_leg. eapply triple_bind with (Q := fun _ => K nothing).
  - eapply triple_bind; [apply find_any|]. intros o. simpl.
    eapply triple_weaken; [apply lift_quiet|done|]. intros leg s [_ Hs]. by eapply quiet.
  - intros leg. eapply triple_bind; [apply summary_quiet|]. intros summary. by apply triple_ret.
Qed.
End commands.

(** ** The tables meet the interface *)

#[export] Instance PgConfined `{DbMessages} now a t0 tracks :
  ConfinedRepository (H := PgLegRepository now) a (confined a t0 tracks).
Proof.
  split; intros.
  - by eapply confined_less.
  - by apply pg_find_hand.
  - apply pg_find_any.
  - by apply pg_update_hand.
  - by apply pg_save_own.
  - by apply (pg_delete_hand a t0 tracks hand).
  - apply pg_list_hand.
  - intros db Hdb. simpl. unfold pg_next_leg_number. by run.
  - by apply pg_reorder_hand.
  - intros db Hdb. simpl. unfold pg_get_leg_summary. by run.
Qed.

Section production.
Context {V : Type} `{CursorJson} `{CursorText} `{DbMessages} `{UuidDisplay} `{DateTimeText} `{DateText}.
Context (duplicate : rstr) (now : datetime) (actor a : uuid).
Context (d0 : Database) (v0 : V) (t0 : gmap N LegRow) (tracks : gmap N TrackRow).
#[local] Set Default Proof Using "All".
#[local] Instance activity_repo : ActivityRepository (CatalogDb V) := ApiActivityRepository now duplicate.
#[local] Instance leg_repo : LegRepository (CatalogDb V) := ApiLegRepository now.
#[local] Instance table_repo : LegRepository LegDb := PgLegRepository now.

(** Beyond the legs, nothing changes at all. *)
Definition within (P : LegDb -> Prop) (s : CatalogDb V) : Prop :=
  cd_db s = d0 /\ cd_versions s = v0 /\ P (cd_legs s).
Definition K (hand : uuid -> Prop) : CatalogDb V -> Prop := within (confined a t0 tracks hand).

Lemma on_legs_triple {E A} C P (m : eff LegDb E A) Q :
  triple C P m Q -> triple (within C) (within P) (on_legs m) (fun x => within (Q x)).
Proof.
  intros Hm s (Hd & Hv & Hl). specialize (Hm _ Hl). unfold on_legs, zoom.
  destruct (m (cd_legs s)) as [[x|e|] l]; by repeat split.
Qed.

#[local] Instance ApiConfined : ConfinedRepository a K.
Proof.
  pose proof (PgConfined now a t0 tracks) as Hpg.
  split; intros; try (by eapply triple_weaken; [apply on_legs_triple; first
    [by eapply (find_hand (ConfinedRepository := Hpg)) | apply (find_any (ConfinedRepository := Hpg))
    | by apply (update_hand (ConfinedRepository := Hpg)) | by apply (save_own (ConfinedRepository := Hpg))
    | by apply (delete_hand (ConfinedRepository := Hpg) hand) | apply (list_hand (ConfinedRepository := Hpg))
    | apply (next_quiet (ConfinedRepository := Hpg)) | by apply (reorder_hand (ConfinedRepository := Hpg))
    | apply (summary_quiet (ConfinedRepository := Hpg))]|done|intros x s; unfold K, within; naive_solver]).
  match goal with Hk : K hand s |- _ => destruct Hk as (? & ? & ?) end.
  split; [done|]. split; [done|]. by eapply confined_less.
Qed.

Lemma call_triple {A} P (m : eff (CatalogDb V) RecordedActivityError A) Q :
  triple (K nothing) P m Q -> triple (K nothing) P (call_leg m) Q.
Proof. apply triple_map_err. Qed.

(** Looking for the activity changes nothing. *)
Lemma verify_keeps s : snd (verify_leg_activity actor a s) = s.
Proof.
  unfold verify_leg_activity, get_activity, find_activity, activity_repo, ApiActivityRepository, on_db, zoom.
  run. simpl. unfold on_activities, zoom, pg_find_activity. run.
  assert (set_cd_db (set_activities (db_activities (cd_db s)) (cd_db s)) s = s) as Hs by by destruct s as [[] ? ?].
  destruct (_ !! a) as [r|]; simpl; [destruct (row_to_activity r); simpl|]; rewrite Hs; by repeat case_match.
Qed.

Lemma verify_quiet : triple (K nothing) (K nothing) (verify_leg_activity actor a) (fun _ => K nothing).
Proof.
  intros s Hs. pose proof (verify_keeps s) as Hk. destruct (verify_leg_activity actor a s) as [[]]; by simpl in Hk; subst.
Qed.

Lemma existing_hand id : triple (K nothing) (K nothing) (existing_leg a id) (fun _ => K (eq id)).
Proof.
  unfold existing_leg. eapply triple_bind; [apply call_triple, (find_any (K := K))|]. intros o. simpl.
  intros s Hs. destruct o as [leg|]; simpl; [|by apply (quiet a K now) in Hs].
  destruct (N.eqb_spec (leg_activity_id leg) a); simpl; [|by apply (quiet a K now) in Hs].
  eapply confined_weaken; [|exact Hs]. intros x <-. by exists leg.
Qed.

Lemma items_quiet legs items : triple (K nothing) (K nothing) (leg_items legs items) (fun _ => K nothing).
Proof.
  revert items. induction legs as [|leg legs IH]; intros items; cbn [leg_items]; [by apply triple_ret|].
  eapply triple_bind with (Q := fun _ => K nothing); [apply call_triple, (summary_quiet (K := K))|].
  intros summary. apply IH.
Qed.

Lemma updates_hand id body : triple (K nothing) (K (eq id)) (apply_leg_updates now id body) (fun _ => K (eq id)).
Proof.
  unfold apply_leg_updates. eapply triple_bind with (Q := fun _ => K (eq id)).
  { destruct (ulr_title body) as [title|]; [|by apply triple_ret].
    eapply triple_bind; [by apply call_triple, (rename_hand a K now)|]. intros leg. by apply triple_ret. }
  intros []. eapply triple_bind with (Q := fun _ => K (eq id)).
  { destruct (ulr_date body) as [d|]; [|by apply triple_ret].
    eapply triple_bind; [by apply call_triple, (update_date_hand a K now)|]. intros leg. by apply triple_ret. }
  intros []. destruct (ulr_leg_number body) as [p|]; [|by apply triple_ret].
  by apply call_triple, (reorder_leg_hand a K now).
Qed.

Lemma serve_leg_confined request :
  triple (K nothing) (K nothing) (serve_leg duplicate now actor a request) (fun _ => K nothing).
Proof.
  destruct request as [new_id body| |id|id body|id]; simpl; fold activity_repo; fold leg_repo;
    (eapply triple_bind; [apply verify_quiet|]; intros []).
  - eapply triple_bind; [apply call_triple, (add_own a K now)|]. intros leg. by apply triple_ret.
  - eapply triple_bind with (Q := fun _ => K nothing).
    { eapply triple_weaken; [apply call_triple, (list_hand (K := K))|done|]. intros legs s Hs. by apply (quiet a K now) in Hs. }
    intros legs. eapply triple_bind; [apply items_quiet|]. intros items. by apply triple_ret.
  - eapply triple_bind; [apply call_triple, (detail_any a K now)|]. intros detail.
    eapply triple_bind_fact; [apply (lift_quiet a K now)|]. intros [] _. by apply triple_ret.
  - eapply triple_bind; [apply existing_hand|]. intros [].
    eapply triple_bind; [apply updates_hand|]. intros [].
    eapply triple_bind_fact; [by apply call_triple, (detail_hand a K now)|]. intros detail _.
    apply triple_ret. intros s. apply (quiet a K now).
  - eapply triple_bind; [apply existing_hand|]. intros [].
    eapply triple_bind; [by apply call_triple, (remove_hand a K now (eq id))|]. intros []. by apply triple_ret.
Qed.
End production.

(** ** Properties *)

Section properties.
Context {V : Type} `{CursorJson} `{CursorText} `{DbMessages} `{UuidDisplay} `{DateTimeText} `{DateText}.

Lemma verify_hidden duplicate now actor (s : CatalogDb V) id :
  hidden_from actor s id ->
  verify_leg_activity (H := ApiActivityRepository now duplicate) actor id s =
    (hidden_answer s id (not_found_error (lit "activity not found")), s).
Proof.
  intros Hh%(find_hidden duplicate now). unfold verify_leg_activity, get_activity, hidden_answer. run.
  destruct (unreadable_at s id).
  - by rewrite (Hh : find_activity (ActivityRepository := ApiActivityRepository now duplicate) id s = _).
  - destruct Hh as (o & Ho & Hk).
    rewrite (Ho : find_activity (ActivityRepository := ApiActivityRepository now duplicate) id s = _).
    cbn [map_err]. by rewrite Hk.
Qed.

(** C19: a request about legs stays within its activity.  If the user may not see the
    activity (there is none, it is somebody else's, or it was deleted), nothing
    changes and the answer is 404, the same whether it exists or not, with one
    exception: if the stored title cannot be read (it is over 500 bytes, and a
    character lies across byte 500), the request panics instead of being answered,
    which tells a stranger that there is such an activity.  In every case, whatever the request and however it ends, it changes
    nothing but legs of that activity: not one leg of any other is changed,
    added or removed, even if the request names one, and neither are tracks,
    activities, versions or the audit log.  It is assumed that the rows of legs
    carry the ids they are stored under. *)
Theorem leg_requests_confined duplicate now actor activity_id request (s : CatalogDb V) :
  (forall k r, legs_table (cd_legs s) !! k = Some r -> lr_id r = k) ->
  let '(r, s') := serve_leg duplicate now actor activity_id request s in
  (hidden_from actor s activity_id ->
     r = hidden_answer s activity_id (not_found_error (lit "activity not found")) /\ s' = s) /\
  cd_db s' = cd_db s /\ cd_versions s' = cd_versions s /\
  tracks_table (cd_legs s') = tracks_table (cd_legs s) /\
  (forall k row, lr_activity_id row <> activity_id ->
     (legs_table (cd_legs s') !! k = Some row <-> legs_table (cd_legs s) !! k = Some row)).
Proof.
  intros Hids.
  pose proof (serve_leg_confined duplicate now actor activity_id (cd_db s) (cd_versions s)
    (legs_table (cd_legs s)) (tracks_table (cd_legs s)) request s) as Hc.
  assert (K activity_id (cd_db s) (cd_versions s) (legs_table (cd_legs s)) (tracks_table (cd_legs s)) nothing s)
    as Hs by (split_and!; [done..|]; by constructor).
  specialize (Hc Hs).
  assert (hidden_from actor s activity_id -> serve_leg duplicate now actor activity_id request s =
            (hidden_answer s activity_id (not_found_error (lit "activity not found")), s)) as Hh.
  { intros Hh%(verify_hidden duplicate now). unfold hidden_answer in *.
    destruct request; simpl; unfold post_add_leg, get_legs, get_leg_detail_handler, patch_leg, delete_leg_handler;
      unfold mbind at 1, eff_bind; rewrite Hh; by destruct (unreadable_at s activity_id). }
  destruct (serve_leg duplicate now actor activity_id request s) as [r s'].
  assert (K activity_id (cd_db s) (cd_versions s) (legs_table (cd_legs s)) (tracks_table (cd_legs s)) nothing s')
    as (Hd & Hv & [Hf _ Ht _]) by by destruct r.
  split_and!; try done. by intros [= -> ->]%Hh.
Qed.
End properties.

(** ** Examples *)

#[local] Instance sample_uuid : UuidDisplay := display_N.
#[local] Instance sample_times : DateTimeText := display_Z.
#[local] Instance sample_days : DateText := display_Z.
#[local] Instance sample_messages : DbMessages := lit "violation".
#[local] Instance sample_cursors : CursorJson := {|
  cursor_to_string p := cp_id p; cursor_from_str s := Some (mkCursor None s) |}.
#[local] Instance sample_text : CursorText := {|
  uuid_to_string := display_N; parse_uuid _ := None; to_rfc3339 := display_Z; parse_rfc3339 _ := None |}.

(** Activity 7 of user 5, with legs on three days. *)
Definition walk_db : CatalogDb unit :=
  mkCatalogDb (mkDb {[ 5%N ]} ∅ ∅ ∅ ∅
    {[ 7%N := mkActivityRow 7 5 (lit "A walk") (lit "walk") (lit "active") None None None None None 0 0 ]}
    ∅ None ∅ ∅) (mkLegDb three_days ∅) tt.

Definition title_and_position : UpdateLegRequest := mkUpdateLeg (Some (Some (lit "Last day"))) None (Some 1%N).

(** An update is not atomic: the new title is stored before the move is refused, and
    the answer is an error. *)
Lemma patch_applied_by_halves :
  let '(r, s') := serve_leg (lit "duplicate") 9 5 7 (PatchLegRequest 3 title_and_position) walk_db in
  r = Err (internal_error (lit "a persistence error occurred")) /\
  lr_title <$> legs_table (cd_legs s') !! 3%N = Some (Some (lit "Last day")) /\
  lr_leg_number <$> legs_table (cd_legs s') !! 3%N = Some 3%Z.
Proof. by vm_compute. Qed.

Lemma leg_requests_confined_witness :
  (forall k r, legs_table (cd_legs walk_db) !! k = Some r -> lr_id r = k) /\
  serve_leg (lit "duplicate") 9 6 7 (DeleteLegRequest 3) walk_db =
    (Err (not_found_error (lit "activity not found")), walk_db).
Proof.
  assert (forall k r, legs_table (cd_legs walk_db) !! k = Some r -> lr_id r = k) as Hids
    by (intros k r Hr; by destruct three_days_wf as [_ Hall]; destruct (Hall k r Hr)).
  split; [exact Hids|].
  pose proof (leg_requests_confined (lit "duplicate") 9 6 7 (DeleteLegRequest 3) walk_db Hids) as Hc.
  destruct (serve_leg (lit "duplicate") 9 6 7 (DeleteLegRequest 3) walk_db) as [r s'].
  destruct Hc as [Hh _]. destruct Hh as [-> ->]; [|by vm_compute].
  intros x Hx. simpl in Hx. rewrite lookup_singleton_Some in Hx. destruct Hx as [_ <-]. by vm_compute.
Defined.
