(* ===== verification/OidcClient.v ===== *)
(** The client of the identity provider, crates/infrastructure/src/oidc.rs:
    discovery, the exchange of a code, the cached signing keys and the checks of an
    ID token.

    The network is a function from the requests sent so far and a request to a
    reply; the crates openidconnect and jsonwebtoken and serde_json are classes.  The
    provider's state is its cache of keys and the requests it has sent.  Times of
    the monotonic clock are in nanoseconds; the lock around the cache makes each
    access one step, and nothing panics while it is held. *)
From S2P Require Import Prelude Float64 RustString RecordedActivity RouteVersioning Http Login.

(** ** Errors and configuration (crates/app/src/identity.rs) *)

Module AuthenticationError.
Inductive t : Type :=
| InvalidSession
| MissingCredentials
| Expired
| ProviderError (message : rstr)
| InvalidState
| CodeExchangeFailed (message : rstr)
| PersistenceError (message : rstr).
End AuthenticationError.

Import AuthenticationError (ProviderError, CodeExchangeFailed).

Record OidcConfig := mkOidcConfig {
  oc_issuer_url : rstr; oc_client_id : rstr; oc_client_secret : rstr; oc_redirect_uri : rstr }.

(** ** The network *)

Inductive HttpRequest : Type :=
| PostForm (url : rstr) (form : list (rstr * rstr))
| GetUrl (url : rstr).

#[export] Instance http_request_eq_dec : EqDecision HttpRequest.
Proof. solve_decision. Defined.

(** The body can fail after the status has arrived. *)
Record HttpReply := mkReply { hr_status : N; hr_text : rstr + rstr }.

Class Network := reply_to : list HttpRequest -> HttpRequest -> rstr + HttpReply.

(** [StatusCode]'s display. *)
Class StatusText := status_text : N -> rstr.
Definition is_success (status : N) : bool := ((200 <=? status) && (status <? 300))%N.

(** ** Libraries *)

(** What the client sets of jsonwebtoken's [Validation]. *)
Record Validation (Alg : Type) := mkValidation {
  vd_algorithm : Alg; vd_validate_exp : bool; vd_validate_aud : bool;
  vd_required_spec_claims : list rstr; vd_issuer : list rstr }.
Arguments mkValidation {Alg} _ _ _ _ _.

(** jsonwebtoken: the header of a token is its algorithm and key identifier;
    [decode] verifies the signature and gives the payload. *)
Class JsonWebToken := {
  Algorithm : Type;
  #[global] algorithm_eq_dec :: EqDecision Algorithm;
  RS256 : Algorithm;
  algorithm_debug : Algorithm -> rstr;
  Jwk : Type;
  JwkSet : Type;
  jwks_find : JwkSet -> rstr -> option Jwk;
  DecodingKey : Type;
  from_jwk : Jwk -> rstr + DecodingKey;
  decode_header : rstr -> rstr + (Algorithm * option rstr);
  decode : rstr -> DecodingKey -> Validation Algorithm -> rstr + Json }.

(** [serde_json::from_str]. *)
Class SerdeJson `{JsonWebToken} := {
  value_from_str : rstr -> rstr + Json;
  jwks_from_str : rstr -> rstr + JwkSet }.

(** openidconnect, and building reqwest's client.  [Random] is the randomness of
    one login. *)
Class OpenIdConnect := {
  IssuerUrl : Type;
  issuer_url_new : rstr -> rstr + IssuerUrl;
  client_build : rstr + unit;
  CoreProviderMetadata : Type;
  discover : IssuerUrl -> rstr + CoreProviderMetadata;
  metadata_token_endpoint : CoreProviderMetadata -> option rstr;
  metadata_jwks_uri : CoreProviderMetadata -> rstr;
  RedirectUrl : Type;
  redirect_url_new : rstr -> rstr + RedirectUrl;
  CoreClient : Type;
  from_provider_metadata : CoreProviderMetadata -> rstr -> rstr -> CoreClient;
  set_redirect_uri : RedirectUrl -> CoreClient -> CoreClient;
  Random : Type;
  PkceChallenge : Type;
  new_random_sha256 : Random -> PkceChallenge * rstr;
  (** the URL, the state and the nonce *)
  authorize_url : CoreClient -> list rstr -> PkceChallenge -> Random -> rstr * rstr * rstr }.

(** ** The provider *)

Definition MAX_CLOCK_SKEW_SECS : Z := 300.
Definition JWKS_CACHE_TTL : Z := 3600 * 1000000000.

(** [Result] of a library call with its error mapped. *)
Definition from_sum {E A} (f : rstr -> E) (r : rstr + A) : result E A :=
  match r with inl e => Err (f e) | inr a => Ok a end.

Abbreviation failed prefix := (fun e => CodeExchangeFailed (prefix ++ e)) (only parsing).

Section provider.
Context `{OpenIdConnect}.

Record Auth0OidcProvider := mkProvider {
  op_client : CoreClient;
  op_token_endpoint : rstr;
  op_jwks_uri : rstr;
  op_issuer : rstr;
  op_redirect_uri : rstr;
  op_client_id : rstr;
  op_client_secret : rstr }.

(** [ends_with('/')]. *)
Definition ends_with_slash (s : rstr) : bool := bool_decide (last s = Some 47%N).

Definition normalize_issuer (issuer_url : rstr) : rstr :=
  if ends_with_slash issuer_url then issuer_url else issuer_url ++ lit "/".

Definition from_config (config : OidcConfig) : result AuthenticationError.t Auth0OidcProvider :=
  let normalized_issuer := normalize_issuer (oc_issuer_url config) in
  issuer_url ← from_sum (fun e => ProviderError (lit "invalid issuer URL: " ++ e))
                 (issuer_url_new normalized_issuer);
  from_sum (fun e => ProviderError (lit "failed to build HTTP client: " ++ e)) client_build;;
  metadata ← from_sum (fun e => ProviderError (lit "OIDC discovery failed: " ++ e)) (discover issuer_url);
  token_endpoint ← ok_or (metadata_token_endpoint metadata)
                     (ProviderError (lit "discovery document missing token endpoint"));
  redirect ← from_sum (fun e => ProviderError (lit "invalid redirect URI: " ++ e))
               (redirect_url_new (oc_redirect_uri config));
  mret (mkProvider
    (set_redirect_uri redirect
       (from_provider_metadata metadata (oc_client_id config) (oc_client_secret config)))
    token_endpoint (metadata_jwks_uri metadata) normalized_issuer
    (oc_redirect_uri config) (oc_client_id config) (oc_client_secret config)).

(** URL, state, nonce and code verifier of a login. *)
Definition oidc_authorization_url (random : Random) (self : Auth0OidcProvider)
    : rstr * rstr * rstr * rstr :=
  let '(pkce_challenge, pkce_verifier) := new_random_sha256 random in
  let '(auth_url, csrf_state, nonce) :=
    authorize_url (op_client self) [lit "profile"; lit "email"] pkce_challenge random in
  (auth_url, csrf_state, nonce, pkce_verifier).

(** ** The checks of the claims *)

Definition valid_audience (self : Auth0OidcProvider) (claims_json : Json) : bool :=
  match json_get (lit "aud") claims_json with
  | Some (JString aud) => bool_decide (aud = op_client_id self)
  | Some (JArray auds) => existsb (fun a => bool_decide (json_as_str a = Some (op_client_id self))) auds
  | _ => false
  end.

Definition claim_str (name : rstr) (claims_json : Json) : option rstr :=
  json_get name claims_json ≫= json_as_str.
Definition claim_i64 (name : rstr) (claims_json : Json) : option Z :=
  json_get name claims_json ≫= json_as_i64.

(** [exchange_code] after the verification of the signature; [now] in seconds. *)
Definition check_claims (self : Auth0OidcProvider) (nonce : rstr) (now : Z) (claims_json : Json)
    : result AuthenticationError.t OidcClaims :=
  token_nonce ← ok_or (claim_str (lit "nonce") claims_json)
                  (CodeExchangeFailed (lit "ID token missing nonce claim"));
  guard_err (negb (bool_decide (token_nonce = nonce)))
    (CodeExchangeFailed (lit "ID token nonce does not match expected value"));;
  let token_issuer := default [] (claim_str (lit "iss") claims_json) in
  guard_err (negb (bool_decide (token_issuer = op_issuer self)))
    (CodeExchangeFailed (lit "ID token issuer mismatch: got '" ++ token_issuer ++ lit "', expected '" ++
       op_issuer self ++ lit "'"));;
  guard_err (negb (valid_audience self claims_json))
    (CodeExchangeFailed (lit "ID token audience does not contain our client ID"));;
  guard_err (match claim_i64 (lit "exp") claims_json with Some exp => (exp <? now)%Z | None => false end)
    (CodeExchangeFailed (lit "ID token has expired"));;
  match claim_i64 (lit "iat") claims_json with
  | Some iat =>
      guard_err (now + MAX_CLOCK_SKEW_SECS <? iat)%Z
        (CodeExchangeFailed (lit "ID token iat is too far in the future (iat=" ++ display_Z iat ++
           lit ", now=" ++ display_Z now ++ lit ", max_skew=" ++ display_Z MAX_CLOCK_SKEW_SECS ++ lit "s)"))
  | None => Ok tt
  end;;
  subject ← ok_or (claim_str (lit "sub") claims_json)
              (CodeExchangeFailed (lit "ID token missing sub claim"));
  mret (mkClaims subject (claim_str (lit "email") claims_json) (claim_str (lit "name") claims_json)).
End provider.

(** ** The exchange *)

Section exchange.
Context `{OpenIdConnect} `{JsonWebToken} `{!SerdeJson} `{network : Network} `{StatusText}.

Record CachedJwks := mkCached { cj_jwks : JwkSet; cj_fetched_at : Z }.

Record OidcWorld := mkWorld { ow_jwks_cache : option CachedJwks; ow_sent : list HttpRequest }.

Abbreviation oidc := (eff OidcWorld AuthenticationError.t) (only parsing).

Definition send (request : HttpRequest) : oidc (rstr + HttpReply) := fun s =>
  (Ok (reply_to (ow_sent s) request), mkWorld (ow_jwks_cache s) (ow_sent s ++ [request])).

Definition token_form (self : Auth0OidcProvider) (code code_verifier : rstr) : list (rstr * rstr) :=
  [(lit "grant_type", lit "authorization_code"); (lit "code", code);
   (lit "redirect_uri", op_redirect_uri self); (lit "client_id", op_client_id self);
   (lit "client_secret", op_client_secret self); (lit "code_verifier", code_verifier)].

Definition exchange_code_manual (self : Auth0OidcProvider) (code code_verifier : rstr) : oidc rstr :=
  sent ← send (PostForm (op_token_endpoint self) (token_form self code code_verifier));
  response ← lift (from_sum (failed (lit "token endpoint request failed: ")) sent);
  lift (guard_err (negb (is_success (hr_status response)))
          (CodeExchangeFailed (lit "token endpoint returned " ++ status_text (hr_status response))));;
  body_text ← lift (from_sum (failed (lit "failed to read token response body: ")) (hr_text response));
  body ← lift (from_sum (failed (lit "failed to parse token response: ")) (value_from_str body_text));
  lift (ok_or (json_get (lit "id_token") body ≫= json_as_str)
          (CodeExchangeFailed (lit "no id_token in token response"))).

(** [elapsed] never goes below zero. *)
Definition elapsed (now since : Z) : Z := Z.max 0 (now - since).

(** The keys of the cache, while they are fresh. *)
Definition fresh_jwks (checked : Z) (s : OidcWorld) : option JwkSet :=
  cached ← ow_jwks_cache s;
  if (elapsed checked (cj_fetched_at cached) <? JWKS_CACHE_TTL)%Z then Some (cj_jwks cached) else None.

Definition store_jwks (fetched : Z) (jwks : JwkSet) : oidc unit :=
  modify (fun s => mkWorld (Some (mkCached jwks fetched)) (ow_sent s)).

Definition fetch_jwks (fetched : Z) (self : Auth0OidcProvider) : oidc JwkSet :=
  sent ← send (GetUrl (op_jwks_uri self));
  jwks_response ← lift (from_sum (failed (lit "failed to fetch JWKS: ")) sent);
  jwks_text ← lift (from_sum (failed (lit "failed to read JWKS response: ")) (hr_text jwks_response));
  jwks ← lift (from_sum (failed (lit "failed to parse JWKS: ")) (jwks_from_str jwks_text));
  store_jwks fetched jwks;;
  mret jwks.

(** [checked] is the time of the look into the cache, [fetched] that of the
    store. *)
Definition get_jwks (checked fetched : Z) (self : Auth0OidcProvider) (force_refresh : bool) : oidc JwkSet :=
  s ← get;
  match (if force_refresh then None else fresh_jwks checked s) with
  | Some jwks => mret jwks
  | None => fetch_jwks fetched self
  end.

(** The readings of the clocks during an exchange. *)
Record ExchangeTimes := mkTimes { et_checked : Z; et_fetched : Z; et_refetched : Z; et_now : Z }.

Definition signing_key (times : ExchangeTimes) (self : Auth0OidcProvider) (kid : rstr) : oidc Jwk :=
  jwks ← get_jwks (et_checked times) (et_fetched times) self false;
  match jwks_find jwks kid with
  | Some key => mret key
  | None =>
      jwks ← get_jwks (et_fetched times) (et_refetched times) self true;
      lift (ok_or (jwks_find jwks kid)
              (CodeExchangeFailed (lit "no matching key found in JWKS for kid '" ++ kid ++ lit "'")))
  end.

Definition id_token_validation (self : Auth0OidcProvider) : Validation Algorithm :=
  mkValidation RS256 false false [] [op_issuer self].

Definition verify_and_decode_jwt (times : ExchangeTimes) (self : Auth0OidcProvider) (token : rstr) : oidc Json :=
  header ← lift (from_sum (failed (lit "failed to decode JWT header: ")) (decode_header token));
  lift (guard_err (negb (bool_decide (fst header = RS256)))
          (CodeExchangeFailed (lit "unsupported JWT algorithm: " ++ algorithm_debug (fst header) ++
             lit " (only RS256 is accepted)")));;
  kid ← lift (ok_or (snd header) (CodeExchangeFailed (lit "JWT header missing kid claim")));
  jwk ← signing_key times self kid;
  decoding_key ← lift (from_sum (failed (lit "failed to build decoding key from JWK: ")) (from_jwk jwk));
  lift (from_sum (failed (lit "JWT signature verification failed: "))
          (decode token decoding_key (id_token_validation self))).

(** [Utc::now().timestamp()]. *)
Definition timestamp (now : datetime) : Z := (now / 1000000000)%Z.

Definition oidc_exchange_code (times : ExchangeTimes) (self : Auth0OidcProvider)
    (code nonce code_verifier : rstr) : oidc OidcClaims :=
  id_token_str ← exchange_code_manual self code code_verifier;
  claims_json ← verify_and_decode_jwt times self id_token_str;
  lift (check_claims self nonce (timestamp (et_now times)) claims_json).

(** What the login endpoints see of the provider during one request. *)
Definition Auth0Provider (random : Random) (times : ExchangeTimes) (self : Auth0OidcProvider)
    (s : OidcWorld) : OidcProvider := {|
  authorization_url := Some (oidc_authorization_url random self);
  exchange_code := fun code nonce code_verifier =>
    match fst (oidc_exchange_code times self code nonce code_verifier s) with
    | Ok claims => Some claims
    | _ => None
    end |}.
End exchange.
