(* ===== verification/OidcClientTheory.v ===== *)
(** Which ID tokens the client of the identity provider accepts, where their keys
    come from, what it sends, and the login over it. *)
From S2P Require Import Prelude Float64 RustString Utf8 RecordedActivity RouteVersioning Http OidcState.
From S2P Require Import Sessions Login LoginTheory OidcClient.

#[local] Open Scope Z_scope.

Create HintDb no_panic discriminated.

Lemma result_bind_no_panic {E A B} (r : result E A) (k : A -> result E B) :
  r <> Panicked -> (forall a, k a <> Panicked) -> r ≫= k <> Panicked.
Proof. destruct r; [by intros _ Hk; apply Hk|done|done]. Qed.

Lemma ok_or_no_panic {E A} (o : option A) (e : E) : ok_or o e <> Panicked.
Proof. by destruct o. Qed.

Lemma guard_err_no_panic {E} b (e : E) : guard_err b e <> Panicked.
Proof. by destruct b. Qed.

Lemma from_sum_no_panic {E A} (f : rstr -> E) (r : rstr + A) : from_sum f r <> Panicked.
Proof. by destruct r. Qed.

#[local] Hint Resolve result_bind_no_panic ok_or_no_panic guard_err_no_panic from_sum_no_panic : no_panic.

(** ** The claims *)

Section claims.
Context `{OpenIdConnect} (self : Auth0OidcProvider).

(** An ID token for this client, from this issuer, in answer to this login. *)
Record genuine (nonce : rstr) (now : Z) (j : Json) (claims : OidcClaims) : Prop := {
  gen_nonce : json_get (lit "nonce") j = Some (JString nonce);
  gen_issuer : json_get (lit "iss") j = Some (JString (op_issuer self));
  gen_audience : exists aud, json_get (lit "aud") j = Some aud /\
    (aud = JString (op_client_id self) \/
     exists auds, aud = JArray auds /\ JString (op_client_id self) ∈ auds);
  gen_expiry : forall e, claim_i64 (lit "exp") j = Some e -> now <= e;
  gen_issued : forall i, claim_i64 (lit "iat") j = Some i -> i <= now + 300;
  gen_subject : json_get (lit "sub") j = Some (JString (cl_subject claims));
  gen_email : cl_email claims = claim_str (lit "email") j;
  gen_name : cl_name claims = claim_str (lit "name") j }.

Lemma claim_str_Some name j s : claim_str name j = Some s <-> json_get name j = Some (JString s).
Proof.
  unfold claim_str. destruct (json_get name j) as [v|]; [|done]. destruct v; naive_solver.
Qed.

Lemma valid_audience_iff j :
  valid_audience self j = true <->
  exists aud, json_get (lit "aud") j = Some aud /\
    (aud = JString (op_client_id self) \/
     exists auds, aud = JArray auds /\ JString (op_client_id self) ∈ auds).
Proof.
  unfold valid_audience. destruct (json_get (lit "aud") j) as [aud|]; [|naive_solver].
  destruct aud as [| | | |s|auds|]; try naive_solver.
  - rewrite bool_decide_eq_true. naive_solver.
  - rewrite existsb_exists. split.
    + intros (a & Ha & Hs%bool_decide_eq_true). exists (JArray auds). split; [done|]. right.
      exists auds. split; [done|]. destruct a; simplify_eq/=. by apply list_elem_of_In.
    + intros (aud & [= <-] & [?|(auds' & [= <-] & Hin)]); [done|]. eexists.
      split; [by apply list_elem_of_In|]. by apply bool_decide_eq_true.
Qed.

Lemma guard_then {E A} b (e : E) (k : result E A) a :
  (guard_err b e ≫= fun _ => k) = Ok a <-> b = false /\ k = Ok a.
Proof. destruct b; naive_solver. Qed.

Lemma ok_or_then {E A B} (o : option A) (e : E) (k : A -> result E B) b :
  ok_or o e ≫= k = Ok b <-> exists a, o = Some a /\ k a = Ok b.
Proof. destruct o; naive_solver. Qed.

(** The checks accept exactly the genuine tokens. *)
Lemma check_claims_genuine nonce now j claims :
  op_issuer self <> [] ->
  check_claims self nonce now j = Ok claims <-> genuine nonce now j claims.
Proof.
  intros Hne. unfold check_claims. cbv zeta. rewrite ok_or_then.
  repeat setoid_rewrite guard_then. setoid_rewrite negb_false_iff. setoid_rewrite bool_decide_eq_true.
  setoid_rewrite valid_audience_iff. setoid_rewrite claim_str_Some.
  assert (forall k : result AuthenticationError.t OidcClaims, forall e,
    ((match claim_i64 (lit "iat") j with
      | Some iat => guard_err (now + MAX_CLOCK_SKEW_SECS <? iat) (e iat)
      | None => Ok tt
      end) ≫= fun _ => k) = Ok claims <->
    (forall i, claim_i64 (lit "iat") j = Some i -> i <= now + 300) /\ k = Ok claims) as Hiat.
  { intros k e. destruct (claim_i64 (lit "iat") j) as [i|]; [|naive_solver].
    rewrite guard_then, Z.ltb_ge. unfold MAX_CLOCK_SKEW_SECS. naive_solver. }
  assert ((match claim_i64 (lit "exp") j with Some exp => exp <? now | None => false end) = false <->
    forall e, claim_i64 (lit "exp") j = Some e -> now <= e) as Hexp.
  { destruct (claim_i64 (lit "exp") j) as [e|]; [|naive_solver]. rewrite Z.ltb_ge. naive_solver. }
  setoid_rewrite Hexp. setoid_rewrite Hiat. setoid_rewrite ok_or_then.
  setoid_rewrite claim_str_Some. split.
  - intros (n & Hn & -> & Hi & Ha & He & Hit & sub & Hs & [= <-]). split; try done.
    destruct (claim_str (lit "iss") j) as [i|] eqn:Hiss; [|by destruct Hne].
    apply claim_str_Some. simpl in Hi. congruence.
  - intros [Hn Hi Ha He Hit Hs Hem Hna]. exists nonce. split_and!; try done.
    + by rewrite (proj2 (claim_str_Some _ _ _) Hi).
    + exists (cl_subject claims). split; [done|]. destruct claims; simplify_eq/=. done.
Qed.

Lemma check_claims_no_panic nonce now j : check_claims self nonce now j <> Panicked.
Proof.
  unfold check_claims. cbv zeta.
  repeat (apply result_bind_no_panic; [|intros]); try done; auto with no_panic.
  by destruct (claim_i64 _ _); auto with no_panic.
Qed.

Lemma normalized_issuer u : last (normalize_issuer u) = Some 47%N.
Proof.
  unfold normalize_issuer, ends_with_slash. case_bool_decide; [done|]. by rewrite last_app.
Qed.

Lemma configured_issuer config :
  from_config config = Ok self -> op_issuer self = normalize_issuer (oc_issuer_url config).
Proof.
  unfold from_config. intros Hf. repeat (apply result_bind_inv in Hf as (? & _ & Hf)).
  by injection Hf as <-.
Qed.

Lemma configured_issuer_ne config : from_config config = Ok self -> op_issuer self <> [].
Proof.
  intros ->%configured_issuer Hn. pose proof (normalized_issuer (oc_issuer_url config)) as Hl.
  by rewrite Hn in Hl.
Qed.
End claims.

(** ** The keys *)

Section exchange.
Context `{OpenIdConnect} `{JsonWebToken} `{!SerdeJson} `{network : Network} `{StatusText}.
Context (self : Auth0OidcProvider).

Definition jwks_request : HttpRequest := GetUrl (op_jwks_uri self).

(** A reply of the endpoint of the keys, after the requests [before]. *)
Definition keys_reply (before : list HttpRequest) (jwks : JwkSet) : Prop :=
  exists reply text, reply_to before jwks_request = inr reply /\
    hr_text reply = inr text /\ jwks_from_str text = inr jwks.

(** Keys that this endpoint has served at some point of the history. *)
Definition served (log : list HttpRequest) (jwks : JwkSet) : Prop :=
  exists before after, log = before ++ jwks_request :: after /\ keys_reply before jwks.

Definition cache_served (s : OidcWorld) : Prop :=
  forall c, ow_jwks_cache s = Some c -> served (ow_sent s) (cj_jwks c).

Lemma served_app log more jwks : served log jwks -> served (log ++ more) jwks.
Proof.
  intros (before & after & -> & Hr). exists before, (after ++ more). by rewrite <- app_assoc.
Qed.

Lemma fetch_jwks_spec fetched s r s' :
  fetch_jwks fetched self s = (r, s') -> cache_served s ->
  cache_served s' /\ ow_sent s' = ow_sent s ++ [jwks_request] /\
  (r <> Panicked) /\
  (forall jwks, r = Ok jwks <-> keys_reply (ow_sent s) jwks) /\
  (forall jwks, r = Ok jwks -> served (ow_sent s') jwks).
Proof.
  intros Hrun Hs. unfold fetch_jwks, send, from_sum, store_jwks in Hrun. run.
  assert (cache_served (mkWorld (ow_jwks_cache s) (ow_sent s ++ [jwks_request]))) as Hs1.
  { intros c Hc. by apply served_app, Hs. }
  change (GetUrl (op_jwks_uri self)) with jwks_request in *.
  assert (forall e : AuthenticationError.t, (forall jwks, ~ keys_reply (ow_sent s) jwks) ->
    (Err e, mkWorld (ow_jwks_cache s) (ow_sent s ++ [jwks_request])) = (r, s') ->
    cache_served s' /\ ow_sent s' = ow_sent s ++ [jwks_request] /\ r <> Panicked /\
    (forall jwks, r = Ok jwks <-> keys_reply (ow_sent s) jwks) /\
    (forall jwks, r = Ok jwks -> served (ow_sent s') jwks)) as Hfailed.
  { intros e Hno [= <- <-]. split_and!; try done. intros jwks. split; [done|]. by intros ?%Hno. }
  destruct (reply_to (ow_sent s) jwks_request) as [e|reply] eqn:Hreply.
  { apply (Hfailed _) in Hrun; [done|]. intros jwks (? & ? & ? & _). congruence. }
  destruct (hr_text reply) as [e|text] eqn:Htext.
  { apply (Hfailed _) in Hrun; [done|]. intros jwks (? & ? & ? & ? & _). congruence. }
  destruct (jwks_from_str text) as [e|jwks] eqn:Hjwks.
  { apply (Hfailed _) in Hrun; [done|]. intros jwks (? & ? & ? & ? & ?). congruence. }
  clear Hfailed. injection Hrun as <- <-. cbn [ow_sent].
  assert (keys_reply (ow_sent s) jwks) as Hkeys by (by exists reply, text).
  assert (served (ow_sent s ++ [jwks_request]) jwks) as Hserved by (by exists (ow_sent s), []).
  split; [intros c [= <-]; done|]. split_and!; try done.
  - intros jwks'. split; [by intros [= <-]|]. intros (? & ? & ? & ? & ?). congruence.
  - by intros jwks' [= <-].
Qed.

Definition key_in (jwks : JwkSet) (kid : rstr) (key : Jwk) : Prop := jwks_find jwks kid = Some key.

(** Where a key is to be found: in the fresh cache, or at the endpoint if the
    cache is stale or does not have it. *)
Definition key_available (checked : Z) (s : OidcWorld) (kid : rstr) (key : Jwk) : Prop :=
  (exists jwks, fresh_jwks checked s = Some jwks /\ key_in jwks kid key) \/
  ((forall jwks, fresh_jwks checked s = Some jwks -> jwks_find jwks kid = None) /\
   exists jwks, keys_reply (ow_sent s) jwks /\ key_in jwks kid key).

Lemma fresh_jwks_served checked s jwks :
  cache_served s -> fresh_jwks checked s = Some jwks -> served (ow_sent s) jwks.
Proof.
  intros Hs. unfold fresh_jwks. destruct (ow_jwks_cache s) as [c|] eqn:Hc; [|done]. simpl.
  destruct (_ <? _); [|done]. intros [= <-]. by apply Hs.
Qed.

(** A fetch made for one key. *)
Definition fetch_key (fetched : Z) (kid : rstr) (e : AuthenticationError.t)
    : eff OidcWorld AuthenticationError.t Jwk :=
  jwks ← fetch_jwks fetched self; lift (ok_or (jwks_find jwks kid) e).

Lemma fetch_key_spec fetched kid e s r s' :
  fetch_key fetched kid e s = (r, s') -> cache_served s ->
  cache_served s' /\ r <> Panicked /\ ow_sent s' = ow_sent s ++ [jwks_request] /\
  (forall key, (exists jwks, keys_reply (ow_sent s) jwks /\ key_in jwks kid key) -> r = Ok key) /\
  (forall key, r = Ok key -> exists jwks, served (ow_sent s') jwks /\ key_in jwks kid key).
Proof.
  intros Hrun Hs. unfold fetch_key, mbind, eff_bind in Hrun.
  destruct (fetch_jwks fetched self s) as [r1 s1] eqn:Hf.
  destruct (fetch_jwks_spec _ _ _ _ Hf Hs) as (Hs1 & Hsent & Hnp & Hok & Hserved).
  destruct r1 as [jwks|e1|]; [| |done].
  - unfold lift, ok_or in Hrun. injection Hrun as <- <-.
    destruct (jwks_find jwks kid) as [key|] eqn:Hfind; split_and!; try done.
    + intros key' (jwks' & Hr & Hk). apply Hok in Hr. unfold key_in in Hk. congruence.
    + intros key' [= <-]. eauto.
    + intros key' (jwks' & Hr & Hk). apply Hok in Hr. unfold key_in in Hk. congruence.
  - injection Hrun as <- <-. split_and!; try done.
    intros key' (jwks' & Hr & Hk). by apply Hok in Hr.
Qed.

Lemma signing_key_cases times kid s :
  signing_key times self kid s =
    let missing := AuthenticationError.CodeExchangeFailed
      (lit "no matching key found in JWKS for kid '" ++ kid ++ lit "'") in
    let look jwks := match jwks_find jwks kid with
                     | Some key => mret key
                     | None => fetch_key (et_refetched times) kid missing
                     end in
    match fresh_jwks (et_checked times) s with
    | Some jwks => look jwks s
    | None => (fetch_jwks (et_fetched times) self ≫= look) s
    end.
Proof.
  unfold signing_key, get_jwks, fetch_key. run.
  destruct (fresh_jwks _ _) as [jwks|]; [by destruct (jwks_find _ _)|].
  destruct (fetch_jwks _ _ _) as [[jwks|e|] s1]; [|done..]. by destruct (jwks_find _ _).
Qed.

Lemma signing_key_spec times kid s r s' :
  signing_key times self kid s = (r, s') -> cache_served s ->
  cache_served s' /\ r <> Panicked /\
  (exists n, (n <= 2)%nat /\ ow_sent s' = ow_sent s ++ replicate n jwks_request) /\
  (forall key, r = Ok key -> exists jwks, served (ow_sent s') jwks /\ key_in jwks kid key) /\
  (forall key, key_available (et_checked times) s kid key -> r = Ok key).
Proof.
  rewrite signing_key_cases. cbv zeta. set (missing := AuthenticationError.CodeExchangeFailed _).
  intros Hrun Hs. unfold key_available.
  destruct (fresh_jwks (et_checked times) s) as [jwks|] eqn:Hfresh.
  - pose proof (fresh_jwks_served _ _ _ Hs Hfresh) as Hserved.
    destruct (jwks_find jwks kid) as [key|] eqn:Hfind.
    + injection Hrun as <- <-. split_and!; try done.
      * exists 0%nat. rewrite app_nil_r. split; [lia|done].
      * intros key' [= <-]. eauto.
      * intros key' [(jwks' & [= <-] & Hk)|(Hno & _)]; [unfold key_in in Hk; congruence|].
        rewrite (Hno jwks eq_refl) in Hfind. done.
    + destruct (fetch_key_spec _ _ _ _ _ _ Hrun Hs) as (Hs' & Hnp & Hsent & Hok & Hkey).
      split_and!; try done.
      * exists 1%nat. split; [lia|done].
      * intros key [(jwks' & [= <-] & Hk)|(_ & Hex)]; [unfold key_in in Hk; congruence|by apply Hok].
  - unfold mbind, eff_bind in Hrun. destruct (fetch_jwks (et_fetched times) self s) as [r1 s1] eqn:Hf.
    destruct (fetch_jwks_spec _ _ _ _ Hf Hs) as (Hs1 & Hsent & Hnp & Hok & Hserved).
    assert (forall key, (exists jwks, None = Some jwks /\ key_in jwks kid key) \/
      ((forall jwks, None = Some jwks -> jwks_find jwks kid = None) /\
       exists jwks, keys_reply (ow_sent s) jwks /\ key_in jwks kid key) ->
      exists jwks, r1 = Ok jwks /\ key_in jwks kid key) as Hav.
    { intros key [(? & ? & _)|(_ & jwks & Hr & Hk)]; [done|]. exists jwks. split; [by apply Hok|done]. }
    destruct r1 as [jwks|e|]; [| |done].
    + destruct (jwks_find jwks kid) as [key|] eqn:Hfind.
      * injection Hrun as <- <-. split_and!; try done.
        -- exists 1%nat. split; [lia|done].
        -- intros key' [= <-]. eauto.
        -- intros key' (jwks' & [= <-] & Hk)%Hav. unfold key_in in Hk. congruence.
      * destruct (fetch_key_spec _ _ _ _ _ _ Hrun Hs1) as (Hs' & Hnp' & Hsent' & _ & Hkey).
        split_and!; try done.
        -- exists 2%nat. split; [lia|]. rewrite Hsent', Hsent, <- app_assoc. done.
        -- intros key' (jwks' & [= <-] & Hk)%Hav. unfold key_in in Hk. congruence.
    + injection Hrun as <- <-. split_and!; try done.
      * exists 1%nat. split; [lia|done].
      * intros key' (jwks' & ? & _)%Hav. done.
Qed.

(** ** The exchange *)

Definition token_request (code code_verifier : rstr) : HttpRequest :=
  PostForm (op_token_endpoint self) (token_form self code code_verifier).

(** The ID token that the token endpoint issues for a code. *)
Definition issued (before : list HttpRequest) (code code_verifier token : rstr) : Prop :=
  exists reply text body, reply_to before (token_request code code_verifier) = inr reply /\
    is_success (hr_status reply) = true /\ hr_text reply = inr text /\ value_from_str text = inr body /\
    json_get (lit "id_token") body = Some (JString token).

(** A token signed with RS256 under the key that it names, with its payload. *)
Definition signed (token kid : rstr) (key : Jwk) (j : Json) : Prop :=
  decode_header token = inr (RS256, Some kid) /\
  exists dk, from_jwk key = inr dk /\ decode token dk (id_token_validation self) = inr j.

Lemma from_sum_ok {E A} (f : rstr -> E) (r : rstr + A) a : from_sum f r = Ok a <-> r = inr a.
Proof. destruct r; naive_solver. Qed.

(** The part of an effect that only computes. *)
Lemma lift_then {S E A B} (r : result E A) (k : A -> result E B) (s : S) :
  (lift r ≫= fun a => lift (k a)) s = (r ≫= k, s).
Proof. by destruct r. Qed.

Definition token_of_reply (sent : rstr + HttpReply) : result AuthenticationError.t rstr :=
  response ← from_sum (fun e => AuthenticationError.CodeExchangeFailed (lit "token endpoint request failed: " ++ e)) sent;
  guard_err (negb (is_success (hr_status response)))
    (AuthenticationError.CodeExchangeFailed (lit "token endpoint returned " ++ status_text (hr_status response)));;
  body_text ← from_sum (fun e => AuthenticationError.CodeExchangeFailed (lit "failed to read token response body: " ++ e))
                (hr_text response);
  body ← from_sum (fun e => AuthenticationError.CodeExchangeFailed (lit "failed to parse token response: " ++ e))
           (value_from_str body_text);
  ok_or (json_get (lit "id_token") body ≫= json_as_str)
    (AuthenticationError.CodeExchangeFailed (lit "no id_token in token response")).

Lemma exchange_code_manual_cases code code_verifier s :
  exchange_code_manual self code code_verifier s =
    (token_of_reply (reply_to (ow_sent s) (token_request code code_verifier)),
     mkWorld (ow_jwks_cache s) (ow_sent s ++ [token_request code code_verifier])).
Proof.
  unfold exchange_code_manual, token_of_reply, send. fold (token_request code code_verifier).
  run. destruct (reply_to _ _) as [e|reply]; [done|]. cbn [from_sum].
  destruct (guard_err _ _); [|done..]. destruct (hr_text reply) as [e|text]; [done|]. cbn [from_sum].
  by destruct (value_from_str text).
Qed.

Lemma token_of_reply_issued before code code_verifier token :
  token_of_reply (reply_to before (token_request code code_verifier)) = Ok token <->
  issued before code code_verifier token.
Proof.
  unfold token_of_reply, issued. split.
  - intros (reply & Hr%from_sum_ok & Ht)%result_bind_inv.
    apply guard_then in Ht as [Hs%negb_false_iff (text & Htext%from_sum_ok & Ht)%result_bind_inv].
    apply result_bind_inv in Ht as (body & Hb%from_sum_ok & Ht%ok_or_inv).
    apply (claim_str_Some _ body token) in Ht. by exists reply, text, body.
  - intros (reply & text & body & -> & Hs & Ht & Hb & Hj%claim_str_Some). cbn [from_sum mbind result_bind].
    unfold claim_str in Hj. rewrite Hs, Ht. cbn [from_sum mbind result_bind negb guard_err]. rewrite Hb.
    cbn [from_sum mbind result_bind]. by rewrite Hj.
Qed.

Lemma token_of_reply_no_panic sent : token_of_reply sent <> Panicked.
Proof.
  unfold token_of_reply. auto 10 with no_panic.
Qed.

Lemma verify_spec times token s r s' :
  verify_and_decode_jwt times self token s = (r, s') -> cache_served s ->
  cache_served s' /\ r <> Panicked /\
  (exists n, (n <= 2)%nat /\ ow_sent s' = ow_sent s ++ replicate n jwks_request) /\
  (forall j, r = Ok j -> exists kid key jwks, served (ow_sent s') jwks /\ key_in jwks kid key /\ signed token kid key j) /\
  (forall kid key j, key_available (et_checked times) s kid key -> signed token kid key j -> r = Ok j).
Proof.
  intros Hrun Hs. unfold verify_and_decode_jwt, signed in *.
  assert (exists n, (n <= 2)%nat /\ ow_sent s = ow_sent s ++ replicate n jwks_request) as Hnone.
  { exists 0%nat. rewrite app_nil_r. split; [lia|done]. }
  destruct (decode_header token) as [e|[alg kid]]; [run; injection Hrun as <- <-; split_and!; naive_solver|].
  unfold mbind at 1, eff_bind at 1, lift at 1 in Hrun. cbn [from_sum fst snd] in Hrun.
  destruct (decide (alg = RS256)) as [->|Halg].
  2:{ rewrite bool_decide_eq_false_2 in Hrun by done. run. injection Hrun as <- <-.
      split_and!; naive_solver. }
  rewrite bool_decide_eq_true_2 in Hrun by done. unfold mbind at 1, eff_bind at 1, lift at 1 in Hrun.
  cbn [negb guard_err] in Hrun. unfold mbind at 1, eff_bind at 1, lift at 1 in Hrun.
  destruct kid as [kid|]; cbn [ok_or] in Hrun; [|injection Hrun as <- <-; split_and!; naive_solver].
  unfold mbind at 1, eff_bind at 1 in Hrun.
  destruct (signing_key times self kid s) as [r1 s1] eqn:Hkey.
  destruct (signing_key_spec _ _ _ _ _ Hkey Hs) as (Hs1 & Hnp & Hsent & Hfrom & Hav).
  destruct r1 as [key|e|]; [|injection Hrun as <- <-; split_and!; naive_solver|done].
  rewrite lift_then in Hrun. injection Hrun as <- <-. split; [done|]. split.
  { auto with no_panic. }
  split; [done|]. split.
  - intros j (dk & Hdk%from_sum_ok & Hj%from_sum_ok)%result_bind_inv.
    destruct (Hfrom key eq_refl) as (jwks & Hserved & Hin). exists kid, key, jwks. eauto 10.
  - intros kid' key' j Hk ([= <-] & dk & Hdk & Hj). apply Hav in Hk. injection Hk as <-.
    rewrite Hdk. cbn. by rewrite Hj.
Qed.

(** C28: the provider accepts a login exactly when the token endpoint issues, for
    its code and verifier, an ID token that is signed with RS256 under the key it
    names and is genuine for the login's nonce: from the configured issuer, for
    this client, not expired, and not from the future.  The key is one that the
    provider's key endpoint has served: a fresh cached key is used without a
    request, and a key that the cache does not know is asked for once more.  An
    exchange never panics, sends the code once, asks for keys at most twice, and
    keeps the cache to keys that were served.  A token without expiry counts as not
    expired. *)
Theorem exchange_code_correct config times code nonce code_verifier s :
  from_config config = Ok self -> cache_served s ->
  let '(r, s') := oidc_exchange_code times self code nonce code_verifier s in
  let asked := mkWorld (ow_jwks_cache s) (ow_sent s ++ [token_request code code_verifier]) in
  cache_served s' /\ r <> Panicked /\
  (exists n, (n <= 2)%nat /\ ow_sent s' = ow_sent asked ++ replicate n jwks_request) /\
  (forall claims, r = Ok claims -> exists token kid key jwks j,
     issued (ow_sent s) code code_verifier token /\
     served (ow_sent s') jwks /\ key_in jwks kid key /\ signed token kid key j /\
     genuine self nonce (timestamp (et_now times)) j claims) /\
  (forall token kid key j claims,
     issued (ow_sent s) code code_verifier token ->
     key_available (et_checked times) asked kid key -> signed token kid key j ->
     genuine self nonce (timestamp (et_now times)) j claims -> r = Ok claims).
Proof.
  intros Hself%configured_issuer_ne Hs. destruct (oidc_exchange_code _ _ _ _ _ _) as [r s'] eqn:Hrun.
  unfold oidc_exchange_code, mbind, eff_bind in Hrun. rewrite exchange_code_manual_cases in Hrun.
  set (asked := mkWorld _ _) in *.
  assert (cache_served asked) as Ha by (intros c Hc; by apply served_app, Hs).
  pose proof (token_of_reply_no_panic (reply_to (ow_sent s) (token_request code code_verifier))) as Hnp0.
  pose proof (token_of_reply_issued (ow_sent s) code code_verifier) as Hissued.
  destruct (token_of_reply _) as [token|e|]; [|clear Hnp0|done].
  2:{ injection Hrun as <- <-. split_and!; try done.
      - exists 0%nat. rewrite app_nil_r. split; [lia|done].
      - intros token kid key j claims Hi%Hissued. done. }
  destruct (verify_and_decode_jwt times self token asked) as [r1 s1] eqn:Hv.
  destruct (verify_spec _ _ _ _ _ Hv Ha) as (Hs1 & Hnp & Hsent & Hfrom & Hav).
  destruct r1 as [j|e|]; [| |done].
  - unfold lift in Hrun. injection Hrun as <- <-. split_and!; try done.
    + apply check_claims_no_panic.
    + intros claims Hc%check_claims_genuine; [|done].
      destruct (Hfrom j eq_refl) as (kid & key & jwks & Hserved & Hin & Hsig).
      exists token, kid, key, jwks, j. split; [by apply Hissued|done].
    + intros token' kid key j' claims Hi%Hissued Hk Hsig Hg. injection Hi as <-.
      pose proof (Hav kid key j' Hk Hsig) as [= <-]. by apply check_claims_genuine.
  - injection Hrun as <- <-. split_and!; try done.
    intros token' kid key j' claims Hi%Hissued Hk Hsig Hg. injection Hi as <-.
    by pose proof (Hav kid key j' Hk Hsig).
Qed.
End exchange.

(** ** A login over this client *)

Section login.
Context `{OpenIdConnect} `{JsonWebToken} `{!SerdeJson} `{network : Network} `{StatusText} `{Sha256} `{UuidDisplay}.
Context (self : Auth0OidcProvider) (times : ExchangeTimes).

(** Claims that an ID token of the provider proves, for a login's code, nonce and
    verifier. *)
Definition proved_claims (w : OidcWorld) (code nonce code_verifier : rstr) (claims : OidcClaims) : Prop :=
  exists token kid key jwks j log,
    issued self (ow_sent w) code code_verifier token /\
    served self log jwks /\ key_in jwks kid key /\ signed self token kid key j /\
    genuine self nonce (timestamp (et_now times)) j claims.

Lemma exchange_proves config w code nonce code_verifier claims :
  from_config config = Ok self -> cache_served self w ->
  fst (oidc_exchange_code times self code nonce code_verifier w) = Ok claims ->
  proved_claims w code nonce code_verifier claims.
Proof.
  intros Hself Hw Hok. unfold oidc_exchange_code, mbind, eff_bind in Hok.
  rewrite exchange_code_manual_cases in Hok.
  destruct (token_of_reply _) as [token|e|] eqn:Ht; [|done..]. apply token_of_reply_issued in Ht.
  destruct (verify_and_decode_jwt _ _ _ _) as [r s1] eqn:Hv.
  apply verify_spec in Hv as (_ & _ & _ & Hfrom & _); [|intros c Hc; by apply served_app, Hw].
  destruct r as [j|e|]; [|done..]. apply check_claims_genuine in Hok; [|by eapply configured_issuer_ne].
  destruct (Hfrom j eq_refl) as (kid & key & jwks & Hserved & Hin & Hsig).
  by exists token, kid, key, jwks, j, (ow_sent s1).
Qed.

(** C29: a session that a callback opens is that of the subject of a signed and
    genuine ID token.  The token was issued for the code of the request and
    answers the nonce and the verifier that were stored for its state, which can
    be used once; in every other case no session is opened. *)
Theorem login_needs_genuine_token config random cookie_secure instant now ids params w st :
  from_config config = Ok self -> cache_served self w ->
  sessions_ok (as_identity st) -> users_ok (as_identity st) ->
  now + seconds_ns (7 * 24 * 3600) < chrono_end ->
  header_value_ok (session_cookie cookie_secure (li_raw_token ids)) = true ->
  exists resp st',
    get_callback (Some (Auth0Provider random times self w)) cookie_secure instant now ids params st = (Ok resp, st') /\
    (live (as_identity st') = live (as_identity st) \/
     exists code state nonce code_verifier claims u row,
       cp_code params = Some code /\ cp_state params = Some state /\
       consume_state instant state (as_states st) = (Some (nonce, code_verifier), as_states st') /\
       proved_claims w code nonce code_verifier claims /\
       id_users (as_identity st') !! u = Some row /\ usr_external_id row = cl_subject claims /\
       live (as_identity st') =
         <[hash_token (li_raw_token ids) :=
             (mkSessionInfo u (li_csrf_token ids) (li_session ids), now + seconds_ns (7 * 24 * 3600))]>
           (live (as_identity st))).
Proof.
  intros Hself Hw Hs Hu Hend Hcookie.
  destruct (callback_session (Some (Auth0Provider random times self w)) cookie_secure instant now ids params st
    Hs Hu Hend Hcookie) as (resp & st' & Hrun & _ & _ & Hcases).
  exists resp, st'. split; [done|]. destruct Hcases as [(_ & _ & Hlive)|Hopened]; [by left|right].
  destruct Hopened as (claims & u & row & Hfrom & Hrow & Hext & _ & _ & _ & Hlive).
  destruct Hfrom as (p & code & state & nonce & verifier & [= <-] & _ & Hcode & Hstate & Hcons & Hex).
  exists code, state, nonce, verifier, claims, u, row. split_and!; try done.
  eapply exchange_proves; [done..|]. simpl in Hex.
  destruct (fst (oidc_exchange_code _ _ _ _ _ _)) as [c| |]; [|done..]. by injection Hex as ->.
Qed.
End login.

(** ** A provider whose keys have been rotated *)

(** A sample token is the number of its algorithm, of its key, and whether it
    expires. *)
#[local] Instance sample_jwt : JsonWebToken := {|
  Algorithm := N; RS256 := 1%N; algorithm_debug := display_N;
  Jwk := N; JwkSet := list N; 
  jwks_find := fun keys kid => find (fun k => bool_decide (kid = [k])) keys;
  DecodingKey := N; from_jwk := inr;
  decode_header := fun token => match token with alg :: kid :: _ => inr (alg, Some [kid]) | _ => inl [] end;
  decode := fun token key v =>
    match token with
    | [alg; kid; expires] =>
        if bool_decide (alg = vd_algorithm _ v) && bool_decide (kid = key) then
          inr (JObject ([(lit "iss", JString (lit "https://idp/")); (lit "aud", JArray [JString (lit "haiker")]);
                         (lit "sub", JString (lit "alice")); (lit "nonce", JString (lit "nonce"))] ++
                        (if (expires =? 0)%N then [] else [(lit "exp", JInt (Z.of_N expires))])))
        else inl (lit "InvalidSignature")
    | _ => inl []
    end |}.
#[local] Instance sample_serde : SerdeJson := {|
  value_from_str := fun s => inr (JObject [(lit "id_token", JString s)]);
  jwks_from_str := inr |}.
#[local] Instance sample_oidc : OpenIdConnect := {|
  IssuerUrl := rstr; issuer_url_new := inr; client_build := inr tt;
  CoreProviderMetadata := rstr; discover := inr;
  metadata_token_endpoint := fun issuer => Some (issuer ++ lit "token");
  metadata_jwks_uri := fun issuer => issuer ++ lit "keys";
  RedirectUrl := rstr; redirect_url_new := inr;
  CoreClient := rstr; from_provider_metadata := fun issuer _ _ => issuer; set_redirect_uri := fun _ c => c;
  Random := unit; PkceChallenge := rstr; new_random_sha256 := fun _ => (lit "challenge", lit "verifier");
  authorize_url := fun issuer _ challenge _ => (issuer ++ challenge, lit "state", lit "nonce") |}.
#[local] Instance sample_status : StatusText := display_N.

(** The token is signed with key 8, which the endpoint has not served at first; with
    [expires]. *)
Definition rotated (expires : N) : Network := fun sent request =>
  inr (mkReply 200 (inr (match request, sent with
    | PostForm _ _, _ => [1; 8; expires]%N
    | GetUrl _, [] => [7]%N
    | GetUrl _, _ => [8; 9]%N
    end))).

Definition sample_config : OidcConfig :=
  mkOidcConfig (lit "https://idp") (lit "haiker") (lit "secret") (lit "https://haiker/cb").
Definition sample_self : Auth0OidcProvider :=
  match from_config sample_config with Ok p => p | _ => mkProvider (lit "") [] [] [] [] [] [] end.

Lemma sample_configured : from_config sample_config = Ok sample_self.
Proof. by vm_compute. Qed.

(** The cache is fresh and has key 7 alone. *)
Definition old_keys : OidcWorld := mkWorld (Some (mkCached [7%N] 100)) [GetUrl (lit "https://idp/keys")].
Definition exchange_times : ExchangeTimes := mkTimes 200 210 220 (1000 * 1000000000).

Definition sample_exchange (expires : N) :=
  oidc_exchange_code (network := rotated expires) exchange_times sample_self (lit "code")
    (lit "nonce") (lit "verifier") old_keys.

Lemma old_keys_served expires : cache_served (network := rotated expires) sample_self old_keys.
Proof.
  intros c [= <-]. exists [], []. split; [by vm_compute|].
  eexists (mkReply 200 (inr [7%N])), [7%N]. by split_and!.
Qed.

(** The key is fetched, and replaces the cached ones; expired tokens are refused,
    and a token without expiry never is. *)
Lemma rotated_exchange :
  fst (sample_exchange 1000) = Ok (mkClaims (lit "alice") None None) /\
  ow_jwks_cache (snd (sample_exchange 1000)) = Some (mkCached [8; 9]%N 220) /\
  fst (sample_exchange 999) = Err (AuthenticationError.CodeExchangeFailed (lit "ID token has expired")) /\
  fst (sample_exchange 0) = Ok (mkClaims (lit "alice") None None).
Proof. by vm_compute. Qed.

(** The token without expiry satisfies what an exchange asks for. *)
Lemma exchange_code_correct_witness :
  fst (sample_exchange 0) = Ok (mkClaims (lit "alice") None None) /\
  fst (sample_exchange 999) <> Panicked.
Proof.
  split.
  - pose proof (exchange_code_correct (network := rotated 0) sample_self sample_config exchange_times
      (lit "code") (lit "nonce") (lit "verifier") old_keys sample_configured (old_keys_served 0)) as Hx.
    unfold sample_exchange. destruct (oidc_exchange_code _ _ _ _ _ _) as [r s'].
    destruct Hx as (_ & _ & _ & _ & Hx). simpl.
    apply (Hx [1; 8; 0]%N [8%N] 8%N (match @decode sample_jwt [1; 8; 0]%N 8%N (id_token_validation sample_self)
      with inr j => j | inl _ => JNull end)).
    + eexists (mkReply 200 (inr [1; 8; 0]%N)), [1; 8; 0]%N, _. by split_and!.
    + right. split; [by intros jwks [= <-]|]. exists [8; 9]%N. split; [|done].
      eexists (mkReply 200 (inr [8; 9]%N)), [8; 9]%N. by split_and!.
    + split; [done|]. exists 8%N. by split.
    + split; try done. eexists. split; [by vm_compute|]. right. eexists. split; [done|].
      apply list_elem_of_In. by left.
  - pose proof (exchange_code_correct (network := rotated 999) sample_self sample_config exchange_times
      (lit "code") (lit "nonce") (lit "verifier") old_keys sample_configured (old_keys_served 999)) as Hx.
    unfold sample_exchange. destruct (oidc_exchange_code _ _ _ _ _ _) as [r s']. by destruct Hx as (_ & Hx & _).
Defined.

#[local] Instance sample_sha_256 : Sha256 := fun b => b.
#[local] Instance sample_uuids : UuidDisplay := display_N.

Definition sample_auth0 : OidcProvider :=
  Auth0Provider (network := rotated 1000) tt exchange_times sample_self old_keys.
Definition pending_login : AuthState :=
  snd (post_login (Some sample_auth0) 0 (mkAuthState new_store (mkIdentityDb ∅ ∅))).

Lemma login_needs_genuine_token_witness :
  exists u row claims st', fst (get_callback (Some sample_auth0) true 10 20 login_ids login_params pending_login) =
      Ok (mkResponse 200 (Some (JObject [(lit "csrf_token", JString (lit "csrf-token"));
            (lit "user_id", JString (lit "5"))])) (Some (session_cookie true (lit "raw-token"))) []) /\
    snd (get_callback (Some sample_auth0) true 10 20 login_ids login_params pending_login) = st' /\
    id_users (as_identity st') !! u = Some row /\
    proved_claims (network := rotated 1000) sample_self exchange_times old_keys (lit "code") (lit "nonce") (lit "verifier")
      claims /\ usr_external_id row = cl_subject claims.
Proof.
  destruct (login_needs_genuine_token (network := rotated 1000) sample_self exchange_times sample_config tt true 10 20
    login_ids login_params old_keys pending_login) as (resp & st' & Hrun & Hcases).
  - exact sample_configured.
  - exact (old_keys_served 1000).
  - split; [by apply map_Forall_empty|]. intros k r k' r' Hr. vm_compute in Hr. discriminate.
  - by apply map_Forall_empty.
  - by vm_compute.
  - by vm_compute.
  - fold sample_auth0 in Hrun.
    assert (snd (get_callback (Some sample_auth0) true 10 20 login_ids login_params pending_login) = st') as Hst
      by (by rewrite Hrun).
    destruct Hcases as [Hlive|Hopened].
    + exfalso. rewrite <- Hst in Hlive. apply (f_equal (fun m => m !! lit "raw-token")) in Hlive.
      by vm_compute in Hlive.
    + destruct Hopened as (code & state & nonce & verifier & claims & u & row & Hcode & Hstate & Hcons & Hp & Hrow & Hext & _).
      exists u, row, claims, st'. split; [by vm_compute|]. split; [done|]. split; [done|].
      injection Hcode as <-. injection Hstate as <-. apply (f_equal fst) in Hcons. vm_compute in Hcons.
      by injection Hcons as <- <-.
Defined.
