(* ===== verification/ServerTheory.v ===== *)
(** What a server that has started guarantees, what its configuration depends on,
    and the identifiers of its responses. *)
From S2P Require Import Prelude Float64 RustString Utf8 Imports RecordedActivity RouteVersioning Base64 Http.
From S2P Require Import RateLimits Sessions Login LoginTheory ObjectStorage OidcClient OidcClientTheory Server.

(** ** Configuration *)

(** The variables that the configuration reads. *)
Definition read_variables : list rstr :=
  [lit "OIDC_ISSUER_URL"; lit "OIDC_CLIENT_ID"; lit "OIDC_CLIENT_SECRET"; lit "OIDC_REDIRECT_URI";
   lit "SERVER_HOST"; lit "SERVER_PORT"; lit "DATABASE_URL"; lit "DATABASE_MAX_CONNECTIONS";
   lit "STORAGE_ENDPOINT"; lit "STORAGE_BUCKET"; lit "STORAGE_ACCESS_KEY_ID"; lit "STORAGE_SECRET_ACCESS_KEY"].

Lemma config_reads env env' :
  (forall name, name ∈ read_variables -> env name = env' name) ->
  AppConfig_from_env env = AppConfig_from_env env'.
Proof.
  intros Heq%Forall_forall. unfold read_variables in Heq. rewrite !Forall_cons in Heq.
  destruct Heq as (H1 & H2 & H3 & H4 & H5 & H6 & H7 & H8 & H9 & H10 & H11 & H12 & _).
  unfold AppConfig_from_env, oidc_from_env, env_or, parse_env.
  by rewrite H1, H2, H3, H4, H5, H6, H7, H8, H9, H10, H11, H12.
Qed.

(** The names that README.md and .env.example give to the storage and the port
    have no effect. *)
Definition documented_variables : list rstr :=
  [lit "S3_ENDPOINT"; lit "S3_ACCESS_KEY"; lit "S3_SECRET_KEY"; lit "S3_BUCKET"; lit "API_PORT"].

Lemma documented_variables_ignored (env : Env) (f : rstr -> option rstr) :
  AppConfig_from_env (fun name => if decide (name ∈ documented_variables) then f name else env name) =
  AppConfig_from_env env.
Proof.
  apply config_reads. intros name Hr. rewrite decide_False; [done|]. intros Hd.
  assert (forallb (fun x => negb (bool_decide (x ∈ documented_variables))) read_variables = true) as Hall
    by (by vm_compute).
  rewrite forallb_forall in Hall. specialize (Hall name). rewrite <- list_elem_of_In in Hall.
  specialize (Hall Hr). by rewrite bool_decide_eq_true_2 in Hall.
Qed.

(** Ports and pool sizes stay in their widths. *)
Lemma config_in_range env :
  (sc_port (ac_server (AppConfig_from_env env)) <= 65535)%N /\
  (dc_max_connections (ac_database (AppConfig_from_env env)) < u32_modulus)%N.
Proof.
  assert (forall max name d, (d <= max)%N -> (parse_env env max name d <= max)%N) as Hle.
  { intros max name d Hd. unfold parse_env. destruct (env name) as [s|]; [|done]. simpl.
    unfold parse_uint. destruct (match s with 43%N :: s' => s' | _ => s end); [done|].
    destruct (forallb _ _); [|done]. by destruct (N.leb_spec (digits_value (map (fun c => c - 48)%N (n :: l))) max). }
  split; [by apply (Hle 65535%N)|]. simpl.
  apply (N.le_lt_trans _ (u32_modulus - 1)); [by apply Hle|done].
Qed.

(** The secrets have no influence on the debug output. *)
Lemma debug_redacted `{DebugStr} c secret o secret' :
  storage_config_debug (mkStorageConfig (stc_endpoint c) (stc_bucket c) (stc_access_key_id c) secret) =
    storage_config_debug c /\
  oidc_config_debug (mkEnvOidc (eo_issuer_url o) (eo_client_id o) secret' (eo_redirect_uri o)) =
    oidc_config_debug o.
Proof. done. Qed.

(** ** Request identifiers *)

Definition header_of (name : rstr) (r : Response) : list rstr :=
  map snd (List.filter (fun h => bool_decide (h.1 = name)) (rs_headers r)).

Lemma header_of_insert name name' value r :
  header_of name (insert_header name' value r) =
    if decide (name = name') then [value] else header_of name r.
Proof.
  unfold header_of, insert_header. simpl. rewrite List.filter_app, map_app. simpl.
  assert (forall l : list (rstr * rstr),
    List.filter (fun h => bool_decide (h.1 = name)) (List.filter (fun h => negb (bool_decide (h.1 = name'))) l) =
    if decide (name = name') then [] else List.filter (fun h => bool_decide (h.1 = name)) l) as Hf.
  { induction l as [|h l IH]; simpl; [by case_decide|].
    destruct (decide (h.1 = name')) as [He'|Hne'].
    - rewrite (bool_decide_eq_true_2 (h.1 = name')) by done. simpl. rewrite IH.
      case_decide as Hn; [done|]. by rewrite bool_decide_eq_false_2 by congruence.
    - rewrite (bool_decide_eq_false_2 (h.1 = name')) by done. simpl. rewrite IH.
      case_decide as Hn; [|done]. by rewrite bool_decide_eq_false_2 by congruence. }
  rewrite Hf. case_decide as Hn.
  - by rewrite bool_decide_eq_true_2 by done.
  - rewrite bool_decide_eq_false_2 by done. by rewrite app_nil_r.
Qed.

(** The characters of a header text are those that a header may hold. *)
Lemma header_text_ok v s : header_to_str v = Some s -> header_value_ok s = true.
Proof.
  unfold header_to_str, header_value_ok. destruct (forallb _ v) eqn:Hv; [|done]. intros [= <-].
  rewrite forallb_forall in Hv.
  assert (forall b, b ∈ v -> (32 <= b <= 126 \/ b = 9)%N) as Hb.
  { intros b Hb%list_elem_of_In%Hv.
    rewrite orb_true_iff, andb_true_iff, !N.leb_le, N.eqb_eq in Hb. lia. }
  rewrite as_bytes_ascii by (apply Forall_forall; intros b ?%Hb; lia).
  apply forallb_forall. intros b ?%list_elem_of_In%Hb.
  rewrite orb_true_iff, andb_true_iff, N.leb_le, negb_true_iff, N.eqb_neq, N.eqb_eq. lia.
Qed.

(** Every response carries one request identifier, the new one, and one correlation
    identifier, that of the request if it has a readable one. *)
Lemma responses_identified {S E} (request_id fresh_id : rstr) (next : rstr -> Parts -> eff S E Response)
    request s response s' :
  header_value_ok request_id = true -> header_value_ok fresh_id = true ->
  request_id_middleware request_id fresh_id next request s = (Ok response, s') ->
  exists inner, next request_id request s = (Ok inner, s') /\
    header_of X_REQUEST_ID response = [request_id] /\
    header_of X_CORRELATION_ID response =
      [default fresh_id (get_header X_CORRELATION_ID (pt_headers request))] /\
    (forall name, name <> X_REQUEST_ID -> name <> X_CORRELATION_ID ->
       header_of name response = header_of name inner) /\
    rs_status response = rs_status inner /\ rs_body response = rs_body inner.
Proof.
  intros Hid Hfresh Hrun. unfold request_id_middleware in Hrun. cbv zeta in Hrun.
  apply eff_bind_inv in Hrun as (inner & s1 & Hnext & [= <- <-]). exists inner. split; [done|].
  set (correlation := default fresh_id _).
  assert (header_value_ok correlation = true) as Hcorr.
  { subst correlation. unfold get_header. destruct (_ !! _) as [v|]; [|done]. simpl.
    destruct (header_to_str v) as [t|] eqn:Ht; [|done]. by apply header_text_ok in Ht. }
  unfold try_insert_header. rewrite Hid, Hcorr.
  assert (X_REQUEST_ID <> X_CORRELATION_ID) as Hne by (by vm_compute).
  split_and!; [..|done|done].
  - rewrite !header_of_insert, decide_False, decide_True by done. done.
  - rewrite header_of_insert, decide_True by done. done.
  - intros name H1 H2. by rewrite !header_of_insert, !decide_False.
Qed.

(** ** The start *)

Section start.
Context `{UnicodeLower} `{dot_env : DotEnv} `{PgConnect} `{S3Setup} `{OpenIdConnect} `{TcpBind} `{Sha256} `{UuidParser}.

(** What [main] went through. *)
Lemma start_inv env server :
  start env = Ok server ->
  let env' := dotenv env in
  sv_env server = env' /\ sv_telemetry server = TelemetryConfig_from_env env /\
  sv_config server = AppConfig_from_env env' /\
  sv_oidc_provider server = configured_provider (oidc_from_env env') /\
  sv_cookie_secure server = cookie_secure_of (oidc_from_env env') /\
  (is_Some (oidc_from_env env') -> dev_auth_requested env' = false).
Proof.
  unfold start. cbv zeta. intros Hs.
  apply result_bind_inv in Hs as ([] & _ & Hs). apply result_bind_inv in Hs as (bucket & _ & Hs).
  apply result_bind_inv in Hs as ([] & Hg%guard_err_ok & Hs).
  destruct (tcp_bind _); [|done]. injection Hs as <-. split_and!; try done.
  intros Hoidc. apply andb_false_iff in Hg as [Hg|Hg]; [|done].
  by apply bool_decide_eq_false in Hg.
Qed.

(** C30: a server with an identity provider is strict.  If OIDC is configured, the
    server does not start in the development mode, so that a request is answered
    for a user only on the token of a live session of that user, with its CSRF
    token where the method changes state, however the request is made up.  The
    session cookie lacks Secure only where the redirect URI of the configuration
    is not https, and the logging follows the process environment alone, without
    the .env file. *)
Theorem started_server_is_strict env server :
  start env = Ok server ->
  sv_telemetry server = TelemetryConfig_from_env env /\
  (sv_cookie_secure server = false ->
     exists c, ac_oidc (sv_config server) = Some c /\ starts_with (lit "https://") (eo_redirect_uri c) = false) /\
  (forall provider, sv_oidc_provider server = Some provider ->
     exists c, ac_oidc (sv_config server) = Some c /\ from_config (domain_config c) = Ok provider) /\
  (is_Some (ac_oidc (sv_config server)) ->
     forall now parts d u d', sessions_ok d ->
     authenticate (is_dev_auth_enabled (sv_env server)) now parts d = (Ok u, d') ->
     d' = d /\ exists info, shown_session now d (pt_headers parts) info /\ si_user_id info = u /\
       (pt_method parts ∈ [lit "POST"; lit "PUT"; lit "PATCH"; lit "DELETE"] ->
        get_header CSRF_HEADER_NAME (pt_headers parts) = Some (si_csrf_token info))).
Proof.
  intros (Henv & Htel & Hcfg & Hprov & Hsec & Hdev)%start_inv. rewrite Hcfg. simpl.
  split; [done|]. split; [|split].
  - rewrite Hsec. unfold cookie_secure_of. destruct (oidc_from_env _) as [c|]; [|done]. eauto.
  - intros provider. rewrite Hprov. unfold configured_provider.
    destruct (oidc_from_env _) as [c|]; [|done].
    destruct (from_config (domain_config c)) eqn:Hfrom; [|done..]. intros [= <-]. eauto.
  - intros Hoidc now parts d u d' Hok Hrun.
    assert (is_dev_auth_enabled (sv_env server) = false) as Hd by (rewrite Henv; by apply Hdev).
    rewrite Hd in Hrun. destruct (authenticate_cases now parts d Hok) as (res & Hres & Hu & _).
    rewrite Hres in Hrun. injection Hrun as -> <-. split; [done|].
    destruct (proj1 (Hu u) eq_refl) as (info & Hshown & Hcsrf & Hid). eauto.
Qed.

(** With both settings the process exits, if it gets as far as the check. *)
Lemma dev_auth_with_oidc_exits env :
  is_Some (oidc_from_env (dotenv env)) -> dev_auth_requested (dotenv env) = true ->
  start env = Err 1%N \/ start env = Panicked.
Proof.
  intros Hoidc Hdev. unfold start. cbv zeta.
  destruct (connect _); [by right|]. destruct (ObjectStorageClient_new _); [|by right..].
  left. unfold refuse_dev_auth. simpl. by rewrite bool_decide_eq_true_2, Hdev.
Qed.
End start.

(** ** A server on a sample machine *)

#[local] Instance plain_lower : UnicodeLower := fun s => s.
#[local] Instance sample_s3 : S3Setup := {|
  Credentials := unit; credentials_new := fun _ _ => inr tt;
  S3Bucket := rstr; bucket_new := fun name _ _ => inr name; with_path_style := fun b => b |}.
#[local] Instance sample_idp : OpenIdConnect := {|
  IssuerUrl := rstr; issuer_url_new := inr; client_build := inr tt;
  CoreProviderMetadata := rstr; discover := inr;
  metadata_token_endpoint := fun issuer => Some (issuer ++ lit "token");
  metadata_jwks_uri := fun issuer => issuer ++ lit "keys";
  RedirectUrl := rstr; redirect_url_new := inr;
  CoreClient := rstr; from_provider_metadata := fun issuer _ _ => issuer; set_redirect_uri := fun _ c => c;
  Random := unit; PkceChallenge := rstr; new_random_sha256 := fun _ => (lit "challenge", lit "verifier");
  authorize_url := fun issuer _ challenge _ => (issuer ++ challenge, lit "state", lit "nonce") |}.

(** The .env file as .env.example has it, with a variable of choice. *)
Definition env_file (dev_auth : rstr) : Env := fun name =>
  snd <$> find (fun kv => bool_decide (kv.1 = name))
    [(lit "S3_BUCKET", lit "haiker-artifacts"); (lit "RUST_LOG", lit "debug");
     (lit "OIDC_ISSUER_URL", lit "https://idp"); (lit "OIDC_CLIENT_ID", lit "haiker");
     (lit "OIDC_CLIENT_SECRET", lit "secret");
     (lit "OIDC_REDIRECT_URI", lit "http://localhost:3000/auth/callback");
     (lit "DEV_AUTH_ENABLED", dev_auth)].

Definition file_of (dev_auth : rstr) : DotEnv := fun env name =>
  match env name with Some v => Some v | None => env_file dev_auth name end.
#[local] Instance reachable : PgConnect := fun _ _ => inr tt.
#[local] Instance free_port : TcpBind := fun _ => true.

Definition start_with (dev_auth : rstr) (process_env : Env) : result N Server :=
  start (dot_env := file_of dev_auth) process_env.

Definition empty_env : Env := fun _ => None.

(** The bucket is not the documented one, the log level is not that of the file,
    and the cookie is sent over plain connections. *)
Lemma started_server :
  start_with (lit "1") empty_env = Err 1%N /\
  match start_with (lit "false") empty_env with
  | Ok s => stc_bucket (ac_storage (sv_config s)) = lit "haiker" /\
            tc_log_level (sv_telemetry s) = lit "info" /\ sv_cookie_secure s = false /\
            sv_bind_addr s = lit "0.0.0.0:3000"
  | _ => False
  end.
Proof. by vm_compute. Qed.

#[local] Instance sample_sha256 : Sha256 := fun b => b.
#[local] Instance sample_uuid_parser : UuidParser := fun s => inr 9%N.

(** A bearer identifier is not enough. *)
Lemma started_server_is_strict_witness :
  match start_with (lit "false") empty_env with
  | Ok s => fst (authenticate (is_dev_auth_enabled (sv_env s)) 30
              (mkParts (lit "GET") {[ lit "authorization" := as_bytes (lit "Bearer 9") ]}) alice_db) <> Ok 9%N
  | _ => False
  end.
Proof.
  destruct (start_with (lit "false") empty_env) as [s| |] eqn:Hs; [|by vm_compute in Hs..].
  assert (is_Some (ac_oidc (sv_config s))) as Hoidc.
  { unfold start_with in Hs. apply start_inv in Hs as (_ & _ & -> & _). by eexists. }
  pose proof (started_server_is_strict (dot_env := file_of (lit "false")) empty_env s Hs) as Hx.
  destruct Hx as (_ & _ & _ & Hstrict).
  destruct (authenticate _ _ _ _) as [r d'] eqn:Hrun. simpl. intros ->.
  destruct (Hstrict Hoidc 30%Z _ _ _ _ alice_db_ok Hrun) as (_ & info & (token & e & Hc & _) & _).
  by vm_compute in Hc.
Defined.
