(* ===== verification/WorkerProcess.v ===== *)
(** The worker process, crates/worker/src/main.rs: how it starts, and its loops over
    the one database and the object storage: the runtime of WorkerRuntime.v with the
    two handlers that are registered, the outbox dispatcher and the maintenance.

    Each turn of a loop is one step, and so is the run of a handler with the report
    of its outcome.  A handler can be cut short at any of its awaits, by its timeout
    or by the death of the process; what it has done by then to the tables and the
    bucket is not computed but given with the step, so that every way of cutting it
    short is among the steps.  The handlers' JSON payloads are decoded by serde, a
    parameter. *)
From S2P Require Import Prelude Float64 RustString RustVec Utf8 RecordedActivity RouteVersioning.
From S2P Require Import ActivityCatalog GpxParser Imports ImportHandlers ImportPersistence Database ImportCommit.
From S2P Require Import ImportWorker ObjectStorage ExportWorker Outbox Http Sessions OidcClient Server.
From S2P Require JobQueue Exports WorkerRuntime.

(** ** The start *)

Record WorkerSetup `{S3Setup} := mkWorkerSetup {
  ws_telemetry : TelemetryConfig;
  ws_config : AppConfig;
  ws_storage : S3Bucket;
  ws_runtime : WorkerRuntime.WorkerConfig }.

(** [main], as far as it can fail: a process that runs, or an error. *)
Definition start_worker `{UnicodeLower} `{dot_env : DotEnv} `{PgConnect} `{S3Setup} (process_env : Env)
    : result (rstr + ObjectStorageError) WorkerSetup :=
  let telemetry := TelemetryConfig_from_env process_env in
  let app_config := AppConfig_from_env (dotenv process_env) in
  from_sum inl (connect (ac_database app_config));;
  object_storage ← map_err inr (ObjectStorageClient_new (ac_storage app_config));
  mret (mkWorkerSetup _ telemetry app_config object_storage WorkerRuntime.default_config).

(** The handlers, in the order in which they are registered. *)
Definition registered_handlers : list rstr :=
  [PARSE_GPX_JOB_TYPE; Exports.GENERATE_EXPORT_JOB_TYPE].

(** [serde_json::from_value] of a job's payload. *)
Class JobJson := {
  parse_job_from_value : Json -> rstr + ParseGpxJob;
  export_job_from_value : Json -> rstr + Exports.GenerateExportJob }.

(** ** The state *)

(** The queue with the tasks in flight; the tables that the handlers, the
    dispatcher and the maintenance use; the bucket; and the cancellation token. *)
Record Process (St : Type) := mkProcess {
  ps_worker : WorkerRuntime.Worker Json;
  ps_db : Database;
  ps_exports : option (gmap N ExportRow);
  ps_identity : IdentityDb;
  ps_storage : St;
  ps_cancelled : bool }.
Arguments mkProcess {St}.
Arguments ps_worker {St}.
Arguments ps_db {St}.
Arguments ps_exports {St}.
Arguments ps_identity {St}.
Arguments ps_storage {St}.
Arguments ps_cancelled {St}.

Section process.
Context {St : Type}.
Implicit Types (p : Process St).

Definition set_worker (w : WorkerRuntime.Worker Json) p : Process St :=
  mkProcess w (ps_db p) (ps_exports p) (ps_identity p) (ps_storage p) (ps_cancelled p).
Definition set_db (d : Database) p : Process St :=
  mkProcess (ps_worker p) d (ps_exports p) (ps_identity p) (ps_storage p) (ps_cancelled p).
(** What a handler that is cut short leaves in the tables and in the bucket. *)
Record Remains := mkRemains {
  rm_db : Database;
  rm_exports : option (gmap N ExportRow);
  rm_storage : St }.
Definition set_remains (rm : Remains) p : Process St :=
  mkProcess (ps_worker p) (rm_db rm) (rm_exports rm) (ps_identity p) (rm_storage rm) (ps_cancelled p).
Definition set_identity (d : IdentityDb) p : Process St :=
  mkProcess (ps_worker p) (ps_db p) (ps_exports p) d (ps_storage p) (ps_cancelled p).

Definition on_db {E A} (m : eff Database E A) : eff (Process St) E A := zoom ps_db set_db m.
Definition on_jobs {E A} (m : eff (gmap N (JobQueue.JobRow Json)) E A) : eff (Process St) E A :=
  zoom (fun p => WorkerRuntime.wk_jobs (ps_worker p))
    (fun t p => set_worker (WorkerRuntime.mkWorker t (WorkerRuntime.wk_in_flight (ps_worker p))) p) m.
Definition on_identity {E A} (m : eff IdentityDb E A) : eff (Process St) E A :=
  zoom ps_identity set_identity m.

(** The events of the outbox; there are no handlers with a state of their own. *)
Definition on_events {E A} (m : eff (gmap N OutboxRow * unit) E A) : eff (Process St) E A :=
  zoom (fun p => (db_outbox (ps_db p), tt)) (fun t p => set_db (set_outbox t.1 (ps_db p)) p) m.

(** What the export handler sees of the database. *)
Definition export_view p : ExportDb * St :=
  (mkExportDb (ps_exports p) (rvr_geometry_json <$> db_versions (ps_db p))
     ((fun r => Some (ar_title r)) <$> db_activities (ps_db p)), ps_storage p).
Definition set_export_view (v : ExportDb * St) p : Process St :=
  mkProcess (ps_worker p) (ps_db p) (xd_exports v.1) (ps_identity p) v.2 (ps_cancelled p).
Definition on_exports {E A} (m : eff (ExportDb * St) E A) : eff (Process St) E A :=
  zoom export_view set_export_view m.

(** ** The handlers *)

Context `{Bucket St} `{Sha256} `{UuidDisplay} `{UnicodeLower} `{XmlReader} `{Exports.XmlEscape} `{DateTimeParser}
  `{Libm} `{DebugStrings} `{SqlxDisplay} `{CommitJson} `{StatisticsToJson} `{JobJson}.
(** The texts of sqlx for a violated constraint and for a missing relation. *)
Context (violation relation_missing : rstr).

(** What a run draws at random, and what becomes of its blocking task. *)
Record Run := mkRun {
  rn_ids : FreshIds;
  rn_audit_id : uuid;
  rn_outbox_id : uuid;
  rn_task : TaskOutcome }.

(** Reading the bucket as it is; a GET leaves it so. *)
Definition read_bucket (storage : St) : ObjectStore Database :=
  fun key d => (fst (ObjectStoreAdapter key storage), d).

(** [ParseGpxJobHandler::handle], over the adapters it constructs. *)
Definition parse_gpx_handle (now : datetime) (run : Run) (job : JobQueue.Job Json) : eff (Process St) rstr unit :=
  fun p =>
    let _ := read_bucket (ps_storage p) in
    let _ := DbImportRepository violation now in
    let _ := DuplicateCheckerAdapter violation now in
    let _ := PgImportCommitter now (rn_audit_id run) (rn_outbox_id run) in
    let _ := DbAuditLog now (rn_audit_id run) in
    on_db (handle_parse_job now (rn_ids run) (parse_job_from_value (JobQueue.job_payload job))) p.

(** [GenerateExportJobHandler::handle]. *)
Definition generate_export_handle (now : datetime) (run : Run) (job : JobQueue.Job Json)
    : eff (Process St) rstr unit :=
  on_exports (process relation_missing
    (mkExportDelivery now (JobQueue.job_timeout_seconds job)
       (export_job_from_value (JobQueue.job_payload job)) (rn_task run))).

(** The handler of a job, if there is one. *)
Definition run_handler (now : datetime) (run : Run) (job : JobQueue.Job Json)
    : eff (Process St) rstr unit :=
  match WorkerRuntime.find_handler registered_handlers (JobQueue.job_type job) with
  | Some h => if bool_decide (h = PARSE_GPX_JOB_TYPE) then parse_gpx_handle now run job
              else generate_export_handle now run job
  | None => mret tt
  end.

(** ** The loops *)

(** The maintenance: what goes wrong in one part is logged. *)
Definition maintain (now : datetime) : eff (Process St) unit unit :=
  attempt (on_jobs (JobQueue.timeout_stale_jobs (fun t => t) now));;
  attempt (on_identity (cleanup_expired now));;
  attempt (on_db (cleanup_abandoned_imports (H := DbImportRepository violation now) now));;
  mret tt.

(** [OutboxDispatcher::new(outbox, 5)], without handlers, on batches of 100. *)
Definition dispatch (clock : uuid -> datetime) : eff (Process St) unit unit :=
  attempt (on_events (process_batch [] 5 clock 100));; mret tt.

(** How the handler of a task ends: by itself, or by the timeout around it. *)
Inductive Execution : Type := Completes (run : Run) | Elapses (rm : Remains).

(** A tick of the polling loop; the k-th task in flight runs its handler, or has it cut
    short by the timeout; the death of the process, after which it is started again,
    the handlers of the tasks in flight having done what they have; the ticks of the
    other two loops; the signal to stop; and a call of the server on the queue. *)
Inductive ProcessEvent : Type :=
| Polls (now : datetime)
| Runs (now : datetime) (k : nat) (run : Run)
| TimesOut (now : datetime) (k : nat) (rm : Remains)
| Restarts (rm : Remains)
| Dispatches (clock : uuid -> datetime)
| Maintains (now : datetime)
| Stops
| ServerCalls (e : WorkerRuntime.Event Json).

(** The server enqueues and cancels. *)
Definition server_event (e : WorkerRuntime.Event Json) : bool :=
  match e with
  | WorkerRuntime.Tick _ | WorkerRuntime.Finished _ _ _ | WorkerRuntime.Aborted _
  | WorkerRuntime.Maintained _ => false
  | _ => true
  end.

Definition worker_step (e : WorkerRuntime.Event Json) p : Process St :=
  set_worker (WorkerRuntime.step WorkerRuntime.default_config registered_handlers (ps_worker p) e) p.

(** The timeout around the handler of a task has elapsed; there is none around the
    report that a job has no handler. *)
Definition elapsed (now : datetime) (task : WorkerRuntime.Task Json) : bool :=
  (WorkerRuntime.task_started task + WorkerRuntime.effective_timeout (WorkerRuntime.task_job task)
     (WorkerRuntime.resource_budget WorkerRuntime.default_config) <=? now)%Z &&
  match WorkerRuntime.find_handler registered_handlers (JobQueue.job_type (WorkerRuntime.task_job task)) with
  | Some _ => true
  | None => false
  end.

(** A task is not started twice: its handler runs, or is dropped when the timeout
    elapses, and the task ends with it. *)
Definition run_task (now : datetime) (k : nat) (execution : Execution) p : Process St :=
  match WorkerRuntime.wk_in_flight (ps_worker p) !! k with
  | None => p
  | Some task =>
      match execution with
      | Completes run =>
          match run_handler now run (WorkerRuntime.task_job task) p with
          | (Ok _, p') => worker_step (WorkerRuntime.Finished now k WorkerRuntime.HandlerOk) p'
          | (Err e, p') => worker_step (WorkerRuntime.Finished now k (WorkerRuntime.HandlerErr e)) p'
          | (Panicked, p') => worker_step (WorkerRuntime.Aborted k) p'
          end
      | Elapses rm =>
          if elapsed now task then
            worker_step (WorkerRuntime.Finished now k WorkerRuntime.TimedOut) (set_remains rm p)
          else p
      end
  end.

(** The tasks in flight die with the process: what their handlers have done stays. *)
Definition restart (rm : Remains) p : Process St :=
  let p := match WorkerRuntime.wk_in_flight (ps_worker p) with [] => p | _ => set_remains rm p end in
  mkProcess (WorkerRuntime.mkWorker (WorkerRuntime.wk_jobs (ps_worker p)) []) (ps_db p) (ps_exports p)
    (ps_identity p) (ps_storage p) false.

Definition stop p : Process St :=
  mkProcess (ps_worker p) (ps_db p) (ps_exports p) (ps_identity p) (ps_storage p) true.

(** The loops end when the token is cancelled; tasks in flight may still run. *)
Definition process_step p (e : ProcessEvent) : Process St :=
  match e with
  | Polls now => if ps_cancelled p then p else worker_step (WorkerRuntime.Tick now) p
  | Runs now k run => run_task now k (Completes run) p
  | TimesOut now k rm => run_task now k (Elapses rm) p
  | Restarts rm => restart rm p
  | Dispatches clock => if ps_cancelled p then p else snd (dispatch clock p)
  | Maintains now => if ps_cancelled p then p else snd (maintain now p)
  | Stops => stop p
  | ServerCalls call => if server_event call then worker_step call p else p
  end.

Definition run_process p (es : list ProcessEvent) : Process St := fold_left process_step es p.
End process.
Arguments Remains : clear implicits.
Arguments Execution : clear implicits.
Arguments ProcessEvent : clear implicits.
