(* ===== verification/WorkerProcessTheory.v ===== *)
(** The worker process refines the worker of WorkerRuntime.v, so what holds of every
    history of that worker holds of the process; and the import pipeline as a whole,
    from the request that completes an upload to the activity. *)
From S2P Require Import Prelude Float64 RustString RustVec Utf8 RecordedActivity RecordedActivityTheory RouteVersioning.
From S2P Require Import ActivityCatalog GpxParser GpxParserTheory Imports ImportTheory ImportHandlers ImportPersistence.
From S2P Require Import ImportHandlerTheory ImportProcessing Database ImportCommit ImportCommitTheory.
From S2P Require Import ImportWorker ImportWorkerTheory ImportSuccess ObjectStorage ExportWorker Http Sessions RateLimits Api ImportApi ImportApiTheory.
From S2P Require Import WorkerProcess.
From S2P Require JobQueue JobQueueTheory WorkerRuntime WorkerTheory Exports.

Section process.
Context {St : Type} `{Bucket St} `{Sha256} `{UuidDisplay} `{UnicodeLower} `{XmlReader} `{Exports.XmlEscape}
  `{DateTimeParser} `{Libm} `{DebugStrings} `{SqlxDisplay} `{CommitJson} `{StatisticsToJson} `{JobJson}.
Context (violation relation_missing : rstr).
Implicit Types (p : Process St).

Abbreviation config := WorkerRuntime.default_config.
Abbreviation pstep := (process_step violation relation_missing).
Abbreviation prun := (run_process violation relation_missing).
Abbreviation handler := (run_handler violation relation_missing).

(** ** Refinement *)

(** The handlers leave the queue and the token alone. *)
Definition apart {E A} (m : eff (Process St) E A) : Prop :=
  forall p, ps_worker (snd (m p)) = ps_worker p /\ ps_cancelled (snd (m p)) = ps_cancelled p.

Lemma run_handler_apart now run job : apart (handler now run job).
Proof.
  intros p. unfold run_handler. case_match; [|done]. case_bool_decide.
  - unfold parse_gpx_handle, on_db, zoom. by destruct (handle_parse_job _ _ _ _).
  - unfold generate_export_handle, on_exports, zoom. by destruct (process _ _ _).
Qed.

(** What an event is to the worker. *)
Definition worker_events p (e : ProcessEvent St) : list (WorkerRuntime.Event Json) :=
  match e with
  | Polls now => if ps_cancelled p then [] else [WorkerRuntime.Tick now]
  | Runs now k run =>
      match WorkerRuntime.wk_in_flight (ps_worker p) !! k with
      | None => []
      | Some task =>
          match fst (handler now run (WorkerRuntime.task_job task) p) with
          | Ok _ => [WorkerRuntime.Finished now k WorkerRuntime.HandlerOk]
          | Err e => [WorkerRuntime.Finished now k (WorkerRuntime.HandlerErr e)]
          | Panicked => [WorkerRuntime.Aborted k]
          end
      end
  | TimesOut now k _ =>
      match WorkerRuntime.wk_in_flight (ps_worker p) !! k with
      | Some task => if elapsed now task then [WorkerRuntime.Finished now k WorkerRuntime.TimedOut] else []
      | None => []
      end
  | Restarts _ => replicate (length (WorkerRuntime.wk_in_flight (ps_worker p))) (WorkerRuntime.Aborted 0)
  | Maintains now => if ps_cancelled p then [] else [WorkerRuntime.Maintained now]
  | ServerCalls call => if server_event call then [call] else []
  | Dispatches _ | Stops => []
  end.

Abbreviation wrun := (WorkerRuntime.run_events config registered_handlers).

Lemma aborted_all (w : WorkerRuntime.Worker Json) :
  wrun w (replicate (length (WorkerRuntime.wk_in_flight w)) (WorkerRuntime.Aborted 0)) =
    WorkerRuntime.mkWorker (WorkerRuntime.wk_jobs w) [].
Proof.
  destruct w as [t l]. simpl. unfold WorkerRuntime.run_events. induction l as [|x l IH]; [done|]. exact IH.
Qed.

(** The later parts of a sequence of attempts, when they leave the queue alone. *)
Definition keeps_worker {E A} (m : eff (Process St) E A) : Prop :=
  forall p, ps_worker (snd (m p)) = ps_worker p.

Lemma attempt_first {E A B} (m : eff (Process St) E A) (f : result E A -> eff (Process St) unit B) p :
  (forall r, keeps_worker (f r)) -> ps_worker (snd ((attempt m ≫= f) p)) = ps_worker (snd (m p)).
Proof.
  intros Hf. unfold attempt, mbind, eff_bind. destruct (m p) as [[a|e|] p']; simpl; try done; apply Hf.
Qed.

Lemma keeps_attempt {E A B} (m : eff (Process St) E A) (f : result E A -> eff (Process St) unit B) :
  keeps_worker m -> (forall r, keeps_worker (f r)) -> keeps_worker (attempt m ≫= f).
Proof. intros Hm Hf p. rewrite attempt_first by done. apply Hm. Qed.

Lemma keeps_identity {E A} (m : eff IdentityDb E A) : keeps_worker (on_identity m).
Proof. intros p. unfold on_identity, zoom. by destruct (m _). Qed.
Lemma keeps_db {E A} (m : eff Database E A) : keeps_worker (on_db m).
Proof. intros p. unfold on_db, zoom. by destruct (m _). Qed.
Lemma keeps_events {E A} (m : eff (gmap N OutboxRow * unit) E A) : keeps_worker (on_events m).
Proof. intros p. unfold on_events, zoom. by destruct (m _). Qed.

Lemma maintain_worker now p :
  ps_worker (snd (maintain violation now p)) =
    WorkerRuntime.step config registered_handlers (ps_worker p) (WorkerRuntime.Maintained now).
Proof.
  unfold maintain. rewrite attempt_first.
  - unfold on_jobs, zoom. cbn [WorkerRuntime.step]. unfold WorkerRuntime.with_jobs. by destruct (JobQueue.timeout_stale_jobs _ _ _).
  - intros _. apply keeps_attempt; [apply keeps_identity|intros _].
    apply keeps_attempt; [apply keeps_db|]. by intros _ q.
Qed.

Lemma dispatch_worker clock : keeps_worker (dispatch clock).
Proof. unfold dispatch. apply keeps_attempt; [apply keeps_events|]. by intros _ q. Qed.

Lemma restart_worker rm p :
  ps_worker (restart rm p) = WorkerRuntime.mkWorker (WorkerRuntime.wk_jobs (ps_worker p)) [].
Proof. unfold restart. by destruct (WorkerRuntime.wk_in_flight (ps_worker p)). Qed.

(** A step of the process is a few steps of the worker. *)
Lemma step_refines p e :
  ps_worker (pstep p e) = wrun (ps_worker p) (worker_events p e).
Proof.
  destruct e as [now|now k run|now k rm|rm|clock|now| |call]; simpl.
  - by destruct (ps_cancelled p).
  - unfold run_task. destruct (WorkerRuntime.wk_in_flight (ps_worker p) !! k) as [task|]; [|done].
    destruct (run_handler_apart now run (WorkerRuntime.task_job task) p) as [Hw _].
    destruct (handler now run (WorkerRuntime.task_job task) p) as [[[]|e|] p']; simpl in *; by rewrite Hw.
  - unfold run_task. destruct (WorkerRuntime.wk_in_flight (ps_worker p) !! k) as [task|]; [|done].
    by destruct (elapsed now task).
  - rewrite aborted_all. apply restart_worker.
  - destruct (ps_cancelled p); [done|]. by rewrite dispatch_worker.
  - destruct (ps_cancelled p); [done|]. by rewrite maintain_worker.
  - done.
  - by destruct (server_event call).
Qed.

(** The history of the worker in a history of the process. *)
Fixpoint worker_history p (es : list (ProcessEvent St)) : list (WorkerRuntime.Event Json) :=
  match es with
  | [] => []
  | e :: es' => worker_events p e ++ worker_history (pstep p e) es'
  end.

Lemma run_refines es p : ps_worker (prun p es) = wrun (ps_worker p) (worker_history p es).
Proof.
  revert p. induction es as [|e es IH]; intros p; [done|]. simpl. unfold run_process in *. simpl.
  rewrite IH, step_refines. unfold WorkerRuntime.run_events. by rewrite fold_left_app.
Qed.

(** ** How often a handler is called *)

(** The calls for a job that end with an event: with the run of a task, with its
    timeout, and, where the process dies, one for each task in flight, since its
    handler may have been called; and those of a history. *)
Definition called (id : uuid) p (e : ProcessEvent St) : nat :=
  match e with
  | Runs _ k _ =>
      match WorkerRuntime.wk_in_flight (ps_worker p) !! k with
      | Some task => if decide (JobQueue.job_id (WorkerRuntime.task_job task) = id) then 1 else 0
      | None => 0
      end
  | TimesOut now k _ =>
      match WorkerRuntime.wk_in_flight (ps_worker p) !! k with
      | Some task =>
          if elapsed now task && bool_decide (JobQueue.job_id (WorkerRuntime.task_job task) = id) then 1 else 0
      | None => 0
      end
  | Restarts _ => Z.to_nat (WorkerTheory.tasks_for id (WorkerRuntime.wk_in_flight (ps_worker p)))
  | _ => 0
  end.
Fixpoint calls (id : uuid) p (es : list (ProcessEvent St)) : nat :=
  match es with
  | [] => 0
  | e :: es' => called id p e + calls id (pstep p e) es'
  end.

Abbreviation times := (WorkerRuntime.times_run config registered_handlers).
Abbreviation tasks := WorkerTheory.tasks_for.
Abbreviation flying p := (WorkerRuntime.wk_in_flight (ps_worker p)).

Lemma times_app id (es es' : list (WorkerRuntime.Event Json)) w : times id w (es ++ es') = times id w es + times id (wrun w es) es'.
Proof.
  revert w. induction es as [|e es IH]; intros w; [done|]. simpl. rewrite IH. by rewrite Nat.add_assoc.
Qed.

(** A timeout that has elapsed ends its task. *)
Lemma timed_out_step now k (w : WorkerRuntime.Worker Json) task :
  WorkerRuntime.wk_in_flight w !! k = Some task -> elapsed now task = true ->
  WorkerRuntime.wk_in_flight (WorkerRuntime.step config registered_handlers w
    (WorkerRuntime.Finished now k WorkerRuntime.TimedOut)) = delete k (WorkerRuntime.wk_in_flight w).
Proof.
  intros Hk (Hle%Z.leb_le & _)%andb_true_iff. cbn [WorkerRuntime.step]. rewrite Hk.
  by rewrite bool_decide_true, (proj2 (Z.ltb_ge _ _) Hle) by done.
Qed.

(** A call takes a task away, and only a poll that hands out a job adds one. *)
Lemma called_step id p e :
  (Z.of_nat (called id p e) + tasks id (flying (pstep p e)) <=
     tasks id (flying p) + Z.of_nat (times id (ps_worker p) (worker_events p e)))%Z.
Proof.
  rewrite step_refines. destruct e as [now|now k run|now k rm|rm|clock|now| |call]; simpl.
  - destruct (ps_cancelled p); simpl; [lia|].
    destruct (_ <? 5)%nat; simpl; [|lia].
    destruct (JobQueue.poll now _) as [[[j|]|e|] t]; simpl; [|lia..].
    rewrite WorkerTheory.tasks_for_app. simpl. destruct (decide _); lia.
  - destruct (flying p !! k) as [task|] eqn:Hk; simpl; [|lia].
    pose proof (WorkerTheory.tasks_for_delete id k (flying p) task Hk) as Hd.
    destruct (fst _) as [a|e|]; simpl; rewrite ?Hk; simpl; rewrite Hd; destruct (decide _); lia.
  - destruct (flying p !! k) as [task|] eqn:Hk; simpl; [|lia].
    destruct (elapsed now task) eqn:He; [|simpl; lia]. unfold WorkerRuntime.run_events. cbn [fold_left].
    rewrite (timed_out_step now k _ task Hk He), (WorkerTheory.tasks_for_delete id k (flying p) task Hk).
    simpl. case_bool_decide; destruct (decide _); done || lia.
  - rewrite aborted_all. pose proof (WorkerTheory.tasks_for_nonneg id (flying p)). simpl.
    rewrite Z2Nat.id by done. unfold WorkerTheory.tasks_for at 2. simpl. lia.
  - lia.
  - destruct (ps_cancelled p); simpl; lia.
  - lia.
  - destruct (server_event call) eqn:Hs; simpl; [|lia]. by destruct call; simpl; try lia.
Qed.

Lemma calls_bound id es p :
  (Z.of_nat (calls id p es) + tasks id (flying (prun p es)) <=
     tasks id (flying p) + Z.of_nat (times id (ps_worker p) (worker_history p es)))%Z.
Proof.
  revert p. induction es as [|e es IH]; intros p; simpl; [lia|].
  rewrite times_app, <- step_refines. specialize (IH (pstep p e)).
  pose proof (called_step id p e) as Hc. unfold run_process in *. simpl. lia.
Qed.

(** C22: the worker process is the worker of WorkerRuntime with its handlers.  From
    an empty queue, in any history of the process (polls; runs of the two handlers
    that end in success, an error or a panic; handlers that the timeout cuts short
    and that die with the process, whatever they have written to the tables and the
    bucket by then; restarts, the dispatcher, the maintenance, the signal to stop,
    calls of the server on the queue), the queue and the tasks in flight are those
    of a history of that worker, in which each such end is reported as the code
    reports it, so that they keep its invariant; and the calls of a handler for one
    job, those that have ended and those under way, are at most three. *)
Theorem process_refines_worker p es :
  ps_worker p = WorkerRuntime.initial ->
  ps_worker (prun p es) = wrun WorkerRuntime.initial (worker_history p es) /\
  WorkerTheory.worker_ok config (ps_worker (prun p es)) /\
  forall id, (Z.of_nat (calls id p es) + tasks id (flying (prun p es)) <= 3)%Z.
Proof.
  intros Hp. pose proof (run_refines es p) as Hr. rewrite Hp in Hr. split; [done|]. split.
  - rewrite Hr. apply WorkerTheory.run_events_ok, WorkerTheory.initial_ok.
  - intros id. pose proof (calls_bound id es p) as Hc. rewrite Hp in Hc.
    pose proof (WorkerTheory.times_run_bound config registered_handlers id (worker_history p es)
      WorkerRuntime.initial (WorkerTheory.initial_ok config)) as Hb.
    change (tasks id (WorkerRuntime.wk_in_flight WorkerRuntime.initial)) with 0%Z in Hc.
    change (WorkerTheory.runs_left_for id WorkerRuntime.initial) with 3%Z in Hb. lia.
Qed.

(** ** The run of a parsing job *)

(** The delivery that a run of the handler is. *)
Definition delivery (now : datetime) (run : Run) (job : ParseGpxJob) : Delivery :=
  mkDelivery now (rn_ids run) (rn_audit_id run) (rn_outbox_id run) job.

Lemma parse_gpx_run now run (job : JobQueue.Job Json) parse_job p :
  parse_job_from_value (JobQueue.job_payload job) = inr parse_job ->
  parse_gpx_handle violation now run job p =
    on_db (pg_handle_parse_job (H := read_bucket (ps_storage p)) violation (delivery now run parse_job)) p.
Proof. intros Hj. unfold parse_gpx_handle. by rewrite Hj. Qed.

(** A task whose handler succeeds. *)
Lemma run_task_ok now k run task p q :
  flying p !! k = Some task -> handler now run (WorkerRuntime.task_job task) p = (Ok tt, q) ->
  pstep p (Runs now k run) = worker_step (WorkerRuntime.Finished now k WorkerRuntime.HandlerOk) q.
Proof. intros Hk Hq. simpl. unfold run_task. by rewrite Hk, Hq. Qed.

Lemma polled_row now (w : WorkerRuntime.Worker Json) job :
  JobQueueTheory.table_ok (WorkerRuntime.wk_jobs w) ->
  WorkerRuntime.polled config (WorkerRuntime.Tick now) w = Some job ->
  exists j row, WorkerRuntime.wk_jobs w !! j = Some row /\ JobQueue.jr_status row = JobQueue.Pending /\
    job = JobQueue.row_to_job (JobQueue.set_running now row) /\
    WorkerRuntime.step config registered_handlers w (WorkerRuntime.Tick now) =
      WorkerRuntime.mkWorker (<[j := JobQueue.set_running now row]> (WorkerRuntime.wk_jobs w))
        (WorkerRuntime.wk_in_flight w ++ [WorkerRuntime.mkTask job now]).
Proof.
  intros Ht Hp. simpl in *. destruct (_ <? 5)%nat; [|done].
  destruct (JobQueueTheory.poll_cases now _ Ht) as [[Hn _]|(j & row & Hr & Hd & _ & He)].
  - by rewrite Hn in Hp.
  - rewrite He in Hp |- *. simpl in *. injection Hp as <-. exists j, row. split_and!; try done.
    unfold JobQueue.due in Hd. by apply andb_true_iff in Hd as [Hd%bool_decide_eq_true _].
Qed.

Lemma finished_last now (w : WorkerRuntime.Worker Json) t l job started j row :
  WorkerTheory.worker_ok config w -> w = WorkerRuntime.mkWorker t (l ++ [WorkerRuntime.mkTask job started]) ->
  t !! j = Some row -> JobQueue.job_id job = j -> JobQueue.job_type job = PARSE_GPX_JOB_TYPE ->
  WorkerRuntime.step config registered_handlers w
    (WorkerRuntime.Finished now (length l) WorkerRuntime.HandlerOk) =
  WorkerRuntime.mkWorker (<[j := JobQueue.set_completed now row]> t) l.
Proof.
  intros (Ht & _) -> Hj Hid Htype. simpl in *. rewrite lookup_app_r, Nat.sub_diag by done. simpl.
  unfold WorkerRuntime.report. rewrite Htype. simpl.
  rewrite Hid, (JobQueueTheory.complete_effect now j t Ht). simpl.
  by rewrite (JobQueueTheory.update_with_id t _ j row (proj1 Ht) Hj), delete_middle, app_nil_r.
Qed.

(** A poll and the run that it starts. *)
Lemma parse_job_runs now now' run job parse_job p d' :
  WorkerTheory.worker_ok config (ps_worker p) -> ps_cancelled p = false ->
  WorkerRuntime.polled config (WorkerRuntime.Tick now) (ps_worker p) = Some job ->
  JobQueue.job_type job = PARSE_GPX_JOB_TYPE ->
  parse_job_from_value (JobQueue.job_payload job) = inr parse_job ->
  pg_handle_parse_job (H := read_bucket (ps_storage p)) violation (delivery now' run parse_job) (ps_db p) = (Ok tt, d') ->
  exists row, WorkerRuntime.wk_jobs (ps_worker p) !! JobQueue.job_id job = Some row /\
    prun p [Polls now; Runs now' (length (flying p)) run] =
      set_worker (WorkerRuntime.mkWorker
        (<[JobQueue.job_id job := JobQueue.set_completed now' (JobQueue.set_running now row)]>
           (WorkerRuntime.wk_jobs (ps_worker p))) (flying p)) (set_db d' p).
Proof.
  intros Hok Hc Hp Htype Hjob Hrun.
  destruct (polled_row now _ job (proj1 Hok) Hp) as (j & row & Hr & Hst & -> & Hstep).
  assert (JobQueue.jr_id row = j) as Hid by (by apply (proj1 Hok)).
  simpl (JobQueue.job_id _). rewrite Hid. exists row. split; [done|].
  set (p1 := worker_step (WorkerRuntime.Tick now) p).
  assert (prun p [Polls now; Runs now' (length (flying p)) run] = pstep p1 (Runs now' (length (flying p)) run)) as ->.
  { unfold run_process. cbn [fold_left process_step]. by rewrite Hc. }
  assert (ps_worker p1 = _) as Hw by exact Hstep.
  assert (WorkerTheory.worker_ok config (ps_worker p1)) as Hok1 by (by apply WorkerTheory.step_ok).
  erewrite run_task_ok with (q := set_db d' p1).
  - unfold worker_step. rewrite (finished_last now' (ps_worker (set_db d' p1)) _ _ _ _ j (JobQueue.set_running now row)) with (1 := Hok1) (2 := Hw).
    + by rewrite insert_insert_eq.
    + apply lookup_insert_eq.
    + done.
    + done.
  - rewrite Hw. simpl. by rewrite lookup_app_r, Nat.sub_diag.
  - unfold run_handler. simpl (WorkerRuntime.task_job _). rewrite Htype. simpl.
    rewrite (parse_gpx_run now' run _ parse_job) by exact Hjob. unfold on_db, zoom.
    change (ps_storage p1) with (ps_storage p). change (ps_db p1) with (ps_db p). by rewrite Hrun.
Qed.
End process.

(** ** The pipeline *)

Section pipeline.
Context {St : Type} `{Bucket St} `{Sha256} `{UuidDisplay} `{lower : UnicodeLower} {lower_law : UnicodeLowerLaw}
  `{XmlReader} `{Exports.XmlEscape} `{DateTimeParser} `{Libm} `{DebugStrings} `{SqlxDisplay} `{CommitJson}
  `{StatisticsToJson} `{JobJson} `{CanonicalReason} `{DateTimeText}.
Context (violation relation_missing : rstr) (clock : datetime) (job_to_value : ParseGpxJob -> rstr + Json).
Context `{UploadUrlGenerator ImportsDb} `{UploadVerifier ImportsDb}.
(** The object storage is not the database; serde reads what it has written. *)
Context (Hurl : forall key d, snd (generate_upload_url key d) = d)
  (Hverify : forall key d, snd (verify_upload key d) = d)
  (Hserde : forall job v, job_to_value job = inr v -> parse_job_from_value v = inr job).
Implicit Types (p : Process St).

#[local] Instance pipeline_repo : ImportRepository ImportsDb := ApiImportRepository violation clock.
#[local] Instance pipeline_laws : ImportRepositoryLaws ImportsDb := ApiImportRepositoryLaws violation clock.

Abbreviation config := WorkerRuntime.default_config.
Abbreviation flying p := (WorkerRuntime.wk_in_flight (ps_worker p)).
Abbreviation complete := (complete_request violation clock job_to_value).

(** The job that a request to complete an upload asks for. *)
Definition job_of (actor id : uuid) : ParseGpxJob := mkParseGpxJob id actor (storage_key actor id) id.

(** The worker works on the database that the request left. *)
Record same_database p (d : ImportsDb) : Prop := {
  sd_imports : db_imports (ps_db p) = ib_imports d;
  sd_jobs : WorkerRuntime.wk_jobs (ps_worker p) = ib_jobs d;
  sd_constraints : constraints_ok (ib_imports d);
  sd_worker : WorkerTheory.worker_ok config (ps_worker p);
  sd_running : ps_cancelled p = false }.

(** What lies under the key of the upload: a file that parses and normalises, which
    the user has not imported before. *)
Record gpx_file p (run : Run) (actor id : uuid) (b : bytes) (n : NormalizedTrack) : Prop := {
  gf_there : fst (ObjectStoreAdapter (storage_key actor id) (ps_storage p)) = Ok b;
  gf_gpx : exists r, parse_gpx b = Ok r /\ normalize_gpx (fresh_recorded_track (rn_ids run)) r = Ok n;
  gf_new : forall j r, db_imports (ps_db p) !! j = Some r -> ir_owner_id r = actor ->
    ir_checksum r = Some (sha256_hex b) -> ir_status r <> lit "completed" }.

(** The state in which the request has left the import is a good upload. *)
Lemma uploaded_is_good p d now run actor id b n at_ artifact k i :
  same_database p d -> gpx_file p run actor id b n -> actor ∈ db_users (ps_db p) ->
  Checksum_new (checksum_str k) = Ok k -> checksum_str k = sha256_hex b ->
  im_id i = id -> im_owner_id i = actor -> shown (ib_imports d) !! id = Some (uploaded at_ artifact k i) ->
  good_upload (H9 := read_bucket (ps_storage p)) (delivery now run (job_of actor id)) (ps_db p)
    (uploaded at_ artifact k i) b n.
Proof.
  intros [Hi _ Hcon _ _] [Hfile Hgpx Hnew] Hactor Hk Hsum Hid Howner Hrow. split; simpl.
  - by rewrite Hi.
  - exact Hid.
  - intros c [= <-]. exact Hk.
  - by rewrite Howner.
  - by rewrite Howner.
  - intros d'. unfold download, read_bucket. by rewrite Hfile.
  - by exists k.
  - exact Hgpx.
  - by rewrite Hi.
  - rewrite Howner. exact Hnew.
Qed.

(** The job that a poll hands out for an import is the one of its request. *)
Lemma job_of_import t now (w : WorkerRuntime.Worker Json) job id j row :
  WorkerRuntime.wk_jobs w = t -> JobQueueTheory.table_ok t ->
  WorkerRuntime.polled config (WorkerRuntime.Tick now) w = Some job ->
  JobQueue.job_type job = PARSE_GPX_JOB_TYPE -> JobQueue.job_correlation_id job = Some id ->
  t !! j = Some row -> JobQueue.has_key PARSE_GPX_JOB_TYPE id row = true ->
  JobQueue.job_id job = j /\ JobQueue.job_payload job = JobQueue.jr_payload row.
Proof.
  intros <- Ht Hp Htype Hcid Hj Hkey.
  destruct (polled_row now w job Ht Hp) as (j' & row' & Hr & Hst & -> & _). simpl in *.
  unfold JobQueue.has_key in Hkey. to_prop.
  repeat match goal with Hx : _ && _ = true |- _ => apply andb_true_iff in Hx as [? Hx] end. to_prop.
  assert (j' = j) as ->.
  { apply (proj2 Ht j' row' Hr j row Hj). unfold JobQueue.same_key. rewrite Hst. split_and!; first [congruence|done]. }
  assert (row' = row) as -> by congruence. split; [|done]. by apply (proj1 Ht).
Qed.

(** C9: a completed upload becomes an activity.  Let the request of a user that
    completes an upload be answered with 200, no parsing job for the import having
    been queued before, and let the worker, in any sound state of its queue, poll
    and be handed the job of that import.  If the file is in the object storage, has
    the checksum of the request, is GPX that normalises and was not imported
    before, then the run of the task ends in success: the user has one new active
    activity, under the title of the file; the import is completed and refers to
    it; and the job is completed. *)
Theorem uploaded_file_becomes_activity queue artifact at_ fresh_id actor id checksum d p now now' run b n job :
  imports_sound violation clock d -> enqueuer_lawful queue -> no_job PARSE_GPX_JOB_TYPE id (ib_jobs d) ->
  json_total -> actor ∈ db_users (ps_db p) -> gpx_file p run actor id b n ->
  Checksum_new checksum = Ok (mkChecksum (sha256_hex b)) ->
  (forall i, unused_ids (delivery now' run (job_of actor id)) (ps_db p) (uploaded at_ artifact (mkChecksum (sha256_hex b)) i)) ->
  let '(r, d') := complete queue artifact at_ fresh_id actor id checksum d in
  (exists response, r = Ok response /\ rs_status response = 200%N) -> same_database p d' ->
  WorkerRuntime.polled config (WorkerRuntime.Tick now) (ps_worker p) = Some job ->
  JobQueue.job_type job = PARSE_GPX_JOB_TYPE -> JobQueue.job_correlation_id job = Some id ->
  let p' := run_process violation relation_missing p [Polls now; Runs now' (length (flying p)) run] in
  exists activity import row,
    db_activities (ps_db p') = <[fresh_activity (rn_ids run) := activity]> (db_activities (ps_db p)) /\
    ar_owner_id activity = actor /\ ar_lifecycle_state activity = lit "active" /\
    ar_title activity = default (lit "Imported Activity") (nt_suggested_title n) /\
    shown (db_imports (ps_db p')) !! id = Some import /\ im_status import = Completed /\
    im_activity_id import = Some (fresh_activity (rn_ids run)) /\
    WorkerRuntime.wk_jobs (ps_worker p') !! JobQueue.job_id job = Some row /\
    JobQueue.jr_status row = JobQueue.Completed /\ flying p' = flying p.
Proof using All.
  intros Hd Hlaw Hno Hjson Hactor Hfile Hsum Hunused.
  pose proof (completed_upload_is_queued violation clock job_to_value Hurl Hverify queue artifact at_ fresh_id
    actor id checksum d Hd Hlaw) as Hq.
  destruct (complete _ _ _ _ _ _ _ d) as [r d']. intros (response & -> & Hst) Hsame Hp Htype Hcid p'.
  destruct (Hq response eq_refl Hst) as (k & i & payload & j & row & Hi & Howner & _ & Hk & Hd' & _ & Hv & Hrow & Hkey & Hnew).
  destruct (Hnew Hno) as [Hpayload _]. assert (k = mkChecksum (sha256_hex b)) as -> by congruence.
  assert (im_id i = id) as Hid by (by apply Hd).
  pose proof (sd_worker _ _ Hsame) as Hok. pose proof (sd_jobs _ _ Hsame) as Hjobs.
  assert (JobQueueTheory.table_ok (ib_jobs d')) as Ht by (rewrite <- Hjobs; apply Hok).
  destruct (job_of_import _ now (ps_worker p) job id j row Hjobs Ht Hp Htype Hcid Hrow Hkey) as [<- Hpl].
  assert (shown (ib_imports d') !! id = Some (uploaded at_ artifact (mkChecksum (sha256_hex b)) i)) as Hshown.
  { apply (f_equal (.!! id)) in Hd'. rewrite lookup_insert_eq in Hd'. exact Hd'. }
  pose proof (uploaded_is_good p d' now' run actor id b n at_ artifact _ i Hsame Hfile Hactor
    (Checksum_new_fixed _ _ Hsum) eq_refl Hid Howner Hshown) as Hgood.
  destruct (handle_good (H9 := read_bucket (ps_storage p)) violation _ _ _ b n Hjson Hgood (Hunused i)) as (db' & Hrun & Himp).
  { simpl. left. }
  destruct (parse_job_runs violation relation_missing now now' run job (job_of actor id) p db' Hok
    (sd_running _ _ Hsame) Hp Htype) as (row0 & Hr0 & Hend); [|exact Hrun|].
  { rewrite Hpl, Hpayload. by apply Hserde. }
  unfold p'. rewrite Hend. destruct Himp as [(act & Hact & Ho & Hl & Htitle & _) (imp & Hshow & Hdone & Href) _ _].
  exists act, imp, (JobQueue.set_completed now' (JobQueue.set_running now row0)). simpl in *.
  rewrite lookup_insert_eq. split_and!; try done. by rewrite Ho.
Qed.
End pipeline.

(** ** Witnesses *)

#[local] Instance sample_lower : UnicodeLower := map ascii_lower.
#[local] Instance sample_lower_law : UnicodeLowerLaw.
Proof. intros v _. unfold unicode_lower, sample_lower. rewrite map_map. apply map_ext, ascii_lower_idem. Qed.
#[local] Instance sample_sha : Sha256 := fun _ => replicate 64 97%N.
#[local] Instance sample_uuid : UuidDisplay := display_N.
#[local] Instance sample_reader : XmlReader := fun _ => sample_events.
#[local] Instance sample_escape : Exports.XmlEscape := fun s => s.
#[local] Instance sample_dates : DateTimeParser := fun _ => None.
#[local] Instance sample_libm : Libm := {| f64_sin := fun x => x; f64_cos := fun x => x; f64_asin := fun x => x |}.
#[local] Instance sample_strings : DebugStrings := fun l => concat l.
#[local] Instance sample_sqlx : SqlxDisplay := fun _ => lit "violation".
#[local] Instance sample_json : CommitJson := {|
  segments_to_value := fun _ => inr JNull; bounding_box_to_value := fun _ => inr JNull;
  coordinates_to_value := fun _ => inr JNull; recorded_statistics_to_value := fun _ => inr JNull |}.
#[local] Instance sample_statistics : StatisticsToJson := fun _ => inr JNull.
#[local] Instance sample_reason : CanonicalReason := fun _ => None.
#[local] Instance sample_time : DateTimeText := fun _ => lit "now".
#[local] Instance sample_url : UploadUrlGenerator ImportsDb := fun key => mret key.
#[local] Instance sample_verifier : UploadVerifier ImportsDb :=
  fun key => mret (mkUploadMetadata 10 (Some (lit "application/gpx+xml"))).

(** A bucket in which every file is the same. *)
#[local] Instance sample_bucket : Bucket unit := {|
  put_object_with_content_type := fun _ _ _ => mret 200%N;
  get_object := fun _ => mret (200%N, bs "<gpx/>");
  delete_object := fun _ => mret 204%N;
  bucket_head_object := fun _ => mret (mkHeadResult None None, 200%N);
  presign_put := fun key _ => mret key;
  presign_get := fun key _ _ => mret key |}.

(** A payload as an array. *)
Definition sample_value (job : ParseGpxJob) : rstr + Json :=
  inr (JArray [JInt (Z.of_N (job_import_id job)); JInt (Z.of_N (job_owner_id job));
               JString (job_object_storage_key job); JInt (Z.of_N (job_correlation_id job))]).
#[local] Instance sample_job_json : JobJson := {|
  parse_job_from_value := fun v =>
    match v with
    | JArray [JInt i; JInt o; JString key; JInt c] => inr (mkParseGpxJob (Z.to_N i) (Z.to_N o) key (Z.to_N c))
    | _ => inl (lit "invalid payload")
    end;
  export_job_from_value := fun _ => inl (lit "invalid payload") |}.

Lemma sample_serde job v : sample_value job = inr v -> parse_job_from_value v = inr job.
Proof. intros [= <-]. simpl. rewrite !N2Z.id. by destruct job. Qed.

(** An import of user 5 that is being uploaded, and the request that completes it. *)
Definition sample_db : ImportsDb :=
  mkImportsDb {[ 1%N := mkImportRow 1 5 None (lit "gpx") (lit "uploading") None None None (lit "key") None None 0 0 ]}
    ∅ (new_quota 100).
Definition sample_queue : JobEnqueuer ImportsDb :=
  PgJobEnqueuer 2 (fun _ => lit "conflict") (fun t => t) (fun t => t) 8 9.
Definition sample_complete : result ApiError Response * ImportsDb :=
  complete_request (lit "conflict") 0 sample_value sample_queue 7 2 (lit "request") 5 1 (replicate 64 65%N) sample_db.

Definition sample_process : Process unit :=
  mkProcess (WorkerRuntime.mkWorker (ib_jobs (snd sample_complete)) [])
    (mkDb {[ 5%N ]} (ib_imports (snd sample_complete)) ∅ ∅ ∅ ∅ ∅ None ∅ ∅) None
    (mkIdentityDb ∅ ∅) tt false.
Definition sample_run : Run := mkRun (mkFreshIds 11 12 13 14 15 16) 17 18 TaskInTime.

Lemma pipeline_url_apart key d : snd (generate_upload_url (S := ImportsDb) key d) = d.
Proof. done. Qed.
Lemma pipeline_verifier_apart key d : snd (verify_upload (S := ImportsDb) key d) = d.
Proof. done. Qed.

Lemma pipeline_db_sound : imports_sound (lit "conflict") 0 sample_db.
Proof.
  split; [intros id i Hi|intros k r Hr; by vm_compute in Hr].
  apply elem_of_map_to_list, (list_elem_of_fmap_2 (fun kv => (kv.1, im_id kv.2))) in Hi.
  match type of Hi with _ ∈ ?l => assert (l = [(1%N, 1%N)]) as He by (vm_compute; reflexivity) end.
  rewrite He in Hi. apply list_elem_of_singleton in Hi. by injection Hi as -> ->.
Qed.

Lemma pipeline_same_database : same_database sample_process (snd sample_complete).
Proof.
  split; try done.
  - apply (bool_decide_unpack _). by vm_compute.
  - assert (ps_worker sample_process = WorkerRuntime.run_events WorkerRuntime.default_config registered_handlers
      WorkerRuntime.initial [WorkerRuntime.EnqueuedOnce 2%Z 8%N 9%N PARSE_GPX_JOB_TYPE
        (JArray [JInt 1; JInt 5; JString (storage_key 5 1); JInt 1]) 1%N]) as -> by (vm_compute; reflexivity).
    apply WorkerTheory.run_events_ok, WorkerTheory.initial_ok.
Qed.

Lemma pipeline_gpx_file : exists n, gpx_file sample_process sample_run 5 1 (bs "<gpx/>") n.
Proof.
  assert (exists r, parse_gpx (bs "<gpx/>") = Ok r) as [r Hr] by (eexists; vm_compute; reflexivity).
  assert (exists n, normalize_gpx 16 r = Ok n) as [n Hn].
  { vm_compute in Hr. injection Hr as <-. eexists. vm_compute. reflexivity. }
  exists n. split; [by vm_compute|by exists r|]. intros j x Hx _ _.
  assert (map_Forall (fun _ x => ir_status x <> lit "completed") (db_imports (ps_db sample_process))) as Hall
    by (apply (bool_decide_unpack _); by vm_compute).
  exact (Hall j x Hx).
Qed.

Lemma pipeline_json_total : json_total.
Proof. intros data. by exists JNull, JNull, JNull, JNull, JNull. Qed.

Lemma pipeline_no_job : no_job PARSE_GPX_JOB_TYPE 1 (ib_jobs sample_db).
Proof. intros k r Hr. by vm_compute in Hr. Qed.

Lemma pipeline_unused i :
  unused_ids (delivery 4 sample_run (job_of 5 1)) (ps_db sample_process)
    (uploaded 2 7 (mkChecksum (sha256_hex (bs "<gpx/>"))) i).
Proof. split; first [apply lookup_empty | intros k r Hr; by vm_compute in Hr]. Qed.

Lemma uploaded_file_becomes_activity_witness :
  exists activity,
    db_activities (ps_db (run_process (lit "conflict") (lit "missing") sample_process [Polls 3; Runs 4 0 sample_run]))
      = {[ 11%N := activity ]} /\ ar_owner_id activity = 5%N.
Proof.
  destruct pipeline_gpx_file as [n Hn].
  assert (exists job, WorkerRuntime.polled WorkerRuntime.default_config (WorkerRuntime.Tick 3)
    (ps_worker sample_process) = Some job /\ JobQueue.job_type job = PARSE_GPX_JOB_TYPE /\
    JobQueue.job_correlation_id job = Some 1%N) as (job & Hp & Ht & Hc)
    by (eexists; split_and!; vm_compute; reflexivity).
  assert (exists response, fst sample_complete = Ok response /\ rs_status response = 200%N) as Hok
    by (eexists; split; vm_compute; reflexivity).
  assert (5%N ∈ db_users (ps_db sample_process)) as Huser by (by apply (bool_decide_unpack _)).
  assert (Checksum_new (replicate 64 65%N) = Ok (mkChecksum (sha256_hex (bs "<gpx/>")))) as Hsum
    by (vm_compute; reflexivity).
  pose proof (uploaded_file_becomes_activity (lit "conflict") (lit "missing") 0 sample_value pipeline_url_apart
    pipeline_verifier_apart sample_serde sample_queue 7 2 (lit "request") 5 1 (replicate 64 65%N) sample_db
    sample_process 3 4 sample_run (bs "<gpx/>") n job pipeline_db_sound (PgJobEnqueuer_lawful 2 _ 8 9)
    pipeline_no_job pipeline_json_total Huser Hn Hsum pipeline_unused) as Hx.
  change (complete_request _ _ _ _ _ _ _ _ _ _ sample_db) with sample_complete in Hx.
  rewrite (surjective_pairing sample_complete) in Hx.
  destruct (Hx Hok pipeline_same_database Hp Ht Hc) as (activity & import & row & Ha & Ho & _).
  exists activity. split; [exact Ha|exact Ho].
Defined.

(** A job is enqueued, polled and run, in vain, polled again and, not at once, timed
    out; the process dies and is started again, and the job is handed out for the last
    time. *)
Definition idle_process : Process unit :=
  mkProcess WorkerRuntime.initial (ps_db sample_process) None (mkIdentityDb ∅ ∅) tt false.
Definition nothing_left : Remains unit := mkRemains (ps_db sample_process) None tt.
Definition idle_history : list (ProcessEvent unit) :=
  [ServerCalls (WorkerRuntime.Enqueued 1%Z 8%N PARSE_GPX_JOB_TYPE JNull); Polls 2; Runs 3 0 sample_run;
   Polls (10 ^ 12)%Z; TimesOut (10 ^ 12 + 1)%Z 0 nothing_left; TimesOut (10 ^ 14)%Z 0 nothing_left;
   Restarts nothing_left; Polls (10 ^ 15)%Z; Stops].

Lemma process_refines_worker_witness :
  WorkerTheory.worker_ok WorkerRuntime.default_config
    (ps_worker (run_process (lit "conflict") (lit "missing") idle_process idle_history)) /\
  calls (lit "conflict") (lit "missing") 8 idle_process idle_history = 2 /\
  (Z.of_nat (calls (lit "conflict") (lit "missing") 8 idle_process idle_history) +
   WorkerTheory.tasks_for 8 (WorkerRuntime.wk_in_flight
     (ps_worker (run_process (lit "conflict") (lit "missing") idle_process idle_history))) <= 3)%Z.
Proof.
  destruct (process_refines_worker (lit "conflict") (lit "missing") idle_process idle_history eq_refl)
    as (_ & Hok & Hc). split; [exact Hok|]. split; [by vm_compute|apply Hc].
Defined.
